(** * The testnet bot: account loader, executors and activity runner

    A shallow embedding of the two program variants of the repository:
    [index.js] (module [Index]) and [universal_testnet_bot.js] (module
    [Universal]).  Both keep the same global variables, so they share one
    [World] record, one event trace and one monad.

    Modelling conventions.
    - The arithmetic on [Math.random()] is that of the doubles
      ([JS.binary64], round to nearest, ties to even).  Amounts are counted
      in millionths of a token, the six decimals kept by [toFixed(6)].
    - The runner's state keeps the two repetition counts as whole numbers
      ([Config]): these are the runs the claims are about.  What the loaders
      and the config forms compute is any JavaScript number, and module
      [Settings] embeds them over [JS.double]: [NaN], the infinities and the
      finite doubles.
    - An exception is its [message] string.
    - Everything the program awaits is answered by the environment
      [Env]: chain replies, faults, the menu items the user selects while the
      task is suspended, the random draws and the clock.
    - The display is a sink: [updateLogs], [updateStatus] and the widgets
      leave no state behind and are dropped.  A log line is kept as its
      level and text, without the time stamp and colour wrapper. *)

From stdpp Require Import base numbers list strings gmap pretty.
From Stdlib Require Import ZArith Lia.

Local Open Scope string_scope.
Local Open Scope Z_scope.

(** ** JavaScript values *)

Module JS.

(** A number of the runner's state: a whole number, or [NaN]. *)
Inductive number := NaN | Num (z : Z).

(** A field of a parsed JSON document, or [undefined] when absent.
    [JObject] is a plain object; arrays are not modelled. *)
Inductive value :=
| JUndefined
| JNull
| JBool (b : bool)
| JNumber (z : Z)
| JString (s : string)
| JObject.

Section Coercions.
(** [StringToNumber] of the language standard, left abstract. *)
Variable StringToNumber : string → number.

(** [Number(v)] *)
Definition Number (v : value) : number :=
  match v with
  | JUndefined => NaN
  | JNull => Num 0
  | JBool true => Num 1
  | JBool false => Num 0
  | JNumber z => Num z
  | JString s => StringToNumber s
  | JObject => NaN
  end.
End Coercions.

(** [x || 1] on a number: [NaN] and [0] are falsy. *)
Definition or_one (x : number) : Z :=
  match x with
  | NaN => 1
  | Num z => if z =? 0 then 1 else z
  end.

(** [s || null] on a possibly undefined string: [undefined] and the empty
    string are falsy. *)
Definition or_null (s : option string) : option string :=
  match s with
  | Some t => if String.eqb t "" then None else Some t
  | None => None
  end.

(** [a % b] on non-negative integers; [None] is [NaN]. *)
Definition rem (a b : nat) : option nat :=
  if (b =? 0)%nat then None else Some (a mod b)%nat.

(** [arr[k]] where the index may be [NaN]. *)
Definition index {A} (arr : list A) (k : option nat) : option A :=
  match k with
  | Some n => arr !! n
  | None => None
  end.

(** [arr.slice(-n)]: the last [n] elements; [slice(-0)] is [slice(0)]. *)
Definition slice_last {A} (n : nat) (arr : list A) : list A :=
  if (n =? 0)%nat then arr else drop (length arr - n) arr.

(** [s.slice(0, n)] and [s.slice(-n)] on strings, for [n > 0]. *)
Definition str_prefix (n : nat) (s : string) : string := String.substring 0 n s.
Definition str_suffix (n : nat) (s : string) : string :=
  String.substring (String.length s - n) n s.

(** [s.split("\n")] *)
Fixpoint split_lines_go (cur : string) (s : string) : list string :=
  match s with
  | EmptyString => [String.rev cur]
  | String c rest =>
      if Ascii.eqb c (Ascii.ascii_of_nat 10)
      then String.rev cur :: split_lines_go EmptyString rest
      else split_lines_go (String c cur) rest
  end.
Definition split_lines (s : string) : list string :=
  split_lines_go EmptyString s.

(** *** Doubles *)

(** A finite double, written [mant * 2 ^ expo].  The doubles are the pairs
    with [|mant| < 2^53] and [-1074 <= expo], below the overflow threshold,
    which no number of this program comes near. *)
Record binary64 := Bin { mant : Z; expo : Z }.

(** [m / 2^k] rounded to the nearest integer, to the even one on a tie. *)
Definition shift_nearest_even (m k : Z) : Z :=
  let q := Z.shiftr m k in
  let r := Z.land m (Z.ones k) in
  let h := Z.shiftl 1 (k - 1) in
  if r <? h then q else if h <? r then q + 1 else if Z.even q then q else q + 1.

(** The double nearest to [m * 2^e], ties to even: the result of every
    arithmetic operation on doubles.  [k] is the number of low bits that do
    not fit into 53 bits, or that lie below the smallest exponent. *)
Definition round53 (m e : Z) : binary64 :=
  let k := Z.max (Z.log2 (Z.abs m) + 1 - 53) (-1074 - e) in
  if k <=? 0 then Bin m e
  else Bin (Z.sgn m * shift_nearest_even (Z.abs m) k) (e + k).

(** [a * b], [a + b] and [a - b] *)
Definition mul (a b : binary64) : binary64 :=
  round53 (mant a * mant b) (expo a + expo b).
Definition add (a b : binary64) : binary64 :=
  let e := Z.min (expo a) (expo b) in
  round53 (mant a * 2 ^ (expo a - e) + mant b * 2 ^ (expo b - e)) e.
Definition sub (a b : binary64) : binary64 :=
  add a (Bin (- mant b) (expo b)).

(** A whole number as a double; exact below [2^53]. *)
Definition of_Z (k : Z) : binary64 := round53 k 0.

(** [Math.floor(a)] *)
Definition floor (a : binary64) : Z :=
  if 0 <=? expo a then mant a * 2 ^ expo a else Z.shiftr (mant a) (- expo a).

(** [a.toFixed(6)] for [0 <= a < 10^21], in millionths: the integer [n] for
    which [n / 10^6 - a] is closest to zero, the larger one if there are
    two. *)
Definition toFixed6 (a : binary64) : Z :=
  if 0 <=? expo a then mant a * 2 ^ expo a * 10 ^ 6
  else Z.shiftr (2 * mant a * 10 ^ 6 + 2 ^ (- expo a)) (1 - expo a).

(** The decimal literals of the two files, each the double nearest to the
    decimal written (lemma [literals_nearest]). *)
Definition d0_005 : binary64 := Bin 5764607523034235 (-60).
Definition d0_01 : binary64 := Bin 5764607523034235 (-59).
Definition d0_02 : binary64 := Bin 5764607523034235 (-58).
Definition d0_03 : binary64 := Bin 8646911284551352 (-58).
Definition d0_05 : binary64 := Bin 7205759403792794 (-57).

(** A value of [Math.random()]: a double of [[0, 1)].  These are the
    numbers [m * 2^(-53-s)] with [0 <= m < 2^53] and [0 <= s <= 1021]; the
    record is read modulo these bounds, so that every record is a draw. *)
Record unit_draw := Draw { bits : Z; depth : nat }.
Definition sample (r : unit_draw) : binary64 :=
  Bin (Z.land (bits r) (Z.ones 53)) (- 53 - Z.of_nat (Nat.min (depth r) 1021)).

(** [Math.floor(r * k)] for a whole number [k] *)
Definition floor_scale (r : unit_draw) (k : Z) : Z :=
  floor (mul (sample r) (of_Z k)).

(** [(r * span + lo).toFixed(6)], in millionths *)
Definition scale_fixed6 (r : unit_draw) (span lo : binary64) : Z :=
  toFixed6 (add (mul (sample r) span) lo).

(** *** Numbers as JavaScript has them *)

(** A JavaScript number: [NaN], an infinity or a finite double. *)
Inductive double := DNaN | DInfinity (negative : bool) | DFinite (x : binary64).

(** A whole number as a JavaScript number. *)
Definition whole (z : Z) : double := DFinite (Bin z 0).

(** [x || 1]: [NaN] and the zeros are falsy. *)
Definition or1 (x : double) : double :=
  match x with
  | DNaN => whole 1
  | DInfinity _ => x
  | DFinite a => if mant a =? 0 then whole 1 else x
  end.

(** A value found in a parsed JSON document, or [undefined] for a
    property that is absent.  An array is kept as the text that
    [toString] gives for it (its elements joined by commas), which is all
    that [Number] looks at. *)
Inductive jsvalue :=
| VUndefined
| VNull
| VBool (b : bool)
| VNumber (x : double)
| VString (s : string)
| VArray (joined : string)
| VObject.

Section ToNumber.
(** [StringToNumber] of the language standard, left abstract: it may give
    any number, [NaN] included. *)
Variable StringToNumber : string → double.

(** [Number(v)] *)
Definition ToNumber (v : jsvalue) : double :=
  match v with
  | VUndefined => DNaN
  | VNull => whole 0
  | VBool true => whole 1
  | VBool false => whole 0
  | VNumber x => x
  | VString s => StringToNumber s
  | VArray joined => StringToNumber joined
  | VObject => DNaN
  end.
End ToNumber.

(** What [JSON.stringify] writes for a number property, as the value that
    [JSON.parse] reads back: a finite number is written so that it reads
    back as itself, [NaN] and the infinities are written as [null]. *)
Definition json_of_number (x : double) : jsvalue :=
  match x with
  | DFinite _ => VNumber x
  | _ => VNull
  end.

(** The text [toFixed(6)] returns for a non-negative amount in
    millionths. *)
Definition pad6 (s : string) : string :=
  String.concat "" (replicate (6 - String.length s) "0") +:+ s.
Definition show_fixed6 (micro : Z) : string :=
  pretty (micro / 1000000) +:+ "." +:+ pad6 (pretty (micro mod 1000000)).

(** [ethers.parseUnits(text, 18)] of such a text: millionths to
    base units. *)
Definition parseUnits18 (micro : Z) : Z := micro * 10 ^ 12.

(** [ethers.MaxUint256] *)
Definition MaxUint256 : Z := 2 ^ 256 - 1.

End JS.

(** ** Constants of the CONFIG block (the same names in both files) *)

Definition BRIDGE_ROUTER_index : string := "0x0000000000000000000000000000000000000b1d".
Definition SWAP_ROUTER_index : string := "0x0000000000000000000000000000000000005wap".
Definition TOKEN_A_index : string := "0x0000000000000000000000000000000000000001".
Definition TOKEN_B_index : string := "0x0000000000000000000000000000000000000002".
Definition BRIDGE_ROUTER_universal : string := "0xBridgeRouterAddress000000000000000000".
Definition SWAP_ROUTER_universal : string := "0xSwapRouterAddress0000000000000000000000".
Definition TOKEN_A_universal : string := "0xTokenAAddress000000000000000000000000".
Definition TOKEN_B_universal : string := "0xTokenBAddress000000000000000000000000".

(** ** Global state and environment *)

Inductive LogType := info | error | success | warn | debug | wait.

Record LogEntry := Log { log_type : LogType; log_text : string }.

Record Config := mkConfig { bridgeRepetitions : Z; swapRepetitions : Z }.

(** config.json: absent, not parsable, or a parsed document. *)
Inductive Json :=
| JsonObject (fields : gmap string JS.value)
| JsonNull
| JsonScalar.
Inductive ConfigFile := Absent | Garbage | Parsed (c : Json).

(** Menu items that can be selected while a run is suspended.  Config
    edits, wallet refresh and exit during a run are not modelled: keys,
    proxies and repetitions are fixed for the duration of a run. *)
Inductive MenuAction := StartActivity | StopActivity | ClearLogs.

Inductive TxKind := Approve | Deposit | Multicall (deadline : Z).

(** The trace is ghost state, in the order of time: an executor was
    entered with its three arguments, a transaction was handed to the chain
    client, a timer was started, a menu action was handled. *)
Inductive Event :=
| CallBridge (pk : option string) (proxyUrl : option string) (accountIndex : nat)
| CallSwap (pk : option string) (proxyUrl : option string) (accountIndex : nat)
| Send (kind : TxKind) (sender : string)
    (amount gasLimit maxFeePerGas maxPriorityFeePerGas nonce : Z)
| Slept (ms : Z)
| Clicked (a : MenuAction).

(** What a chain call resolves to: [p_num] is the allowance, the pending
    nonce or [maxFeePerGas]; [p_tip] is [maxPriorityFeePerGas]; [p_hash] is
    the transaction hash. *)
Record Payload := mkPayload { p_num : Z; p_tip : Z; p_hash : string }.
Inductive Reply := Rejected (message : string) | Resolved (p : Payload).

(** The answer of the outside world at one suspension point.  The timers
    of the source never reject; [r_fault] stands for an unexpected fault
    inside the runner's loop and is the only way into its top-level
    [catch]. *)
Record Resp := mkResp {
  r_ui : list MenuAction;      (* menu items selected while suspended *)
  r_reply : Reply;             (* outcome, when a chain call is awaited *)
  r_fault : option string      (* fault raised on resumption of a timer *)
}.

Record Env := mkEnv {
  replies : nat → Resp;
  randoms : nat → JS.unit_draw;
  clock : nat → Z
}.

Record World := mkWorld {
  privateKeys : list string;
  proxies : list string;
  dailyActivityConfig : Config;
  transactionLogs : list LogEntry;
  activityRunning : bool;
  shouldStop : bool;
  configFile : ConfigFile;
  env : Env;
  tick : nat;                  (* suspension points passed so far *)
  draws : nat;                 (* calls of Math.random() so far *)
  trace : list Event
}.

Definition set_privateKeys (v : list string) (w : World) : World :=
  mkWorld v (proxies w) (dailyActivityConfig w) (transactionLogs w)
    (activityRunning w) (shouldStop w) (configFile w) (env w) (tick w) (draws w) (trace w).
Definition set_proxies (v : list string) (w : World) : World :=
  mkWorld (privateKeys w) v (dailyActivityConfig w) (transactionLogs w)
    (activityRunning w) (shouldStop w) (configFile w) (env w) (tick w) (draws w) (trace w).
Definition set_config (v : Config) (w : World) : World :=
  mkWorld (privateKeys w) (proxies w) v (transactionLogs w)
    (activityRunning w) (shouldStop w) (configFile w) (env w) (tick w) (draws w) (trace w).
Definition set_logs (v : list LogEntry) (w : World) : World :=
  mkWorld (privateKeys w) (proxies w) (dailyActivityConfig w) v
    (activityRunning w) (shouldStop w) (configFile w) (env w) (tick w) (draws w) (trace w).
Definition set_activityRunning (v : bool) (w : World) : World :=
  mkWorld (privateKeys w) (proxies w) (dailyActivityConfig w) (transactionLogs w)
    v (shouldStop w) (configFile w) (env w) (tick w) (draws w) (trace w).
Definition set_shouldStop (v : bool) (w : World) : World :=
  mkWorld (privateKeys w) (proxies w) (dailyActivityConfig w) (transactionLogs w)
    (activityRunning w) v (configFile w) (env w) (tick w) (draws w) (trace w).
Definition set_configFile (v : ConfigFile) (w : World) : World :=
  mkWorld (privateKeys w) (proxies w) (dailyActivityConfig w) (transactionLogs w)
    (activityRunning w) (shouldStop w) v (env w) (tick w) (draws w) (trace w).
Definition next_tick (w : World) : World :=
  mkWorld (privateKeys w) (proxies w) (dailyActivityConfig w) (transactionLogs w)
    (activityRunning w) (shouldStop w) (configFile w) (env w) (S (tick w)) (draws w) (trace w).
Definition next_draw (w : World) : World :=
  mkWorld (privateKeys w) (proxies w) (dailyActivityConfig w) (transactionLogs w)
    (activityRunning w) (shouldStop w) (configFile w) (env w) (tick w) (S (draws w)) (trace w).
Definition record (e : Event) (w : World) : World :=
  mkWorld (privateKeys w) (proxies w) (dailyActivityConfig w) (transactionLogs w)
    (activityRunning w) (shouldStop w) (configFile w) (env w) (tick w) (draws w) (trace w ++ [e]).

(** ** The monad of asynchronous code: state, exceptions and loop fuel *)

Inductive Outcome (A : Type) :=
| Return (a : A) (w : World)
| Throw (message : string) (w : World)
| OutOfFuel.
Arguments Return {A} a w.
Arguments Throw {A} message w.
Arguments OutOfFuel {A}.

Definition M (A : Type) : Type := World → Outcome A.

Definition ret {A} (a : A) : M A := λ w, Return a w.
Definition bind {A B} (m : M A) (k : A → M B) : M B :=
  λ w, match m w with
       | Return a w' => k a w'
       | Throw e w' => Throw e w'
       | OutOfFuel => OutOfFuel
       end.
Definition throw {A} (e : string) : M A := λ w, Throw e w.

Global Instance M_ret : MRet M := @ret.
Global Instance M_bind : MBind M := λ A B k m, bind m k.

(** [try { body } catch (e) { handler }] *)
Definition try_catch {A} (body : M A) (handler : string → M A) : M A :=
  λ w, match body w with
       | Return a w' => Return a w'
       | Throw e w' => handler e w'
       | OutOfFuel => OutOfFuel
       end.

(** [try { body } finally { fin }] *)
Definition try_finally {A} (body : M A) (fin : M unit) : M A :=
  λ w, match body w with
       | Return a w' =>
           match fin w' with
           | Return _ w'' => Return a w''
           | Throw e w'' => Throw e w''
           | OutOfFuel => OutOfFuel
           end
       | Throw e w' =>
           match fin w' with
           | Return _ w'' => Throw e w''
           | Throw e' w'' => Throw e' w''
           | OutOfFuel => OutOfFuel
           end
       | OutOfFuel => OutOfFuel
       end.

Definition get : M World := λ w, Return w w.
Definition modify (f : World → World) : M unit := λ w, Return tt (f w).
Definition emit (e : Event) : M unit := modify (record e).
Definition when (c : bool) (m : M unit) : M unit := if c then m else ret tt.

(** [for (let i = start; cond(i); i++) body(i)].  The condition is read from
    the state before every iteration, as in the source; [fuel] bounds the
    number of iterations, and a loop that would need more ends in
    [OutOfFuel]. *)
Fixpoint for_loop (fuel : nat) (cond : nat → World → bool) (body : nat → M unit)
    (i : nat) : M unit :=
  λ w, if cond i w
       then match fuel with
            | O => OutOfFuel
            | S fuel' => bind (body i) (λ _, for_loop fuel' cond body (S i)) w
            end
       else Return tt w.

(** The same loop around a local variable that the body updates, such as
    an array it pushes to. *)
Fixpoint for_acc {A} (fuel : nat) (cond : nat → World → bool) (body : nat → A → M A)
    (i : nat) (acc : A) : M A :=
  λ w, if cond i w
       then match fuel with
            | O => OutOfFuel
            | S fuel' => bind (body i acc) (λ acc', for_acc fuel' cond body (S i) acc') w
            end
       else Return acc w.

(** [Math.random()] *)
Definition random : M JS.unit_draw :=
  λ w, Return (randoms (env w) (draws w)) (next_draw w).

(** [Date.now()] *)
Definition now : M Z := λ w, Return (clock (env w) (tick w)) w.

(** Reading a text file: [fs.existsSync] false, [fs.readFileSync] throwing,
    or the content. *)
Inductive FileRead := NoFile | ReadError (message : string) | Content (data : string).

(** [/^(0x)?[0-9a-fA-F]{64}$/] *)
Definition is_hex_digit (c : Ascii.ascii) : bool :=
  let n := Ascii.nat_of_ascii c in
  ((48 <=? n) && (n <=? 57) || (65 <=? n) && (n <=? 70) || (97 <=? n) && (n <=? 102))%nat.
Definition all_hex (s : string) : bool :=
  forallb is_hex_digit (String.list_ascii_of_string s).
Definition is_hex64 (s : string) : bool :=
  (String.length s =? 64)%nat && all_hex s.
Definition matches_key_pattern (k : string) : bool :=
  is_hex64 k || (String.prefix "0x" k && is_hex64 (String.substring 2 (String.length k - 2) k)).

(** [h ? `${h.slice(0,6)}...${h.slice(-4)}` : "N/A"] (the same in both files) *)
Definition shortHash (h : string) : string :=
  if String.eqb h "" then "N/A"
  else JS.str_prefix 6 h +:+ "..." +:+ JS.str_suffix 4 h.

(** ** index.js *)

Module Index.

(** [trimLogs(limit = 1000)], on the value of [transactionLogs] *)
Definition trimLogs (limit : nat) (logs : list LogEntry) : list LogEntry :=
  if (limit <? length logs)%nat then JS.slice_last limit logs else logs.

Definition addLog (str : string) (type : LogType) (w : World) : World :=
  set_logs (trimLogs 1000 (transactionLogs w ++ [Log type str])) w.

Definition log (str : string) (type : LogType) : M unit := modify (addLog str type).

Section Files.
(** [String.prototype.trim], left abstract. *)
Variable trim : string → string.

Definition readLines (file : string) (f : FileRead) (w : World) : list string * World :=
  match f with
  | NoFile => ([], w)
  | Content data =>
      (filter (λ l, (0 < String.length l)%nat) (trim <$> JS.split_lines data), w)
  | ReadError e => ([], addLog ("readLines " +:+ file +:+ " error: " +:+ e) error w)
  end.

Definition loadPrivateKeys (f : FileRead) (w : World) : World :=
  let '(lines, w1) := readLines "pk.txt" f w in
  let w2 := set_privateKeys (List.filter matches_key_pattern lines) w1 in
  if (length (privateKeys w2) =? 0)%nat
  then addLog "No private keys found (pk.txt). Add at least one 0x... private key." warn w2
  else addLog ("Loaded " +:+ pretty (length (privateKeys w2)) +:+ " private key(s) from pk.txt")
         success w2.

Definition loadProxies (f : FileRead) (w : World) : World :=
  let '(lines, w1) := readLines "proxy.txt" f w in
  let w2 := set_proxies lines w1 in
  if (0 <? length (proxies w2))%nat
  then addLog ("Loaded " +:+ pretty (length (proxies w2)) +:+ " proxies from proxy.txt") success w2
  else addLog "No proxies loaded (proxy.txt missing or empty). Running without proxies." info w2.
End Files.

(** [JSON.stringify(dailyActivityConfig, null, 2)] as the document that
    [JSON.parse] gives back for it. *)
Definition stringify (c : Config) : Json :=
  JsonObject (<["bridgeRepetitions" := JS.JNumber (bridgeRepetitions c)]>
             (<["swapRepetitions" := JS.JNumber (swapRepetitions c)]> ∅)).

(** [c.name] on the parsed document; [None] is the TypeError on [null]. *)
Definition property (c : Json) (name : string) : option JS.value :=
  match c with
  | JsonObject fields => Some (default JS.JUndefined (fields !! name))
  | JsonNull => None
  | JsonScalar => Some JS.JUndefined
  end.

Section Config.
Variable StringToNumber : string → JS.number.

Definition loadConfig (w : World) : World :=
  match configFile w with
  | Parsed c =>
      match property c "bridgeRepetitions" with
      | None => addLog "Failed to load config.json: TypeError" error w
      | Some b =>
          let w1 := set_config
                      (mkConfig (JS.or_one (JS.Number StringToNumber b))
                                (swapRepetitions (dailyActivityConfig w))) w in
          match property c "swapRepetitions" with
          | None => addLog "Failed to load config.json: TypeError" error w1
          | Some s =>
              let w2 := set_config
                          (mkConfig (bridgeRepetitions (dailyActivityConfig w1))
                                    (JS.or_one (JS.Number StringToNumber s))) w1 in
              addLog "Loaded config.json" success w2
          end
      end
  | Garbage => addLog "Failed to load config.json: SyntaxError" error w
  | Absent =>
      addLog "Created default config.json" info
        (set_configFile (Parsed (stringify (dailyActivityConfig w))) w)
  end.

Definition saveConfig (w : World) : World :=
  addLog "Saved config.json" success
    (set_configFile (Parsed (stringify (dailyActivityConfig w))) w).

(** The [press] handler of the Save button of [showConfigForm]. *)
Definition saveButtonPress (bridgeInput swapInput : string) (w : World) : World :=
  let bridge := JS.or_one (StringToNumber bridgeInput) in
  let swap := JS.or_one (StringToNumber swapInput) in
  let w1 := saveConfig (set_config (mkConfig bridge swap) w) in
  addLog ("Config updated: bridge=" +:+ pretty bridge +:+ ", swap=" +:+ pretty swap) success w1.
End Config.

(** [handleMenuAction(label)] for the items of [MenuAction], except that
    selecting Start while idle starts the runner: see [clickStart]. *)
Definition handleMenuAction (label : MenuAction) (w : World) : World :=
  let w := record (Clicked label) w in
  match label with
  | StartActivity =>
      if activityRunning w then addLog "Activity already running" warn w else w
  | StopActivity =>
      if negb (activityRunning w) then addLog "Activity not running" info w
      else addLog "Stop requested. Waiting for current operations to finish..." wait
             (set_shouldStop true w)
  | ClearLogs => addLog "Logs cleared" success (set_logs [] w)
  end.

(** The task is suspended: the menu items selected meanwhile are handled,
    then the task resumes with the environment's answer. *)
Definition resume (w : World) : Resp * World :=
  let r := replies (env w) (tick w) in
  (r, foldl (λ w a, handleMenuAction a w) (next_tick w) (r_ui r)).

(** [await] of a chain call *)
Definition await_call : M Payload :=
  λ w, let '(r, w') := resume w in
       match r_reply r with
       | Rejected e => Throw e w'
       | Resolved p => Return p w'
       end.

(** [await] of a timer *)
Definition await_timer : M unit :=
  λ w, let '(r, w') := resume w in
       match r_fault r with
       | Some e => Throw e w'
       | None => Return tt w'
       end.

Definition sleep (ms : Z) : M unit := emit (Slept ms) ;; await_timer.

Definition sleepRandom (minMs maxMs : Z) : M unit :=
  r ← random;
  sleep (JS.floor_scale r (maxMs - minMs + 1) + minMs).

Definition acct (accountIndex : nat) : string :=
  "Acct " +:+ pretty (accountIndex + 1)%nat.

Section Chain.
(** The address of [new ethers.Wallet(pk, provider)]; [None] when the
    constructor throws. *)
Variable walletAddress : string → option string.

Definition newWallet (pk : option string) : M string :=
  match pk ≫= walletAddress with
  | Some address => ret address
  | None => throw "invalid private key"
  end.

Definition checkAndApproveIfNeeded (signer tokenAddr spender : string) (amountWei : Z)
    (accountIndex : nat) (note : string) : M bool :=
  try_catch
    (allowance ← await_call;
     if p_num allowance >=? amountWei
     then log (acct accountIndex +:+ ": allowance already OK for " +:+ note) debug;;
          ret true
     else
       log (acct accountIndex +:+ ": approving " +:+ note +:+ "...") info;;
       nonce ← await_call;
       feeData ← await_call;
       emit (Send Approve signer JS.MaxUint256 200000
               (p_num feeData) (p_tip feeData) (p_num nonce));;
       tx ← await_call;
       log (acct accountIndex +:+ ": approval tx " +:+ shortHash (p_hash tx) +:+ " sent") wait;;
       _ ← await_call;
       log (acct accountIndex +:+ ": approval mined") success;;
       ret true)
    (λ e, log (acct accountIndex +:+ ": approve failed: " +:+ e) error;;
          ret false).

(** [(Math.random() * (0.03 - 0.01) + 0.01).toFixed(6)], in millionths *)
Definition bridgeAmount (r : JS.unit_draw) : Z :=
  JS.scale_fixed6 r (JS.sub JS.d0_03 JS.d0_01) JS.d0_01.

(** [(Math.random() * (0.02 - 0.005) + 0.005).toFixed(6)], in millionths *)
Definition swapAmount (r : JS.unit_draw) : Z :=
  JS.scale_fixed6 r (JS.sub JS.d0_02 JS.d0_005) JS.d0_005.

Definition performBridgeSimple (pk proxyUrl : option string) (accountIndex : nat) : M bool :=
  emit (CallBridge pk proxyUrl accountIndex);;
  if String.eqb BRIDGE_ROUTER_index ""
  then log "Bridge router not configured" error;; ret false
  else
    try_catch
      (signer ← newWallet pk;
       r ← random;
       let amount := bridgeAmount r in
       let amountWei := JS.parseUnits18 amount in
       _ ← checkAndApproveIfNeeded signer TOKEN_A_index BRIDGE_ROUTER_index amountWei
             accountIndex "bridge token";
       log (acct accountIndex +:+ ": bridging " +:+ JS.show_fixed6 amount
            +:+ " tokenA -> router") info;;
       nonce ← await_call;
       feeData ← await_call;
       emit (Send Deposit signer amountWei 800000
               (p_num feeData) (p_tip feeData) (p_num nonce));;
       tx ← await_call;
       log (acct accountIndex +:+ ": bridge tx " +:+ shortHash (p_hash tx) +:+ " sent") wait;;
       _ ← await_call;
       log (acct accountIndex +:+ ": bridge completed") success;;
       ret true)
      (λ e, log (acct accountIndex +:+ ": bridge error: " +:+ e) error;;
            ret false).

Definition performSwapSimple (pk proxyUrl : option string) (accountIndex : nat) : M bool :=
  emit (CallSwap pk proxyUrl accountIndex);;
  if String.eqb SWAP_ROUTER_index ""
  then log "Swap router not configured" error;; ret false
  else
    try_catch
      (signer ← newWallet pk;
       r ← random;
       let amountIn := swapAmount r in
       let amountInWei := JS.parseUnits18 amountIn in
       t ← now;
       let deadline := t / 1000 + 1800 in
       log (acct accountIndex +:+ ": swapping " +:+ JS.show_fixed6 amountIn
            +:+ " (template)") info;;
       nonce ← await_call;
       feeData ← await_call;
       emit (Send (Multicall deadline) signer amountInWei 500000
               (p_num feeData) (p_tip feeData) (p_num nonce));;
       tx ← await_call;
       log (acct accountIndex +:+ ": swap tx " +:+ shortHash (p_hash tx) +:+ " sent") wait;;
       _ ← await_call;
       log (acct accountIndex +:+ ": swap completed") success;;
       ret true)
      (λ e, log (acct accountIndex +:+ ": swap error: " +:+ e) error;;
            ret false).

(** [proxies[i % Math.max(1, proxies.length)] || null] *)
Definition proxyFor (proxies : list string) (i : nat) : option string :=
  JS.or_null (JS.index proxies (JS.rem i (Nat.max 1 (length proxies)))).

(** [dailyActivityConfig.bridgeRepetitions || 1] *)
Definition bridgeCount (w : World) : Z :=
  JS.or_one (JS.Num (bridgeRepetitions (dailyActivityConfig w))).
Definition swapCount (w : World) : Z :=
  JS.or_one (JS.Num (swapRepetitions (dailyActivityConfig w))).

(** The body of the [for (let i ...)] loop over the accounts. *)
Definition processAccount (i : nat) : M unit :=
  w ← get;
  log ("Processing account " +:+ pretty (i + 1)%nat +:+ "/"
       +:+ pretty (length (privateKeys w))) info;;
  let pk := privateKeys w !! i in
  let proxyUrl := proxyFor (proxies w) i in
  for_loop (Z.to_nat (bridgeCount w))
    (λ b w, (Z.of_nat b <? bridgeCount w) && negb (shouldStop w))
    (λ b, _ ← performBridgeSimple pk proxyUrl i;
          w ← get;
          when (Z.of_nat b <? bridgeRepetitions (dailyActivityConfig w) - 1)
            (sleepRandom 8000 20000))
    0%nat;;
  sleepRandom 7000 15000;;
  w ← get;
  for_loop (Z.to_nat (swapCount w))
    (λ s w, (Z.of_nat s <? swapCount w) && negb (shouldStop w))
    (λ s, _ ← performSwapSimple pk proxyUrl i;
          w ← get;
          when (Z.of_nat s <? swapRepetitions (dailyActivityConfig w) - 1)
            (sleepRandom 8000 20000))
    0%nat;;
  w ← get;
  when (Z.of_nat i <? Z.of_nat (length (privateKeys w)) - 1)
    (log "Waiting 30s before next account..." wait;;
     sleep 30000).

Definition runDailyActivityLoop : M unit :=
  w ← get;
  if (length (privateKeys w) =? 0)%nat
  then log "No private keys loaded. Add keys to pk.txt" error
  else if activityRunning w
  then log "Activity already running" warn
  else
    modify (set_activityRunning true);;
    modify (set_shouldStop false);;
    log "Starting activity loop" success;;
    try_finally
      (try_catch
         (for_loop (length (privateKeys w))
            (λ i w, (i <? length (privateKeys w))%nat && negb (shouldStop w))
            processAccount 0%nat;;
          log "Activity loop finished for all accounts" success)
         (λ e, log ("Runner unexpected error: " +:+ e) error))
      (modify (set_activityRunning false);;
       modify (set_shouldStop false)).

(** [handleMenuAction("Start Activity")], in full. *)
Definition clickStart : M unit :=
  modify (record (Clicked StartActivity));;
  w ← get;
  if activityRunning w then log "Activity already running" warn
  else try_catch runDailyActivityLoop
         (λ e, log ("Runner crashed: " +:+ e) error).
End Chain.

Section Wallets.
Variable walletAddress : string → option string.
(** [Number(ethers.formatUnits(bal, 18)).toFixed(4)], left abstract. *)
Variable formatBalance : Z → string.
Variable trim : string → string.
Variable StringToNumber : string → JS.number.

(** [await providerA.getBalance(address).catch(() => 0n)] *)
Definition balanceOrZero : M Z :=
  try_catch (p ← await_call; ret (p_num p)) (λ _, ret 0).

(** [refreshWalletList()]; the value is the list given to
    [walletBox.setItems]. *)
Definition refreshWalletList : M (list string) :=
  w ← get;
  items ← for_acc (length (privateKeys w))
             (λ i w, (i <? length (privateKeys w))%nat)
             (λ i items,
                try_catch
                  (w ← get;
                   address ← newWallet walletAddress (privateKeys w !! i);
                   bal ← balanceOrZero;
                   ret (items ++ [pretty (i + 1)%nat +:+ ". " +:+ address +:+ " - "
                                  +:+ formatBalance bal])%list)
                  (λ e, ret (items ++ [pretty (i + 1)%nat +:+ ". ERROR - " +:+ e])%list))
             0%nat [];
  ret (if (0 <? length items)%nat then items else ["No wallets loaded"]).

(** The branch of [handleMenuAction] for "Refresh Wallets". *)
Definition refreshWallets (pkFile proxyFile : FileRead) : M (list string) :=
  modify (loadPrivateKeys trim pkFile);;
  modify (loadProxies trim proxyFile);;
  items ← refreshWalletList;
  log "Refreshed environment" success;;
  ret items.

(** [bootstrap()], and the [catch] around its call. *)
Definition bootstrap (pkFile proxyFile : FileRead) : M (list string) :=
  log "Booting universal_testnet_bot (mouse-enabled)..." info;;
  modify (loadPrivateKeys trim pkFile);;
  modify (loadProxies trim proxyFile);;
  modify (loadConfig StringToNumber);;
  refreshWalletList.

Definition startup (pkFile proxyFile : FileRead) : M (list string) :=
  try_catch (bootstrap pkFile proxyFile)
    (λ e, log ("Bootstrap failed: " +:+ e) error;; ret []).
End Wallets.

End Index.

(** ** universal_testnet_bot.js *)

Module Universal.

Definition addLog (message : string) (type : LogType) (w : World) : World :=
  set_logs (transactionLogs w ++ [Log type message]) w.

Definition log (message : string) (type : LogType) : M unit := modify (addLog message type).

Section Files.
Variable trim : string → string.
Variable StringToNumber : string → JS.number.

Definition readFileLines (path : string) (f : FileRead) (w : World) : list string * World :=
  match f with
  | NoFile => ([], w)
  | Content data =>
      (filter (λ l, (0 < String.length l)%nat) (trim <$> JS.split_lines data), w)
  | ReadError e => ([], addLog ("Failed read " +:+ path +:+ ": " +:+ e) error w)
  end.

Definition loadEnvironment (pk proxy : FileRead) (w : World) : World :=
  let '(keys, w) := readFileLines "pk.txt" pk w in
  let w := set_privateKeys (List.filter (λ k, negb (String.eqb k "")) keys) w in
  let w := if (length (privateKeys w) =? 0)%nat
           then addLog "No private keys found in pk.txt" error w
           else addLog ("Loaded " +:+ pretty (length (privateKeys w)) +:+ " private keys")
                  success w in
  let '(lines, w) := readFileLines "proxy.txt" proxy w in
  let w := set_proxies lines w in
  let w := if (0 <? length (proxies w))%nat
           then addLog ("Loaded " +:+ pretty (length (proxies w)) +:+ " proxies") success w
           else addLog "No proxies loaded (proxy.txt missing or empty)" info w in
  match configFile w with
  | Parsed c =>
      match Index.property c "bridgeRepetitions" with
      | None => addLog "Invalid config.json, using defaults" error w
      | Some b =>
          let w1 := set_config
                      (mkConfig (JS.or_one (JS.Number StringToNumber b))
                                (swapRepetitions (dailyActivityConfig w))) w in
          match Index.property c "swapRepetitions" with
          | None => addLog "Invalid config.json, using defaults" error w1
          | Some s =>
              let w2 := set_config
                          (mkConfig (bridgeRepetitions (dailyActivityConfig w1))
                                    (JS.or_one (JS.Number StringToNumber s))) w1 in
              addLog "Loaded config.json" success w2
          end
      end
  | Garbage => addLog "Invalid config.json, using defaults" error w
  | Absent =>
      addLog "Created default config.json" info
        (set_configFile (Parsed (Index.stringify (dailyActivityConfig w))) w)
  end.

(** The [submit] handler of the form of [promptSetConfig]. *)
Definition formSubmit (bridge swap : JS.value) (w : World) : World :=
  let w1 := set_config (mkConfig (JS.or_one (JS.Number StringToNumber bridge))
                                 (swapRepetitions (dailyActivityConfig w))) w in
  let w2 := set_config (mkConfig (bridgeRepetitions (dailyActivityConfig w1))
                                 (JS.or_one (JS.Number StringToNumber swap))) w1 in
  addLog "Config saved" success
    (set_configFile (Parsed (Index.stringify (dailyActivityConfig w2))) w2).
End Files.

(** The [select] handler of the menu for the items of [MenuAction],
    except that selecting Start while idle starts the runner: see
    [clickStart]. *)
Definition onMenuSelect (text : MenuAction) (w : World) : World :=
  let w := record (Clicked text) w in
  match text with
  | StartActivity =>
      if activityRunning w then addLog "Activity already running" warn w else w
  | StopActivity =>
      if negb (activityRunning w) then addLog "Activity not running" info w
      else addLog "Stop request issued, waiting for operations to finish..." wait
             (set_shouldStop true w)
  | ClearLogs => addLog "Logs cleared" success (set_logs [] w)
  end.

Definition resume (w : World) : Resp * World :=
  let r := replies (env w) (tick w) in
  (r, foldl (λ w a, onMenuSelect a w) (next_tick w) (r_ui r)).

Definition await_call : M Payload :=
  λ w, let '(r, w') := resume w in
       match r_reply r with
       | Rejected e => Throw e w'
       | Resolved p => Return p w'
       end.

Definition await_timer : M unit :=
  λ w, let '(r, w') := resume w in
       match r_fault r with
       | Some e => Throw e w'
       | None => Return tt w'
       end.

Definition sleep (ms : Z) : M unit := emit (Slept ms) ;; await_timer.

Definition sleepRandom (minMs maxMs : Z) : M unit :=
  r ← random;
  sleep (JS.floor_scale r (maxMs - minMs + 1) + minMs).

Definition acct (accountIdx : nat) : string :=
  "Acct " +:+ pretty (accountIdx + 1)%nat.

Section Chain.
Variable walletAddress : string → option string.

Definition newWallet (privateKey : option string) : M string :=
  match privateKey ≫= walletAddress with
  | Some address => ret address
  | None => throw "invalid private key"
  end.

Definition getNextNonce : M Payload :=
  try_catch await_call
    (λ e, log ("getNextNonce error: " +:+ e) error;;
          throw e).

Definition checkAndApprove (signer tokenAddress spender : string) (amountWei : Z)
    (accountIdx : nat) (note : string) : M bool :=
  try_catch
    (allowance ← await_call;
     if p_num allowance >=? amountWei
     then log (acct accountIdx +:+ ": allowance sufficient for " +:+ note) debug;;
          ret true
     else
       log (acct accountIdx +:+ ": approving " +:+ note +:+ "...") info;;
       nonce ← getNextNonce;
       feeData ← await_call;
       emit (Send Approve signer JS.MaxUint256 200000
               (p_num feeData) (p_tip feeData) (p_num nonce));;
       tx ← await_call;
       log (acct accountIdx +:+ ": approval tx sent " +:+ shortHash (p_hash tx)) wait;;
       _ ← await_call;
       log (acct accountIdx +:+ ": approved") success;;
       ret true)
    (λ e, log (acct accountIdx +:+ ": approve failed: " +:+ e) error;;
          ret false).

(** [(Math.random() * (0.05 - 0.01) + 0.01).toFixed(6)], in millionths *)
Definition bridgeAmount (r : JS.unit_draw) : Z :=
  JS.scale_fixed6 r (JS.sub JS.d0_05 JS.d0_01) JS.d0_01.

(** [(Math.random() * (0.02 - 0.005) + 0.005).toFixed(6)], in millionths *)
Definition swapAmount (r : JS.unit_draw) : Z :=
  JS.scale_fixed6 r (JS.sub JS.d0_02 JS.d0_005) JS.d0_005.

Definition performBridgeSimple (privateKey proxyUrl : option string) (accountIdx : nat)
    : M bool :=
  emit (CallBridge privateKey proxyUrl accountIdx);;
  if String.eqb BRIDGE_ROUTER_universal "" || String.eqb TOKEN_A_universal ""
  then log "Bridge addresses not configured" error;; ret false
  else
    try_catch
      (signer ← newWallet privateKey;
       r ← random;
       let amount := bridgeAmount r in
       let amountWei := JS.parseUnits18 amount in
       ok ← checkAndApprove signer TOKEN_A_universal BRIDGE_ROUTER_universal amountWei
              accountIdx "bridge token";
       if negb ok then ret false
       else
         log (acct accountIdx +:+ ": bridging " +:+ JS.show_fixed6 amount
              +:+ " tokenA ->") info;;
         nonce ← getNextNonce;
         feeData ← await_call;
         emit (Send Deposit signer amountWei 800000
                 (p_num feeData) (p_tip feeData) (p_num nonce));;
         tx ← await_call;
         log (acct accountIdx +:+ ": bridge tx " +:+ shortHash (p_hash tx) +:+ " sent") wait;;
         _ ← await_call;
         log (acct accountIdx +:+ ": bridge completed") success;;
         ret true)
      (λ e, log (acct accountIdx +:+ ": bridge error: " +:+ e) error;;
            ret false).

Definition performSwapSimple (privateKey proxyUrl : option string) (accountIdx : nat)
    : M bool :=
  emit (CallSwap privateKey proxyUrl accountIdx);;
  if String.eqb SWAP_ROUTER_universal "" || String.eqb TOKEN_B_universal ""
  then log "Swap addresses not configured" error;; ret false
  else
    try_catch
      (signer ← newWallet privateKey;
       r ← random;
       let amountIn := swapAmount r in
       let amountInWei := JS.parseUnits18 amountIn in
       try_catch
         (t ← now;
          let deadline := t / 1000 + 1800 in
          log (acct accountIdx +:+ ": swapping " +:+ JS.show_fixed6 amountIn +:+ "...") info;;
          nonce ← getNextNonce;
          feeData ← await_call;
          emit (Send (Multicall deadline) signer amountInWei 500000
                  (p_num feeData) (p_tip feeData) (p_num nonce));;
          tx ← await_call;
          log (acct accountIdx +:+ ": swap tx " +:+ shortHash (p_hash tx) +:+ " sent") wait;;
          _ ← await_call;
          log (acct accountIdx +:+ ": swap completed") success;;
          ret true)
         (λ inner, log (acct accountIdx +:+ ": swap encoding failed: " +:+ inner) error;;
                   ret false))
      (λ e, log (acct accountIdx +:+ ": swap error: " +:+ e) error;;
            ret false).

(** [proxies[i % proxies.length] || null] *)
Definition proxyFor (proxies : list string) (i : nat) : option string :=
  JS.or_null (JS.index proxies (JS.rem i (length proxies))).

Definition bridgeCount (w : World) : Z :=
  JS.or_one (JS.Num (bridgeRepetitions (dailyActivityConfig w))).
Definition swapCount (w : World) : Z :=
  JS.or_one (JS.Num (swapRepetitions (dailyActivityConfig w))).

Definition processAccount (i : nat) : M unit :=
  w ← get;
  let pk := privateKeys w !! i in
  let proxyUrl := proxyFor (proxies w) i in
  log ("Processing account " +:+ pretty (i + 1)%nat +:+ " (proxy="
       +:+ default "none" proxyUrl +:+ ")") info;;
  for_loop (Z.to_nat (bridgeCount w))
    (λ b w, (Z.of_nat b <? bridgeCount w) && negb (shouldStop w))
    (λ b, _ ← performBridgeSimple pk proxyUrl i;
          w ← get;
          when (Z.of_nat b <? bridgeRepetitions (dailyActivityConfig w) - 1)
            (sleepRandom 8000 20000))
    0%nat;;
  sleepRandom 8000 15000;;
  w ← get;
  for_loop (Z.to_nat (swapCount w))
    (λ s w, (Z.of_nat s <? swapCount w) && negb (shouldStop w))
    (λ s, _ ← performSwapSimple pk proxyUrl i;
          w ← get;
          when (Z.of_nat s <? swapRepetitions (dailyActivityConfig w) - 1)
            (sleepRandom 8000 20000))
    0%nat;;
  w ← get;
  when (Z.of_nat i <? Z.of_nat (length (privateKeys w)) - 1)
    (log "Waiting 30s before next account..." wait;;
     sleep 30000).

Definition runDailyActivityLoop : M unit :=
  w ← get;
  if (length (privateKeys w) =? 0)%nat
  then log "No private keys loaded. Aborting activity." error;;
       modify (set_activityRunning false)
  else
    modify (set_activityRunning true);;
    modify (set_shouldStop false);;
    log "Starting daily activity loop" success;;
    for_loop (length (privateKeys w))
      (λ i w, (i <? length (privateKeys w))%nat && negb (shouldStop w))
      processAccount 0%nat;;
    log "Daily loop finished." success;;
    modify (set_activityRunning false).

(** The [select] handler on "Start Activity", in full. *)
Definition clickStart : M unit :=
  modify (record (Clicked StartActivity));;
  w ← get;
  if activityRunning w then log "Activity already running" warn
  else try_catch runDailyActivityLoop
         (λ e, log ("Runner failed: " +:+ e) error).
End Chain.

Section Wallets.
Variable walletAddress : string → option string.
(** [Number(ethers.formatUnits(bal, 18)).toFixed(4)], left abstract. *)
Variable formatBalance : Z → string.
Variable trim : string → string.
Variable StringToNumber : string → JS.number.

(** [await providerA.getBalance(address).catch(() => 0)] *)
Definition balanceOrZero : M Z :=
  try_catch (p ← await_call; ret (p_num p)) (λ _, ret 0).

(** [refreshWalletList()]; the value is the list given to
    [walletBox.setItems].  As in the executors, making the provider is taken
    not to throw. *)
Definition refreshWalletList : M (list string) :=
  w ← get;
  list ← for_acc (length (privateKeys w))
            (λ i w, (i <? length (privateKeys w))%nat)
            (λ i list,
               try_catch
                 (w ← get;
                  address ← newWallet walletAddress (privateKeys w !! i);
                  bal ← balanceOrZero;
                  ret (list ++ [pretty (i + 1)%nat +:+ ". " +:+ address +:+ " - "
                                +:+ formatBalance bal +:+ " ETH"])%list)
                 (λ e, ret (list ++ [pretty (i + 1)%nat +:+ ". ERROR - " +:+ e])%list))
            0%nat [];
  ret (if (0 <? length list)%nat then list else ["No wallets loaded"]).

(** [main()], and the [catch] around its call. *)
Definition main (pkFile proxyFile : FileRead) : M (list string) :=
  modify (loadEnvironment trim StringToNumber pkFile proxyFile);;
  refreshWalletList.

Definition startup (pkFile proxyFile : FileRead) : M (list string) :=
  try_catch (main pkFile proxyFile)
    (λ e, log ("Startup error: " +:+ e) error;; ret []).
End Wallets.

End Universal.

(** ** The configuration, over JavaScript numbers

    The code that reads and writes [dailyActivityConfig] and config.json,
    embedded again over the numbers JavaScript computes.  The state is what
    this code touches apart from the log: the two counts and the file.  The
    log lines are those of [Index.loadConfig] and [Universal.loadEnvironment]
    and are left out here; writing the file is taken to succeed. *)

Module Settings.

(** config.json parsed: an object, [null], or something else (a number,
    a string, a boolean, an array), on which a property read gives
    [undefined]. *)
Inductive Document :=
| DocObject (fields : gmap string JS.jsvalue)
| DocNull
| DocOther.

(** config.json: absent, not parsable, or a parsed document. *)
Inductive File := FileAbsent | FileGarbage | FileParsed (c : Document).

Record State := mkState {
  bridgeRepetitions : JS.double;
  swapRepetitions : JS.double;
  file : File
}.

(** [c.name]; [None] is the TypeError on [null]. *)
Definition property (c : Document) (name : string) : option JS.jsvalue :=
  match c with
  | DocObject fields => Some (default JS.VUndefined (fields !! name))
  | DocNull => None
  | DocOther => Some JS.VUndefined
  end.

(** [JSON.stringify(dailyActivityConfig, null, 2)] as the document that
    [JSON.parse] gives back for it. *)
Definition stringify (st : State) : Document :=
  DocObject (<["bridgeRepetitions" := JS.json_of_number (bridgeRepetitions st)]>
            (<["swapRepetitions" := JS.json_of_number (swapRepetitions st)]> ∅)).

Section Code.
Variable StringToNumber : string → JS.double.

(** [loadConfig] of index.js.  An exception ([SyntaxError] of
    [JSON.parse], [TypeError] of the first property read) leaves the [try]
    block before anything is assigned. *)
Definition loadConfig (st : State) : State :=
  match file st with
  | FileParsed c =>
      match property c "bridgeRepetitions" with
      | None => st
      | Some b =>
          let st1 := mkState (JS.or1 (JS.ToNumber StringToNumber b))
                       (swapRepetitions st) (file st) in
          match property c "swapRepetitions" with
          | None => st1
          | Some s =>
              mkState (bridgeRepetitions st1)
                (JS.or1 (JS.ToNumber StringToNumber s)) (file st1)
          end
      end
  | FileGarbage => st
  | FileAbsent =>
      mkState (bridgeRepetitions st) (swapRepetitions st) (FileParsed (stringify st))
  end.

(** [saveConfig] of index.js *)
Definition saveConfig (st : State) : State :=
  mkState (bridgeRepetitions st) (swapRepetitions st) (FileParsed (stringify st)).

(** The [press] handler of the Save button of [showConfigForm]. *)
Definition saveButtonPress (bridgeInput swapInput : string) (st : State) : State :=
  let bridge := JS.or1 (StringToNumber bridgeInput) in
  let swap := JS.or1 (StringToNumber swapInput) in
  saveConfig (mkState bridge swap (file st)).

(** [loadEnvironment] of the universal file, after the key and proxy
    files. *)
Definition loadEnvironment (st : State) : State :=
  match file st with
  | FileParsed c =>
      match property c "bridgeRepetitions" with
      | None => st
      | Some b =>
          let st1 := mkState (JS.or1 (JS.ToNumber StringToNumber b))
                       (swapRepetitions st) (file st) in
          match property c "swapRepetitions" with
          | None => st1
          | Some s =>
              mkState (bridgeRepetitions st1)
                (JS.or1 (JS.ToNumber StringToNumber s)) (file st1)
          end
      end
  | FileGarbage => st
  | FileAbsent =>
      mkState (bridgeRepetitions st) (swapRepetitions st) (FileParsed (stringify st))
  end.

(** The [submit] handler of the form of [promptSetConfig]. *)
Definition formSubmit (bridge swap : JS.jsvalue) (st : State) : State :=
  let st1 := mkState (JS.or1 (JS.ToNumber StringToNumber bridge))
               (swapRepetitions st) (file st) in
  let st2 := mkState (bridgeRepetitions st1)
               (JS.or1 (JS.ToNumber StringToNumber swap)) (file st1) in
  mkState (bridgeRepetitions st2) (swapRepetitions st2) (FileParsed (stringify st2)).
End Code.

(** The whole numbers among the JavaScript numbers: how the runner's
    state and its config.json sit inside [State]. *)
Definition of_number (x : JS.number) : JS.double :=
  match x with
  | JS.NaN => JS.DNaN
  | JS.Num z => JS.whole z
  end.

Definition of_value (v : JS.value) : JS.jsvalue :=
  match v with
  | JS.JUndefined => JS.VUndefined
  | JS.JNull => JS.VNull
  | JS.JBool b => JS.VBool b
  | JS.JNumber z => JS.VNumber (JS.whole z)
  | JS.JString s => JS.VString s
  | JS.JObject => JS.VObject
  end.

Definition of_file (f : ConfigFile) : File :=
  match f with
  | Absent => FileAbsent
  | Garbage => FileGarbage
  | Parsed (JsonObject fields) => FileParsed (DocObject (of_value <$> fields))
  | Parsed JsonNull => FileParsed DocNull
  | Parsed JsonScalar => FileParsed DocOther
  end.

End Settings.

Definition settings_of (w : World) : Settings.State :=
  Settings.mkState (JS.whole (bridgeRepetitions (dailyActivityConfig w)))
                   (JS.whole (swapRepetitions (dailyActivityConfig w)))
                   (Settings.of_file (configFile w)).

(** ** Observations on traces *)

Definition is_call (e : Event) : bool :=
  match e with CallBridge _ _ _ | CallSwap _ _ _ => true | _ => false end.

Definition is_stop (e : Event) : bool :=
  match e with Clicked StopActivity => true | _ => false end.

Definition is_deposit (e : Event) : bool :=
  match e with Send Deposit _ _ _ _ _ _ => true | _ => false end.

Definition slept (e : Event) : Z :=
  match e with Slept ms => ms | _ => 0 end.

(** Executor calls, in order. *)
Definition calls (tr : list Event) : list Event := List.filter is_call tr.

(** Total time of the timers started. *)
Definition sleeps (tr : list Event) : Z := foldr (λ e acc, slept e + acc) 0 tr.

(** What follows the first stop request. *)
Fixpoint after_stop (tr : list Event) : list Event :=
  match tr with
  | [] => []
  | e :: rest => if is_stop e then rest else after_stop rest
  end.

(** The executor calls the runner makes for account [i]. *)
Definition calls_of_account (keys pxs : list string) (proxyFor : list string → nat → option string)
    (B S : nat) (i : nat) : list Event :=
  (replicate B (CallBridge (keys !! i) (proxyFor pxs i) i)
   ++ replicate S (CallSwap (keys !! i) (proxyFor pxs i) i))%list.

(** ** Program logic *)

(** [progress w ext w']: the suspended-and-resumed task went from [w] to
    [w'] and appended [ext] to the trace.  Keys, proxies, repetitions and the
    running flag are untouched; the stop flag is raised exactly by a stop
    request handled while running; every click comes from the environment. *)
Record progress (w : World) (ext : list Event) (w' : World) : Prop := mkProgress {
  pg_keys : privateKeys w' = privateKeys w;
  pg_proxies : proxies w' = proxies w;
  pg_config : dailyActivityConfig w' = dailyActivityConfig w;
  pg_file : configFile w' = configFile w;
  pg_env : env w' = env w;
  pg_running : activityRunning w' = activityRunning w;
  pg_trace : trace w' = (trace w ++ ext)%list;
  pg_stop : shouldStop w' = shouldStop w || (activityRunning w && existsb is_stop ext);
  pg_clicks : ∀ a, Clicked a ∈ ext → ∃ t, a ∈ r_ui (replies (env w) t)
}.

(** [sat m w Q]: from [w], [m] does not run out of fuel, makes progress, and
    its result (value or exception), trace extension and final state satisfy
    [Q]. *)
Definition sat {A} (m : M A) (w : World)
    (Q : string + A → list Event → World → Prop) : Prop :=
  match m w with
  | Return a w' => ∃ ext, progress w ext w' ∧ Q (inr a) ext w'
  | Throw e w' => ∃ ext, progress w ext w' ∧ Q (inl e) ext w'
  | OutOfFuel => False
  end.

(** An exception that leaves a timer was raised by the environment. *)
Definition fault_of (w : World) {A} (r : string + A) : Prop :=
  ∀ e, r = inl e → ∃ t, r_fault (replies (env w) t) = Some e.

(** The environment never raises a fault and never requests a stop. *)
Definition no_fault (en : Env) : Prop := ∀ t, r_fault (replies en t) = None.
Definition no_stop (en : Env) : Prop := ∀ t, StopActivity ∉ r_ui (replies en t).

Definition is_click (e : Event) : bool :=
  match e with Clicked _ => true | _ => false end.

Definition is_sleep (e : Event) : bool :=
  match e with Slept _ => true | _ => false end.

(** Events of an executor after its entry: transactions and clicks. *)
Definition inner_event (e : Event) : Prop := is_call e = false ∧ is_sleep e = false.

(** A deposit carries [amountWei] and the gas limit 800000. *)
Definition deposit_of (amountWei : Z) (e : Event) : Prop :=
  match e with
  | Send Deposit _ amount gasLimit _ _ _ => amount = amountWei ∧ gasLimit = 800000
  | _ => True
  end.

(** After a stop request no executor is called, and the timers started
    last at most [K] milliseconds in total. *)
Definition winds_down (K : Z) (ext : list Event) : Prop :=
  calls (after_stop ext) = [] ∧ sleeps (after_stop ext) ≤ K.

(** What an awaited chain call and an awaited timer resolve to. *)
Definition call_result (w : World) : string + Payload :=
  match r_reply (replies (env w) (tick w)) with
  | Rejected e => inl e
  | Resolved p => inr p
  end.

Definition timer_result (w : World) : string + unit :=
  match r_fault (replies (env w) (tick w)) with
  | Some e => inl e
  | None => inr tt
  end.

(** An executor returns a boolean; its trace starts with its call event and
    goes on with transactions and clicks; a deposit carries [amountWei]. *)
Definition executor_post (entry : Event) (amountWei : Z)
    : string + bool → list Event → World → Prop :=
  λ r ext _, (∃ b, r = inr b) ∧
    ∃ rest, ext = entry :: rest ∧ Forall inner_event rest
            ∧ Forall (deposit_of amountWei) rest.

(** The approval helper returns a boolean and sends no deposit. *)
Definition helper_post : string + bool → list Event → World → Prop :=
  λ r ext _, (∃ b, r = inr b) ∧ Forall inner_event ext
             ∧ Forall (λ e, is_deposit e = false) ext.

(** A timer of [lo .. hi] milliseconds: one [Slept] followed by clicks. *)
Definition timer_post (w : World) (lo hi : Z)
    : string + unit → list Event → World → Prop :=
  λ r ext _, fault_of w r ∧ (no_fault (env w) → r = inr tt) ∧
    ∃ ms clicks, lo ≤ ms ≤ hi ∧ ext = Slept ms :: clicks
                 ∧ Forall (λ e, is_click e = true) clicks.

(** A stretch of the run entered at [w]: it winds down within [K] after a
    stop request of its own, and if the stop flag is already raised at [w]
    it calls no executor and sleeps at most [K'] in all. *)
Definition piece_ok (K K' : Z) (w : World) (ext : list Event) : Prop :=
  winds_down K ext ∧ (shouldStop w = true → calls ext = [] ∧ sleeps ext ≤ K').

(** The loop over the repetitions of one executor. *)
Definition inner_loop_wind (w : World)
    : string + unit → list Event → World → Prop :=
  λ r ext _, fault_of w r ∧ winds_down 20000 ext
             ∧ (shouldStop w = true → ext = [] ∧ r = inr tt).

Definition quiet (w : World) : Prop :=
  no_stop (env w) ∧ no_fault (env w) ∧ shouldStop w = false.

(** The condition and the body of the loop over the repetitions of one
    executor, as both files write them. *)
Definition repeat_cond (count : World → Z) : nat → World → bool :=
  λ b w, (Z.of_nat b <? count w) && negb (shouldStop w).
Definition repeat_body (exec : M bool) (reps : World → Z) (sleepR : M unit) : nat → M unit :=
  λ b, _ ← exec; w ← get; when (Z.of_nat b <? reps w - 1) sleepR.

(** The timers of one account: the pause between the two phases is always
    there, and so is the 30 s pause when another account follows. *)
Definition account_sleeps (lo : Z) (i N : nat) (ext : list Event) : Prop :=
  ∃ pre g mid post,
    ext = (pre ++ Slept g :: mid ++ post)%list ∧ lo ≤ g ≤ 15000 ∧
    ((i + 1 < N)%nat →
     ∃ clicks, post = Slept 30000 :: clicks ∧ Forall (λ e, is_click e = true) clicks).

Definition account_wind (lo : Z) (i : nat) (w : World)
    : string + unit → list Event → World → Prop :=
  λ r ext _, fault_of w r ∧ piece_ok 65000 45000 w ext
             ∧ (r = inr tt → account_sleeps lo i (length (privateKeys w)) ext).

(** The loop over the accounts. *)
Definition run_wind (w : World) : string + unit → list Event → World → Prop :=
  λ r ext _, fault_of w r ∧ winds_down 65000 ext ∧ (shouldStop w = true → ext = []).

(** The executor calls of a whole run over [N] accounts. *)
Definition calls_of_run (keys pxs : list string) (proxyFor : list string → nat → option string)
    (B S : nat) (first count : nat) : list Event :=
  concat (calls_of_account keys pxs proxyFor B S <$> seq first count).

Definition is_bridge_call (e : Event) : bool :=
  match e with CallBridge _ _ _ => true | _ => false end.

Definition is_swap_call (e : Event) : bool :=
  match e with CallSwap _ _ _ => true | _ => false end.

(** What a full run is, for a run function [run] and its proxy rule: it
    returns, and its executor calls are, account after account, [B] bridge
    calls followed by [S] swap calls. *)
Definition full_run (run : M unit) (proxyFor : list string → nat → option string)
    (B S : Z) (w : World) : Prop :=
  ∃ w' ext,
    run w = Return tt w' ∧ trace w' = (trace w ++ ext)%list
    ∧ calls ext = calls_of_run (privateKeys w) (proxies w) proxyFor
                    (Z.to_nat B) (Z.to_nat S) 0 (length (privateKeys w))
    ∧ Z.of_nat (length (List.filter is_bridge_call (calls ext)))
      = B * Z.of_nat (length (privateKeys w))
    ∧ Z.of_nat (length (List.filter is_swap_call (calls ext)))
      = S * Z.of_nat (length (privateKeys w)).

(** ** Sample environment and worlds *)

(** An environment in which every chain call succeeds with an allowance of
    zero, nobody clicks and no timer faults; every draw is the largest one,
    [1 - 2^-53]. *)
Definition calm_resp : Resp :=
  mkResp [] (Resolved (mkPayload 0 0 "0xabcdef0123456789")) None.
Definition calm_env : Env :=
  mkEnv (λ _, calm_resp) (λ _, JS.Draw (2 ^ 53 - 1) 0) (λ _, 1700000000000).

(** The same, but the user selects Stop during the suspension numbered [t]. *)
Definition stop_at (t : nat) : Env :=
  mkEnv (λ n, if (n =? t)%nat then mkResp [StopActivity] (r_reply calm_resp) None
              else calm_resp)
        (randoms calm_env) (clock calm_env).

(** The same as [calm_env], but the chain call awaited at suspension [t]
    fails. *)
Definition fail_at (t : nat) (message : string) : Env :=
  mkEnv (λ n, if (n =? t)%nat then mkResp [] (Rejected message) None else calm_resp)
        (randoms calm_env) (clock calm_env).

Definition sample_wallet (pk : string) : option string := Some ("0xaddr-" +:+ pk).

(** Two keys, no proxy, [b] bridge and [s] swap repetitions, idle. *)
Definition sample_world (b s : Z) (en : Env) : World :=
  mkWorld ["key-one"; "key-two"] [] (mkConfig b s) [] false false Absent en 0 0 [].

(** A draw for the amount of [m] millionths, when amounts start at [lo]
    and span [span] millionths: the multiple of [2^-53] just below
    [(m - lo) / span]. *)
Definition draw_for (span lo m : Z) : JS.unit_draw :=
  JS.Draw (Z.min ((m - lo) * 2 ^ 53 / span) (2 ^ 53 - 1)) 0.

(** [P] holds of the [n] whole numbers from [m] on. *)
Fixpoint all_from (P : Z → bool) (n : nat) (m : Z) : bool :=
  match n with O => true | S n' => P m && all_from P n' (m + 1) end.

(** The exact value of a double, in units of [2^-1200]. *)
Definition units (a : JS.binary64) : Z := JS.mant a * 2 ^ (JS.expo a + 1200).

(** What [run] did, when it returned: the trace extension. *)
Definition returned {A} (m : M A) (w : World) (P : A → list Event → World → Prop) : Prop :=
  ∃ a w' ext, m w = Return a w' ∧ trace w' = (trace w ++ ext)%list ∧ P a ext w'.

(** [addLog] called once per entry of [es], in order. *)
Definition push_all (addLog : string → LogType → World → World) (es : list LogEntry)
    (w : World) : World :=
  foldl (λ w e, addLog (log_text e) (log_type e) w) w es.

(** The last [n] elements. *)
Definition last_n {A} (n : nat) (l : list A) : list A := drop (length l - n) l.

(** The value a config field gets on load: [Number(v) || 1]. *)
Definition loaded_field (StringToNumber : string → JS.number) (v : JS.value) : Z :=
  JS.or_one (JS.Number StringToNumber v).

(** A [StringToNumber] for the samples: nothing is numeric. *)
Definition never_numeric (s : string) : JS.number := JS.NaN.
Definition nothing_numeric (s : string) : JS.double := JS.DNaN.

(** A number whose value is a whole number of at least 1. *)
Definition positive_whole (x : JS.double) : Prop :=
  ∃ a z, x = JS.DFinite a ∧ 1 ≤ z ∧ units a = z * 2 ^ 1200.

(** A config.json holding [b] and [s], over JavaScript numbers. *)
Definition settings_json (b s : JS.jsvalue) : Settings.File :=
  Settings.FileParsed
    (Settings.DocObject (<["bridgeRepetitions" := b]> (<["swapRepetitions" := s]> ∅))).

(** A config.json holding [b] and [s]. *)
Definition config_json (b s : JS.value) : ConfigFile :=
  Parsed (JsonObject (<["bridgeRepetitions" := b]> (<["swapRepetitions" := s]> ∅))).

(** ** What follows a stop request *)

(** A pause of [lo .. hi] milliseconds with the clicks handled during
    it. *)
Definition a_pause (lo hi : Z) (p : list Event) : Prop :=
  ∃ ms clicks, p = Slept ms :: clicks ∧ lo ≤ ms ≤ hi
               ∧ Forall (λ e, is_click e = true) clicks.

Definition no_events (p : list Event) : Prop := p = [].

(** Such a pause, or nothing. *)
Definition pause_or_none (lo hi : Z) (p : list Event) : Prop :=
  no_events p ∨ a_pause lo hi p.

(** Transactions and clicks, then three stretches in this order. *)
Definition tail_of (P1 P2 P3 : list Event → Prop) (l : list Event) : Prop :=
  ∃ rest p1 p2 p3,
    l = (rest ++ p1 ++ p2 ++ p3)%list ∧ Forall inner_event rest
    ∧ P1 p1 ∧ P2 p2 ∧ P3 p3.

(** The last events of a run, after a stop request: what is left of the
    executor call in flight, that is transactions and clicks and no further
    call; then at most one pause of 8 to 20 s (the one after a repetition
    that is not the last), at most one pause of [lo] to 15 s (the one between
    the two phases) and at most one pause of 30 s (the one before the next
    account), in this order, and nothing else. *)
Definition last_events (lo : Z) (l : list Event) : Prop :=
  tail_of (pause_or_none 8000 20000) (pause_or_none lo 15000)
    (pause_or_none 30000 30000) l.

(** A stretch of the run entered at [w]: what follows a stop request of its
    own is in [A], and if the stop flag is already raised at [w] the whole
    stretch is in [S]. *)
Definition stretch (A S : list Event → Prop) (w : World) (ext : list Event) : Prop :=
  A (after_stop ext) ∧ (shouldStop w = true → S ext).

(** The loop over the repetitions of one executor, and the loop over the
    accounts. *)
Definition loop_tail (w : World) : string + unit → list Event → World → Prop :=
  λ _ ext _, stretch (tail_of (pause_or_none 8000 20000) no_events no_events)
               no_events w ext.
Definition run_tail (lo : Z) (w : World) : string + unit → list Event → World → Prop :=
  λ _ ext _, stretch (last_events lo) no_events w ext.

(** What the pause between the phases and what comes after it leave when
    the stop flag is already up: that pause, then at most the 30 s pause. *)
Definition two_pauses (lo : Z) (l : list Event) : Prop :=
  ∃ p2 p3, l = (p2 ++ p3)%list ∧ a_pause lo 15000 p2 ∧ pause_or_none 30000 30000 p3.


Definition is_multicall (e : Event) : bool :=
  match e with Send (Multicall _) _ _ _ _ _ _ => true | _ => false end.

(** ** Further observations *)


(** The lines a key or proxy file gives, in either file: the lines of the
    content, trimmed, the empty ones dropped; none for a missing or unreadable
    file. *)
Definition lines_of (trim : string → string) (f : FileRead) : list string :=
  match f with
  | Content data => filter (λ l, (0 < String.length l)%nat) (trim <$> JS.split_lines data)
  | _ => []
  end.


(** Both repetition counts are numbers other than 0. *)
Definition counts_nonzero (w : World) : Prop :=
  bridgeRepetitions (dailyActivityConfig w) ≠ 0
  ∧ swapRepetitions (dailyActivityConfig w) ≠ 0.

(** A number that [x || 1] keeps: neither [NaN] nor a zero. *)
Definition truthy (x : JS.double) : bool :=
  match x with
  | JS.DNaN => false
  | JS.DInfinity _ => true
  | JS.DFinite a => negb (JS.mant a =? 0)
  end.

(** A number that config.json can hold: a finite one. *)
Definition finite (x : JS.double) : bool :=
  match x with
  | JS.DFinite _ => true
  | _ => false
  end.

(** The same over JavaScript numbers: neither count is [NaN] or a zero;
    both counts are finite. *)
Definition settings_nonzero (st : Settings.State) : Prop :=
  truthy (Settings.bridgeRepetitions st) = true
  ∧ truthy (Settings.swapRepetitions st) = true.
Definition settings_finite (st : Settings.State) : Prop :=
  finite (Settings.bridgeRepetitions st) = true
  ∧ finite (Settings.swapRepetitions st) = true.

(** ** Transactions on a trace *)

Definition is_send (e : Event) : bool :=
  match e with Send _ _ _ _ _ _ _ => true | _ => false end.

Definition is_approve (e : Event) : bool :=
  match e with Send Approve _ _ _ _ _ _ => true | _ => false end.

(** The transactions handed to the chain client, in order. *)
Definition sends (tr : list Event) : list Event := List.filter is_send tr.

(** What one bridge call may send from the wallet [signer]: nothing, an
    approval, a deposit, or an approval and then a deposit.  The approval is
    for [MaxUint256] with the gas limit 200000, the deposit is for
    [amountWei] with the gas limit 800000. *)
Inductive bridge_txs (signer : string) (amountWei : Z) : list Event → Prop :=
| bridge_txs_none : bridge_txs signer amountWei []
| bridge_txs_approve fee tip nonce :
    bridge_txs signer amountWei [Send Approve signer JS.MaxUint256 200000 fee tip nonce]
| bridge_txs_deposit fee tip nonce :
    bridge_txs signer amountWei [Send Deposit signer amountWei 800000 fee tip nonce]
| bridge_txs_both fee tip nonce fee' tip' nonce' :
    bridge_txs signer amountWei
      [Send Approve signer JS.MaxUint256 200000 fee tip nonce;
       Send Deposit signer amountWei 800000 fee' tip' nonce'].

(** What one swap call may send: nothing, or one multicall for
    [amountInWei] with the gas limit 500000 and a deadline 1800 seconds after
    [now], a time in milliseconds. *)
Inductive swap_txs (signer : string) (amountInWei now : Z) : list Event → Prop :=
| swap_txs_none : swap_txs signer amountInWei now []
| swap_txs_multicall fee tip nonce :
    swap_txs signer amountInWei now
      [Send (Multicall (now / 1000 + 1800)) signer amountInWei 500000 fee tip nonce].

(** The outcome of an executor call as the log shows it: after [true] the
    last line is the success line [done]; after [false] the last line is an
    error line that starts with the account number. *)
Definition reported (accountIndex : nat) (done : string) (ok : bool) (w' : World) : Prop :=
  if ok
  then last (transactionLogs w') = Some (Log success done)
  else ∃ reason,
         last (transactionLogs w')
         = Some (Log error ("Acct " +:+ pretty (accountIndex + 1)%nat +:+ ": " +:+ reason)).

(** One bridge call: it returns a boolean; after its entry it sends what
    [bridge_txs] allows, nothing at all when no wallet can be made of the key;
    and it returns [true] only after a deposit, sent last. *)
Definition bridge_sends (wa : string → option string) (pk proxyUrl : option string)
    (i : nat) (amountWei : Z) : string + bool → list Event → World → Prop :=
  λ r ext _, ∃ ok rest,
    r = inr ok ∧ ext = CallBridge pk proxyUrl i :: rest
    ∧ match pk ≫= wa with
      | Some a => bridge_txs a amountWei (sends rest)
      | None => sends rest = [] ∧ ok = false
      end
    ∧ (ok = true → ∃ txs tx, sends rest = (txs ++ [tx])%list ∧ is_deposit tx = true).

(** The same for one swap call: at most one multicall, and [true] only
    after it. *)
Definition swap_sends (wa : string → option string) (pk proxyUrl : option string)
    (i : nat) (amountInWei now : Z) : string + bool → list Event → World → Prop :=
  λ r ext _, ∃ ok rest,
    r = inr ok ∧ ext = CallSwap pk proxyUrl i :: rest
    ∧ match pk ≫= wa with
      | Some a => swap_txs a amountInWei now (sends rest)
      | None => sends rest = [] ∧ ok = false
      end
    ∧ (ok = true → ∃ tx, sends rest = [tx] ∧ is_multicall tx = true).

(** What the log shows of an executor call that has returned. *)
Definition reports (accountIndex : nat) (done : string)
    : string + bool → list Event → World → Prop :=
  λ r _ w', ∃ ok, r = inr ok ∧ reported accountIndex done ok w'.

(** An environment in which every chain call succeeds and reports the
    number [10^18]: an allowance that covers every amount. *)
Definition generous_env : Env :=
  mkEnv (λ _, mkResp [] (Resolved (mkPayload (10 ^ 18) 0 "0xabcdef0123456789")) None)
        (randoms calm_env) (clock calm_env).

(** ** Checking a trace with an automaton *)

Section Automaton.
Context {St : Type}.
Variable step : St → Event → option St.

(** The state after the events of [tr], or [None] when an event is refused. *)
Fixpoint run_on (s : St) (tr : list Event) : option St :=
  match tr with
  | [] => Some s
  | e :: rest =>
      match step s e with
      | Some s' => run_on s' rest
      | None => None
      end
  end.

(** From every state of [P] the trace is accepted and ends in a state of
    [Q]. *)
Definition accepts (P : St → Prop) (tr : list Event) (Q : St → Prop) : Prop :=
  ∀ s, P s → ∃ s', run_on s tr = Some s' ∧ Q s'.
End Automaton.

(** States of [P] or of [Q]. *)
Definition either {St} (P Q : St → Prop) : St → Prop := λ s, P s ∨ Q s.

(** A loop entered in a state of [Ready]: its trace is accepted, and it is
    empty when the condition of the loop fails at once. *)
Definition loop_checked {St} (step : St → Event → option St) (Ready After : St → Prop)
    (cond : nat → World → bool) (b : nat) (w : World)
    : string + unit → list Event → World → Prop :=
  λ _ ext _, accepts step Ready ext (either Ready After) ∧ (cond b w = false → ext = []).

(** One account, entered in a state of [Ready]: its trace is accepted, and
    it ends in [Ready] when the account returns and another one follows. *)
Definition account_checked {St} (step : St → Event → option St) (Ready After : St → Prop)
    (i : nat) (w : World) : string + unit → list Event → World → Prop :=
  λ r ext _, accepts step Ready ext (either Ready After)
             ∧ (r = inr tt → (i + 1 < length (privateKeys w))%nat →
                accepts step Ready ext Ready).

(** The pacing automaton.  The state tells whether an executor may be
    called: a call needs it and clears it, a timer of at least [lo]
    milliseconds sets it. *)
Definition pace_step (lo : Z) (ready : bool) (e : Event) : option bool :=
  match e with
  | CallBridge _ _ _ | CallSwap _ _ _ => if ready then Some false else None
  | Slept ms => Some (ready || (lo <=? ms))
  | _ => Some ready
  end.

(** The transaction budget.  The state is the number of transactions that
    may still be sent: a bridge call sets it to 2, a swap call to 1, and a
    transaction needs and uses one. *)
Definition budget_step (left : nat) (e : Event) : option nat :=
  match e with
  | CallBridge _ _ _ => Some 2%nat
  | CallSwap _ _ _ => Some 1%nat
  | Send _ _ _ _ _ _ _ => match left with O => None | S n => Some n end
  | _ => Some left
  end.

(** What [m] appended to the trace, whether it returned or threw; running
    out of fuel is excluded. *)
Definition ends_with {A} (m : M A) (w : World) (P : list Event → Prop) : Prop :=
  match m w with
  | Return _ w' | Throw _ w' => ∃ ext, trace w' = (trace w ++ ext)%list ∧ P ext
  | OutOfFuel => False
  end.

(** ** Counts and pauses of an uninterrupted run *)

(** The number of times a loop [for (b = 0; b < (x || 1); b++)] runs. *)
Definition effective (x : Z) : Z := if x =? 0 then 1 else Z.max 0 x.

(** The number of pauses between the repetitions of one phase:
    [b < x - 1] holds for [x - 1] values of [b]. *)
Definition pauses (x : Z) : Z := Z.max 0 (x - 1).

(** The pauses of the two phases of one account, under the configuration
    of [w]. *)
Definition phase_pauses (w : World) : Z :=
  pauses (bridgeRepetitions (dailyActivityConfig w))
  + pauses (swapRepetitions (dailyActivityConfig w)).

(** The total time of the timers lies between [lo] and [hi]. *)
Definition sleeps_within (lo hi : Z) : string + unit → list Event → World → Prop :=
  λ r ext _, r = inr tt ∧ lo ≤ sleeps ext ≤ hi.

(** ** The wallet list and the start of the program *)

(** The initial values of the global variables. *)
Definition initial_world (cf : ConfigFile) (en : Env) : World :=
  mkWorld [] [] (mkConfig 1 1) [] false false cf en 0 0 [].

(** Line [k] of the wallet list for the key [key]: its number, and then
    either the address and a balance, which is 0 or a number that the chain
    reported, or the message of an error. *)
Definition wallet_line (walletAddress : string → option string)
    (formatBalance : Z → string) (unit : string) (en : Env)
    (k : nat) (key line : string) : Prop :=
  match walletAddress key with
  | Some address =>
      ∃ bal, line = pretty (k + 1)%nat +:+ ". " +:+ address +:+ " - "
                    +:+ formatBalance bal +:+ unit
             ∧ (bal = 0 ∨ ∃ t p, r_reply (replies en t) = Resolved p ∧ bal = p_num p)
  | None => ∃ e, line = pretty (k + 1)%nat +:+ ". ERROR - " +:+ e
  end.

(** The wallet list [items] for the keys [keys]: one line per key, in the
    order of the keys, or the single line "No wallets loaded". *)
Definition wallet_list (walletAddress : string → option string)
    (formatBalance : Z → string) (unit : string) (en : Env)
    (keys items : list string) : Prop :=
  if (length keys =? 0)%nat then items = ["No wallets loaded"]
  else length items = length keys
       ∧ ∀ k key, keys !! k = Some key →
           ∃ line, items !! k = Some line
                   ∧ wallet_line walletAddress formatBalance unit en k key line.

(** The lines that the loop of [refreshWalletList] adds from key [i] on. *)
Definition lines_added (walletAddress : string → option string)
    (formatBalance : Z → string) (unit : string) (i : nat) (items : list string)
    (w : World) : string + list string → list Event → World → Prop :=
  λ r ext _, ∃ new,
    r = inr (items ++ new)%list
    ∧ Forall (λ e, is_click e = true) ext
    ∧ length new = (length (privateKeys w) - i)%nat
    ∧ ∀ k key, privateKeys w !! (i + k)%nat = Some key →
        ∃ line, new !! k = Some line
                ∧ wallet_line walletAddress formatBalance unit (env w) (i + k) key line.

(** What [refreshWalletList] gives when started in [w]: the wallet list of
    the keys of [w]; meanwhile nothing happens but clicks. *)
Definition wallets_shown (walletAddress : string → option string)
    (formatBalance : Z → string) (unit : string) (w : World)
    : string + list string → list Event → World → Prop :=
  λ r ext _, ∃ items,
    r = inr items ∧ Forall (λ e, is_click e = true) ext
    ∧ wallet_list walletAddress formatBalance unit (env w) (privateKeys w) items.

(** * Proofs *)

(** ** Traces *)

Lemma calls_app (a b : list Event) : calls (a ++ b) = (calls a ++ calls b)%list.
Proof. unfold calls. apply List.filter_app. Qed.

Lemma sleeps_app (a b : list Event) : sleeps (a ++ b) = sleeps a + sleeps b.
Proof. induction a as [|e a IH]; simpl; [reflexivity | rewrite IH; lia]. Qed.

Lemma after_stop_app (a b : list Event) :
  after_stop (a ++ b)
  = if existsb is_stop a then (after_stop a ++ b)%list else after_stop b.
Proof.
  induction a as [|e a IH]; simpl; [reflexivity|].
  destruct (is_stop e); simpl; [reflexivity | exact IH].
Qed.

Lemma inner_quiet (l : list Event) :
  Forall inner_event l → calls l = [] ∧ sleeps l = 0.
Proof.
  induction 1 as [|e l [Hc Hs] _ [IHc IHs]]; [done|].
  unfold calls in *. simpl. rewrite Hc, IHc. split; [done|].
  destruct e; simpl in *; try discriminate; lia.
Qed.

Lemma after_stop_suffix (l : list Event) : ∃ pre, l = (pre ++ after_stop l)%list.
Proof.
  induction l as [|e l [pre IH]]; [by exists []|].
  simpl. destruct (is_stop e).
  - by exists [e].
  - exists (e :: pre). simpl. by rewrite <- IH.
Qed.

Lemma inner_after_stop (l : list Event) :
  Forall inner_event l → Forall inner_event (after_stop l).
Proof.
  intros H. destruct (after_stop_suffix l) as [pre E].
  rewrite E in H. by apply Forall_app in H as [_ H].
Qed.

Lemma click_is_inner (l : list Event) :
  Forall (λ e, is_click e = true) l → Forall inner_event l.
Proof.
  intros Hl. eapply Forall_impl; [exact Hl|].
  intros [] H; try discriminate H; done.
Qed.

Lemma click_deposit_of amt (l : list Event) :
  Forall (λ e, is_click e = true) l → Forall (deposit_of amt) l.
Proof.
  intros Hl. eapply Forall_impl; [exact Hl|].
  intros [] H; try discriminate H; done.
Qed.

Lemma no_stop_clicks (en : Env) (ext : list Event) :
  no_stop en →
  (∀ a, Clicked a ∈ ext → ∃ t, a ∈ r_ui (replies en t)) →
  existsb is_stop ext = false.
Proof.
  intros Hq Hc. destruct (existsb is_stop ext) eqn:E; [|done].
  apply existsb_exists in E as [e [Hin He]].
  destruct e as [| | | |[]]; try discriminate He.
  apply list_elem_of_In, Hc in Hin as [t Ht]. by destruct (Hq t).
Qed.

(** ** Progress is a preorder *)

Lemma progress_refl w : progress w [] w.
Proof.
  constructor; try done.
  - by rewrite app_nil_r.
  - simpl. by rewrite andb_false_r, orb_false_r.
  - intros a H. by apply elem_of_nil in H.
Qed.

Lemma progress_trans w e1 w1 e2 w2 :
  progress w e1 w1 → progress w1 e2 w2 → progress w (e1 ++ e2) w2.
Proof.
  intros [] []. constructor; try congruence.
  - rewrite pg_trace1, pg_trace0. by rewrite app_assoc.
  - rewrite pg_stop1, pg_stop0, pg_running0, existsb_app.
    destruct (shouldStop w), (activityRunning w), (existsb is_stop e1); done.
  - intros a [H|H]%elem_of_app; [by apply pg_clicks0|].
    rewrite <- pg_env0. by apply pg_clicks1.
Qed.

(** ** Rules *)

Section Rules.
Context {A B : Type}.
Implicit Types (Q : string + A → list Event → World → Prop).

Lemma sat_mono (m : M A) w Q Q' :
  sat m w Q →
  (∀ r ext w', progress w ext w' → Q r ext w' → Q' r ext w') →
  sat m w Q'.
Proof.
  unfold sat. intros H HQ.
  destruct (m w); [| |done]; destruct H as (ext & Hp & Hq); eauto.
Qed.

Lemma sat_ret (a : A) w Q : Q (inr a) [] w → sat (ret a) w Q.
Proof. intros H. exists []. split; [apply progress_refl | done]. Qed.

Lemma sat_throw (e : string) w Q : Q (inl e) [] w → sat (throw e) w Q.
Proof. intros H. exists []. split; [apply progress_refl | done]. Qed.

Lemma sat_bind (m : M A) (k : A → M B) w (Q : string + B → list Event → World → Prop) :
  sat m w (λ r ext w',
    match r with
    | inr a => sat (k a) w' (λ r2 ext2 w2, Q r2 (ext ++ ext2)%list w2)
    | inl e => Q (inl e) ext w'
    end) →
  sat (m ≫= k) w Q.
Proof.
  unfold sat, mbind, M_bind, bind.
  destruct (m w) as [a w'|e w'|]; [| |done]; intros (ext & Hp & H); [|eauto].
  destruct (k a w') as [b w2|e w2|]; [| |done]; destruct H as (ext2 & Hp2 & H);
    exists (ext ++ ext2)%list; eauto using progress_trans.
Qed.

Lemma sat_try_catch (body : M A) (handler : string → M A) w Q :
  sat body w (λ r ext w',
    match r with
    | inr a => Q (inr a) ext w'
    | inl e => sat (handler e) w' (λ r2 ext2 w2, Q r2 (ext ++ ext2)%list w2)
    end) →
  sat (try_catch body handler) w Q.
Proof.
  unfold sat, try_catch.
  destruct (body w) as [a w'|e w'|]; [| |done]; intros (ext & Hp & H); [eauto|].
  destruct (handler e w') as [b w2|e2 w2|]; [| |done]; destruct H as (ext2 & Hp2 & H);
    exists (ext ++ ext2)%list; eauto using progress_trans.
Qed.
End Rules.

Lemma sat_get w (Q : string + World → list Event → World → Prop) :
  Q (inr w) [] w → sat get w Q.
Proof. intros H. exists []. split; [apply progress_refl | done]. Qed.

Lemma sat_now w (Q : string + Z → list Event → World → Prop) :
  Q (inr (clock (env w) (tick w))) [] w → sat now w Q.
Proof. intros H. exists []. split; [apply progress_refl | done]. Qed.

Lemma sat_modify (f : World → World) w (Q : string + unit → list Event → World → Prop) :
  progress w [] (f w) → Q (inr tt) [] (f w) → sat (modify f) w Q.
Proof. intros Hp H. exists []. done. Qed.

Lemma progress_next_draw w : progress w [] (next_draw w).
Proof. destruct (progress_refl w). by constructor. Qed.

Lemma progress_next_tick w : progress w [] (next_tick w).
Proof. destruct (progress_refl w). by constructor. Qed.

Lemma progress_set_logs l w : progress w [] (set_logs l w).
Proof. destruct (progress_refl w). by constructor. Qed.

Lemma sat_random w (Q : string + JS.unit_draw → list Event → World → Prop) :
  Q (inr (randoms (env w) (draws w))) [] (next_draw w) → sat random w Q.
Proof. intros H. exists []. split; [apply progress_next_draw | done]. Qed.

Lemma progress_record e w : is_click e = false → progress w [e] (record e w).
Proof.
  intros He. constructor; try done.
  - simpl. destruct e; try discriminate He; simpl;
      by rewrite andb_false_r, orb_false_r.
  - intros a H%list_elem_of_singleton. by subst e.
Qed.

Lemma sat_emit e w (Q : string + unit → list Event → World → Prop) :
  is_click e = false → Q (inr tt) [e] (record e w) → sat (emit e) w Q.
Proof. intros He H. exists [e]. split; [by apply progress_record | done]. Qed.

Lemma sat_when (c : bool) (m : M unit) w (Q : string + unit → list Event → World → Prop) :
  (c = true → sat m w Q) → (c = false → Q (inr tt) [] w) → sat (when c m) w Q.
Proof. destruct c; simpl; intros H1 H2; [by apply H1 | by apply sat_ret, H2]. Qed.

(** ** Doubles *)

Lemma shift_nearest_even_cases m k :
  0 ≤ m → 0 < k →
  JS.shift_nearest_even m k = m / 2 ^ k
  ∨ (JS.shift_nearest_even m k = m / 2 ^ k + 1 ∧ 2 ^ (k - 1) ≤ m mod 2 ^ k).
Proof.
  intros Hm Hk. unfold JS.shift_nearest_even.
  rewrite Z.shiftr_div_pow2, Z.land_ones, Z.shiftl_1_l by lia.
  destruct (Z.ltb_spec (m mod 2 ^ k) (2 ^ (k - 1))); [by left|].
  destruct (Z.ltb_spec (2 ^ (k - 1)) (m mod 2 ^ k)); [by right|].
  destruct (Z.even (m / 2 ^ k)); [by left | by right].
Qed.

Lemma round53_cases m e :
  0 ≤ m →
  let k := Z.max (Z.log2 m + 1 - 53) (-1074 - e) in
  (k ≤ 0 ∧ JS.round53 m e = JS.Bin m e)
  ∨ (0 < k ∧ ∃ q, JS.round53 m e = JS.Bin q (e + k)
                   ∧ (q = m / 2 ^ k ∨ (q = m / 2 ^ k + 1 ∧ 2 ^ (k - 1) ≤ m mod 2 ^ k))).
Proof.
  intros Hm k. unfold JS.round53. rewrite Z.abs_eq by done. fold k.
  destruct (Z.leb_spec k 0) as [Hk|Hk]; [by left|]. right. split; [done|].
  destruct (Z.eq_dec m 0) as [->|Hne].
  - exists 0. split; [done|]. left. by rewrite Z.div_0_l by lia.
  - exists (JS.shift_nearest_even m k). rewrite Z.sgn_pos by lia.
    split; [by rewrite Z.mul_1_l|]. by apply shift_nearest_even_cases.
Qed.

Lemma log2_lower m : 0 < m → 2 ^ Z.log2 m ≤ m.
Proof. intros Hm. by destruct (Z.log2_spec m Hm). Qed.

Lemma log2_upper m : 0 ≤ m → m < 2 ^ (Z.log2 m + 1).
Proof.
  intros Hm. destruct (Z.eq_dec m 0) as [->|Hne]; [done|].
  destruct (Z.log2_spec m ltac:(lia)) as [_ H]. by rewrite <- Z.add_1_r in H.
Qed.

Lemma pow2_split a b : 0 ≤ a → 0 ≤ b → 2 ^ (a + b) = 2 ^ a * 2 ^ b.
Proof. intros. by rewrite Z.pow_add_r. Qed.

Lemma pow2_gt0 a : 0 ≤ a → 0 < 2 ^ a.
Proof. intros. by apply Z.pow_pos_nonneg. Qed.

(** What is common to the two directions: the bits dropped, the quotient
    and the remainder, and the two ways the exponents can lie. *)
Lemma round53_shape m e E :
  0 ≤ m → -1200 ≤ e → -1074 ≤ E →
  (JS.round53 m e = JS.Bin m e)
  ∨ ∃ k q q0 r,
      0 < k ∧ JS.round53 m e = JS.Bin q (e + k)
      ∧ m = 2 ^ k * q0 + r ∧ 0 ≤ r < 2 ^ k ∧ 0 ≤ q0
      ∧ (q = q0 ∨ (q = q0 + 1 ∧ 2 ^ (k - 1) ≤ r))
      ∧ (e + k ≤ E ∨ (E < e + k ∧ 2 ^ 52 * 2 ^ k ≤ m)).
Proof.
  intros Hm He HE.
  destruct (round53_cases m e Hm) as [[Hk ->]|(Hk & q & -> & Hq)]; [by left|].
  set (k := Z.max (Z.log2 m + 1 - 53) (-1074 - e)) in *. right.
  exists k, q, (m / 2 ^ k), (m mod 2 ^ k).
  pose proof (pow2_gt0 k ltac:(lia)) as HP.
  split; [done|]. split; [done|].
  split; [apply Z.div_mod; lia|]. split; [by apply Z.mod_pos_bound|].
  split; [apply Z.div_pos; lia|]. split; [done|].
  destruct (Z_le_gt_dec (e + k) E) as [HEk|HEk]; [by left|]. right. split; [lia|].
  assert (k = Z.log2 m + 1 - 53) as Ek by lia.
  assert (0 < m) as Hm0.
  { destruct (Z.eq_dec m 0) as [->|]; [|lia]. simpl in Ek. lia. }
  pose proof (log2_lower m Hm0) as Hl.
  replace (Z.log2 m) with (52 + k) in Hl by lia.
  by rewrite pow2_split in Hl by lia.
Qed.

(** Rounding does not cross a double: below a double [M * 2^E] the result
    stays below it, above it the result stays above. *)
Lemma round53_le m e M E :
  0 ≤ m → -1200 ≤ e → 0 ≤ M < 2 ^ 53 → -1074 ≤ E →
  m * 2 ^ (e + 1200) ≤ M * 2 ^ (E + 1200) →
  units (JS.round53 m e) ≤ M * 2 ^ (E + 1200).
Proof.
  intros Hm He HM HE H. unfold units.
  destruct (round53_shape m e E Hm He HE)
    as [->|(k & q & q0 & r & Hk & -> & Hdm & Hr & Hq0 & Hq & Hcase)]; [done|].
  cbn [JS.mant JS.expo].
  pose proof (pow2_gt0 (e + 1200) ltac:(lia)) as HX.
  pose proof (pow2_gt0 k ltac:(lia)) as HP.
  pose proof (pow2_gt0 (k - 1) ltac:(lia)) as HH.
  replace (e + k + 1200) with (k + (e + 1200)) by lia.
  rewrite (pow2_split k) by lia.
  destruct Hcase as [HEk|[HEk Hbig]].
  - replace (E + 1200) with ((E - e - k) + (k + (e + 1200))) in * by lia.
    rewrite (pow2_split (E - e - k)), (pow2_split k) in * by lia.
    pose proof (pow2_gt0 (E - e - k) ltac:(lia)) as HY.
    set (Y := 2 ^ (E - e - k)) in *. set (X := 2 ^ (e + 1200)) in *.
    set (P := 2 ^ k) in *. set (h := 2 ^ (k - 1)) in *.
    clearbody Y X P h.
    assert (m ≤ M * Y * P) as Hm' by nia.
    assert (q ≤ M * Y) as Hgoal by (destruct Hq as [->|[-> Hr']]; nia).
    nia.
  - exfalso.
    assert (2 ^ (E + 1200) ≤ 2 ^ (e + k - 1 + 1200)) as Hmono
      by (apply Z.pow_le_mono_r; lia).
    replace (e + k - 1 + 1200) with ((k - 1) + (e + 1200)) in Hmono by lia.
    rewrite (pow2_split (k - 1)) in Hmono by lia.
    replace k with (1 + (k - 1)) in Hbig by lia.
    rewrite (pow2_split 1) in Hbig by lia.
    pose proof (pow2_gt0 (E + 1200) ltac:(lia)) as HZ.
    change (2 ^ 52) with 4503599627370496 in *. change (2 ^ 1) with 2 in *.
    change (2 ^ 53) with 9007199254740992 in *.
    set (Z1 := 2 ^ (E + 1200)) in *. set (X := 2 ^ (e + 1200)) in *.
    set (h := 2 ^ (k - 1)) in *. clearbody Z1 X h. nia.
Qed.

Lemma round53_ge m e M E :
  0 ≤ m → -1200 ≤ e → 0 ≤ M < 2 ^ 53 → -1074 ≤ E →
  M * 2 ^ (E + 1200) ≤ m * 2 ^ (e + 1200) →
  M * 2 ^ (E + 1200) ≤ units (JS.round53 m e).
Proof.
  intros Hm He HM HE H. unfold units.
  destruct (round53_shape m e E Hm He HE)
    as [->|(k & q & q0 & r & Hk & -> & Hdm & Hr & Hq0 & Hq & Hcase)]; [done|].
  cbn [JS.mant JS.expo].
  pose proof (pow2_gt0 (e + 1200) ltac:(lia)) as HX.
  pose proof (pow2_gt0 k ltac:(lia)) as HP.
  replace (e + k + 1200) with (k + (e + 1200)) by lia.
  rewrite (pow2_split k) by lia.
  destruct Hcase as [HEk|[HEk Hbig]].
  - replace (E + 1200) with ((E - e - k) + (k + (e + 1200))) in * by lia.
    rewrite (pow2_split (E - e - k)), (pow2_split k) in * by lia.
    pose proof (pow2_gt0 (E - e - k) ltac:(lia)) as HY.
    set (Y := 2 ^ (E - e - k)) in *. set (X := 2 ^ (e + 1200)) in *.
    set (P := 2 ^ k) in *. set (h := 2 ^ (k - 1)) in *.
    clearbody Y X P h.
    assert (M * Y * P ≤ m) as Hm' by nia.
    assert (M * Y ≤ q) as Hgoal by (destruct Hq as [->|[-> Hr']]; nia).
    replace (M * (Y * (P * X))) with (M * Y * (P * X)) by ring.
    apply Z.mul_le_mono_nonneg_r; [nia | done].
  - assert (2 ^ (E + 1200) ≤ 2 ^ (e + k - 1 + 1200)) as Hmono
      by (apply Z.pow_le_mono_r; lia).
    replace (e + k - 1 + 1200) with ((k - 1) + (e + 1200)) in Hmono by lia.
    rewrite (pow2_split (k - 1)) in Hmono by lia.
    pose proof (pow2_gt0 (k - 1) ltac:(lia)) as HH.
    assert (2 ^ k = 2 * 2 ^ (k - 1)) as EP.
    { replace k with (1 + (k - 1)) at 1 by lia. by rewrite pow2_split by lia. }
    rewrite EP in *.
    pose proof (pow2_gt0 (E + 1200) ltac:(lia)) as HZ.
    change (2 ^ 52) with 4503599627370496 in *.
    change (2 ^ 53) with 9007199254740992 in *.
    set (Z1 := 2 ^ (E + 1200)) in *. set (X := 2 ^ (e + 1200)) in *.
    set (h := 2 ^ (k - 1)) in *. clearbody Z1 X h.
    assert (4503599627370496 ≤ q0) as Hq0' by nia.
    assert (q0 ≤ q) as Hqq by (destruct Hq as [->|[-> _]]; lia).
    nia.
Qed.

Lemma sample_bounds (r : JS.unit_draw) :
  0 ≤ JS.mant (JS.sample r) < 2 ^ 53
  ∧ -1074 ≤ JS.expo (JS.sample r) ≤ -53.
Proof.
  unfold JS.sample. cbn [JS.mant JS.expo]. rewrite Z.land_ones by lia.
  split; [apply Z.mod_pos_bound; lia | lia].
Qed.

Lemma of_Z_exact (k : Z) : Z.abs k < 2 ^ 53 → JS.of_Z k = JS.Bin k 0.
Proof.
  intros Hk. unfold JS.of_Z, JS.round53.
  assert (Z.log2 (Z.abs k) < 53) as Hl.
  { destruct (Z.eq_dec (Z.abs k) 0) as [->|Hne]; [done|].
    apply Z.log2_lt_pow2; lia. }
  destruct (Z.leb_spec (Z.max (Z.log2 (Z.abs k) + 1 - 53) (-1074 - 0)) 0); [done | lia].
Qed.

Lemma floor_nonneg_expo (q e : Z) :
  0 ≤ q → e ≤ 0 → JS.floor (JS.Bin q e) = q / 2 ^ (- e).
Proof.
  intros Hq He. unfold JS.floor. cbn [JS.mant JS.expo].
  destruct (Z.leb_spec 0 e).
  - replace e with 0 by lia. simpl. by rewrite Z.mul_1_r, Z.div_1_r.
  - by rewrite Z.shiftr_div_pow2 by lia.
Qed.

(** [Math.floor(Math.random() * k)] is one of [0 .. k - 1], in doubles as
    in exact arithmetic: the product never rounds up to [k]. *)
Lemma floor_scale_range (r : JS.unit_draw) (k : Z) :
  0 < k < 2 ^ 53 → 0 ≤ JS.floor_scale r k ≤ k - 1.
Proof.
  intros Hk. unfold JS.floor_scale, JS.mul.
  rewrite of_Z_exact by lia. cbn [JS.mant JS.expo].
  destruct (sample_bounds r) as [Hm He].
  set (mr := JS.mant (JS.sample r)) in *. set (er := JS.expo (JS.sample r)) in *.
  rewrite Z.add_0_r.
  assert (0 ≤ mr * k) as Hmk by nia.
  assert (mr * k < k * 2 ^ (- er)) as Hlt.
  { assert (2 ^ 53 ≤ 2 ^ (- er)) by (apply Z.pow_le_mono_r; lia). nia. }
  assert (k ≤ k * 2 ^ (- er) - mr * k) as Hgap.
  { assert (2 ^ 53 ≤ 2 ^ (- er)) by (apply Z.pow_le_mono_r; lia). nia. }
  destruct (round53_cases (mr * k) er Hmk) as [[Hk' ->]|(Hk' & q & -> & Hq)].
  - rewrite floor_nonneg_expo by lia.
    pose proof (pow2_gt0 (- er) ltac:(lia)) as HP.
    split; [apply Z.div_pos; lia|].
    assert (mr * k / 2 ^ (- er) < k); [|lia].
    apply Z.div_lt_upper_bound; [done|]. lia.
  - set (k' := Z.max (Z.log2 (mr * k) + 1 - 53) (-1074 - er)) in *.
    pose proof (pow2_gt0 k' ltac:(lia)) as HP.
    pose proof (pow2_gt0 (k' - 1) ltac:(lia)) as HH.
    assert (2 ^ k' = 2 * 2 ^ (k' - 1)) as EP.
    { replace k' with (1 + (k' - 1)) at 1 by lia. by rewrite pow2_split by lia. }
    pose proof (Z.div_mod (mr * k) (2 ^ k') ltac:(lia)) as Hdm.
    pose proof (Z.mod_pos_bound (mr * k) (2 ^ k') HP) as Hmb.
    assert (0 ≤ mr * k / 2 ^ k') as Hq0 by (apply Z.div_pos; lia).
    assert (0 ≤ q) as Hq1 by (destruct Hq as [->|[-> _]]; lia).
    assert (e_le : er + k' ≤ 0).
    { destruct (Z_le_gt_dec (Z.log2 (mr * k) + 1 - 53) (-1074 - er)) as [|Hn]; [lia|].
      assert (0 < mr * k) as Hpos.
      { destruct (Z.eq_dec (mr * k) 0) as [E0|]; [|lia].
        unfold k' in Hk'. rewrite E0 in Hk', Hn. change (Z.log2 0) with 0 in *. lia. }
      pose proof (log2_lower _ Hpos) as Hl.
      assert (2 ^ Z.log2 (mr * k) < 2 ^ (53 + - er)) as Hpw.
      { rewrite pow2_split by lia. change (2 ^ 53) with 9007199254740992 in *.
        pose proof (pow2_gt0 (- er) ltac:(lia)). nia. }
      apply Z.pow_lt_mono_r_iff in Hpw; lia. }
    rewrite floor_nonneg_expo by lia.
    pose proof (pow2_gt0 (- (er + k')) ltac:(lia)) as HT.
    split; [apply Z.div_pos; lia|].
    assert (q / 2 ^ (- (er + k')) < k); [|lia].
    apply Z.div_lt_upper_bound; [done|].
    assert (2 ^ (- er) = 2 ^ (- (er + k')) * 2 ^ k') as Esplit.
    { rewrite <- pow2_split by lia. f_equal. lia. }
    rewrite Esplit in Hlt, Hgap.
    destruct (Z_le_gt_dec (Z.log2 (mr * k) + 1 - 53) (-1074 - er)) as [Hsub|Hnorm].
    + (* the result is subnormal *)
      pose proof (log2_upper _ Hmk) as Hu.
      assert (2 ^ (Z.log2 (mr * k) + 1) ≤ 2 ^ (53 + k')) as Hpw
        by (apply Z.pow_le_mono_r; lia).
      rewrite (pow2_split 53) in Hpw by lia.
      assert (2 ^ 53 < 2 ^ (- (er + k'))) as Hbig
        by (apply Z.pow_lt_mono_r; lia).
      change (2 ^ 53) with 9007199254740992 in *.
      set (T := 2 ^ (- (er + k'))) in *. set (P := 2 ^ k') in *.
      set (q0 := mr * k / P) in *. set (rr := mr * k mod P) in *.
      set (h := 2 ^ (k' - 1)) in *. set (L := 2 ^ (Z.log2 (mr * k) + 1)) in *.
      clearbody T P q0 rr h L.
      assert (q0 < 9007199254740992) by nia.
      destruct Hq as [->|[-> _]]; nia.
    + assert (0 < mr * k) as Hpos.
      { destruct (Z.eq_dec (mr * k) 0) as [E0|]; [|lia].
        unfold k' in Hk'. rewrite E0 in Hk', Hnorm. change (Z.log2 0) with 0 in *. lia. }
      pose proof (log2_lower _ Hpos) as Hl.
      replace (Z.log2 (mr * k)) with (53 + (k' - 1)) in Hl by lia.
      rewrite pow2_split in Hl by lia.
      change (2 ^ 53) with 9007199254740992 in *.
      rewrite EP in *.
      set (T := 2 ^ (- (er + k'))) in *.
      set (q0 := mr * k / (2 * 2 ^ (k' - 1))) in *.
      set (rr := mr * k mod (2 * 2 ^ (k' - 1))) in *.
      set (h := 2 ^ (k' - 1)) in *.
      clearbody T q0 rr h.
      assert (h < k) as Hhk by nia.
      destruct Hq as [->|[-> Hr]]; [nia|].
      assert (q0 < k * T) as Hq0' by nia.
      destruct (Z.eq_dec (q0 + 1) (k * T)) as [Eq|]; [|lia].
      exfalso. nia.
Qed.

Lemma round53_nonneg m e :
  0 ≤ m → 0 ≤ JS.mant (JS.round53 m e) ∧ e ≤ JS.expo (JS.round53 m e).
Proof.
  intros Hm. destruct (round53_cases m e Hm) as [[Hk ->]|(Hk & q & -> & Hq)].
  - cbn [JS.mant JS.expo]. lia.
  - cbn [JS.mant JS.expo]. split; [|lia].
    set (k := Z.max (Z.log2 m + 1 - 53) (-1074 - e)) in *.
    pose proof (pow2_gt0 k ltac:(lia)) as HP.
    assert (0 ≤ m / 2 ^ k) by (apply Z.div_pos; lia).
    destruct Hq as [->|[-> _]]; lia.
Qed.

(** [toFixed(6)] in terms of the exact value. *)
Lemma toFixed6_units (a : JS.binary64) :
  0 ≤ JS.mant a → -1200 ≤ JS.expo a →
  JS.toFixed6 a = (2 * 10 ^ 6 * units a + 2 ^ 1200) / 2 ^ 1201.
Proof.
  intros Hm He. unfold JS.toFixed6, units.
  destruct a as [m e]. cbn [JS.mant JS.expo] in *.
  change (2 ^ 1201) with (2 * 2 ^ 1200).
  pose proof (pow2_gt0 1200 ltac:(lia)) as HU.
  destruct (Z.leb_spec 0 e) as [H0|H0].
  - rewrite pow2_split by lia.
    set (V := 2 ^ 1200) in *. clearbody V.
    replace (2 * 10 ^ 6 * (m * (2 ^ e * V)) + V)
      with ((2 * (m * 2 ^ e * 10 ^ 6) + 1) * V) by ring.
    rewrite Z.div_mul_cancel_r by lia.
    set (N := m * 2 ^ e * 10 ^ 6). clearbody N.
    apply Z.div_unique with 1; lia.
  - rewrite Z.shiftr_div_pow2 by lia.
    assert (2 ^ 1200 = 2 ^ (- e) * 2 ^ (e + 1200)) as E1.
    { rewrite <- pow2_split by lia. f_equal. lia. }
    assert (2 ^ (1 - e) = 2 * 2 ^ (- e)) as E2.
    { replace (1 - e) with (1 + - e) by lia. by rewrite pow2_split by lia. }
    pose proof (pow2_gt0 (e + 1200) ltac:(lia)) as HX.
    pose proof (pow2_gt0 (- e) ltac:(lia)) as HN.
    rewrite E2, E1.
    set (X := 2 ^ (e + 1200)) in *. set (Y := 2 ^ (- e)) in *. clearbody X Y.
    replace (2 * (Y * X)) with (2 * Y * X) by ring.
    replace (2 * 10 ^ 6 * (m * X) + Y * X) with ((2 * m * 10 ^ 6 + Y) * X) by ring.
    rewrite Z.div_mul_cancel_r by lia. done.
Qed.

Lemma toFixed6_mono (a b : JS.binary64) :
  0 ≤ JS.mant a → -1200 ≤ JS.expo a → 0 ≤ JS.mant b → -1200 ≤ JS.expo b →
  units a ≤ units b → JS.toFixed6 a ≤ JS.toFixed6 b.
Proof.
  intros. rewrite !toFixed6_units by done.
  apply Z.div_le_mono; [by apply pow2_gt0 | lia].
Qed.

Lemma units_aligned (m1 e1 m2 e2 : Z) :
  -1200 ≤ e1 → -1200 ≤ e2 →
  (m1 * 2 ^ (e1 - Z.min e1 e2) + m2 * 2 ^ (e2 - Z.min e1 e2)) * 2 ^ (Z.min e1 e2 + 1200)
  = m1 * 2 ^ (e1 + 1200) + m2 * 2 ^ (e2 + 1200).
Proof.
  intros H1 H2. rewrite Z.mul_add_distr_r, <- !Z.mul_assoc, <- !pow2_split by lia.
  do 2 f_equal; f_equal; lia.
Qed.

(** [(Math.random() * span + lo).toFixed(6)] lies between [lo.toFixed(6)]
    and [hi.toFixed(6)] for every double [hi] that is at least the exact
    sum [span + lo]. *)
Lemma scale_fixed6_range (r : JS.unit_draw) (span lo hi : JS.binary64) :
  0 ≤ JS.mant span < 2 ^ 53 → -100 ≤ JS.expo span →
  0 ≤ JS.mant lo < 2 ^ 53 → -1074 ≤ JS.expo lo →
  0 ≤ JS.mant hi < 2 ^ 53 → -1074 ≤ JS.expo hi →
  units span + units lo ≤ units hi →
  JS.toFixed6 lo ≤ JS.scale_fixed6 r span lo ≤ JS.toFixed6 hi.
Proof.
  intros Hc Hce Hl Hle Hh Hhe Hsum. unfold JS.scale_fixed6.
  destruct (sample_bounds r) as [Hm He].
  set (R := JS.sample r) in *.
  (* the product *)
  assert (0 ≤ JS.mant R * JS.mant span) as Hp by nia.
  pose proof (round53_nonneg _ (JS.expo R + JS.expo span) Hp) as [Hx0 Hxe].
  assert (units (JS.mul R span) ≤ units span) as Hx.
  { apply round53_le; [done | lia | done | lia |].
    assert (2 ^ (JS.expo span + 1200)
            = 2 ^ (- JS.expo R) * 2 ^ (JS.expo R + JS.expo span + 1200)) as E.
    { rewrite <- pow2_split by lia. f_equal. lia. }
    rewrite E.
    assert (2 ^ 53 ≤ 2 ^ (- JS.expo R)) by (apply Z.pow_le_mono_r; lia).
    pose proof (pow2_gt0 (JS.expo R + JS.expo span + 1200) ltac:(lia)).
    nia. }
  fold (JS.mul R span) in Hx0, Hxe.
  set (x := JS.mul R span) in *.
  assert (0 ≤ units x) as Hxu.
  { unfold units. pose proof (pow2_gt0 (JS.expo x + 1200) ltac:(lia)). nia. }
  (* the sum *)
  unfold JS.add.
  pose proof (units_aligned (JS.mant x) (JS.expo x) (JS.mant lo) (JS.expo lo)
                ltac:(lia) ltac:(lia)) as Hal.
  fold (units x) in Hal. fold (units lo) in Hal.
  set (e := Z.min (JS.expo x) (JS.expo lo)) in *.
  set (s := JS.mant x * 2 ^ (JS.expo x - e) + JS.mant lo * 2 ^ (JS.expo lo - e)) in *.
  assert (0 ≤ s) as Hs.
  { unfold s. pose proof (pow2_gt0 (JS.expo x - e) ltac:(lia)).
    pose proof (pow2_gt0 (JS.expo lo - e) ltac:(lia)). nia. }
  pose proof (round53_nonneg s e Hs) as [Hy0 Hye].
  assert (units lo ≤ units (JS.round53 s e)) as Hlo.
  { apply round53_ge; [done | lia | done | done | fold (units lo); lia]. }
  assert (units (JS.round53 s e) ≤ units hi) as Hhi.
  { apply round53_le; [done | lia | done | done | fold (units hi); lia]. }
  split; apply toFixed6_mono; lia.
Qed.

(** The literals are the doubles nearest to the decimals written, and the
    three spans are what the subtractions give. *)
Lemma literals_nearest :
  Forall (λ '(d, n, den),
            2 ^ 52 ≤ JS.mant d < 2 ^ 53
            ∧ 2 * Z.abs (JS.mant d * den - n * 2 ^ (- JS.expo d)) ≤ den)
    [(JS.d0_005, 5, 1000); (JS.d0_01, 1, 100); (JS.d0_02, 2, 100);
     (JS.d0_03, 3, 100); (JS.d0_05, 5, 100)].
Proof. repeat constructor; vm_compute; congruence. Qed.

Lemma spans :
  JS.sub JS.d0_03 JS.d0_01 = JS.Bin 5764607523034234 (-58)
  ∧ JS.sub JS.d0_05 JS.d0_01 = JS.Bin 5764607523034235 (-57)
  ∧ JS.sub JS.d0_02 JS.d0_005 = JS.Bin 8646911284551352 (-59).
Proof. by vm_compute. Qed.

Lemma index_bridgeAmount_range r : 10000 ≤ Index.bridgeAmount r ≤ 30000.
Proof.
  apply (scale_fixed6_range r (JS.sub JS.d0_03 JS.d0_01) JS.d0_01 JS.d0_03);
    by vm_compute.
Qed.

Lemma universal_bridgeAmount_range r : 10000 ≤ Universal.bridgeAmount r ≤ 50000.
Proof.
  apply (scale_fixed6_range r (JS.sub JS.d0_05 JS.d0_01) JS.d0_01 JS.d0_05);
    by vm_compute.
Qed.

Lemma swapAmount_range r : 5000 ≤ Index.swapAmount r ≤ 20000.
Proof.
  apply (scale_fixed6_range r (JS.sub JS.d0_02 JS.d0_005) JS.d0_005 JS.d0_02);
    by vm_compute.
Qed.

Lemma all_from_spec (P : Z → bool) (n : nat) (m x : Z) :
  all_from P n m = true → m ≤ x < m + Z.of_nat n → P x = true.
Proof.
  revert m. induction n as [|n IH]; intros m H Hx; [lia|].
  simpl in H. apply andb_prop in H as [H1 H2].
  destruct (Z.eq_dec x m) as [->|]; [done|]. apply (IH (m + 1)); [done | lia].
Qed.

Lemma all_from_range (P : Z → bool) (len m x : Z) :
  all_from P (Z.to_nat len) m = true → m ≤ x < m + len → P x = true.
Proof.
  intros H Hx. apply (all_from_spec P (Z.to_nat len) m); [done | lia].
Qed.

Lemma index_bridgeAmount_onto m :
  10000 ≤ m ≤ 30000 → Index.bridgeAmount (draw_for 20000 10000 m) = m.
Proof.
  intros Hm. apply Z.eqb_eq.
  apply (all_from_range (λ m, Index.bridgeAmount (draw_for 20000 10000 m) =? m)
           20001 10000); [by vm_compute | lia].
Qed.

Lemma universal_bridgeAmount_onto m :
  10000 ≤ m ≤ 50000 → Universal.bridgeAmount (draw_for 40000 10000 m) = m.
Proof.
  intros Hm. apply Z.eqb_eq.
  apply (all_from_range (λ m, Universal.bridgeAmount (draw_for 40000 10000 m) =? m)
           40001 10000); [by vm_compute | lia].
Qed.

(** ** Primitives of the two files *)

Section Primitives.
Variable handle : MenuAction → World → World.
Variable addLog : string → LogType → World → World.

Hypothesis addLog_frame : ∀ s t w, ∃ l, addLog s t w = set_logs l w.
Hypothesis handle_frame : ∀ a w, ∃ l,
  handle a w
  = set_logs l (match a with
                | StopActivity =>
                    if activityRunning w then set_shouldStop true (record (Clicked a) w)
                    else record (Clicked a) w
                | _ => record (Clicked a) w
                end).

Lemma progress_addLog s t w : progress w [] (addLog s t w).
Proof. destruct (addLog_frame s t w) as [l ->]. apply progress_set_logs. Qed.

Lemma progress_handle a w :
  (∃ t, a ∈ r_ui (replies (env w) t)) →
  progress w [Clicked a] (handle a w).
Proof.
  intros Ht. destruct (handle_frame a w) as [l ->].
  constructor.
  9: { intros b Hb%list_elem_of_singleton. by injection Hb as ->. }
  all: destruct a; simpl; try done.
  all: destruct (activityRunning w) eqn:E; simpl;
    rewrite ?E, ?orb_false_r, ?orb_true_r; done.
Qed.

Lemma progress_handle_all (l : list MenuAction) w :
  (∀ a, a ∈ l → ∃ t, a ∈ r_ui (replies (env w) t)) →
  progress w (Clicked <$> l) (foldl (λ w a, handle a w) w l).
Proof.
  revert w. induction l as [|a l IH]; intros w Hl; [apply progress_refl|].
  assert (progress w [Clicked a] (handle a w)) as Hp.
  { apply progress_handle, Hl. by left. }
  refine (progress_trans w [Clicked a] _ (list_fmap _ _ Clicked l) _ Hp _). apply IH.
  intros b Hb. rewrite (pg_env _ _ _ Hp). apply Hl. by right.
Qed.

Lemma progress_resume w :
  progress w (Clicked <$> r_ui (replies (env w) (tick w)))
    (foldl (λ w a, handle a w) (next_tick w) (r_ui (replies (env w) (tick w)))).
Proof.
  refine (progress_trans w [] _ (list_fmap _ _ Clicked _) _ (progress_next_tick w) _).
  apply progress_handle_all. intros a Ha. by exists (tick w).
Qed.

Lemma clicks_are_clicks (l : list MenuAction) :
  Forall (λ e, is_click e = true) (Clicked <$> l).
Proof. induction l; constructor; done. Qed.
End Primitives.

Lemma index_addLog_frame s t w : ∃ l, Index.addLog s t w = set_logs l w.
Proof. by eexists. Qed.

Lemma universal_addLog_frame s t w : ∃ l, Universal.addLog s t w = set_logs l w.
Proof. by eexists. Qed.

Lemma index_handle_frame a w : ∃ l,
  Index.handleMenuAction a w
  = set_logs l (match a with
                | StopActivity =>
                    if activityRunning w then set_shouldStop true (record (Clicked a) w)
                    else record (Clicked a) w
                | _ => record (Clicked a) w
                end).
Proof.
  destruct a; unfold Index.handleMenuAction; simpl;
    destruct (activityRunning w); simpl; try (by eexists).
  all: exists (transactionLogs w); by destruct w.
Qed.

Lemma universal_handle_frame a w : ∃ l,
  Universal.onMenuSelect a w
  = set_logs l (match a with
                | StopActivity =>
                    if activityRunning w then set_shouldStop true (record (Clicked a) w)
                    else record (Clicked a) w
                | _ => record (Clicked a) w
                end).
Proof.
  destruct a; unfold Universal.onMenuSelect; simpl;
    destruct (activityRunning w); simpl; try (by eexists).
  all: exists (transactionLogs w); by destruct w.
Qed.

Lemma index_sat_log s t w (Q : string + unit → list Event → World → Prop) :
  Q (inr tt) [] (Index.addLog s t w) → sat (Index.log s t) w Q.
Proof. apply sat_modify, (progress_addLog _ index_addLog_frame). Qed.

Lemma universal_sat_log s t w (Q : string + unit → list Event → World → Prop) :
  Q (inr tt) [] (Universal.addLog s t w) → sat (Universal.log s t) w Q.
Proof. apply sat_modify, (progress_addLog _ universal_addLog_frame). Qed.

Lemma index_sat_await_call w :
  sat Index.await_call w (λ r ext w',
    Forall (λ e, is_click e = true) ext ∧ r = call_result w).
Proof.
  unfold sat, Index.await_call, Index.resume, call_result.
  pose proof (progress_resume _ index_handle_frame w) as Hp.
  pose proof (clicks_are_clicks (r_ui (replies (env w) (tick w)))) as Hc.
  destruct (r_reply (replies (env w) (tick w))); eauto.
Qed.

Lemma index_sat_await_timer w :
  sat Index.await_timer w (λ r ext w',
    Forall (λ e, is_click e = true) ext ∧ r = timer_result w).
Proof.
  unfold sat, Index.await_timer, Index.resume, timer_result.
  pose proof (progress_resume _ index_handle_frame w) as Hp.
  pose proof (clicks_are_clicks (r_ui (replies (env w) (tick w)))) as Hc.
  destruct (r_fault (replies (env w) (tick w))); eauto.
Qed.

Lemma universal_sat_await_call w :
  sat Universal.await_call w (λ r ext w',
    Forall (λ e, is_click e = true) ext ∧ r = call_result w).
Proof.
  unfold sat, Universal.await_call, Universal.resume, call_result.
  pose proof (progress_resume _ universal_handle_frame w) as Hp.
  pose proof (clicks_are_clicks (r_ui (replies (env w) (tick w)))) as Hc.
  destruct (r_reply (replies (env w) (tick w))); eauto.
Qed.

Lemma universal_sat_await_timer w :
  sat Universal.await_timer w (λ r ext w',
    Forall (λ e, is_click e = true) ext ∧ r = timer_result w).
Proof.
  unfold sat, Universal.await_timer, Universal.resume, timer_result.
  pose proof (progress_resume _ universal_handle_frame w) as Hp.
  pose proof (clicks_are_clicks (r_ui (replies (env w) (tick w)))) as Hc.
  destruct (r_fault (replies (env w) (tick w))); eauto.
Qed.
Lemma sat_bind' {A B} (m : M A) (k : A → M B) w (Q : string + B → list Event → World → Prop) :
  sat m w (λ r ext w',
    match r with
    | inr a => sat (k a) w' (λ r2 ext2 w2, Q r2 (ext ++ ext2)%list w2)
    | inl e => Q (inl e) ext w'
    end) →
  sat (bind m k) w Q.
Proof. apply (sat_bind m k). Qed.

(** The rule of [for_loop]: [N w - b] bounds the iterations left, [Spec] is
    established on exit and carried backwards over one iteration. *)
Section ForLoop.
Variable Spec : nat → World → string + unit → list Event → World → Prop.
Variable Pre : World → Prop.
Variable N : World → nat.
Variable cond : nat → World → bool.
Variable body : nat → M unit.

Hypothesis Pre_stable : ∀ w ext w', progress w ext w' → Pre w → Pre w'.
Hypothesis N_stable : ∀ w ext w', progress w ext w' → N w' = N w.
Hypothesis cond_bound : ∀ b w, cond b w = true → (b < N w)%nat.
Hypothesis exit : ∀ b w, Pre w → cond b w = false → Spec b w (inr tt) [] w.
Hypothesis step : ∀ b w, Pre w → cond b w = true →
  sat (body b) w (λ r1 ext1 w1,
    match r1 with
    | inl e => Spec b w (inl e) ext1 w1
    | inr _ => ∀ r2 ext2 w2, progress w1 ext2 w2 →
               Spec (b + 1)%nat w1 r2 ext2 w2 → Spec b w r2 (ext1 ++ ext2)%list w2
    end).

Lemma sat_for_loop fuel : ∀ b w,
  Pre w → (N w - b ≤ fuel)%nat → sat (for_loop fuel cond body b) w (Spec b w).
Proof.
  induction fuel as [|fuel IH]; intros b w HP Hf.
  - unfold sat. simpl. destruct (cond b w) eqn:Hc.
    + apply cond_bound in Hc. lia.
    + exists []. split; [apply progress_refl | by apply exit].
  - unfold sat. simpl. destruct (cond b w) eqn:Hc.
    + apply sat_bind'. eapply sat_mono; [by apply step|].
      intros [e|[]] ext1 w1 Hp H; [done|].
      eapply sat_mono.
      * apply IH; [by eapply Pre_stable|].
        rewrite (N_stable _ _ _ Hp). apply cond_bound in Hc. lia.
      * intros r2 ext2 w2 Hp2 H2.
        replace (Datatypes.S b) with (b + 1)%nat in H2 by lia. eauto.
    + exists []. split; [apply progress_refl | by apply exit].
Qed.
End ForLoop.

(** ** Symbolic execution *)

Lemma clicks_Forall (P : Event → Prop) (l : list Event) :
  (∀ a, P (Clicked a)) → Forall (λ e, is_click e = true) l → Forall P l.
Proof.
  intros HP Hl. eapply Forall_impl; [exact Hl|].
  intros [] H; try discriminate H. apply HP.
Qed.

Ltac wp_await :=
  first
    [ eapply sat_mono; [apply index_sat_await_call|]
    | eapply sat_mono; [apply universal_sat_await_call|] ];
  let r := fresh "r" in let ext := fresh "ext" in let w' := fresh "w" in
  let Hp := fresh "Hp" in let Hc := fresh "Hc" in
  intros r ext w' Hp [Hc _]; destruct r.

Ltac wp_step :=
  first
    [ apply sat_bind | apply sat_try_catch | apply sat_ret | apply sat_throw
    | apply sat_get | apply sat_now | apply sat_random
    | apply sat_emit; [reflexivity|]
    | apply index_sat_log | apply universal_sat_log
    | wp_await
    | match goal with |- sat (if ?c then _ else _) _ _ => destruct c end ];
  cbv beta iota zeta.

Ltac wp := repeat wp_step.

Ltac events :=
  rewrite ?Forall_app, ?Forall_cons, ?Forall_nil;
  repeat split;
  first [ done | by (eapply clicks_Forall; [|eassumption]) | idtac ].

(** ** Timers *)

Lemma fault_of_timer w : fault_of w (timer_result w).
Proof.
  unfold fault_of, timer_result. intros e H.
  exists (tick w). destruct (r_fault _); [by injection H as -> | done].
Qed.

Lemma no_fault_timer w : no_fault (env w) → timer_result w = inr tt.
Proof. unfold timer_result. intros H. by rewrite H. Qed.

Lemma index_sat_sleep ms w :
  sat (Index.sleep ms) w (timer_post w ms ms).
Proof.
  unfold Index.sleep, timer_post. apply sat_bind, sat_emit; [done|].
  eapply sat_mono; [apply index_sat_await_timer|].
  intros r ext w' Hp [Hc ->].
  split; [apply (fault_of_timer (record (Slept ms) w))|].
  split; [apply (no_fault_timer (record (Slept ms) w))|].
  exists ms, ext. split; [lia | done].
Qed.

Lemma universal_sat_sleep ms w :
  sat (Universal.sleep ms) w (timer_post w ms ms).
Proof.
  unfold Universal.sleep, timer_post. apply sat_bind, sat_emit; [done|].
  eapply sat_mono; [apply universal_sat_await_timer|].
  intros r ext w' Hp [Hc ->].
  split; [apply (fault_of_timer (record (Slept ms) w))|].
  split; [apply (no_fault_timer (record (Slept ms) w))|].
  exists ms, ext. split; [lia | done].
Qed.

Lemma timer_post_weaken w w0 lo hi lo' hi' r ext w' :
  env w0 = env w → lo' ≤ lo → hi ≤ hi' →
  timer_post w0 lo hi r ext w' → timer_post w lo' hi' r ext w'.
Proof.
  unfold timer_post, fault_of. intros -> Hlo Hhi (Hf & Hn & ms & cl & Hms & Hext).
  split; [done|]. split; [done|]. exists ms, cl. split; [lia | done].
Qed.

Lemma index_sat_sleepRandom lo hi w :
  lo ≤ hi → hi - lo < 2 ^ 53 - 1 → sat (Index.sleepRandom lo hi) w (timer_post w lo hi).
Proof.
  intros Hle Hlt. unfold Index.sleepRandom. apply sat_bind, sat_random.
  eapply sat_mono; [apply index_sat_sleep|].
  intros r ext w' Hp. apply timer_post_weaken; [done| |];
    pose proof (floor_scale_range (randoms (env w) (draws w)) (hi - lo + 1)); lia.
Qed.

Lemma universal_sat_sleepRandom lo hi w :
  lo ≤ hi → hi - lo < 2 ^ 53 - 1 →
  sat (Universal.sleepRandom lo hi) w (timer_post w lo hi).
Proof.
  intros Hle Hlt. unfold Universal.sleepRandom. apply sat_bind, sat_random.
  eapply sat_mono; [apply universal_sat_sleep|].
  intros r ext w' Hp. apply timer_post_weaken; [done| |];
    pose proof (floor_scale_range (randoms (env w) (draws w)) (hi - lo + 1)); lia.
Qed.

(** ** Executors *)

Lemma sat_index_newWallet wa pk w (Q : string + string → list Event → World → Prop) :
  (∀ r, Q r [] w) → sat (Index.newWallet wa pk) w Q.
Proof.
  intros H. unfold Index.newWallet.
  destruct (pk ≫= wa); [by apply sat_ret | by apply sat_throw].
Qed.

Lemma sat_universal_newWallet wa pk w (Q : string + string → list Event → World → Prop) :
  (∀ r, Q r [] w) → sat (Universal.newWallet wa pk) w Q.
Proof.
  intros H. unfold Universal.newWallet.
  destruct (pk ≫= wa); [by apply sat_ret | by apply sat_throw].
Qed.

Lemma index_checkAndApprove_spec signer tokenAddr spender amountWei accountIndex note w :
  sat (Index.checkAndApproveIfNeeded signer tokenAddr spender amountWei accountIndex note) w
    helper_post.
Proof.
  unfold Index.checkAndApproveIfNeeded, helper_post.
  wp; (split; [eauto|]); events.
Qed.

Lemma sat_universal_getNextNonce w :
  sat Universal.getNextNonce w (λ r ext w', Forall (λ e, is_click e = true) ext).
Proof. unfold Universal.getNextNonce. wp; events. Qed.

Ltac wp_nonce :=
  eapply sat_mono; [apply sat_universal_getNextNonce|];
  let r := fresh "r" in let ext := fresh "ext" in let w' := fresh "w" in
  let Hp := fresh "Hp" in let Hc := fresh "Hc" in
  intros r ext w' Hp Hc; destruct r; cbv beta iota zeta.

Lemma universal_checkAndApprove_spec signer tokenAddr spender amountWei accountIdx note w :
  sat (Universal.checkAndApprove signer tokenAddr spender amountWei accountIdx note) w
    helper_post.
Proof.
  unfold Universal.checkAndApprove, helper_post.
  repeat first [wp_nonce | wp_step]; (split; [eauto|]); events.
Qed.

Lemma no_deposit_deposit_of amt (l : list Event) :
  Forall (λ e, is_deposit e = false) l → Forall (deposit_of amt) l.
Proof.
  intros Hl. eapply Forall_impl; [exact Hl|].
  intros [| |[]| |] H; try discriminate H; done.
Qed.

Ltac wp_wallet :=
  first [apply sat_index_newWallet | apply sat_universal_newWallet];
  let r := fresh "r" in intros r; destruct r; cbv beta iota zeta.

Ltac wp_helper :=
  first
    [ eapply sat_mono; [apply index_checkAndApprove_spec|]
    | eapply sat_mono; [apply universal_checkAndApprove_spec|] ];
  let r := fresh "r" in let ext := fresh "ext" in let w' := fresh "w" in
  let Hp := fresh "Hp" in let b := fresh "ok" in
  let Hi := fresh "Hi" in let Hd := fresh "Hd" in
  intros r ext w' Hp ([b ->] & Hi & Hd); cbv beta iota zeta.

Ltac wp_exec := repeat first [wp_wallet | wp_helper | wp_nonce | wp_step].

Ltac exec_events :=
  (split; [eauto|]); eexists; (split; [reflexivity|]);
  rewrite ?Forall_app, ?Forall_cons, ?Forall_nil;
  repeat split;
  first [ done
        | by (eapply clicks_Forall; [|eassumption])
        | by apply no_deposit_deposit_of
        | idtac ].

Lemma index_bridge_spec wa pk proxyUrl i w :
  sat (Index.performBridgeSimple wa pk proxyUrl i) w
    (executor_post (CallBridge pk proxyUrl i)
       (JS.parseUnits18 (Index.bridgeAmount (randoms (env w) (draws w))))).
Proof.
  unfold Index.performBridgeSimple, executor_post.
  wp_exec; exec_events.
Qed.

Lemma index_swap_spec wa pk proxyUrl i w :
  sat (Index.performSwapSimple wa pk proxyUrl i) w
    (executor_post (CallSwap pk proxyUrl i) 0).
Proof.
  unfold Index.performSwapSimple, executor_post.
  wp_exec; exec_events.
Qed.

Lemma universal_bridge_spec wa pk proxyUrl i w :
  sat (Universal.performBridgeSimple wa pk proxyUrl i) w
    (executor_post (CallBridge pk proxyUrl i)
       (JS.parseUnits18 (Universal.bridgeAmount (randoms (env w) (draws w))))).
Proof.
  unfold Universal.performBridgeSimple, executor_post.
  wp_exec; exec_events.
Qed.

Lemma universal_swap_spec wa pk proxyUrl i w :
  sat (Universal.performSwapSimple wa pk proxyUrl i) w
    (executor_post (CallSwap pk proxyUrl i) 0).
Proof.
  unfold Universal.performSwapSimple, executor_post.
  wp_exec; exec_events.
Qed.

(** ** Winding down *)

Lemma clicks_quiet (l : list Event) :
  Forall (λ e, is_click e = true) l → calls l = [] ∧ sleeps l = 0.
Proof. intros H. by apply inner_quiet, (clicks_Forall inner_event). Qed.

Lemma winds_down_inner K (l : list Event) :
  0 ≤ K → Forall inner_event l → winds_down K l.
Proof.
  intros HK H. apply inner_after_stop, inner_quiet in H as [Hc Hs].
  split; [done | lia].
Qed.

Lemma winds_down_cons K e (l : list Event) :
  is_stop e = false → winds_down K l → winds_down K (e :: l).
Proof. unfold winds_down. simpl. by intros ->. Qed.

Lemma winds_down_mono K K' (l : list Event) : K ≤ K' → winds_down K l → winds_down K' l.
Proof. intros HK [Hc Hs]. split; [done | lia]. Qed.

Lemma winds_down_app Ka Kb' K (a b : list Event) :
  winds_down Ka a →
  (existsb is_stop a = true → calls b = [] ∧ sleeps b ≤ Kb') →
  (existsb is_stop a = false → winds_down K b) →
  Ka + Kb' ≤ K →
  winds_down K (a ++ b).
Proof.
  intros [Hc Hs] Hb1 Hb2 HK. unfold winds_down. rewrite after_stop_app.
  destruct (existsb is_stop a).
  - destruct Hb1 as [Hcb Hsb]; [done|].
    rewrite calls_app, sleeps_app, Hc, Hcb. split; [done | lia].
  - by apply Hb2.
Qed.

Lemma stop_sticks w ext w' :
  progress w ext w' → activityRunning w = true →
  shouldStop w = true ∨ existsb is_stop ext = true → shouldStop w' = true.
Proof.
  intros Hp Hr H. rewrite (pg_stop _ _ _ Hp), Hr.
  destruct H as [-> | ->]; [done | by rewrite orb_true_r].
Qed.

Lemma winds_down_loop K w a w1 b :
  progress w a w1 → activityRunning w = true →
  winds_down K a → winds_down K b → (shouldStop w1 = true → b = []) →
  winds_down K (a ++ b).
Proof.
  intros Hp Hr Ha Hb Hs. destruct (existsb is_stop a) eqn:E.
  - rewrite Hs, app_nil_r; [done|]. eapply stop_sticks; eauto.
  - unfold winds_down. by rewrite after_stop_app, E.
Qed.

Lemma piece_ok_nil K K' w : 0 ≤ K → 0 ≤ K' → piece_ok K K' w [].
Proof. intros HK HK'. split; [by split | done]. Qed.

Lemma piece_ok_app Ka Ka' Kb Kb' K K' w a w1 b :
  progress w a w1 → activityRunning w = true →
  piece_ok Ka Ka' w a → piece_ok Kb Kb' w1 b →
  Ka + Kb' ≤ K → Kb ≤ K → Ka' + Kb' ≤ K' →
  piece_ok K K' w (a ++ b).
Proof.
  intros Hp Hr [Ha Ha'] [Hb Hb'] H1 H2 H3. split.
  - eapply winds_down_app; [exact Ha | | | exact H1].
    + intros Hs. apply Hb'. eapply stop_sticks; eauto.
    + intros _. by eapply winds_down_mono.
  - intros Hs. destruct (Ha' Hs) as [Hca Hsa].
    destruct Hb' as [Hcb Hsb]; [eapply stop_sticks; eauto|].
    rewrite calls_app, sleeps_app, Hca, Hcb. split; [done | lia].
Qed.

Lemma piece_ok_timer K' w0 w lo hi r ext w' :
  hi ≤ K' → timer_post w0 lo hi r ext w' → piece_ok 0 K' w ext.
Proof.
  intros HK (_ & _ & ms & cl & Hms & -> & Hcl).
  pose proof (clicks_quiet cl Hcl) as [Hc Hs]. split.
  - apply winds_down_cons; [done|].
    apply winds_down_inner; [done | by apply (clicks_Forall inner_event)].
  - intros _. unfold calls in *. simpl. rewrite Hc. split; [done | lia].
Qed.

Lemma fault_of_env {A} w w' (r : string + A) : env w' = env w → fault_of w' r → fault_of w r.
Proof. unfold fault_of. by intros ->. Qed.

(** ** The loop over the repetitions *)

Section InnerLoop.
Variable exec : M bool.
Variable sleepR : M unit.
Variable count reps : World → Z.
Variable entry : Event.

Hypothesis count_stable : ∀ w ext w', progress w ext w' → count w' = count w.
Hypothesis entry_call : is_call entry = true.
Hypothesis exec_spec : ∀ w, ∃ amt, sat exec w (executor_post entry amt).
Hypothesis sleep_spec : ∀ w, sat sleepR w (timer_post w 8000 20000).


Lemma inner_loop_winds fuel b w :
  activityRunning w = true → (Z.to_nat (count w) - b ≤ fuel)%nat →
  sat (for_loop fuel (repeat_cond count) (repeat_body exec reps sleepR) b) w (inner_loop_wind w).
Proof.
  apply (sat_for_loop (λ _ w, inner_loop_wind w)
           (λ w, activityRunning w = true) (λ w, Z.to_nat (count w))).
  - intros w0 ext w' Hp. by rewrite (pg_running _ _ _ Hp).
  - intros w0 ext w' Hp. by rewrite (count_stable _ _ _ Hp).
  - intros b0 w0 [H _]%andb_prop. apply Z.ltb_lt in H. lia.
  - intros b0 w0 Hr Hc. split; [done|]. split; [by split|done].
  - intros b0 w0 Hr [Hlt Hst]%andb_prop. apply negb_true_iff in Hst.
    unfold repeat_body. apply sat_bind.
    destruct (exec_spec w0) as [amt Hex].
    eapply sat_mono; [exact Hex|].
    intros r ext1 w1 Hp1 ([ok ->] & rest & -> & Hin & _).
    assert (winds_down 0 (entry :: rest)) as Hw1.
    { apply winds_down_cons; [|by apply winds_down_inner].
      by destruct entry. }
    apply sat_bind, sat_get, sat_when.
    + intros _. eapply sat_mono; [apply sleep_spec|].
      intros r ext2 w2 Hp2 Ht.
      assert (winds_down 20000 ((entry :: rest) ++ [] ++ ext2)) as Hw.
      { pose proof (piece_ok_timer 20000 w1 (set_shouldStop true w1) 8000 20000
                      r ext2 w2 ltac:(lia) Ht) as [Hwt Hall].
        apply (winds_down_app 0 20000);
          [exact Hw1 | intros _; by apply Hall
          | intros _; apply (winds_down_mono 0); [lia | exact Hwt] | lia]. }
      destruct r as [e|[]].
      * split; [|split; [done | congruence]].
        eapply fault_of_env; [|apply Ht]. by rewrite (pg_env _ _ _ Hp1).
      * intros r2 ext3 w3 Hp3 (Hf & Hw3 & Hs3).
        assert (progress w0 ((entry :: rest) ++ [] ++ ext2) w2) as Hp02
          by eauto using progress_trans, progress_refl.
        split; [|split; [|congruence]].
        { eapply fault_of_env; [|exact Hf]. by rewrite (pg_env _ _ _ Hp02). }
        eapply winds_down_loop; eauto. intros H. by apply Hs3.
    + intros _ r2 ext3 w3 Hp3 (Hf & Hw3 & Hs3).
      split; [|split; [|congruence]].
      { eapply fault_of_env; [|exact Hf]. by rewrite (pg_env _ _ _ Hp1). }
      simpl. rewrite app_nil_r.
      apply (winds_down_loop 20000 w0 (entry :: rest) w1); eauto.
      * apply (winds_down_mono 0); [lia | done].
      * intros H. by apply Hs3.
Qed.
End InnerLoop.

(** ** Runs that nobody interrupts *)

Lemma quiet_stable w ext w' : progress w ext w' → quiet w → quiet w'.
Proof.
  intros Hp (Hs & Hf & Hst). unfold quiet. rewrite (pg_env _ _ _ Hp).
  split; [done|]. split; [done|].
  rewrite (pg_stop _ _ _ Hp), Hst, (no_stop_clicks (env w) ext Hs (pg_clicks _ _ _ Hp)).
  by rewrite andb_false_r.
Qed.

Lemma calls_entry entry (rest : list Event) :
  is_call entry = true → Forall inner_event rest → calls (entry :: rest) = [entry].
Proof.
  intros He Hr. apply inner_quiet in Hr as [Hc _].
  unfold calls in *. simpl. by rewrite He, Hc.
Qed.

Lemma calls_timer w lo hi r ext w' : timer_post w lo hi r ext w' → calls ext = [].
Proof.
  intros (_ & _ & ms & cl & _ & -> & Hcl). apply clicks_quiet in Hcl as [Hc _].
  unfold calls in *. simpl. by rewrite Hc.
Qed.

Section InnerLoopQuiet.
Variable exec : M bool.
Variable sleepR : M unit.
Variable count reps : World → Z.
Variable entry : Event.

Hypothesis count_stable : ∀ w ext w', progress w ext w' → count w' = count w.
Hypothesis entry_call : is_call entry = true.
Hypothesis exec_spec : ∀ w, ∃ amt, sat exec w (executor_post entry amt).
Hypothesis sleep_spec : ∀ w, sat sleepR w (timer_post w 8000 20000).


Lemma inner_loop_quiet fuel b w :
  quiet w → (Z.to_nat (count w) - b ≤ fuel)%nat →
  sat (for_loop fuel (repeat_cond count) (repeat_body exec reps sleepR) b) w (λ r ext _,
    r = inr tt ∧ calls ext = replicate (Z.to_nat (count w) - b) entry).
Proof.
  apply (sat_for_loop
           (λ b w r ext _, r = inr tt ∧ calls ext = replicate (Z.to_nat (count w) - b) entry)
           quiet (λ w, Z.to_nat (count w))).
  - apply quiet_stable.
  - intros w0 ext w' Hp. by rewrite (count_stable _ _ _ Hp).
  - intros b0 w0 [H _]%andb_prop. apply Z.ltb_lt in H. lia.
  - intros b0 w0 (_ & _ & Hst) Hc. split; [done|].
    unfold repeat_cond in Hc. rewrite Hst, andb_true_r in Hc. apply Z.ltb_ge in Hc.
    by replace (Z.to_nat (count w0) - b0)%nat with 0%nat by lia.
  - intros b0 w0 Hq [Hlt _]%andb_prop. apply Z.ltb_lt in Hlt.
    unfold repeat_body. apply sat_bind.
    destruct (exec_spec w0) as [amt Hex].
    eapply sat_mono; [exact Hex|].
    intros r ext1 w1 Hp1 ([ok ->] & rest & -> & Hin & _).
    pose proof (calls_entry entry rest entry_call Hin) as Hc1.
    assert (∀ ext2 w2 (r2 : string + unit) ext3 (w3 : World),
               progress w1 ext2 w2 → calls ext2 = [] →
               r2 = inr tt ∧ calls ext3 = replicate (Z.to_nat (count w2) - (b0 + 1)) entry →
               r2 = inr tt
               ∧ calls (((entry :: rest) ++ [] ++ ext2) ++ ext3)
                 = replicate (Z.to_nat (count w0) - b0) entry) as Hstep.
    { intros ext2 w2 r2 ext3 w3 Hp2 Hc2 [-> Hc3]. split; [done|].
      rewrite !calls_app, Hc1, Hc2, Hc3.
      rewrite (count_stable _ _ _ Hp2), (count_stable _ _ _ Hp1).
      replace (Z.to_nat (count w0) - b0)%nat
        with (Datatypes.S (Z.to_nat (count w0) - (b0 + 1))) by lia.
      done. }
    apply sat_bind, sat_get, sat_when.
    + intros _. eapply sat_mono; [apply sleep_spec|].
      intros r ext2 w2 Hp2 Ht.
      pose proof (calls_timer _ _ _ _ _ _ Ht) as Hc2.
      destruct Ht as (_ & Hnf & _). rewrite Hnf.
      * intros r2 ext3 w3 Hp3 H3. by eapply Hstep.
      * rewrite (pg_env _ _ _ Hp1). apply Hq.
    + intros _ r2 ext3 w3 Hp3 H3. eapply (Hstep [] w1); eauto using progress_refl.
Qed.
End InnerLoopQuiet.

(** ** One account *)

Lemma piece_ok_mono Ka Ka' K K' w (ext : list Event) :
  Ka ≤ K → Ka' ≤ K' → piece_ok Ka Ka' w ext → piece_ok K K' w ext.
Proof.
  intros H1 H2 [Hw Ha]. split; [by eapply winds_down_mono|].
  intros Hs. destruct (Ha Hs). split; [done | lia].
Qed.

Lemma piece_ok_seq Ka Ka' Kb Kb' w a w1 b :
  progress w a w1 → activityRunning w = true →
  piece_ok Ka Ka' w a → piece_ok Kb Kb' w1 b →
  piece_ok (Z.max (Ka + Kb') Kb) (Ka' + Kb') w (a ++ b).
Proof. intros Hp Hr Ha Hb. eapply piece_ok_app; eauto; lia. Qed.

Lemma piece_ok_loop w r (ext : list Event) w' :
  inner_loop_wind w r ext w' → piece_ok 20000 0 w ext.
Proof.
  intros (_ & Hw & Hs). split; [done|].
  intros H. by destruct (Hs H) as [-> _].
Qed.

Lemma index_bridge_loop_winds wa pk proxyUrl i fuel w :
  activityRunning w = true → (Z.to_nat (Index.bridgeCount w) ≤ fuel)%nat →
  sat (for_loop fuel
         (λ b w, (Z.of_nat b <? Index.bridgeCount w) && negb (shouldStop w))
         (λ b, _ ← Index.performBridgeSimple wa pk proxyUrl i;
               w ← get;
               when (Z.of_nat b <? bridgeRepetitions (dailyActivityConfig w) - 1)
                 (Index.sleepRandom 8000 20000))
         0%nat) w (inner_loop_wind w).
Proof.
  intros Hr Hfuel.
  apply (inner_loop_winds (Index.performBridgeSimple wa pk proxyUrl i)
           (Index.sleepRandom 8000 20000) Index.bridgeCount
           (λ w, bridgeRepetitions (dailyActivityConfig w)) (CallBridge pk proxyUrl i));
    try done.
  - intros w0 ext w' Hp. unfold Index.bridgeCount. by rewrite (pg_config _ _ _ Hp).
  - intros w0. eexists. apply index_bridge_spec.
  - intros w0. by apply index_sat_sleepRandom.
  - lia.
Qed.

Lemma index_swap_loop_winds wa pk proxyUrl i fuel w :
  activityRunning w = true → (Z.to_nat (Index.swapCount w) ≤ fuel)%nat →
  sat (for_loop fuel
         (λ s w, (Z.of_nat s <? Index.swapCount w) && negb (shouldStop w))
         (λ s, _ ← Index.performSwapSimple wa pk proxyUrl i;
               w ← get;
               when (Z.of_nat s <? swapRepetitions (dailyActivityConfig w) - 1)
                 (Index.sleepRandom 8000 20000))
         0%nat) w (inner_loop_wind w).
Proof.
  intros Hr Hfuel.
  apply (inner_loop_winds (Index.performSwapSimple wa pk proxyUrl i)
           (Index.sleepRandom 8000 20000) Index.swapCount
           (λ w, swapRepetitions (dailyActivityConfig w)) (CallSwap pk proxyUrl i));
    try done.
  - intros w0 ext w' Hp. unfold Index.swapCount. by rewrite (pg_config _ _ _ Hp).
  - intros w0. eexists. apply index_swap_spec.
  - intros w0. by apply index_sat_sleepRandom.
  - lia.
Qed.

Lemma piece_ok_same K K' w0 w (ext : list Event) :
  shouldStop w0 = shouldStop w → piece_ok K K' w0 ext → piece_ok K K' w ext.
Proof. unfold piece_ok. by intros ->. Qed.

Lemma account_sleeps_intro lo i N pre g cl mid post r2 r4 w2 w4 (w2' w4' : World) :
  timer_post w2 lo 15000 r2 (Slept g :: cl) w2' →
  ((i + 1 < N)%nat → timer_post w4 30000 30000 r4 post w4') →
  account_sleeps lo i N (pre ++ (Slept g :: cl) ++ mid ++ post).
Proof.
  intros (_ & _ & ms & cl' & Hms & [= -> ->] & Hcl) Hpost.
  exists pre, ms, (cl' ++ mid)%list, post. split; [|split; [done|]].
  - simpl. by rewrite <- app_assoc.
  - intros Hlt. destruct (Hpost Hlt) as (_ & _ & ms4 & cl4 & Hms4 & -> & Hcl4).
    exists cl4. replace ms4 with 30000 by lia. done.
Qed.

Lemma index_account_winds wa i w :
  activityRunning w = true →
  sat (Index.processAccount wa i) w (account_wind 7000 i w).
Proof.
  intros Hr. unfold Index.processAccount, account_wind.
  apply sat_bind, sat_get. cbv beta iota zeta.
  apply sat_bind, index_sat_log. cbv beta iota zeta.
  apply sat_bind. eapply sat_mono; [by apply index_bridge_loop_winds|].
  intros r1 ext1 w1 Hp1 H1.
  pose proof (piece_ok_loop _ _ _ _ H1) as P1.
  assert (activityRunning w1 = true) as Hr1 by (by rewrite (pg_running _ _ _ Hp1)).
  rewrite ?app_nil_l.
  destruct r1 as [?|[]].
  { split; [apply H1|]. split; [|done].
    eapply piece_ok_mono; [| |exact P1]; lia. }
  apply sat_bind. eapply sat_mono; [apply index_sat_sleepRandom; lia|].
  intros r2 ext2 w2 Hp2 H2.
  pose proof (piece_ok_timer 15000 w1 w1 7000 15000 r2 ext2 w2 ltac:(lia) H2) as P2.
  assert (activityRunning w2 = true) as Hr2 by (by rewrite (pg_running _ _ _ Hp2)).
  pose proof (piece_ok_seq _ _ _ _ _ _ _ _ Hp1 Hr P1 P2) as P12.
  assert (env w1 = env w) as E1 by apply (pg_env _ _ _ Hp1).
  destruct r2 as [?|[]].
  { split; [eapply fault_of_env; [|apply H2]; exact E1|]. split; [|done].
    eapply piece_ok_mono; [| |exact P12]; lia. }
  apply sat_bind, sat_get. cbv beta iota zeta.
  apply sat_bind. eapply sat_mono; [apply index_swap_loop_winds; [done|lia]|].
  intros r3 ext3 w3 Hp3 H3.
  pose proof (piece_ok_loop _ _ _ _ H3) as P3.
  assert (activityRunning w3 = true) as Hr3 by (by rewrite (pg_running _ _ _ Hp3)).
  pose proof (piece_ok_seq _ _ _ _ _ _ _ _ Hp2 Hr1 P2 P3) as P23.
  pose proof (piece_ok_seq _ _ _ _ _ _ _ _ Hp1 Hr P1 P23) as P123.
  assert (env w2 = env w) as E2 by (by rewrite (pg_env _ _ _ Hp2)).
  rewrite ?app_nil_l.
  destruct r3 as [?|[]].
  { split; [eapply fault_of_env; [|apply H3]; exact E2|]. split; [|done].
    eapply piece_ok_mono; [| |exact P123]; lia. }
  assert (env w3 = env w) as E3 by (by rewrite (pg_env _ _ _ Hp3)).
  assert (privateKeys w3 = privateKeys w) as Ek
    by (by rewrite (pg_keys _ _ _ Hp3), (pg_keys _ _ _ Hp2), (pg_keys _ _ _ Hp1)).
  apply sat_bind, sat_get. cbv beta iota zeta. rewrite ?app_nil_l.
  pose proof H2 as (_ & _ & g & cl & _ & -> & _).
  apply sat_when.
  - intros Hc. apply sat_bind, index_sat_log. cbv beta iota zeta.
    eapply sat_mono; [apply index_sat_sleep|].
    intros r4 ext4 w4 Hp4 H4.
    pose proof (piece_ok_timer 30000 _ w3 30000 30000 r4 ext4 w4 ltac:(lia) H4) as P4.
    pose proof (piece_ok_seq _ _ _ _ _ _ _ _ Hp3 Hr2 P3 P4) as P34.
    pose proof (piece_ok_seq _ _ _ _ _ _ _ _ Hp2 Hr1 P2 P34) as P234.
    pose proof (piece_ok_seq _ _ _ _ _ _ _ _ Hp1 Hr P1 P234) as P1234.
    rewrite ?app_nil_l.
    split; [eapply fault_of_env; [|apply H4]; exact E3|].
    split; [eapply piece_ok_mono; [| |exact P1234]; lia|].
    intros _. eapply account_sleeps_intro; [exact H2 | intros _; exact H4].
  - intros Hc. rewrite ?app_nil_l, ?app_nil_r.
    split; [done|].
    split; [eapply piece_ok_mono; [| |exact P123]; lia|].
    intros _. rewrite <- (app_nil_r ext3).
    apply (account_sleeps_intro 7000 i _ ext1 g cl ext3 [] (inr ()) (inr ()) w1 w w2 w);
      [exact H2|].
    intros Hlt. apply Z.ltb_ge in Hc. rewrite Ek in Hc. lia.
Qed.

(** ** The loop over the accounts *)

Lemma index_account_loop_winds wa fuel i w :
  activityRunning w = true → (length (privateKeys w) - i ≤ fuel)%nat →
  sat (for_loop fuel (λ i w, (i <? length (privateKeys w))%nat && negb (shouldStop w))
         (Index.processAccount wa) i) w (run_wind w).
Proof.
  apply (sat_for_loop (λ _ w, run_wind w) (λ w, activityRunning w = true)
           (λ w, length (privateKeys w))).
  - intros w0 ext w' Hp. by rewrite (pg_running _ _ _ Hp).
  - intros w0 ext w' Hp. by rewrite (pg_keys _ _ _ Hp).
  - intros i0 w0 [H _]%andb_prop. by apply Nat.ltb_lt in H.
  - intros i0 w0 Hr Hc. split; [done|]. split; [by split|done].
  - intros i0 w0 Hr [_ Hst]%andb_prop. apply negb_true_iff in Hst.
    eapply sat_mono; [by apply index_account_winds|].
    intros [e|[]] ext1 w1 Hp1 (Hf & [Hw _] & _).
    + split; [done|]. split; [done | congruence].
    + intros r2 ext2 w2 Hp2 (Hf2 & Hw2 & Hs2).
      split; [|split; [|congruence]].
      * eapply fault_of_env; [|exact Hf2]. apply (pg_env _ _ _ Hp1).
      * eapply winds_down_loop; eauto.
Qed.

(** The run of index.js from an idle state with keys loaded: it returns,
    both flags are down, and after a stop request it wound down. *)
Lemma index_run_spec wa w :
  privateKeys w ≠ [] → activityRunning w = false →
  ∃ w' ext, Index.runDailyActivityLoop wa w = Return tt w'
            ∧ activityRunning w' = false ∧ shouldStop w' = false
            ∧ trace w' = (trace w ++ ext)%list ∧ winds_down 65000 ext.
Proof.
  intros Hk Hr. unfold Index.runDailyActivityLoop.
  cbv beta iota delta [mbind M_bind bind get modify Index.log try_finally try_catch].
  destruct (privateKeys w) as [|k keys] eqn:Ek; [done|]. clear Hk.
  change (length (k :: keys) =? 0)%nat with false. cbv iota. rewrite Hr.
  set (w1 := Index.addLog "Starting activity loop" success
               (set_shouldStop false (set_activityRunning true w))).
  pose proof (index_account_loop_winds wa (length (k :: keys)) 0 w1 eq_refl) as Hl.
  unfold sat in Hl.
  destruct (for_loop _ _ _ _ w1) as [[] w2|e w2|].
  - destruct Hl as (ext & Hp & _ & Hw & _); [subst w1; simpl; rewrite Ek; simpl; lia|].
    eexists _, ext. split; [reflexivity|]. do 2 (split; [done|]).
    split; [|exact Hw]. simpl. by rewrite (pg_trace _ _ _ Hp).
  - destruct Hl as (ext & Hp & _ & Hw & _); [subst w1; simpl; rewrite Ek; simpl; lia|].
    eexists _, ext. split; [reflexivity|]. do 2 (split; [done|]).
    split; [|exact Hw]. simpl. by rewrite (pg_trace _ _ _ Hp).
  - destruct Hl. subst w1; simpl; rewrite Ek; simpl; lia.
Qed.

(** ** The same for the universal file *)

Lemma universal_bridge_loop_winds wa pk proxyUrl i fuel w :
  activityRunning w = true → (Z.to_nat (Universal.bridgeCount w) ≤ fuel)%nat →
  sat (for_loop fuel
         (λ b w, (Z.of_nat b <? Universal.bridgeCount w) && negb (shouldStop w))
         (λ b, _ ← Universal.performBridgeSimple wa pk proxyUrl i;
               w ← get;
               when (Z.of_nat b <? bridgeRepetitions (dailyActivityConfig w) - 1)
                 (Universal.sleepRandom 8000 20000))
         0%nat) w (inner_loop_wind w).
Proof.
  intros Hr Hfuel.
  apply (inner_loop_winds (Universal.performBridgeSimple wa pk proxyUrl i)
           (Universal.sleepRandom 8000 20000) Universal.bridgeCount
           (λ w, bridgeRepetitions (dailyActivityConfig w)) (CallBridge pk proxyUrl i));
    try done.
  - intros w0 ext w' Hp. unfold Universal.bridgeCount. by rewrite (pg_config _ _ _ Hp).
  - intros w0. eexists. apply universal_bridge_spec.
  - intros w0. by apply universal_sat_sleepRandom.
  - lia.
Qed.

Lemma universal_swap_loop_winds wa pk proxyUrl i fuel w :
  activityRunning w = true → (Z.to_nat (Universal.swapCount w) ≤ fuel)%nat →
  sat (for_loop fuel
         (λ s w, (Z.of_nat s <? Universal.swapCount w) && negb (shouldStop w))
         (λ s, _ ← Universal.performSwapSimple wa pk proxyUrl i;
               w ← get;
               when (Z.of_nat s <? swapRepetitions (dailyActivityConfig w) - 1)
                 (Universal.sleepRandom 8000 20000))
         0%nat) w (inner_loop_wind w).
Proof.
  intros Hr Hfuel.
  apply (inner_loop_winds (Universal.performSwapSimple wa pk proxyUrl i)
           (Universal.sleepRandom 8000 20000) Universal.swapCount
           (λ w, swapRepetitions (dailyActivityConfig w)) (CallSwap pk proxyUrl i));
    try done.
  - intros w0 ext w' Hp. unfold Universal.swapCount. by rewrite (pg_config _ _ _ Hp).
  - intros w0. eexists. apply universal_swap_spec.
  - intros w0. by apply universal_sat_sleepRandom.
  - lia.
Qed.

Lemma universal_account_winds wa i w :
  activityRunning w = true →
  sat (Universal.processAccount wa i) w (account_wind 8000 i w).
Proof.
  intros Hr. unfold Universal.processAccount, account_wind.
  apply sat_bind, sat_get. cbv beta iota zeta.
  apply sat_bind, universal_sat_log. cbv beta iota zeta.
  apply sat_bind. eapply sat_mono; [by apply universal_bridge_loop_winds|].
  intros r1 ext1 w1 Hp1 H1.
  pose proof (piece_ok_loop _ _ _ _ H1) as P1.
  assert (activityRunning w1 = true) as Hr1 by (by rewrite (pg_running _ _ _ Hp1)).
  rewrite ?app_nil_l.
  destruct r1 as [?|[]].
  { split; [apply H1|]. split; [|done].
    eapply piece_ok_mono; [| |exact P1]; lia. }
  apply sat_bind. eapply sat_mono; [apply universal_sat_sleepRandom; lia|].
  intros r2 ext2 w2 Hp2 H2.
  pose proof (piece_ok_timer 15000 w1 w1 8000 15000 r2 ext2 w2 ltac:(lia) H2) as P2.
  assert (activityRunning w2 = true) as Hr2 by (by rewrite (pg_running _ _ _ Hp2)).
  pose proof (piece_ok_seq _ _ _ _ _ _ _ _ Hp1 Hr P1 P2) as P12.
  assert (env w1 = env w) as E1 by apply (pg_env _ _ _ Hp1).
  destruct r2 as [?|[]].
  { split; [eapply fault_of_env; [|apply H2]; exact E1|]. split; [|done].
    eapply piece_ok_mono; [| |exact P12]; lia. }
  apply sat_bind, sat_get. cbv beta iota zeta.
  apply sat_bind. eapply sat_mono; [apply universal_swap_loop_winds; [done|lia]|].
  intros r3 ext3 w3 Hp3 H3.
  pose proof (piece_ok_loop _ _ _ _ H3) as P3.
  assert (activityRunning w3 = true) as Hr3 by (by rewrite (pg_running _ _ _ Hp3)).
  pose proof (piece_ok_seq _ _ _ _ _ _ _ _ Hp2 Hr1 P2 P3) as P23.
  pose proof (piece_ok_seq _ _ _ _ _ _ _ _ Hp1 Hr P1 P23) as P123.
  assert (env w2 = env w) as E2 by (by rewrite (pg_env _ _ _ Hp2)).
  rewrite ?app_nil_l.
  destruct r3 as [?|[]].
  { split; [eapply fault_of_env; [|apply H3]; exact E2|]. split; [|done].
    eapply piece_ok_mono; [| |exact P123]; lia. }
  assert (env w3 = env w) as E3 by (by rewrite (pg_env _ _ _ Hp3)).
  assert (privateKeys w3 = privateKeys w) as Ek
    by (by rewrite (pg_keys _ _ _ Hp3), (pg_keys _ _ _ Hp2), (pg_keys _ _ _ Hp1)).
  apply sat_bind, sat_get. cbv beta iota zeta. rewrite ?app_nil_l.
  pose proof H2 as (_ & _ & g & cl & _ & -> & _).
  apply sat_when.
  - intros Hc. apply sat_bind, universal_sat_log. cbv beta iota zeta.
    eapply sat_mono; [apply universal_sat_sleep|].
    intros r4 ext4 w4 Hp4 H4.
    pose proof (piece_ok_timer 30000 _ w3 30000 30000 r4 ext4 w4 ltac:(lia) H4) as P4.
    pose proof (piece_ok_seq _ _ _ _ _ _ _ _ Hp3 Hr2 P3 P4) as P34.
    pose proof (piece_ok_seq _ _ _ _ _ _ _ _ Hp2 Hr1 P2 P34) as P234.
    pose proof (piece_ok_seq _ _ _ _ _ _ _ _ Hp1 Hr P1 P234) as P1234.
    rewrite ?app_nil_l.
    split; [eapply fault_of_env; [|apply H4]; exact E3|].
    split; [eapply piece_ok_mono; [| |exact P1234]; lia|].
    intros _. eapply account_sleeps_intro; [exact H2 | intros _; exact H4].
  - intros Hc. rewrite ?app_nil_l, ?app_nil_r.
    split; [done|].
    split; [eapply piece_ok_mono; [| |exact P123]; lia|].
    intros _. rewrite <- (app_nil_r ext3).
    apply (account_sleeps_intro 8000 i _ ext1 g cl ext3 [] (inr ()) (inr ()) w1 w w2 w);
      [exact H2|].
    intros Hlt. apply Z.ltb_ge in Hc. rewrite Ek in Hc. lia.
Qed.
Lemma universal_account_loop_winds wa fuel i w :
  activityRunning w = true → (length (privateKeys w) - i ≤ fuel)%nat →
  sat (for_loop fuel (λ i w, (i <? length (privateKeys w))%nat && negb (shouldStop w))
         (Universal.processAccount wa) i) w (run_wind w).
Proof.
  apply (sat_for_loop (λ _ w, run_wind w) (λ w, activityRunning w = true)
           (λ w, length (privateKeys w))).
  - intros w0 ext w' Hp. by rewrite (pg_running _ _ _ Hp).
  - intros w0 ext w' Hp. by rewrite (pg_keys _ _ _ Hp).
  - intros i0 w0 [H _]%andb_prop. by apply Nat.ltb_lt in H.
  - intros i0 w0 Hr Hc. split; [done|]. split; [by split|done].
  - intros i0 w0 Hr [_ Hst]%andb_prop. apply negb_true_iff in Hst.
    eapply sat_mono; [by apply universal_account_winds|].
    intros [e|[]] ext1 w1 Hp1 (Hf & [Hw _] & _).
    + split; [done|]. split; [done | congruence].
    + intros r2 ext2 w2 Hp2 (Hf2 & Hw2 & Hs2).
      split; [|split; [|congruence]].
      * eapply fault_of_env; [|exact Hf2]. apply (pg_env _ _ _ Hp1).
      * eapply winds_down_loop; eauto.
Qed.


(** The run of the universal file with keys loaded: either it returns with
    the running flag down and the stop flag as the last request left it, or a
    fault of the environment escapes and the running flag stays up. *)
Lemma universal_run_spec wa w :
  privateKeys w ≠ [] →
  match Universal.runDailyActivityLoop wa w with
  | Return _ w' =>
      ∃ ext, activityRunning w' = false ∧ shouldStop w' = existsb is_stop ext
             ∧ trace w' = (trace w ++ ext)%list ∧ winds_down 65000 ext
  | Throw e w' => (∃ t, r_fault (replies (env w) t) = Some e) ∧ activityRunning w' = true
  | OutOfFuel => False
  end.
Proof.
  intros Hk. unfold Universal.runDailyActivityLoop.
  cbv beta iota delta [mbind M_bind bind get modify Universal.log].
  destruct (privateKeys w) as [|k keys] eqn:Ek; [done|]. clear Hk.
  change (length (k :: keys) =? 0)%nat with false.
  cbv beta iota delta [mbind M_bind bind get modify Universal.log].
  pose proof (universal_account_loop_winds wa (length (k :: keys)) 0
                (Universal.addLog "Starting daily activity loop" success
                   (set_shouldStop false (set_activityRunning true w))) eq_refl) as Hl.
  unfold sat in Hl.
  destruct (for_loop _ _ _ _ _) as [[] w2|e w2|].
  - destruct Hl as (ext & Hp & _ & Hw & _); [simpl; rewrite Ek; simpl; lia|].
    exists ext. split; [done|]. split; [|split; [|exact Hw]]; simpl.
    + by rewrite (pg_stop _ _ _ Hp).
    + by rewrite (pg_trace _ _ _ Hp).
  - destruct Hl as (ext & Hp & Hf & _); [simpl; rewrite Ek; simpl; lia|].
    split; [by apply Hf|]. by rewrite (pg_running _ _ _ Hp).
  - destruct Hl. simpl; rewrite Ek; simpl; lia.
Qed.

(** ** Uninterrupted runs: the executor calls *)

Lemma index_bridge_loop_quiet wa pk proxyUrl i fuel w :
  quiet w → (Z.to_nat (Index.bridgeCount w) ≤ fuel)%nat →
  sat (for_loop fuel
         (λ b w, (Z.of_nat b <? Index.bridgeCount w) && negb (shouldStop w))
         (λ b, _ ← Index.performBridgeSimple wa pk proxyUrl i;
               w ← get;
               when (Z.of_nat b <? bridgeRepetitions (dailyActivityConfig w) - 1)
                 (Index.sleepRandom 8000 20000))
         0%nat) w
    (λ r ext _, r = inr tt
       ∧ calls ext = replicate (Z.to_nat (Index.bridgeCount w)) (CallBridge pk proxyUrl i)).
Proof.
  intros Hq Hfuel. rewrite <- (Nat.sub_0_r (Z.to_nat (Index.bridgeCount w))).
  apply (inner_loop_quiet (Index.performBridgeSimple wa pk proxyUrl i)
           (Index.sleepRandom 8000 20000) Index.bridgeCount
           (λ w, bridgeRepetitions (dailyActivityConfig w)) (CallBridge pk proxyUrl i));
    try done.
  - intros w0 ext w' Hp. unfold Index.bridgeCount. by rewrite (pg_config _ _ _ Hp).
  - intros w0. eexists. apply index_bridge_spec.
  - intros w0. by apply index_sat_sleepRandom.
  - lia.
Qed.

Lemma index_swap_loop_quiet wa pk proxyUrl i fuel w :
  quiet w → (Z.to_nat (Index.swapCount w) ≤ fuel)%nat →
  sat (for_loop fuel
         (λ s w, (Z.of_nat s <? Index.swapCount w) && negb (shouldStop w))
         (λ s, _ ← Index.performSwapSimple wa pk proxyUrl i;
               w ← get;
               when (Z.of_nat s <? swapRepetitions (dailyActivityConfig w) - 1)
                 (Index.sleepRandom 8000 20000))
         0%nat) w
    (λ r ext _, r = inr tt
       ∧ calls ext = replicate (Z.to_nat (Index.swapCount w)) (CallSwap pk proxyUrl i)).
Proof.
  intros Hq Hfuel. rewrite <- (Nat.sub_0_r (Z.to_nat (Index.swapCount w))).
  apply (inner_loop_quiet (Index.performSwapSimple wa pk proxyUrl i)
           (Index.sleepRandom 8000 20000) Index.swapCount
           (λ w, swapRepetitions (dailyActivityConfig w)) (CallSwap pk proxyUrl i));
    try done.
  - intros w0 ext w' Hp. unfold Index.swapCount. by rewrite (pg_config _ _ _ Hp).
  - intros w0. eexists. apply index_swap_spec.
  - intros w0. by apply index_sat_sleepRandom.
  - lia.
Qed.

Lemma timer_returns w lo hi r (ext : list Event) (w' : World) :
  no_fault (env w) → timer_post w lo hi r ext w' → r = inr tt.
Proof. intros Hn (_ & H & _). by apply H. Qed.

Lemma index_account_quiet wa i w :
  quiet w →
  sat (Index.processAccount wa i) w (λ r ext _,
    r = inr tt
    ∧ calls ext = calls_of_account (privateKeys w) (proxies w) Index.proxyFor
                    (Z.to_nat (Index.bridgeCount w)) (Z.to_nat (Index.swapCount w)) i).
Proof.
  intros Hq. unfold Index.processAccount, calls_of_account.
  apply sat_bind, sat_get. cbv beta iota zeta.
  apply sat_bind, index_sat_log. cbv beta iota zeta.
  apply sat_bind. eapply sat_mono; [by apply index_bridge_loop_quiet|].
  intros r1 ext1 w1 Hp1 [-> H1].
  pose proof (quiet_stable _ _ _ Hp1 Hq) as Hq1.
  apply sat_bind. eapply sat_mono; [apply index_sat_sleepRandom; lia|].
  intros r2 ext2 w2 Hp2 H2.
  pose proof (quiet_stable _ _ _ Hp2 Hq1) as Hq2.
  rewrite (timer_returns _ _ _ _ _ _ (proj1 (proj2 Hq1)) H2).
  apply calls_timer in H2.
  apply sat_bind, sat_get. cbv beta iota zeta.
  apply sat_bind. eapply sat_mono; [apply index_swap_loop_quiet; [done|lia]|].
  intros r3 ext3 w3 Hp3 [-> H3].
  pose proof (quiet_stable _ _ _ Hp3 Hq2) as Hq3.
  assert (Index.swapCount w2 = Index.swapCount w) as Es.
  { unfold Index.swapCount.
    by rewrite (pg_config _ _ _ Hp2), (pg_config _ _ _ Hp1). }
  apply sat_bind, sat_get. cbv beta iota zeta.
  apply sat_when.
  - intros _. apply sat_bind, index_sat_log. cbv beta iota zeta.
    eapply sat_mono; [apply index_sat_sleep|].
    intros r4 ext4 w4 Hp4 H4.
    split; [apply (timer_returns (Index.addLog _ _ w3) _ _ _ _ _ (proj1 (proj2 Hq3)) H4)|].
    apply calls_timer in H4.
    rewrite ?app_nil_l, !calls_app, H1, H2, H3, H4, Es. by rewrite !app_nil_r.
  - intros _. split; [done|].
    rewrite ?app_nil_l, ?app_nil_r, !calls_app, H1, H2, H3, Es. done.
Qed.

Lemma calls_of_run_step keys pxs proxyFor B S i N :
  (i < N)%nat →
  calls_of_run keys pxs proxyFor B S i (N - i)
  = (calls_of_account keys pxs proxyFor B S i
     ++ calls_of_run keys pxs proxyFor B S (i + 1) (N - (i + 1)))%list.
Proof.
  intros Hlt. unfold calls_of_run.
  replace (N - i)%nat with (Datatypes.S (N - (i + 1))) by lia.
  simpl. by replace (Datatypes.S i) with (i + 1)%nat by lia.
Qed.

Lemma index_account_loop_quiet wa fuel i w :
  quiet w → (length (privateKeys w) - i ≤ fuel)%nat →
  sat (for_loop fuel (λ i w, (i <? length (privateKeys w))%nat && negb (shouldStop w))
         (Index.processAccount wa) i) w
    (λ r ext _, r = inr tt
       ∧ calls ext = calls_of_run (privateKeys w) (proxies w) Index.proxyFor
                       (Z.to_nat (Index.bridgeCount w)) (Z.to_nat (Index.swapCount w))
                       i (length (privateKeys w) - i)).
Proof.
  apply (sat_for_loop
           (λ i w r ext _, r = inr tt
              ∧ calls ext = calls_of_run (privateKeys w) (proxies w) Index.proxyFor
                              (Z.to_nat (Index.bridgeCount w)) (Z.to_nat (Index.swapCount w))
                              i (length (privateKeys w) - i))
           quiet (λ w, length (privateKeys w))).
  - apply quiet_stable.
  - intros w0 ext w' Hp. by rewrite (pg_keys _ _ _ Hp).
  - intros i0 w0 [H _]%andb_prop. by apply Nat.ltb_lt in H.
  - intros i0 w0 (_ & _ & Hst) Hc. split; [done|].
    rewrite Hst, andb_true_r in Hc. apply Nat.ltb_ge in Hc.
    by replace (length (privateKeys w0) - i0)%nat with 0%nat by lia.
  - intros i0 w0 Hq [Hlt _]%andb_prop. apply Nat.ltb_lt in Hlt.
    eapply sat_mono; [by apply index_account_quiet|].
    intros r ext1 w1 Hp1 [-> H1] r2 ext2 w2 Hp2 [-> H2]. split; [done|].
    rewrite calls_app, H1, H2.
    rewrite (calls_of_run_step _ _ _ _ _ i0 (length (privateKeys w0))) by done.
    unfold Index.bridgeCount, Index.swapCount.
    by rewrite (pg_keys _ _ _ Hp1), (pg_proxies _ _ _ Hp1), (pg_config _ _ _ Hp1).
Qed.

(** An uninterrupted run of index.js from an idle state with keys loaded. *)
Lemma index_run_quiet wa w :
  privateKeys w ≠ [] → activityRunning w = false →
  no_stop (env w) → no_fault (env w) →
  ∃ w' ext, Index.runDailyActivityLoop wa w = Return tt w'
            ∧ trace w' = (trace w ++ ext)%list
            ∧ calls ext = calls_of_run (privateKeys w) (proxies w) Index.proxyFor
                            (Z.to_nat (Index.bridgeCount w)) (Z.to_nat (Index.swapCount w))
                            0 (length (privateKeys w)).
Proof.
  intros Hk Hr Hns Hnf. unfold Index.runDailyActivityLoop.
  cbv beta iota delta [mbind M_bind bind get modify Index.log try_finally try_catch].
  destruct (privateKeys w) as [|k keys] eqn:Ek; [done|]. clear Hk.
  change (length (k :: keys) =? 0)%nat with false. cbv iota. rewrite Hr.
  pose proof (index_account_loop_quiet wa (length (k :: keys)) 0
                (Index.addLog "Starting activity loop" success
                   (set_shouldStop false (set_activityRunning true w)))) as Hl.
  unfold sat in Hl.
  destruct (for_loop _ _ _ _ _) as [[] w2|e w2|].
  - destruct Hl as (ext & Hp & _ & Hc); [done | simpl; rewrite Ek; simpl; lia|].
    eexists _, ext. split; [reflexivity|]. simpl in *.
    rewrite (pg_trace _ _ _ Hp), Hc, Ek. done.
  - destruct Hl as (ext & Hp & [=] & _); [done | simpl; rewrite Ek; simpl; lia].
  - destruct Hl; [done | simpl; rewrite Ek; simpl; lia].
Qed.

Lemma universal_bridge_loop_quiet wa pk proxyUrl i fuel w :
  quiet w → (Z.to_nat (Universal.bridgeCount w) ≤ fuel)%nat →
  sat (for_loop fuel
         (λ b w, (Z.of_nat b <? Universal.bridgeCount w) && negb (shouldStop w))
         (λ b, _ ← Universal.performBridgeSimple wa pk proxyUrl i;
               w ← get;
               when (Z.of_nat b <? bridgeRepetitions (dailyActivityConfig w) - 1)
                 (Universal.sleepRandom 8000 20000))
         0%nat) w
    (λ r ext _, r = inr tt
       ∧ calls ext = replicate (Z.to_nat (Universal.bridgeCount w)) (CallBridge pk proxyUrl i)).
Proof.
  intros Hq Hfuel. rewrite <- (Nat.sub_0_r (Z.to_nat (Universal.bridgeCount w))).
  apply (inner_loop_quiet (Universal.performBridgeSimple wa pk proxyUrl i)
           (Universal.sleepRandom 8000 20000) Universal.bridgeCount
           (λ w, bridgeRepetitions (dailyActivityConfig w)) (CallBridge pk proxyUrl i));
    try done.
  - intros w0 ext w' Hp. unfold Universal.bridgeCount. by rewrite (pg_config _ _ _ Hp).
  - intros w0. eexists. apply universal_bridge_spec.
  - intros w0. by apply universal_sat_sleepRandom.
  - lia.
Qed.

Lemma universal_swap_loop_quiet wa pk proxyUrl i fuel w :
  quiet w → (Z.to_nat (Universal.swapCount w) ≤ fuel)%nat →
  sat (for_loop fuel
         (λ s w, (Z.of_nat s <? Universal.swapCount w) && negb (shouldStop w))
         (λ s, _ ← Universal.performSwapSimple wa pk proxyUrl i;
               w ← get;
               when (Z.of_nat s <? swapRepetitions (dailyActivityConfig w) - 1)
                 (Universal.sleepRandom 8000 20000))
         0%nat) w
    (λ r ext _, r = inr tt
       ∧ calls ext = replicate (Z.to_nat (Universal.swapCount w)) (CallSwap pk proxyUrl i)).
Proof.
  intros Hq Hfuel. rewrite <- (Nat.sub_0_r (Z.to_nat (Universal.swapCount w))).
  apply (inner_loop_quiet (Universal.performSwapSimple wa pk proxyUrl i)
           (Universal.sleepRandom 8000 20000) Universal.swapCount
           (λ w, swapRepetitions (dailyActivityConfig w)) (CallSwap pk proxyUrl i));
    try done.
  - intros w0 ext w' Hp. unfold Universal.swapCount. by rewrite (pg_config _ _ _ Hp).
  - intros w0. eexists. apply universal_swap_spec.
  - intros w0. by apply universal_sat_sleepRandom.
  - lia.
Qed.

Lemma universal_account_quiet wa i w :
  quiet w →
  sat (Universal.processAccount wa i) w (λ r ext _,
    r = inr tt
    ∧ calls ext = calls_of_account (privateKeys w) (proxies w) Universal.proxyFor
                    (Z.to_nat (Universal.bridgeCount w)) (Z.to_nat (Universal.swapCount w)) i).
Proof.
  intros Hq. unfold Universal.processAccount, calls_of_account.
  apply sat_bind, sat_get. cbv beta iota zeta.
  apply sat_bind, universal_sat_log. cbv beta iota zeta.
  apply sat_bind. eapply sat_mono; [by apply universal_bridge_loop_quiet|].
  intros r1 ext1 w1 Hp1 [-> H1].
  pose proof (quiet_stable _ _ _ Hp1 Hq) as Hq1.
  apply sat_bind. eapply sat_mono; [apply universal_sat_sleepRandom; lia|].
  intros r2 ext2 w2 Hp2 H2.
  pose proof (quiet_stable _ _ _ Hp2 Hq1) as Hq2.
  rewrite (timer_returns _ _ _ _ _ _ (proj1 (proj2 Hq1)) H2).
  apply calls_timer in H2.
  apply sat_bind, sat_get. cbv beta iota zeta.
  apply sat_bind. eapply sat_mono; [apply universal_swap_loop_quiet; [done|lia]|].
  intros r3 ext3 w3 Hp3 [-> H3].
  pose proof (quiet_stable _ _ _ Hp3 Hq2) as Hq3.
  assert (Universal.swapCount w2 = Universal.swapCount w) as Es.
  { unfold Universal.swapCount.
    by rewrite (pg_config _ _ _ Hp2), (pg_config _ _ _ Hp1). }
  apply sat_bind, sat_get. cbv beta iota zeta.
  apply sat_when.
  - intros _. apply sat_bind, universal_sat_log. cbv beta iota zeta.
    eapply sat_mono; [apply universal_sat_sleep|].
    intros r4 ext4 w4 Hp4 H4.
    split; [apply (timer_returns (Universal.addLog _ _ w3) _ _ _ _ _ (proj1 (proj2 Hq3)) H4)|].
    apply calls_timer in H4.
    rewrite ?app_nil_l, !calls_app, H1, H2, H3, H4, Es. by rewrite !app_nil_r.
  - intros _. split; [done|].
    rewrite ?app_nil_l, ?app_nil_r, !calls_app, H1, H2, H3, Es. done.
Qed.

Lemma universal_account_loop_quiet wa fuel i w :
  quiet w → (length (privateKeys w) - i ≤ fuel)%nat →
  sat (for_loop fuel (λ i w, (i <? length (privateKeys w))%nat && negb (shouldStop w))
         (Universal.processAccount wa) i) w
    (λ r ext _, r = inr tt
       ∧ calls ext = calls_of_run (privateKeys w) (proxies w) Universal.proxyFor
                       (Z.to_nat (Universal.bridgeCount w)) (Z.to_nat (Universal.swapCount w))
                       i (length (privateKeys w) - i)).
Proof.
  apply (sat_for_loop
           (λ i w r ext _, r = inr tt
              ∧ calls ext = calls_of_run (privateKeys w) (proxies w) Universal.proxyFor
                              (Z.to_nat (Universal.bridgeCount w)) (Z.to_nat (Universal.swapCount w))
                              i (length (privateKeys w) - i))
           quiet (λ w, length (privateKeys w))).
  - apply quiet_stable.
  - intros w0 ext w' Hp. by rewrite (pg_keys _ _ _ Hp).
  - intros i0 w0 [H _]%andb_prop. by apply Nat.ltb_lt in H.
  - intros i0 w0 (_ & _ & Hst) Hc. split; [done|].
    rewrite Hst, andb_true_r in Hc. apply Nat.ltb_ge in Hc.
    by replace (length (privateKeys w0) - i0)%nat with 0%nat by lia.
  - intros i0 w0 Hq [Hlt _]%andb_prop. apply Nat.ltb_lt in Hlt.
    eapply sat_mono; [by apply universal_account_quiet|].
    intros r ext1 w1 Hp1 [-> H1] r2 ext2 w2 Hp2 [-> H2]. split; [done|].
    rewrite calls_app, H1, H2.
    rewrite (calls_of_run_step _ _ _ _ _ i0 (length (privateKeys w0))) by done.
    unfold Universal.bridgeCount, Universal.swapCount.
    by rewrite (pg_keys _ _ _ Hp1), (pg_proxies _ _ _ Hp1), (pg_config _ _ _ Hp1).
Qed.

(** An uninterrupted run of the universal file with keys loaded. *)
Lemma universal_run_quiet wa w :
  privateKeys w ≠ [] → no_stop (env w) → no_fault (env w) →
  ∃ w' ext, Universal.runDailyActivityLoop wa w = Return tt w'
            ∧ trace w' = (trace w ++ ext)%list
            ∧ calls ext = calls_of_run (privateKeys w) (proxies w) Universal.proxyFor
                            (Z.to_nat (Universal.bridgeCount w))
                            (Z.to_nat (Universal.swapCount w))
                            0 (length (privateKeys w)).
Proof.
  intros Hk Hns Hnf. unfold Universal.runDailyActivityLoop.
  cbv beta iota delta [mbind M_bind bind get modify Universal.log].
  destruct (privateKeys w) as [|k keys] eqn:Ek; [done|]. clear Hk.
  change (length (k :: keys) =? 0)%nat with false.
  cbv beta iota delta [mbind M_bind bind get modify Universal.log].
  pose proof (universal_account_loop_quiet wa (length (k :: keys)) 0
                (Universal.addLog "Starting daily activity loop" success
                   (set_shouldStop false (set_activityRunning true w)))) as Hl.
  unfold sat in Hl.
  destruct (for_loop _ _ _ _ _) as [[] w2|e w2|].
  - destruct Hl as (ext & Hp & _ & Hc); [done | simpl; rewrite Ek; simpl; lia|].
    eexists _, ext. split; [reflexivity|]. simpl in *.
    rewrite (pg_trace _ _ _ Hp), Hc, Ek. done.
  - destruct Hl as (ext & Hp & [=] & _); [done | simpl; rewrite Ek; simpl; lia].
  - destruct Hl; [done | simpl; rewrite Ek; simpl; lia].
Qed.

(** ** The events after a stop request *)

Lemma tail_of_mono (P1 P2 P3 Q1 Q2 Q3 : list Event → Prop) l :
  (∀ p, P1 p → Q1 p) → (∀ p, P2 p → Q2 p) → (∀ p, P3 p → Q3 p) →
  tail_of P1 P2 P3 l → tail_of Q1 Q2 Q3 l.
Proof.
  intros H1 H2 H3 (rest & p1 & p2 & p3 & -> & Hr & Hp1 & Hp2 & Hp3).
  exists rest, p1, p2, p3. eauto 10.
Qed.

Lemma tail_of_inner (P1 P2 P3 : list Event → Prop) l :
  P1 [] → P2 [] → P3 [] → Forall inner_event l → tail_of P1 P2 P3 l.
Proof. intros H1 H2 H3 Hl. exists l, [], [], []. by rewrite !app_nil_r. Qed.

Lemma tail_of_1 (P1 P2 P3 : list Event → Prop) x y :
  P2 [] → P3 [] → tail_of no_events no_events no_events x → P1 y →
  tail_of P1 P2 P3 (x ++ y)%list.
Proof.
  intros H2 H3 (rest & p1 & p2 & p3 & -> & Hr & -> & -> & ->) Hy.
  exists rest, y, [], []. by rewrite !app_nil_r.
Qed.

Lemma tail_of_2 (P1 P2 P3 : list Event → Prop) x y :
  P3 [] → tail_of P1 no_events no_events x → P2 y → tail_of P1 P2 P3 (x ++ y)%list.
Proof.
  intros H3 (rest & p1 & p2 & p3 & -> & Hr & Hp1 & -> & ->) Hy.
  exists rest, p1, y, []. by rewrite !app_nil_r, <- app_assoc.
Qed.

Lemma tail_of_3 (P1 P2 P3 : list Event → Prop) x y :
  tail_of P1 P2 no_events x → P3 y → tail_of P1 P2 P3 (x ++ y)%list.
Proof.
  intros (rest & p1 & p2 & p3 & -> & Hr & Hp1 & Hp2 & ->) Hy.
  exists rest, p1, p2, y. by rewrite !app_nil_r, <- !app_assoc.
Qed.

Lemma tail_of_nil (P1 P2 P3 : list Event → Prop) x :
  tail_of P1 P2 P3 x → tail_of P1 P2 P3 (x ++ [])%list.
Proof. by rewrite app_nil_r. Qed.

Lemma stretch_app (A1 S1 A2 S2 A S : list Event → Prop) w a w1 b :
  progress w a w1 → activityRunning w = true →
  stretch A1 S1 w a → stretch A2 S2 w1 b →
  (∀ x y, A1 x → S2 y → A (x ++ y)%list) → (∀ y, A2 y → A y) →
  (∀ x y, S1 x → S2 y → S (x ++ y)%list) →
  stretch A S w (a ++ b)%list.
Proof.
  intros Hp Hr [Ha Ha'] [Hb Hb'] H1 H2 H3. split.
  - rewrite after_stop_app. destruct (existsb is_stop a) eqn:E.
    + apply H1; [done|]. apply Hb'. eapply stop_sticks; eauto.
    + by apply H2.
  - intros Hs. apply H3; [by apply Ha'|]. apply Hb'. eapply stop_sticks; eauto.
Qed.

Lemma stretch_mono (A S A' S' : list Event → Prop) w ext :
  (∀ x, A x → A' x) → (∀ x, S x → S' x) → stretch A S w ext → stretch A' S' w ext.
Proof. intros H1 H2 [Ha Hs]. split; [by apply H1 | intros H; by apply H2, Hs]. Qed.

(** An executor call: after a stop request only transactions and clicks
    follow. *)
Lemma stretch_executor entry amt w r ext w' :
  is_call entry = true → executor_post entry amt r ext w' →
  stretch (tail_of no_events no_events no_events) (λ _, True) w ext.
Proof.
  intros He (_ & rest & -> & Hin & _). split; [|done].
  apply tail_of_inner; try done.
  simpl. assert (is_stop entry = false) as -> by (by destruct entry).
  by apply inner_after_stop.
Qed.

(** A timer: clicks follow a stop request, and started with the flag up it
    is a pause. *)
Lemma stretch_timer w0 w lo hi r ext w' :
  timer_post w0 lo hi r ext w' →
  stretch (tail_of no_events no_events no_events) (a_pause lo hi) w ext.
Proof.
  intros (_ & _ & ms & cl & Hms & -> & Hcl). split.
  - apply tail_of_inner; try done. simpl.
    by apply inner_after_stop, (clicks_Forall inner_event).
  - intros _. by exists ms, cl.
Qed.

Section InnerLoopTail.
Variable exec : M bool.
Variable sleepR : M unit.
Variable count reps : World → Z.
Variable entry : Event.

Hypothesis count_stable : ∀ w ext w', progress w ext w' → count w' = count w.
Hypothesis entry_call : is_call entry = true.
Hypothesis exec_spec : ∀ w, ∃ amt, sat exec w (executor_post entry amt).
Hypothesis sleep_spec : ∀ w, sat sleepR w (timer_post w 8000 20000).

Lemma loop_step_tail w a w1 r (b : list Event) (w2 : World) :
  progress w a w1 → activityRunning w = true → shouldStop w = false →
  stretch (tail_of (pause_or_none 8000 20000) no_events no_events) (λ _, True) w a →
  loop_tail w1 r b w2 → loop_tail w r (a ++ b)%list w2.
Proof.
  intros Hp Hr Hs [Ha _] [Hb Hb']. unfold loop_tail.
  split; [|congruence].
  rewrite after_stop_app. destruct (existsb is_stop a) eqn:E; [|done].
  rewrite Hb', app_nil_r; [done|]. eapply stop_sticks; eauto.
Qed.

Lemma inner_loop_tail fuel b w :
  activityRunning w = true → (Z.to_nat (count w) - b ≤ fuel)%nat →
  sat (for_loop fuel (repeat_cond count) (repeat_body exec reps sleepR) b) w (loop_tail w).
Proof.
  apply (sat_for_loop (λ _ w, loop_tail w)
           (λ w, activityRunning w = true) (λ w, Z.to_nat (count w))).
  - intros w0 ext w' Hp. by rewrite (pg_running _ _ _ Hp).
  - intros w0 ext w' Hp. by rewrite (count_stable _ _ _ Hp).
  - intros b0 w0 [H _]%andb_prop. apply Z.ltb_lt in H. lia.
  - intros b0 w0 Hr Hc. split; [|done].
    apply tail_of_inner; [by left | done | done | done].
  - intros b0 w0 Hr [Hlt Hst]%andb_prop. apply negb_true_iff in Hst.
    unfold repeat_body. apply sat_bind.
    destruct (exec_spec w0) as [amt Hex].
    eapply sat_mono; [exact Hex|].
    intros r ext1 w1 Hp1 Hpost. pose proof Hpost as ([ok ->] & _).
    pose proof (stretch_executor entry amt w0 _ _ _ entry_call Hpost) as S1.
    assert (activityRunning w1 = true) as Hr1 by (by rewrite (pg_running _ _ _ Hp1)).
    apply sat_bind, sat_get, sat_when.
    + intros _. eapply sat_mono; [apply sleep_spec|].
      intros r ext2 w2 Hp2 Ht.
      pose proof (stretch_timer w1 w1 8000 20000 r ext2 w2 Ht) as S2.
      assert (stretch (tail_of (pause_or_none 8000 20000) no_events no_events)
                (λ _, True) w0 (ext1 ++ [] ++ ext2)%list) as S12.
      { simpl. eapply stretch_app; [exact Hp1 | exact Hr | exact S1 | exact S2 | | | done].
        - intros x y Hx Hy. apply tail_of_1; [done | done | done | by right].
        - intros y Hy. eapply tail_of_mono; [| | |exact Hy]; try done. by left. }
      destruct r as [e|[]].
      * split; [apply S12 | congruence].
      * intros r2 ext3 w3 Hp3 H3.
        assert (progress w0 (ext1 ++ [] ++ ext2)%list w2) as Hp02
          by eauto using progress_trans, progress_refl.
        by eapply loop_step_tail.
    + intros _ r2 ext3 w3 Hp3 H3. simpl. rewrite app_nil_r.
      eapply loop_step_tail; [exact Hp1 | exact Hr | exact Hst | | exact H3].
      eapply stretch_mono; [| |exact S1]; [|done].
      intros x Hx. eapply tail_of_mono; [| | |exact Hx]; try done. by left.
Qed.
End InnerLoopTail.

Lemma stretch_same (A S : list Event → Prop) w0 w (ext : list Event) :
  shouldStop w0 = shouldStop w → stretch A S w0 ext → stretch A S w ext.
Proof. unfold stretch. by intros ->. Qed.

(** Sequencing two stretches. *)
Lemma sat_stretch_bind {X Y} (m : M X) (k : X → M Y) w
    (A1 S1 A2 S2 A S : list Event → Prop) :
  activityRunning w = true →
  sat m w (λ _ ext _, stretch A1 S1 w ext) →
  (∀ x w1 ext1, progress w ext1 w1 → sat (k x) w1 (λ _ ext _, stretch A2 S2 w1 ext)) →
  (∀ x, A1 x → A x) → (∀ x, S1 x → S x) →
  (∀ x y, A1 x → S2 y → A (x ++ y)%list) → (∀ y, A2 y → A y) →
  (∀ x y, S1 x → S2 y → S (x ++ y)%list) →
  sat (m ≫= k) w (λ _ ext _, stretch A S w ext).
Proof.
  intros Hr Hm Hk HA HS H1 H2 H3. apply sat_bind.
  eapply sat_mono; [exact Hm|]. intros [e|x] ext1 w1 Hp1 Hs1.
  - eapply stretch_mono; [exact HA | exact HS | exact Hs1].
  - eapply sat_mono; [by apply (Hk x w1 ext1)|]. intros r2 ext2 w2 Hp2 Hs2.
    eapply stretch_app; [exact Hp1 | exact Hr | exact Hs1 | exact Hs2 | | | ]; done.
Qed.

(** The languages of the stretches of one account. *)
Lemma index_bridge_loop_tail wa pk proxyUrl i fuel b w :
  activityRunning w = true → (Z.to_nat (Index.bridgeCount w) - b ≤ fuel)%nat →
  sat (for_loop fuel
         (λ b w, (Z.of_nat b <? Index.bridgeCount w) && negb (shouldStop w))
         (λ b, _ ← Index.performBridgeSimple wa pk proxyUrl i;
               w ← get;
               when (Z.of_nat b <? bridgeRepetitions (dailyActivityConfig w) - 1)
                 (Index.sleepRandom 8000 20000))
         b) w (loop_tail w).
Proof.
  intros Hr Hfuel.
  apply (inner_loop_tail (Index.performBridgeSimple wa pk proxyUrl i)
           (Index.sleepRandom 8000 20000) Index.bridgeCount
           (λ w, bridgeRepetitions (dailyActivityConfig w)) (CallBridge pk proxyUrl i));
    try done.
  - intros w0 ext w' Hp. unfold Index.bridgeCount. by rewrite (pg_config _ _ _ Hp).
  - intros w0. eexists. apply index_bridge_spec.
  - intros w0. by apply index_sat_sleepRandom.
Qed.

Lemma index_swap_loop_tail wa pk proxyUrl i fuel b w :
  activityRunning w = true → (Z.to_nat (Index.swapCount w) - b ≤ fuel)%nat →
  sat (for_loop fuel
         (λ s w, (Z.of_nat s <? Index.swapCount w) && negb (shouldStop w))
         (λ s, _ ← Index.performSwapSimple wa pk proxyUrl i;
               w ← get;
               when (Z.of_nat s <? swapRepetitions (dailyActivityConfig w) - 1)
                 (Index.sleepRandom 8000 20000))
         b) w (loop_tail w).
Proof.
  intros Hr Hfuel.
  apply (inner_loop_tail (Index.performSwapSimple wa pk proxyUrl i)
           (Index.sleepRandom 8000 20000) Index.swapCount
           (λ w, swapRepetitions (dailyActivityConfig w)) (CallSwap pk proxyUrl i));
    try done.
  - intros w0 ext w' Hp. unfold Index.swapCount. by rewrite (pg_config _ _ _ Hp).
  - intros w0. eexists. apply index_swap_spec.
  - intros w0. by apply index_sat_sleepRandom.
Qed.

Lemma last_events_of_loop lo x y :
  tail_of (pause_or_none 8000 20000) no_events no_events x → two_pauses lo y →
  last_events lo (x ++ y).
Proof.
  intros (rest & p1 & ? & ? & -> & Hr & Hp1 & -> & ->) (p2 & p3 & -> & Hp2 & Hp3).
  exists rest, p1, p2, p3. rewrite !app_nil_r, <- app_assoc.
  split; [done|]. split; [done|]. split; [done|]. split; [by right | done].
Qed.

Lemma index_account_tail wa i w :
  activityRunning w = true →
  sat (Index.processAccount wa i) w
    (λ _ ext _, stretch (last_events 7000) (λ _, True) w ext).
Proof.
  intros Hr. unfold Index.processAccount.
  apply sat_bind, sat_get. cbv beta iota zeta.
  apply sat_bind, index_sat_log. cbv beta iota zeta.
  set (w0 := Index.addLog _ info w).
  assert (activityRunning w0 = true) as Hr0 by done.
  eapply sat_mono;
    [|intros r ext w' _ H; rewrite !app_nil_l;
      apply (stretch_same _ _ w0 w); [done | exact H]].
  (* the bridge phase, then the rest *)
  eapply (sat_stretch_bind _ _ w0 _ no_events (last_events 7000) (two_pauses 7000));
    [done
    | apply index_bridge_loop_tail;
        [done | change (Index.bridgeCount w0) with (Index.bridgeCount w); lia]
    | | | | | |].
  2:{ intros x Hx. eapply tail_of_mono; [| | |exact Hx]; try done; intros p ->; by left. }
  2:{ done. }
  2:{ intros x y. apply last_events_of_loop. }
  2:{ done. }
  2:{ done. }
  intros _ w1 ext1 Hp1.
  assert (activityRunning w1 = true) as Hr1 by (by rewrite (pg_running _ _ _ Hp1)).
  (* the pause between the phases, then the rest *)
  eapply (sat_stretch_bind _ _ w1 (tail_of no_events no_events no_events)
            (a_pause 7000 15000)
            (tail_of (pause_or_none 8000 20000) no_events (pause_or_none 30000 30000))
            (pause_or_none 30000 30000));
    [done | | | | | | |].
  { eapply sat_mono; [apply index_sat_sleepRandom; lia|].
    intros r ext w' _ H. by eapply stretch_timer. }
  2:{ intros x Hx. eapply tail_of_mono; [| | |exact Hx]; try done; intros p ->; by left. }
  2:{ intros x Hx. exists x, []. rewrite app_nil_r. split; [done|]. split; [done | by left]. }
  2:{ intros x y Hx Hy. apply tail_of_3; [|done].
      eapply tail_of_mono; [| | |exact Hx]; try done; intros p ->; by left. }
  2:{ intros y Hy. eapply tail_of_mono; [| | |exact Hy]; try done. intros p ->. by left. }
  2:{ intros x y Hx Hy. by exists x, y. }
  intros _ w2 ext2 Hp2.
  assert (activityRunning w2 = true) as Hr2 by (by rewrite (pg_running _ _ _ Hp2)).
  apply sat_bind, sat_get. cbv beta iota zeta.
  eapply sat_mono; [|intros r ext w' _ H; rewrite !app_nil_l; exact H].
  (* the swap phase, then the last pause *)
  eapply (sat_stretch_bind _ _ w2 _ no_events
            (tail_of no_events no_events no_events) (pause_or_none 30000 30000));
    [done | apply index_swap_loop_tail; [done | lia] | | | | | |].
  2:{ intros x Hx. eapply tail_of_mono; [| | |exact Hx]; try done. intros p ->. by left. }
  2:{ intros x ->. by left. }
  2:{ intros x y Hx Hy. apply tail_of_3; [|done].
      eapply tail_of_mono; [| | |exact Hx]; done. }
  2:{ intros y Hy. eapply tail_of_mono; [| | |exact Hy]; try done; intros p ->; by left. }
  2:{ by intros x y -> Hy. }
  intros _ w3 ext3 Hp3.
  apply sat_bind, sat_get. cbv beta iota zeta.
  eapply sat_mono; [|intros r ext w' _ H; rewrite !app_nil_l; exact H].
  apply sat_when.
  - intros _. apply sat_bind, index_sat_log. cbv beta iota zeta.
    eapply sat_mono; [apply index_sat_sleep|].
    intros r ext w' _ H. rewrite app_nil_l.
    eapply stretch_mono; [| |eapply (stretch_timer _ w3); exact H]; [done|].
    intros x Hx. by right.
  - intros _. split; [by apply tail_of_inner | intros _; by left].
Qed.

Lemma index_account_loop_tail wa fuel i w :
  activityRunning w = true → (length (privateKeys w) - i ≤ fuel)%nat →
  sat (for_loop fuel (λ i w, (i <? length (privateKeys w))%nat && negb (shouldStop w))
         (Index.processAccount wa) i) w (run_tail 7000 w).
Proof.
  apply (sat_for_loop (λ _ w, run_tail 7000 w) (λ w, activityRunning w = true)
           (λ w, length (privateKeys w))).
  - intros w0 ext w' Hp. by rewrite (pg_running _ _ _ Hp).
  - intros w0 ext w' Hp. by rewrite (pg_keys _ _ _ Hp).
  - intros i0 w0 [H _]%andb_prop. by apply Nat.ltb_lt in H.
  - intros i0 w0 Hr Hc. split; [|done].
    apply tail_of_inner; [by left | by left | by left | done].
  - intros i0 w0 Hr [_ Hst]%andb_prop. apply negb_true_iff in Hst.
    eapply sat_mono; [by apply index_account_tail|].
    intros [e|[]] ext1 w1 Hp1 [Ha _].
    + split; [done | congruence].
    + intros r2 ext2 w2 Hp2 [Hb Hb']. split; [|congruence].
      rewrite after_stop_app. destruct (existsb is_stop ext1) eqn:E; [|done].
      rewrite Hb', app_nil_r; [done|]. eapply stop_sticks; eauto.
Qed.

Lemma index_run_tail wa w :
  privateKeys w ≠ [] → activityRunning w = false →
  ∃ w' ext, Index.runDailyActivityLoop wa w = Return tt w'
            ∧ trace w' = (trace w ++ ext)%list ∧ last_events 7000 (after_stop ext).
Proof.
  intros Hk Hr. unfold Index.runDailyActivityLoop.
  cbv beta iota delta [mbind M_bind bind get modify Index.log try_finally try_catch].
  destruct (privateKeys w) as [|k keys] eqn:Ek; [done|]. clear Hk.
  change (length (k :: keys) =? 0)%nat with false. cbv iota. rewrite Hr.
  set (w1 := Index.addLog "Starting activity loop" success
               (set_shouldStop false (set_activityRunning true w))).
  pose proof (index_account_loop_tail wa (length (k :: keys)) 0 w1 eq_refl) as Hl.
  unfold sat in Hl.
  destruct (for_loop _ _ _ _ w1) as [[] w2|e w2|].
  - destruct Hl as (ext & Hp & Hw & _); [subst w1; simpl; rewrite Ek; simpl; lia|].
    eexists _, ext. split; [reflexivity|].
    split; [|exact Hw]. simpl. by rewrite (pg_trace _ _ _ Hp).
  - destruct Hl as (ext & Hp & Hw & _); [subst w1; simpl; rewrite Ek; simpl; lia|].
    eexists _, ext. split; [reflexivity|].
    split; [|exact Hw]. simpl. by rewrite (pg_trace _ _ _ Hp).
  - destruct Hl. subst w1; simpl; rewrite Ek; simpl; lia.
Qed.

(** ** The same for the universal file *)

Lemma universal_bridge_loop_tail wa pk proxyUrl i fuel b w :
  activityRunning w = true → (Z.to_nat (Universal.bridgeCount w) - b ≤ fuel)%nat →
  sat (for_loop fuel
         (λ b w, (Z.of_nat b <? Universal.bridgeCount w) && negb (shouldStop w))
         (λ b, _ ← Universal.performBridgeSimple wa pk proxyUrl i;
               w ← get;
               when (Z.of_nat b <? bridgeRepetitions (dailyActivityConfig w) - 1)
                 (Universal.sleepRandom 8000 20000))
         b) w (loop_tail w).
Proof.
  intros Hr Hfuel.
  apply (inner_loop_tail (Universal.performBridgeSimple wa pk proxyUrl i)
           (Universal.sleepRandom 8000 20000) Universal.bridgeCount
           (λ w, bridgeRepetitions (dailyActivityConfig w)) (CallBridge pk proxyUrl i));
    try done.
  - intros w0 ext w' Hp. unfold Universal.bridgeCount. by rewrite (pg_config _ _ _ Hp).
  - intros w0. eexists. apply universal_bridge_spec.
  - intros w0. by apply universal_sat_sleepRandom.
Qed.

Lemma universal_swap_loop_tail wa pk proxyUrl i fuel b w :
  activityRunning w = true → (Z.to_nat (Universal.swapCount w) - b ≤ fuel)%nat →
  sat (for_loop fuel
         (λ s w, (Z.of_nat s <? Universal.swapCount w) && negb (shouldStop w))
         (λ s, _ ← Universal.performSwapSimple wa pk proxyUrl i;
               w ← get;
               when (Z.of_nat s <? swapRepetitions (dailyActivityConfig w) - 1)
                 (Universal.sleepRandom 8000 20000))
         b) w (loop_tail w).
Proof.
  intros Hr Hfuel.
  apply (inner_loop_tail (Universal.performSwapSimple wa pk proxyUrl i)
           (Universal.sleepRandom 8000 20000) Universal.swapCount
           (λ w, swapRepetitions (dailyActivityConfig w)) (CallSwap pk proxyUrl i));
    try done.
  - intros w0 ext w' Hp. unfold Universal.swapCount. by rewrite (pg_config _ _ _ Hp).
  - intros w0. eexists. apply universal_swap_spec.
  - intros w0. by apply universal_sat_sleepRandom.
Qed.

Lemma universal_account_tail wa i w :
  activityRunning w = true →
  sat (Universal.processAccount wa i) w
    (λ _ ext _, stretch (last_events 8000) (λ _, True) w ext).
Proof.
  intros Hr. unfold Universal.processAccount.
  apply sat_bind, sat_get. cbv beta iota zeta.
  apply sat_bind, universal_sat_log. cbv beta iota zeta.
  set (w0 := Universal.addLog _ info w).
  assert (activityRunning w0 = true) as Hr0 by done.
  eapply sat_mono;
    [|intros r ext w' _ H; rewrite !app_nil_l;
      apply (stretch_same _ _ w0 w); [done | exact H]].
  (* the bridge phase, then the rest *)
  eapply (sat_stretch_bind _ _ w0 _ no_events (last_events 8000) (two_pauses 8000));
    [done
    | apply universal_bridge_loop_tail;
        [done | change (Universal.bridgeCount w0) with (Universal.bridgeCount w); lia]
    | | | | | |].
  2:{ intros x Hx. eapply tail_of_mono; [| | |exact Hx]; try done; intros p ->; by left. }
  2:{ done. }
  2:{ intros x y. apply last_events_of_loop. }
  2:{ done. }
  2:{ done. }
  intros _ w1 ext1 Hp1.
  assert (activityRunning w1 = true) as Hr1 by (by rewrite (pg_running _ _ _ Hp1)).
  (* the pause between the phases, then the rest *)
  eapply (sat_stretch_bind _ _ w1 (tail_of no_events no_events no_events)
            (a_pause 8000 15000)
            (tail_of (pause_or_none 8000 20000) no_events (pause_or_none 30000 30000))
            (pause_or_none 30000 30000));
    [done | | | | | | |].
  { eapply sat_mono; [apply universal_sat_sleepRandom; lia|].
    intros r ext w' _ H. by eapply stretch_timer. }
  2:{ intros x Hx. eapply tail_of_mono; [| | |exact Hx]; try done; intros p ->; by left. }
  2:{ intros x Hx. exists x, []. rewrite app_nil_r. split; [done|]. split; [done | by left]. }
  2:{ intros x y Hx Hy. apply tail_of_3; [|done].
      eapply tail_of_mono; [| | |exact Hx]; try done; intros p ->; by left. }
  2:{ intros y Hy. eapply tail_of_mono; [| | |exact Hy]; try done. intros p ->. by left. }
  2:{ intros x y Hx Hy. by exists x, y. }
  intros _ w2 ext2 Hp2.
  assert (activityRunning w2 = true) as Hr2 by (by rewrite (pg_running _ _ _ Hp2)).
  apply sat_bind, sat_get. cbv beta iota zeta.
  eapply sat_mono; [|intros r ext w' _ H; rewrite !app_nil_l; exact H].
  (* the swap phase, then the last pause *)
  eapply (sat_stretch_bind _ _ w2 _ no_events
            (tail_of no_events no_events no_events) (pause_or_none 30000 30000));
    [done | apply universal_swap_loop_tail; [done | lia] | | | | | |].
  2:{ intros x Hx. eapply tail_of_mono; [| | |exact Hx]; try done. intros p ->. by left. }
  2:{ intros x ->. by left. }
  2:{ intros x y Hx Hy. apply tail_of_3; [|done].
      eapply tail_of_mono; [| | |exact Hx]; done. }
  2:{ intros y Hy. eapply tail_of_mono; [| | |exact Hy]; try done; intros p ->; by left. }
  2:{ by intros x y -> Hy. }
  intros _ w3 ext3 Hp3.
  apply sat_bind, sat_get. cbv beta iota zeta.
  eapply sat_mono; [|intros r ext w' _ H; rewrite !app_nil_l; exact H].
  apply sat_when.
  - intros _. apply sat_bind, universal_sat_log. cbv beta iota zeta.
    eapply sat_mono; [apply universal_sat_sleep|].
    intros r ext w' _ H. rewrite app_nil_l.
    eapply stretch_mono; [| |eapply (stretch_timer _ w3); exact H]; [done|].
    intros x Hx. by right.
  - intros _. split; [by apply tail_of_inner | intros _; by left].
Qed.

Lemma universal_account_loop_tail wa fuel i w :
  activityRunning w = true → (length (privateKeys w) - i ≤ fuel)%nat →
  sat (for_loop fuel (λ i w, (i <? length (privateKeys w))%nat && negb (shouldStop w))
         (Universal.processAccount wa) i) w (run_tail 8000 w).
Proof.
  apply (sat_for_loop (λ _ w, run_tail 8000 w) (λ w, activityRunning w = true)
           (λ w, length (privateKeys w))).
  - intros w0 ext w' Hp. by rewrite (pg_running _ _ _ Hp).
  - intros w0 ext w' Hp. by rewrite (pg_keys _ _ _ Hp).
  - intros i0 w0 [H _]%andb_prop. by apply Nat.ltb_lt in H.
  - intros i0 w0 Hr Hc. split; [|done].
    apply tail_of_inner; [by left | by left | by left | done].
  - intros i0 w0 Hr [_ Hst]%andb_prop. apply negb_true_iff in Hst.
    eapply sat_mono; [by apply universal_account_tail|].
    intros [e|[]] ext1 w1 Hp1 [Ha _].
    + split; [done | congruence].
    + intros r2 ext2 w2 Hp2 [Hb Hb']. split; [|congruence].
      rewrite after_stop_app. destruct (existsb is_stop ext1) eqn:E; [|done].
      rewrite Hb', app_nil_r; [done|]. eapply stop_sticks; eauto.
Qed.


Lemma universal_run_tail wa w :
  privateKeys w ≠ [] →
  match Universal.runDailyActivityLoop wa w with
  | Return _ w' =>
      ∃ ext, trace w' = (trace w ++ ext)%list ∧ last_events 8000 (after_stop ext)
  | _ => True
  end.
Proof.
  intros Hk. unfold Universal.runDailyActivityLoop.
  cbv beta iota delta [mbind M_bind bind get modify Universal.log].
  destruct (privateKeys w) as [|k keys] eqn:Ek; [done|]. clear Hk.
  change (length (k :: keys) =? 0)%nat with false.
  cbv beta iota delta [mbind M_bind bind get modify Universal.log].
  pose proof (universal_account_loop_tail wa (length (k :: keys)) 0
                (Universal.addLog "Starting daily activity loop" success
                   (set_shouldStop false (set_activityRunning true w))) eq_refl) as Hl.
  unfold sat in Hl.
  destruct (for_loop _ _ _ _ _) as [[] w2|e w2|]; [|done|done].
  destruct Hl as (ext & Hp & Hw & _); [simpl; rewrite Ek; simpl; lia|].
  exists ext. split; [|exact Hw]. simpl. by rewrite (pg_trace _ _ _ Hp).
Qed.

(** ** The pause after a repetition *)

Lemma sat_for_loop_step fuel cond body b w (Q : string + unit → list Event → World → Prop) :
  cond b w = true →
  sat (bind (body b) (λ _, for_loop fuel cond body (Datatypes.S b))) w Q →
  sat (for_loop (Datatypes.S fuel) cond body b) w Q.
Proof. unfold sat. simpl. by intros ->. Qed.

Section Repetition.
Variable exec : M bool.
Variable sleepR : M unit.
Variable reps : World → Z.
Variable entry : Event.

Hypothesis reps_stable : ∀ w ext w', progress w ext w' → reps w' = reps w.
Hypothesis exec_spec : ∀ w, ∃ amt, sat exec w (executor_post entry amt).
Hypothesis sleep_spec : ∀ w, sat sleepR w (timer_post w 8000 20000).

(** One pass through the body of the loop for a repetition that is not
    the last one: the executor call and then the pause, whatever is clicked
    meanwhile and whatever the stop flag is. *)
Lemma repetition_then_pause (b : nat) (w : World) :
  Z.of_nat b < reps w - 1 →
  sat (repeat_body exec reps sleepR b) w
    (λ r ext _, fault_of w r
                ∧ ∃ rest p, ext = (entry :: rest ++ p)%list ∧ Forall inner_event rest
                            ∧ a_pause 8000 20000 p).
Proof.
  intros Hb. unfold repeat_body. apply sat_bind.
  destruct (exec_spec w) as [amt Hex].
  eapply sat_mono; [exact Hex|].
  intros r ext1 w1 Hp1 ([ok ->] & rest & -> & Hin & _).
  apply sat_bind, sat_get. cbv beta iota zeta.
  rewrite (reps_stable _ _ _ Hp1).
  destruct (Z.ltb_spec (Z.of_nat b) (reps w - 1)) as [_|]; [|lia].
  eapply sat_mono; [apply sleep_spec|].
  intros r ext2 w2 Hp2 (Hf & _ & ms & cl & Hms & -> & Hcl).
  split; [eapply fault_of_env; [|exact Hf]; apply (pg_env _ _ _ Hp1)|].
  exists rest, (Slept ms :: cl). split; [done|]. split; [done|]. by exists ms, cl.
Qed.
End Repetition.

Lemma index_account_rest wa (pk proxyUrl : option string) i w :
  activityRunning w = true →
  sat (Index.sleepRandom 7000 15000;;
       w ← get;
       for_loop (Z.to_nat (Index.swapCount w))
         (λ s w, (Z.of_nat s <? Index.swapCount w) && negb (shouldStop w))
         (λ s, _ ← Index.performSwapSimple wa pk proxyUrl i;
               w ← get;
               when (Z.of_nat s <? swapRepetitions (dailyActivityConfig w) - 1)
                 (Index.sleepRandom 8000 20000))
         0%nat;;
       w ← get;
       when (Z.of_nat i <? Z.of_nat (length (privateKeys w)) - 1)
         (Index.log "Waiting 30s before next account..." wait;;
          Index.sleep 30000)) w
    (λ r ext _, fault_of w r
                ∧ (r = inr tt → account_sleeps 7000 i (length (privateKeys w)) ext)).
Proof.
  intros Hr.
  apply sat_bind. eapply sat_mono; [apply index_sat_sleepRandom; lia|].
  intros r2 ext2 w2 Hp2 H2.
  assert (activityRunning w2 = true) as Hr2 by (by rewrite (pg_running _ _ _ Hp2)).
  destruct r2 as [?|[]]; [split; [apply H2 | done]|].
  apply sat_bind, sat_get. cbv beta iota zeta.
  apply sat_bind. eapply sat_mono; [apply index_swap_loop_winds; [done|lia]|].
  intros r3 ext3 w3 Hp3 H3.
  assert (env w2 = env w) as E2 by apply (pg_env _ _ _ Hp2).
  rewrite ?app_nil_l.
  destruct r3 as [?|[]].
  { split; [eapply fault_of_env; [|apply H3]; exact E2 | done]. }
  assert (env w3 = env w) as E3 by (by rewrite (pg_env _ _ _ Hp3)).
  assert (privateKeys w3 = privateKeys w) as Ek
    by (by rewrite (pg_keys _ _ _ Hp3), (pg_keys _ _ _ Hp2)).
  apply sat_bind, sat_get. cbv beta iota zeta. rewrite ?app_nil_l.
  pose proof H2 as (_ & _ & g & cl & _ & -> & _).
  apply sat_when.
  - intros Hc. apply sat_bind, index_sat_log. cbv beta iota zeta.
    eapply sat_mono; [apply index_sat_sleep|].
    intros r4 ext4 w4 Hp4 H4. rewrite ?app_nil_l.
    split; [eapply fault_of_env; [|apply H4]; exact E3|].
    intros _.
    eapply (account_sleeps_intro 7000 i _ [] g cl ext3 ext4);
      [exact H2 | intros _; exact H4].
  - intros Hc. rewrite ?app_nil_l, ?app_nil_r.
    split; [done|]. intros _. rewrite <- (app_nil_r ext3).
    apply (account_sleeps_intro 7000 i _ [] g cl ext3 [] (inr ()) (inr ()) w w w2 w);
      [exact H2|].
    intros Hlt. apply Z.ltb_ge in Hc. rewrite Ek in Hc. lia.
Qed.

Lemma account_sleeps_app lo i N pre (ext : list Event) :
  account_sleeps lo i N ext → account_sleeps lo i N (pre ++ ext).
Proof.
  intros (pre' & g & mid & post & -> & Hg & Hpost).
  exists (pre ++ pre')%list, g, mid, post. by rewrite <- app_assoc.
Qed.

(** The first repetition of the bridge phase, when it is not the last:
    its pause follows the call, and the pauses of the account come after
    it. *)
Lemma index_first_repetition wa i w :
  activityRunning w = true → shouldStop w = false →
  2 ≤ bridgeRepetitions (dailyActivityConfig w) →
  sat (Index.processAccount wa i) w
    (λ r ext _,
       fault_of w r
       ∧ ∃ rest p tail,
           ext = (CallBridge (privateKeys w !! i) (Index.proxyFor (proxies w) i) i
                  :: rest ++ p ++ tail)%list
           ∧ Forall inner_event rest ∧ a_pause 8000 20000 p
           ∧ (r = inr tt → account_sleeps 7000 i (length (privateKeys w)) tail)).
Proof.
  intros Hr Hs HB. unfold Index.processAccount.
  apply sat_bind, sat_get. cbv beta iota zeta.
  apply sat_bind, index_sat_log. cbv beta iota zeta.
  set (w0 := Index.addLog _ info w).
  set (pk := privateKeys w !! i). set (px := Index.proxyFor (proxies w) i).
  assert (Index.bridgeCount w = bridgeRepetitions (dailyActivityConfig w)) as EB.
  { unfold Index.bridgeCount. simpl.
    destruct (Z.eqb_spec (bridgeRepetitions (dailyActivityConfig w)) 0); [lia | done]. }
  destruct (Z.to_nat (Index.bridgeCount w)) as [|fuel] eqn:Ef; [lia|].
  apply sat_bind. apply sat_for_loop_step.
  { change (Index.bridgeCount w0) with (Index.bridgeCount w).
    change (shouldStop w0) with (shouldStop w). rewrite Hs, EB.
    by destruct (Z.ltb_spec (Z.of_nat 0) (bridgeRepetitions (dailyActivityConfig w))); [|lia]. }
  apply sat_bind'.
  eapply sat_mono.
  { apply (repetition_then_pause (Index.performBridgeSimple wa pk px i)
             (Index.sleepRandom 8000 20000)
             (λ w, bridgeRepetitions (dailyActivityConfig w)) (CallBridge pk px i)).
    - intros w1 ext w' Hp. by rewrite (pg_config _ _ _ Hp).
    - intros w1. eexists. apply index_bridge_spec.
    - intros w1. by apply index_sat_sleepRandom.
    - change (dailyActivityConfig w0) with (dailyActivityConfig w). simpl. lia. }
  intros r1 ext1 w1 Hp1 (Hf1 & rest & p & -> & Hin & Hpause).
  assert (activityRunning w1 = true) as Hr1 by (by rewrite (pg_running _ _ _ Hp1)).
  assert (env w1 = env w) as E1 by apply (pg_env _ _ _ Hp1).
  assert (privateKeys w1 = privateKeys w) as K1 by apply (pg_keys _ _ _ Hp1).
  destruct r1 as [e|[]].
  { rewrite !app_nil_l. split; [done|]. exists rest, p, [].
    rewrite app_nil_r. done. }
  eapply sat_mono.
  { apply (inner_loop_winds (Index.performBridgeSimple wa pk px i)
             (Index.sleepRandom 8000 20000) Index.bridgeCount
             (λ w, bridgeRepetitions (dailyActivityConfig w)) (CallBridge pk px i));
      try done.
    - intros w' ext w'' Hp. unfold Index.bridgeCount. by rewrite (pg_config _ _ _ Hp).
    - intros w'. eexists. apply index_bridge_spec.
    - intros w'. by apply index_sat_sleepRandom.
    - unfold Index.bridgeCount. rewrite (pg_config _ _ _ Hp1).
      change (dailyActivityConfig w0) with (dailyActivityConfig w).
      fold (Index.bridgeCount w). lia. }
  intros r2 ext2 w2 Hp2 (Hf2 & _).
  assert (progress w0 ((CallBridge pk px i :: rest ++ p) ++ ext2) w2) as Hp02
    by (eapply progress_trans; eauto).
  assert (activityRunning w2 = true) as Hr2 by (by rewrite (pg_running _ _ _ Hp2)).
  assert (env w2 = env w) as E2 by apply (pg_env _ _ _ Hp02).
  assert (privateKeys w2 = privateKeys w) as K2 by apply (pg_keys _ _ _ Hp02).
  destruct r2 as [e|[]].
  { rewrite !app_nil_l. split; [eapply fault_of_env; [|exact Hf2]; exact E1|].
    exists rest, p, ext2. split; [simpl; by rewrite <- !app_assoc|]. done. }
  eapply sat_mono; [by apply (index_account_rest wa pk px i w2)|].
  intros r3 ext3 w3 Hp3 [Hf3 Hacc]. rewrite !app_nil_l.
  split; [eapply fault_of_env; [|exact Hf3]; exact E2|].
  exists rest, p, (ext2 ++ ext3)%list.
  split; [simpl; by rewrite <- !app_assoc|]. split; [done|]. split; [done|].
  intros Hr3. rewrite <- K2. by apply account_sleeps_app, Hacc.
Qed.

Lemma universal_account_rest wa (pk proxyUrl : option string) i w :
  activityRunning w = true →
  sat (Universal.sleepRandom 8000 15000;;
       w ← get;
       for_loop (Z.to_nat (Universal.swapCount w))
         (λ s w, (Z.of_nat s <? Universal.swapCount w) && negb (shouldStop w))
         (λ s, _ ← Universal.performSwapSimple wa pk proxyUrl i;
               w ← get;
               when (Z.of_nat s <? swapRepetitions (dailyActivityConfig w) - 1)
                 (Universal.sleepRandom 8000 20000))
         0%nat;;
       w ← get;
       when (Z.of_nat i <? Z.of_nat (length (privateKeys w)) - 1)
         (Universal.log "Waiting 30s before next account..." wait;;
          Universal.sleep 30000)) w
    (λ r ext _, fault_of w r
                ∧ (r = inr tt → account_sleeps 8000 i (length (privateKeys w)) ext)).
Proof.
  intros Hr.
  apply sat_bind. eapply sat_mono; [apply universal_sat_sleepRandom; lia|].
  intros r2 ext2 w2 Hp2 H2.
  assert (activityRunning w2 = true) as Hr2 by (by rewrite (pg_running _ _ _ Hp2)).
  destruct r2 as [?|[]]; [split; [apply H2 | done]|].
  apply sat_bind, sat_get. cbv beta iota zeta.
  apply sat_bind. eapply sat_mono; [apply universal_swap_loop_winds; [done|lia]|].
  intros r3 ext3 w3 Hp3 H3.
  assert (env w2 = env w) as E2 by apply (pg_env _ _ _ Hp2).
  rewrite ?app_nil_l.
  destruct r3 as [?|[]].
  { split; [eapply fault_of_env; [|apply H3]; exact E2 | done]. }
  assert (env w3 = env w) as E3 by (by rewrite (pg_env _ _ _ Hp3)).
  assert (privateKeys w3 = privateKeys w) as Ek
    by (by rewrite (pg_keys _ _ _ Hp3), (pg_keys _ _ _ Hp2)).
  apply sat_bind, sat_get. cbv beta iota zeta. rewrite ?app_nil_l.
  pose proof H2 as (_ & _ & g & cl & _ & -> & _).
  apply sat_when.
  - intros Hc. apply sat_bind, universal_sat_log. cbv beta iota zeta.
    eapply sat_mono; [apply universal_sat_sleep|].
    intros r4 ext4 w4 Hp4 H4. rewrite ?app_nil_l.
    split; [eapply fault_of_env; [|apply H4]; exact E3|].
    intros _.
    eapply (account_sleeps_intro 8000 i _ [] g cl ext3 ext4);
      [exact H2 | intros _; exact H4].
  - intros Hc. rewrite ?app_nil_l, ?app_nil_r.
    split; [done|]. intros _. rewrite <- (app_nil_r ext3).
    apply (account_sleeps_intro 8000 i _ [] g cl ext3 [] (inr ()) (inr ()) w w w2 w);
      [exact H2|].
    intros Hlt. apply Z.ltb_ge in Hc. rewrite Ek in Hc. lia.
Qed.

(** The first repetition of the bridge phase, when it is not the last:
    its pause follows the call, and the pauses of the account come after
    it. *)
Lemma universal_first_repetition wa i w :
  activityRunning w = true → shouldStop w = false →
  2 ≤ bridgeRepetitions (dailyActivityConfig w) →
  sat (Universal.processAccount wa i) w
    (λ r ext _,
       fault_of w r
       ∧ ∃ rest p tail,
           ext = (CallBridge (privateKeys w !! i) (Universal.proxyFor (proxies w) i) i
                  :: rest ++ p ++ tail)%list
           ∧ Forall inner_event rest ∧ a_pause 8000 20000 p
           ∧ (r = inr tt → account_sleeps 8000 i (length (privateKeys w)) tail)).
Proof.
  intros Hr Hs HB. unfold Universal.processAccount.
  apply sat_bind, sat_get. cbv beta iota zeta.
  apply sat_bind, universal_sat_log. cbv beta iota zeta.
  set (w0 := Universal.addLog _ info w).
  set (pk := privateKeys w !! i). set (px := Universal.proxyFor (proxies w) i).
  assert (Universal.bridgeCount w = bridgeRepetitions (dailyActivityConfig w)) as EB.
  { unfold Universal.bridgeCount. simpl.
    destruct (Z.eqb_spec (bridgeRepetitions (dailyActivityConfig w)) 0); [lia | done]. }
  destruct (Z.to_nat (Universal.bridgeCount w)) as [|fuel] eqn:Ef; [lia|].
  apply sat_bind. apply sat_for_loop_step.
  { change (Universal.bridgeCount w0) with (Universal.bridgeCount w).
    change (shouldStop w0) with (shouldStop w). rewrite Hs, EB.
    by destruct (Z.ltb_spec (Z.of_nat 0) (bridgeRepetitions (dailyActivityConfig w))); [|lia]. }
  apply sat_bind'.
  eapply sat_mono.
  { apply (repetition_then_pause (Universal.performBridgeSimple wa pk px i)
             (Universal.sleepRandom 8000 20000)
             (λ w, bridgeRepetitions (dailyActivityConfig w)) (CallBridge pk px i)).
    - intros w1 ext w' Hp. by rewrite (pg_config _ _ _ Hp).
    - intros w1. eexists. apply universal_bridge_spec.
    - intros w1. by apply universal_sat_sleepRandom.
    - change (dailyActivityConfig w0) with (dailyActivityConfig w). simpl. lia. }
  intros r1 ext1 w1 Hp1 (Hf1 & rest & p & -> & Hin & Hpause).
  assert (activityRunning w1 = true) as Hr1 by (by rewrite (pg_running _ _ _ Hp1)).
  assert (env w1 = env w) as E1 by apply (pg_env _ _ _ Hp1).
  assert (privateKeys w1 = privateKeys w) as K1 by apply (pg_keys _ _ _ Hp1).
  destruct r1 as [e|[]].
  { rewrite !app_nil_l. split; [done|]. exists rest, p, [].
    rewrite app_nil_r. done. }
  eapply sat_mono.
  { apply (inner_loop_winds (Universal.performBridgeSimple wa pk px i)
             (Universal.sleepRandom 8000 20000) Universal.bridgeCount
             (λ w, bridgeRepetitions (dailyActivityConfig w)) (CallBridge pk px i));
      try done.
    - intros w' ext w'' Hp. unfold Universal.bridgeCount. by rewrite (pg_config _ _ _ Hp).
    - intros w'. eexists. apply universal_bridge_spec.
    - intros w'. by apply universal_sat_sleepRandom.
    - unfold Universal.bridgeCount. rewrite (pg_config _ _ _ Hp1).
      change (dailyActivityConfig w0) with (dailyActivityConfig w).
      fold (Universal.bridgeCount w). lia. }
  intros r2 ext2 w2 Hp2 (Hf2 & _).
  assert (progress w0 ((CallBridge pk px i :: rest ++ p) ++ ext2) w2) as Hp02
    by (eapply progress_trans; eauto).
  assert (activityRunning w2 = true) as Hr2 by (by rewrite (pg_running _ _ _ Hp2)).
  assert (env w2 = env w) as E2 by apply (pg_env _ _ _ Hp02).
  assert (privateKeys w2 = privateKeys w) as K2 by apply (pg_keys _ _ _ Hp02).
  destruct r2 as [e|[]].
  { rewrite !app_nil_l. split; [eapply fault_of_env; [|exact Hf2]; exact E1|].
    exists rest, p, ext2. split; [simpl; by rewrite <- !app_assoc|]. done. }
  eapply sat_mono; [by apply (universal_account_rest wa pk px i w2)|].
  intros r3 ext3 w3 Hp3 [Hf3 Hacc]. rewrite !app_nil_l.
  split; [eapply fault_of_env; [|exact Hf3]; exact E2|].
  exists rest, p, (ext2 ++ ext3)%list.
  split; [simpl; by rewrite <- !app_assoc|]. split; [done|]. split; [done|].
  intros Hr3. rewrite <- K2. by apply account_sleeps_app, Hacc.
Qed.

(** ** A stop request does not cut an executor call short *)

(** An awaited chain call, its result kept. *)
Ltac wp_call :=
  first
    [ eapply sat_mono; [apply index_sat_await_call|]
    | eapply sat_mono; [apply universal_sat_await_call|] ];
  let r := fresh "r" in let ext := fresh "ext" in let w' := fresh "w" in
  let Hp := fresh "Hp" in let Hc := fresh "Hc" in let Hr := fresh "Hr" in
  intros r ext w' Hp [Hc Hr]; destruct r.

Ltac wp_one :=
  first
    [ apply sat_bind | apply sat_try_catch | apply sat_ret | apply sat_throw
    | apply sat_get | apply sat_now | apply sat_random
    | apply sat_emit; [reflexivity|]
    | apply index_sat_log | apply universal_sat_log
    | wp_call
    | match goal with
      | |- sat (if negb true then _ else _) _ _ => cbn [negb]
      | |- sat (if negb false then _ else _) _ _ => cbn [negb]
      | |- sat (if ?c then _ else _) _ _ => let E := fresh "E" in destruct c eqn:E
      end ];
  cbv beta iota zeta.

Ltac wp_all := repeat wp_one.









(** * The claims *)

(** ** C1: executor calls of a full run *)

Lemma bridge_calls_of_run keys pxs proxyFor B S first count :
  length (List.filter is_bridge_call (calls_of_run keys pxs proxyFor B S first count))
  = (B * count)%nat.
Proof.
  revert first. induction count as [|n IH]; intros first; [simpl; lia|].
  unfold calls_of_run in *. simpl. rewrite List.filter_app, length_app, IH.
  unfold calls_of_account. rewrite List.filter_app, length_app.
  assert (∀ k (e : Event), length (List.filter is_bridge_call (replicate k e))
                           = if is_bridge_call e then k else 0%nat) as Hrep.
  { intros k e. induction k as [|k IHk]; simpl; [by destruct (is_bridge_call e)|].
    destruct (is_bridge_call e); simpl; [by rewrite IHk | done]. }
  rewrite !Hrep. simpl. lia.
Qed.

Lemma swap_calls_of_run keys pxs proxyFor B S first count :
  length (List.filter is_swap_call (calls_of_run keys pxs proxyFor B S first count))
  = (S * count)%nat.
Proof.
  revert first. induction count as [|n IH]; intros first; [simpl; lia|].
  unfold calls_of_run in *. simpl. rewrite List.filter_app, length_app, IH.
  unfold calls_of_account. rewrite List.filter_app, length_app.
  assert (∀ k (e : Event), length (List.filter is_swap_call (replicate k e))
                           = if is_swap_call e then k else 0%nat) as Hrep.
  { intros k e. induction k as [|k IHk]; simpl; [by destruct (is_swap_call e)|].
    destruct (is_swap_call e); simpl; [by rewrite IHk | done]. }
  rewrite !Hrep. simpl. lia.
Qed.

Lemma or_one_positive z : 1 ≤ z → JS.or_one (JS.Num z) = z.
Proof. intros H. simpl. destruct (Z.eqb_spec z 0); [lia | done]. Qed.

(** C1.  With [B] bridge and [S] swap repetitions configured (positive
    integers) and [N] keys loaded, a run started from the idle state in which
    nobody requests a stop and no fault occurs calls the Bridge executor
    [B * N] times and the Swap executor [S * N] times, in account order: for
    each account all its bridge calls, then all its swap calls.  This holds
    for both files, whatever the executors return. *)
Theorem C1_full_run_calls (walletAddress : string → option string) (w : World) (B S : Z) :
  1 ≤ B → 1 ≤ S →
  dailyActivityConfig w = mkConfig B S →
  activityRunning w = false →
  no_stop (env w) → no_fault (env w) →
  full_run (Index.runDailyActivityLoop walletAddress) Index.proxyFor B S w
  ∧ full_run (Universal.runDailyActivityLoop walletAddress) Universal.proxyFor B S w.
Proof.
  intros HB HS Hcfg Hr Hns Hnf.
  assert (Index.bridgeCount w = B ∧ Index.swapCount w = S) as [EB ES].
  { unfold Index.bridgeCount, Index.swapCount. rewrite Hcfg. simpl bridgeRepetitions.
    simpl swapRepetitions. by rewrite !or_one_positive. }
  unfold full_run. destruct (privateKeys w) as [|k keys] eqn:Ek.
  - split.
    + exists (Index.addLog "No private keys loaded. Add keys to pk.txt" error w), [].
      unfold Index.runDailyActivityLoop.
      cbv beta iota delta [mbind M_bind bind get modify Index.log]. rewrite Ek.
      split; [done|]. split; [simpl; by rewrite app_nil_r|]. simpl. split; [done|lia].
    + exists (set_activityRunning false
                (Universal.addLog "No private keys loaded. Aborting activity." error w)), [].
      unfold Universal.runDailyActivityLoop.
      cbv beta iota delta [mbind M_bind bind get modify Universal.log]. rewrite Ek.
      split; [done|]. split; [simpl; by rewrite app_nil_r|]. simpl. split; [done|lia].
  - rewrite <- Ek. split.
    + destruct (index_run_quiet walletAddress w) as (w' & ext & Hrun & Htr & Hc);
        try done; [by rewrite Ek|].
      rewrite EB, ES in Hc.
      exists w', ext. do 3 (split; [done|]). rewrite Hc.
      rewrite bridge_calls_of_run, swap_calls_of_run. lia.
    + destruct (universal_run_quiet walletAddress w) as (w' & ext & Hrun & Htr & Hc);
        try done; [by rewrite Ek|].
      change (Universal.bridgeCount w) with (Index.bridgeCount w) in Hc.
      change (Universal.swapCount w) with (Index.swapCount w) in Hc.
      rewrite EB, ES in Hc.
      exists w', ext. do 3 (split; [done|]). rewrite Hc.
      rewrite bridge_calls_of_run, swap_calls_of_run. lia.
Qed.

Lemma calm_no_stop : no_stop calm_env.
Proof. intros t H. by apply elem_of_nil in H. Qed.

Lemma calm_no_fault : no_fault calm_env.
Proof. by intros t. Qed.

Lemma C1_full_run_calls_witness :
  full_run (Index.runDailyActivityLoop sample_wallet) Index.proxyFor 2 1
    (sample_world 2 1 calm_env)
  ∧ full_run (Universal.runDailyActivityLoop sample_wallet) Universal.proxyFor 2 1
      (sample_world 2 1 calm_env).
Proof.
  apply (C1_full_run_calls sample_wallet (sample_world 2 1 calm_env) 2 1).
  - lia.
  - lia.
  - reflexivity.
  - reflexivity.
  - exact calm_no_stop.
  - exact calm_no_fault.
Defined.

(** ** C2: the amount of a bridge call *)

Lemma executor_returned {entry amt} (m : M bool) w :
  sat m w (executor_post entry amt) →
  returned m w (λ _ ext _, ∃ rest, ext = entry :: rest ∧ Forall (deposit_of amt) rest).
Proof.
  unfold sat, returned, executor_post.
  destruct (m w) as [b w'|e w'|]; [| |done].
  - intros (ext & Hp & _ & rest & -> & _ & Hd).
    exists b, w', (entry :: rest). split; [done|]. split; [apply Hp|]. eauto.
  - intros (ext & _ & [b [=]] & _).
Qed.

(** C2, as the code has it.  The amount of a bridge call is
    [(Math.random() * (hi - 0.01) + 0.01).toFixed(6)], computed in doubles,
    with [hi = 0.05] in the universal file and [hi = 0.03] in index.js.  So
    in the universal file it is one of the six-decimal values of
    [0.01 .. 0.05], each of which some draw gives, and in index.js it is one
    of the six-decimal values of [0.01 .. 0.03], each of which some draw
    gives.  In both files the deposit carries the amount times [10^12], that
    is the six-decimal amount in units of [10^-18]. *)
Theorem C2_bridge_amount (walletAddress : string → option string)
    (pk proxyUrl : option string) (i : nat) (w : World) :
  let r := randoms (env w) (draws w) in
  (10000 ≤ Universal.bridgeAmount r ≤ 50000
   ∧ (∀ m, 10000 ≤ m ≤ 50000 → Universal.bridgeAmount (draw_for 40000 10000 m) = m)
   ∧ returned (Universal.performBridgeSimple walletAddress pk proxyUrl i) w
       (λ _ ext _, Forall (deposit_of (Universal.bridgeAmount r * 10 ^ 12)) ext))
  ∧
  (10000 ≤ Index.bridgeAmount r ≤ 30000
   ∧ (∀ m, 10000 ≤ m ≤ 30000 → Index.bridgeAmount (draw_for 20000 10000 m) = m)
   ∧ returned (Index.performBridgeSimple walletAddress pk proxyUrl i) w
       (λ _ ext _, Forall (deposit_of (Index.bridgeAmount r * 10 ^ 12)) ext)).
Proof.
  intros r. split.
  - split; [apply universal_bridgeAmount_range|].
    split; [apply universal_bridgeAmount_onto|].
    destruct (executor_returned _ _ (universal_bridge_spec walletAddress pk proxyUrl i w))
      as (b & w' & ext & Hrun & Htr & rest & -> & Hd).
    exists b, w', (CallBridge pk proxyUrl i :: rest). do 2 (split; [done|]).
    by constructor.
  - split; [apply index_bridgeAmount_range|].
    split; [apply index_bridgeAmount_onto|].
    destruct (executor_returned _ _ (index_bridge_spec walletAddress pk proxyUrl i w))
      as (b & w' & ext & Hrun & Htr & rest & -> & Hd).
    exists b, w', (CallBridge pk proxyUrl i :: rest). do 2 (split; [done|]).
    by constructor.
Qed.

(** C2 as stated fails on index.js: no draw gives 0.04 there, a value of
    the interval [0.01 .. 0.05]. *)
Lemma C2_index_never_draws_004 : ¬ ∃ r, Index.bridgeAmount r = 40000.
Proof.
  intros [r H]. pose proof (index_bridgeAmount_range r) as Hr. lia.
Qed.

(** ** C3 and C6: a failed approval in index.js *)

(** In the universal file a bridge call whose approval helper reports
    failure returns [false] at once, in the state the helper left. *)
Lemma universal_bridge_aborts walletAddress pk proxyUrl i w signer w2 :
  pk ≫= walletAddress = Some signer →
  Universal.checkAndApprove signer TOKEN_A_universal BRIDGE_ROUTER_universal
    (JS.parseUnits18 (Universal.bridgeAmount (randoms (env w) (draws w)))) i "bridge token"
    (next_draw (record (CallBridge pk proxyUrl i) w)) = Return false w2 →
  Universal.performBridgeSimple walletAddress pk proxyUrl i w = Return false w2.
Proof.
  intros Hs Hc. unfold Universal.performBridgeSimple, Universal.newWallet.
  rewrite Hs.
  change (String.eqb BRIDGE_ROUTER_universal "" || String.eqb TOKEN_A_universal "")
    with false.
  cbv beta iota delta [mbind M_bind bind emit modify ret random try_catch].
  change (env (record (CallBridge pk proxyUrl i) w)) with (env w).
  change (draws (record (CallBridge pk proxyUrl i) w)) with (draws w).
  by rewrite Hc.
Qed.


(** C3 on index.js, at the failing input: the allowance query of the first
    account fails; the helper logs it and returns [false], yet the bridge
    call goes on, sends the deposit and returns [true]. *)
Theorem C3_index_deposits_after_failed_approval :
  returned (Index.performBridgeSimple sample_wallet (Some "key-one") None 0)
    (sample_world 1 1 (fail_at 0 "allowance reverted"))
    (λ ok ext w',
       ok = true
       ∧ existsb is_deposit ext = true
       ∧ Log error "Acct 1: approve failed: allowance reverted" ∈ transactionLogs w').
Proof.
  unfold returned. eexists _, _, _. split; [vm_compute; reflexivity|].
  split; [reflexivity|]. split; [reflexivity|]. split; [reflexivity|].
  apply list_elem_of_In. vm_compute. tauto.
Qed.

(** The universal file at the same input: [false], and no deposit. *)
Lemma universal_bridge_at_failed_approval :
  returned (Universal.performBridgeSimple sample_wallet (Some "key-one") None 0)
    (sample_world 1 1 (fail_at 0 "allowance reverted"))
    (λ ok ext w', ok = false ∧ existsb is_deposit ext = false).
Proof.
  unfold returned. eexists _, _, _. split; [vm_compute; reflexivity|].
  split; [reflexivity|]. split; reflexivity.
Qed.

(** C6 on index.js, at a failing input: the approval transaction of the
    first account is rejected; the failure is caught and logged with the
    account number, but the bridge call returns [true], not [false]. *)
Theorem C6_index_failure_not_converted :
  returned (Index.performBridgeSimple sample_wallet (Some "key-one") None 0)
    (sample_world 1 1 (fail_at 3 "nonce too low"))
    (λ ok ext w',
       ok = true
       ∧ Log error "Acct 1: approve failed: nonce too low" ∈ transactionLogs w'
       ∧ Log success "Acct 1: bridge completed" ∈ transactionLogs w').
Proof.
  unfold returned. eexists _, _, _. split; [vm_compute; reflexivity|].
  split; [reflexivity|]. split; [reflexivity|].
  split; apply list_elem_of_In; vm_compute; tauto.
Qed.

(** ** C4: the log buffer *)

Lemma trimLogs_last_n (l : list LogEntry) : Index.trimLogs 1000 l = last_n 1000 l.
Proof.
  unfold Index.trimLogs, last_n, JS.slice_last.
  destruct (Nat.ltb_spec 1000 (length l)) as [H|H].
  - done.
  - by replace (length l - 1000)%nat with 0%nat by lia.
Qed.

Lemma last_n_length {A} n (l : list A) : length (last_n n l) = Nat.min n (length l).
Proof. unfold last_n. rewrite length_drop. lia. Qed.

Lemma last_n_snoc {A} n (l : list A) (x : A) :
  (1 ≤ n)%nat → last_n n (last_n n l ++ [x]) = last_n n (l ++ [x]).
Proof.
  intros Hn. unfold last_n at 1 3. rewrite !length_app, last_n_length. simpl.
  destruct (Nat.le_gt_cases (length l) n) as [H|H].
  - unfold last_n. replace (length l - n)%nat with 0%nat by lia.
    by replace (Nat.min n (length l)) with (length l) by lia.
  - unfold last_n. rewrite !drop_app, length_drop.
    replace (length l + 1 - n - length l)%nat with 0%nat by lia.
    replace (Nat.min n (length l) + 1 - n - (length l - (length l - n)))%nat
      with 0%nat by lia.
    rewrite drop_drop. simpl. do 2 f_equal. lia.
Qed.

Lemma last_n_app_snoc {A} (l es : list A) :
  last_n 1000 (last_n 1000 l ++ es) = last_n 1000 (l ++ es).
Proof.
  induction es as [|e es IH] using rev_ind.
  - rewrite !app_nil_r. unfold last_n at 1. rewrite last_n_length.
    by replace (Nat.min 1000 (length l) - 1000)%nat with 0%nat by lia.
  - rewrite !app_assoc, <- last_n_snoc, IH, last_n_snoc by lia. done.
Qed.

Lemma index_push_all (es : list LogEntry) : ∀ w,
  (length (transactionLogs w) ≤ 1000)%nat →
  transactionLogs (push_all Index.addLog es w) = last_n 1000 (transactionLogs w ++ es).
Proof.
  unfold push_all. induction es as [|[t s] es IH]; intros w Hw; cbn [foldl].
  - rewrite app_nil_r. unfold last_n.
    by replace (length (transactionLogs w) - 1000)%nat with 0%nat by lia.
  - cbn [log_text log_type]. rewrite IH.
    + cbn [Index.addLog set_logs transactionLogs]. rewrite trimLogs_last_n.
      by rewrite last_n_app_snoc, <- app_assoc.
    + cbn [Index.addLog set_logs transactionLogs].
      rewrite trimLogs_last_n, last_n_length. lia.
Qed.

Lemma universal_push_all (es : list LogEntry) : ∀ w,
  transactionLogs (push_all Universal.addLog es w) = (transactionLogs w ++ es)%list.
Proof.
  unfold push_all. induction es as [|[t s] es IH]; intros w; cbn [foldl].
  - by rewrite app_nil_r.
  - rewrite IH. cbn [Universal.addLog set_logs transactionLogs log_text log_type].
    by rewrite <- app_assoc.
Qed.

(** C4, as the code has it.  In index.js the buffer holds at most 1000
    entries after every append, and appending entries [es] to a buffer of at
    most 1000 leaves the last 1000 of what was there followed by [es], in
    order; so 1001 entries pushed into an empty buffer leave the last 1000 of
    them.  In the universal file nothing is ever discarded: the buffer grows
    by one entry per append. *)
Theorem C4_log_buffer (es : list LogEntry) (str : string) (type : LogType) (w : World) :
  ((length (transactionLogs (Index.addLog str type w)) ≤ 1000)%nat
   ∧ ((length (transactionLogs w) ≤ 1000)%nat →
      transactionLogs (push_all Index.addLog es w)
      = last_n 1000 (transactionLogs w ++ es))
   ∧ (transactionLogs w = [] → length es = 1001%nat →
      transactionLogs (push_all Index.addLog es w) = drop 1 es))
  ∧ transactionLogs (push_all Universal.addLog es w) = (transactionLogs w ++ es)%list
  ∧ length (transactionLogs (Universal.addLog str type w))
    = Datatypes.S (length (transactionLogs w)).
Proof.
  split; [split; [|split]|split].
  - simpl. rewrite trimLogs_last_n, last_n_length. lia.
  - apply index_push_all.
  - intros Hw He. rewrite index_push_all by (rewrite Hw; simpl; lia).
    rewrite Hw. simpl. unfold last_n. by rewrite He.
  - apply universal_push_all.
  - simpl. rewrite length_app. simpl. lia.
Qed.

(** C4 as stated fails on the universal file: 1001 appends leave 1001
    entries. *)
Lemma C4_universal_log_exceeds_cap :
  ¬ (length (transactionLogs
               (push_all Universal.addLog (replicate 1001 (Log info "tick"))
                  (sample_world 1 1 calm_env))) ≤ 1000)%nat.
Proof. rewrite universal_push_all, length_app, length_replicate. simpl. lia. Qed.

Lemma C4_log_buffer_witness :
  transactionLogs (push_all Index.addLog (replicate 1001 (Log info "tick"))
                     (sample_world 1 1 calm_env))
  = replicate 1000 (Log info "tick").
Proof.
  destruct (C4_log_buffer (replicate 1001 (Log info "tick")) "x" info
              (sample_world 1 1 calm_env)) as [(_ & _ & H) _].
  rewrite H; [reflexivity | reflexivity | apply length_replicate].
Defined.

(** ** C5: the two flags *)

Lemma universal_run_returns wa w :
  privateKeys w ≠ [] → no_fault (env w) →
  ∃ w' ext, Universal.runDailyActivityLoop wa w = Return tt w'
            ∧ trace w' = (trace w ++ ext)%list
            ∧ activityRunning w' = false ∧ shouldStop w' = existsb is_stop ext
            ∧ winds_down 65000 ext.
Proof.
  intros Hk Hnf. pose proof (universal_run_spec wa w Hk) as H.
  destruct (Universal.runDailyActivityLoop wa w) as [[] w'|e w'|]; [| |done].
  - destruct H as (ext & Hr & Hs & Ht & Hw). by exists w', ext.
  - destruct H as [[t Ht] _]. by rewrite Hnf in Ht.
Qed.

Lemma index_stop_only_while_running a w :
  shouldStop (Index.handleMenuAction a w) = true →
  shouldStop w = true ∨ (a = StopActivity ∧ activityRunning w = true).
Proof.
  destruct a; unfold Index.handleMenuAction; simpl;
    destruct (activityRunning w); simpl; auto.
Qed.

Lemma universal_stop_only_while_running a w :
  shouldStop (Universal.onMenuSelect a w) = true →
  shouldStop w = true ∨ (a = StopActivity ∧ activityRunning w = true).
Proof.
  destruct a; unfold Universal.onMenuSelect; simpl;
    destruct (activityRunning w); simpl; auto.
Qed.

(** C5, as the code has it.  With keys loaded: a run of index.js started
    from the idle state always returns, whether the loop ran to its end, a
    stop request was observed or an unexpected fault was caught, and then
    both flags are false.  A run of the universal file that meets no fault
    returns with the running flag false and the stop flag as the requests of
    this run left it: true after a stop request, and reset only when the next
    run starts.  In both files a menu action raises the stop flag only when
    it is Stop and the running flag is true. *)
Theorem C5_flags_at_exit (walletAddress : string → option string) (w : World) :
  privateKeys w ≠ [] →
  (activityRunning w = false →
   ∃ w', Index.runDailyActivityLoop walletAddress w = Return tt w'
         ∧ activityRunning w' = false ∧ shouldStop w' = false)
  ∧ (no_fault (env w) →
     ∃ w' ext, Universal.runDailyActivityLoop walletAddress w = Return tt w'
               ∧ trace w' = (trace w ++ ext)%list
               ∧ activityRunning w' = false
               ∧ shouldStop w' = existsb is_stop ext)
  ∧ (∀ a w0, shouldStop (Index.handleMenuAction a w0) = true →
             shouldStop w0 = true ∨ (a = StopActivity ∧ activityRunning w0 = true))
  ∧ (∀ a w0, shouldStop (Universal.onMenuSelect a w0) = true →
             shouldStop w0 = true ∨ (a = StopActivity ∧ activityRunning w0 = true)).
Proof.
  intros Hk. split; [|split; [|split]].
  - intros Hr. destruct (index_run_spec walletAddress w Hk Hr)
      as (w' & ext & Hrun & Ha & Hs & _). by exists w'.
  - intros Hnf. destruct (universal_run_returns walletAddress w Hk Hnf)
      as (w' & ext & Hrun & Ht & Ha & Hs & _). by exists w', ext.
  - apply index_stop_only_while_running.
  - apply universal_stop_only_while_running.
Qed.

Lemma stop_at_no_fault t : no_fault (stop_at t).
Proof. intros n. simpl. by destruct (n =? t)%nat. Qed.

Lemma C5_flags_at_exit_witness :
  (∃ w', Index.runDailyActivityLoop sample_wallet (sample_world 1 1 (stop_at 0)) = Return tt w'
         ∧ activityRunning w' = false ∧ shouldStop w' = false)
  ∧ (∃ w' ext, Universal.runDailyActivityLoop sample_wallet (sample_world 1 1 (stop_at 0))
               = Return tt w'
               ∧ trace w' = (trace (sample_world 1 1 (stop_at 0)) ++ ext)%list
               ∧ activityRunning w' = false
               ∧ shouldStop w' = existsb is_stop ext).
Proof.
  destruct (C5_flags_at_exit sample_wallet (sample_world 1 1 (stop_at 0)))
    as (H1 & H2 & _).
  - discriminate.
  - split; [apply H1; reflexivity | apply H2, stop_at_no_fault].
Defined.

(** C5 as stated fails on the universal file: after a stop request during
    the first suspension the run ends with the stop flag still true. *)
Lemma C5_universal_stop_flag_stays :
  returned (Universal.runDailyActivityLoop sample_wallet) (sample_world 1 1 (stop_at 0))
    (λ _ _ w', activityRunning w' = false ∧ shouldStop w' = true).
Proof.
  unfold returned. eexists _, _, _. split; [vm_compute; reflexivity|].
  split; [reflexivity|]. split; reflexivity.
Qed.

(** ** C7: cancellation *)

Lemma sat_returned {A} (m : M A) w (P : list Event → Prop) :
  no_fault (env w) →
  sat m w (λ r ext _, fault_of w r ∧ ((∃ a, r = inr a) → P ext)) →
  returned m w (λ _ ext _, P ext).
Proof.
  unfold sat, returned. intros Hnf.
  destruct (m w) as [a w'|e w'|]; [| |done].
  - intros (ext & Hp & _ & H). exists a, w', ext.
    split; [done|]. split; [apply Hp | apply H; by exists a].
  - intros (ext & _ & Hf & _). destruct (Hf e eq_refl) as [t Ht]. by rewrite Hnf in Ht.
Qed.





(** The run of the counterexample, in index.js: the stop request arrives
    while the approval of the first bridge call is awaited; the call goes on,
    sends the approval and the deposit, and is followed by the three pauses;
    the second repetition and the second account never start. *)
Lemma stop_during_first_call :
  returned (Index.runDailyActivityLoop sample_wallet) (sample_world 2 1 (stop_at 2))
    (λ _ ext _,
       calls ext = [CallBridge (Some "key-one") None 0]
       ∧ List.filter (λ e, negb (is_click e)) (after_stop ext)
         = [Send Approve "0xaddr-key-one" JS.MaxUint256 200000 0 0 0;
            Send Deposit "0xaddr-key-one" 30000000000000000 800000 0 0 0;
            Slept 20000; Slept 15000; Slept 30000]).
Proof.
  unfold returned. eexists _, _, _. split; [vm_compute; reflexivity|].
  split; [reflexivity|]. split; reflexivity.
Qed.

(** ** C10: the pauses after a stop request *)

Lemma account_returned {lo i} (m : M unit) w :
  no_fault (env w) → sat m w (account_wind lo i w) →
  returned m w (λ _ ext _, account_sleeps lo i (length (privateKeys w)) ext).
Proof.
  unfold sat, returned, account_wind. intros Hnf.
  destruct (m w) as [[] w'|e w'|]; [| |done].
  - intros (ext & Hp & _ & _ & H). exists tt, w', ext.
    split; [done|]. split; [apply Hp | by apply H].
  - intros (ext & _ & Hf & _). destruct (Hf e eq_refl) as [t Ht]. by rewrite Hnf in Ht.
Qed.

Lemma body_returned (exec : M bool) (sleepR : M unit) (reps : World → Z)
    (entry : Event) (b : nat) (w : World) :
  no_fault (env w) →
  (∀ w, ∃ amt, sat exec w (executor_post entry amt)) →
  (∀ w, sat sleepR w (timer_post w 8000 20000)) →
  Z.of_nat b < reps w - 1 →
  (∀ w ext w', progress w ext w' → reps w' = reps w) →
  returned (repeat_body exec reps sleepR b) w
    (λ _ ext _, ∃ rest p, ext = (entry :: rest ++ p)%list
                          ∧ Forall inner_event rest ∧ a_pause 8000 20000 p).
Proof.
  intros Hnf He Hs Hb Hst. apply sat_returned; [done|].
  eapply sat_mono; [by apply (repetition_then_pause exec sleepR reps entry)|].
  intros r ext w' _ [Hf H]. split; [exact Hf | intros _; exact H].
Qed.

(** C10, as the code has it.  Whatever stop requests arrive and whenever,
    an account that has been started and meets no fault goes through the
    pause between the bridge and swap phases (7 to 15 s in index.js, 8 to 15 s
    in the universal file) and, when another account follows, the fixed 30 s
    pause.  The pause of 8 to 20 s after a repetition that is not the last
    one is not skipped either: one pass through the body of either loop for
    such a repetition is the executor call followed by that pause, and an
    account entered with two or more bridge repetitions configured begins with
    its first bridge call, the pause after it, and then the pauses of the
    account.  After a stop request a run goes through at most one pause of
    each of the three kinds, so the timers still started add up to at most
    20 + 15 + 30 = 65 seconds before the run returns. *)
Theorem C10_pauses_after_stop (walletAddress : string → option string) (w : World) (i : nat) :
  (activityRunning w = true → no_fault (env w) →
   returned (Index.processAccount walletAddress i) w
     (λ _ ext _, account_sleeps 7000 i (length (privateKeys w)) ext)
   ∧ returned (Universal.processAccount walletAddress i) w
       (λ _ ext _, account_sleeps 8000 i (length (privateKeys w)) ext))
  ∧ (∀ b pk proxyUrl,
       no_fault (env w) →
       (Z.of_nat b < bridgeRepetitions (dailyActivityConfig w) - 1 →
        returned (repeat_body (Index.performBridgeSimple walletAddress pk proxyUrl i)
                    (λ w, bridgeRepetitions (dailyActivityConfig w))
                    (Index.sleepRandom 8000 20000) b) w
          (λ _ ext _, ∃ rest p, ext = (CallBridge pk proxyUrl i :: rest ++ p)%list
                                ∧ Forall inner_event rest ∧ a_pause 8000 20000 p)
        ∧ returned (repeat_body (Universal.performBridgeSimple walletAddress pk proxyUrl i)
                      (λ w, bridgeRepetitions (dailyActivityConfig w))
                      (Universal.sleepRandom 8000 20000) b) w
            (λ _ ext _, ∃ rest p, ext = (CallBridge pk proxyUrl i :: rest ++ p)%list
                                  ∧ Forall inner_event rest ∧ a_pause 8000 20000 p))
       ∧ (Z.of_nat b < swapRepetitions (dailyActivityConfig w) - 1 →
          returned (repeat_body (Index.performSwapSimple walletAddress pk proxyUrl i)
                      (λ w, swapRepetitions (dailyActivityConfig w))
                      (Index.sleepRandom 8000 20000) b) w
            (λ _ ext _, ∃ rest p, ext = (CallSwap pk proxyUrl i :: rest ++ p)%list
                                  ∧ Forall inner_event rest ∧ a_pause 8000 20000 p)
          ∧ returned (repeat_body (Universal.performSwapSimple walletAddress pk proxyUrl i)
                        (λ w, swapRepetitions (dailyActivityConfig w))
                        (Universal.sleepRandom 8000 20000) b) w
              (λ _ ext _, ∃ rest p, ext = (CallSwap pk proxyUrl i :: rest ++ p)%list
                                    ∧ Forall inner_event rest ∧ a_pause 8000 20000 p)))
  ∧ (activityRunning w = true → shouldStop w = false → no_fault (env w) →
     2 ≤ bridgeRepetitions (dailyActivityConfig w) →
     returned (Index.processAccount walletAddress i) w
       (λ _ ext _, ∃ rest p tail,
          ext = (CallBridge (privateKeys w !! i) (Index.proxyFor (proxies w) i) i
                 :: rest ++ p ++ tail)%list
          ∧ Forall inner_event rest ∧ a_pause 8000 20000 p
          ∧ account_sleeps 7000 i (length (privateKeys w)) tail)
     ∧ returned (Universal.processAccount walletAddress i) w
         (λ _ ext _, ∃ rest p tail,
            ext = (CallBridge (privateKeys w !! i) (Universal.proxyFor (proxies w) i) i
                   :: rest ++ p ++ tail)%list
            ∧ Forall inner_event rest ∧ a_pause 8000 20000 p
            ∧ account_sleeps 8000 i (length (privateKeys w)) tail))
  ∧ (privateKeys w ≠ [] → activityRunning w = false →
     ∃ w' ext, Index.runDailyActivityLoop walletAddress w = Return tt w'
               ∧ trace w' = (trace w ++ ext)%list
               ∧ last_events 7000 (after_stop ext)
               ∧ sleeps (after_stop ext) ≤ 65000)
  ∧ (privateKeys w ≠ [] → no_fault (env w) →
     ∃ w' ext, Universal.runDailyActivityLoop walletAddress w = Return tt w'
               ∧ trace w' = (trace w ++ ext)%list
               ∧ last_events 8000 (after_stop ext)
               ∧ sleeps (after_stop ext) ≤ 65000).
Proof.
  split; [|split; [|split; [|split]]].
  - intros Hr Hnf. split.
    + by apply account_returned, index_account_winds.
    + by apply account_returned, universal_account_winds.
  - intros b pk proxyUrl Hnf. split; intros Hb; split.
    + eapply (body_returned _ _ (λ w, bridgeRepetitions (dailyActivityConfig w)));
        [done | | | exact Hb | intros w1 ext w' Hp; by rewrite (pg_config _ _ _ Hp)].
      * intros w1. eexists. apply index_bridge_spec.
      * intros w1. by apply index_sat_sleepRandom.
    + eapply (body_returned _ _ (λ w, bridgeRepetitions (dailyActivityConfig w)));
        [done | | | exact Hb | intros w1 ext w' Hp; by rewrite (pg_config _ _ _ Hp)].
      * intros w1. eexists. apply universal_bridge_spec.
      * intros w1. by apply universal_sat_sleepRandom.
    + eapply (body_returned _ _ (λ w, swapRepetitions (dailyActivityConfig w)));
        [done | | | exact Hb | intros w1 ext w' Hp; by rewrite (pg_config _ _ _ Hp)].
      * intros w1. eexists. apply index_swap_spec.
      * intros w1. by apply index_sat_sleepRandom.
    + eapply (body_returned _ _ (λ w, swapRepetitions (dailyActivityConfig w)));
        [done | | | exact Hb | intros w1 ext w' Hp; by rewrite (pg_config _ _ _ Hp)].
      * intros w1. eexists. apply universal_swap_spec.
      * intros w1. by apply universal_sat_sleepRandom.
  - intros Hr Hs Hnf HB. split.
    + apply sat_returned; [done|].
      eapply sat_mono; [by apply index_first_repetition|].
      intros r ext w' _ (Hf & rest & p & tail & -> & Hin & Hp & Hacc).
      split; [done|]. intros [[] ->]. exists rest, p, tail. eauto.
    + apply sat_returned; [done|].
      eapply sat_mono; [by apply universal_first_repetition|].
      intros r ext w' _ (Hf & rest & p & tail & -> & Hin & Hp & Hacc).
      split; [done|]. intros [[] ->]. exists rest, p, tail. eauto.
  - intros Hk Hr. destruct (index_run_spec walletAddress w Hk Hr)
      as (w' & ext & Hrun & _ & _ & Ht & [_ Hs]).
    destruct (index_run_tail walletAddress w Hk Hr) as (w2 & ext2 & Hrun2 & Ht2 & Hl).
    rewrite Hrun in Hrun2. injection Hrun2 as <-.
    rewrite Ht in Ht2. apply app_inv_head in Ht2 as <-.
    by exists w', ext.
  - intros Hk Hnf. destruct (universal_run_returns walletAddress w Hk Hnf)
      as (w' & ext & Hrun & Ht & _ & _ & [_ Hs]).
    pose proof (universal_run_tail walletAddress w Hk) as Hl. rewrite Hrun in Hl.
    destruct Hl as (ext2 & Ht2 & Hl).
    rewrite Ht in Ht2. apply app_inv_head in Ht2 as <-.
    by exists w', ext.
Qed.

Lemma C10_pauses_after_stop_witness :
  ∃ w' ext, Index.runDailyActivityLoop sample_wallet (sample_world 2 1 (stop_at 2))
            = Return tt w'
            ∧ trace w' = (trace (sample_world 2 1 (stop_at 2)) ++ ext)%list
            ∧ last_events 7000 (after_stop ext)
            ∧ sleeps (after_stop ext) ≤ 65000.
Proof.
  destruct (C10_pauses_after_stop sample_wallet (sample_world 2 1 (stop_at 2)) 0%nat)
    as (_ & _ & _ & H & _).
  apply H; [discriminate | reflexivity].
Defined.

(** C10 as stated fails: with two repetitions configured and a stop
    requested during the first bridge call of the first of two accounts, the
    timers started after the request last 20 + 15 + 30 = 65 seconds, not 45,
    and no executor is called meanwhile. *)
Lemma C10_stop_adds_65_seconds :
  returned (Index.runDailyActivityLoop sample_wallet) (sample_world 2 1 (stop_at 2))
    (λ _ ext _,
       List.filter is_sleep (after_stop ext) = [Slept 20000; Slept 15000; Slept 30000]
       ∧ sleeps (after_stop ext) = 65000
       ∧ ¬ sleeps (after_stop ext) ≤ 45000
       ∧ calls (after_stop ext) = []).
Proof.
  unfold returned. eexists _, _, _. split; [vm_compute; reflexivity|].
  split; [reflexivity|]. split; [reflexivity|]. split; [reflexivity|].
  split; [vm_compute; intros H; by apply H | reflexivity].
Qed.

(** ** C8: proxy assignment *)

Lemma or_null_nonempty (s : string) : s ≠ "" → JS.or_null (Some s) = Some s.
Proof.
  intros Hs. simpl. destruct (String.eqb_spec s ""); [done | done].
Qed.

Lemma read_lines_nonempty trim data :
  Forall (λ l, l ≠ "")
    (filter (λ l, (0 < String.length l)%nat) (trim <$> JS.split_lines data)).
Proof.
  apply Forall_forall. intros l [Hl _]%list_elem_of_filter.
  intros ->. simpl in Hl. lia.
Qed.

Lemma proxyFor_nonempty (ps : list string) (i : nat) :
  Forall (λ l, l ≠ "") ps → ps ≠ [] →
  Index.proxyFor ps i = ps !! (i mod length ps)%nat
  ∧ Universal.proxyFor ps i = ps !! (i mod length ps)%nat
  ∧ is_Some (ps !! (i mod length ps)%nat).
Proof.
  intros Hne Hps.
  assert (0 < length ps)%nat as Hlen by (destruct ps; [done | simpl; lia]).
  assert (i mod length ps < length ps)%nat as Hlt by (apply Nat.mod_upper_bound; lia).
  destruct (lookup_lt_is_Some_2 ps _ Hlt) as [p Hp].
  assert (p ≠ "") as Hpne.
  { eapply Forall_forall in Hne; [exact Hne|]. by eapply list_elem_of_lookup_2. }
  unfold Index.proxyFor, Universal.proxyFor, JS.rem.
  replace (Nat.max 1 (length ps)) with (length ps) by lia.
  destruct (Nat.eqb_spec (length ps) 0); [lia|].
  simpl JS.index. rewrite Hp. by rewrite or_null_nonempty.
Qed.

(** C8.  The proxy of account [i] is a function of [i] and of the proxy
    list alone, it is defined for every [i], and for the list that either
    loader reads from proxy.txt it is [proxies[i mod len]] when the list is not
    empty and no proxy when it is empty.  Both files agree. *)
Theorem C8_proxy_assignment (trim : string → string) (StringToNumber : string → JS.number)
    (pkFile proxyFile : FileRead) (w : World) (i : nat) :
  let ps := proxies (Index.loadProxies trim proxyFile w) in
  proxies (Universal.loadEnvironment trim StringToNumber pkFile proxyFile w) = ps
  ∧ (ps ≠ [] →
     Index.proxyFor ps i = ps !! (i mod length ps)%nat
     ∧ Universal.proxyFor ps i = ps !! (i mod length ps)%nat
     ∧ is_Some (ps !! (i mod length ps)%nat))
  ∧ (ps = [] → Index.proxyFor ps i = None ∧ Universal.proxyFor ps i = None).
Proof.
  intros ps.
  assert (∃ lines, ps = lines ∧ Forall (λ l, l ≠ "") lines
          ∧ proxies (Universal.loadEnvironment trim StringToNumber pkFile proxyFile w)
            = lines) as (lines & -> & Hne & Hu).
  { subst ps. unfold Index.loadProxies, Universal.loadEnvironment.
    destruct pkFile, proxyFile; simpl; repeat (case_match; simpl);
      eexists; (split; [reflexivity|]); (split; [|reflexivity]);
      first [apply Forall_nil_2 | apply read_lines_nonempty]. }
  split; [done|]. split.
  - by apply proxyFor_nonempty.
  - by intros ->.
Qed.

Lemma C8_proxy_assignment_witness :
  Index.proxyFor ["socks5://p0"; "http://p1"] 5 = Some "http://p1"
  ∧ Universal.proxyFor ["socks5://p0"; "http://p1"] 5 = Some "http://p1".
Proof.
  destruct (C8_proxy_assignment (λ s, s) never_numeric NoFile
              (Content ("socks5://p0" +:+ String (Ascii.ascii_of_nat 10) "http://p1"))
              (sample_world 1 1 calm_env) 5) as (_ & H & _).
  destruct H as (H1 & H2 & _); [discriminate|].
  split; [exact H1 | exact H2].
Defined.

(** ** C9: loading the configuration *)

Lemma property_object fields name :
  Index.property (JsonObject fields) name = Some (default JS.JUndefined (fields !! name)).
Proof. done. Qed.

Lemma index_loadConfig_object stn fields w :
  configFile w = Parsed (JsonObject fields) →
  dailyActivityConfig (Index.loadConfig stn w)
  = mkConfig (loaded_field stn (default JS.JUndefined (fields !! "bridgeRepetitions")))
             (loaded_field stn (default JS.JUndefined (fields !! "swapRepetitions"))).
Proof. intros Hf. unfold Index.loadConfig. by rewrite Hf, !property_object. Qed.

Lemma universal_loadEnvironment_object trim stn pkFile proxyFile fields w :
  configFile w = Parsed (JsonObject fields) →
  dailyActivityConfig (Universal.loadEnvironment trim stn pkFile proxyFile w)
  = mkConfig (loaded_field stn (default JS.JUndefined (fields !! "bridgeRepetitions")))
             (loaded_field stn (default JS.JUndefined (fields !! "swapRepetitions"))).
Proof.
  intros Hf. unfold Universal.loadEnvironment, loaded_field.
  destruct pkFile, proxyFile; simpl;
    repeat (case_match; simpl in *; simplify_eq; try done).
  all: repeat match goal with
         | H : configFile ?x = _, H' : configFile ?x = _ |- _ =>
             rewrite H in H'; simplify_eq
         end.
  all: simpl in *; by simplify_eq.
Qed.

Lemma or_one_nonzero (x : JS.number) : JS.or_one x ≠ 0.
Proof. destruct x as [|z]; simpl; [done|]. destruct (Z.eqb_spec z 0); done. Qed.

Lemma loaded_number stn z : z ≠ 0 → loaded_field stn (JS.JNumber z) = z.
Proof. intros Hz. unfold loaded_field. simpl. destruct (Z.eqb_spec z 0); done. Qed.

Lemma stringify_fields (c : Config) :
  Index.stringify c
  = JsonObject (<["bridgeRepetitions" := JS.JNumber (bridgeRepetitions c)]>
               (<["swapRepetitions" := JS.JNumber (swapRepetitions c)]> ∅)).
Proof. done. Qed.

(** The same code over JavaScript numbers. *)
Lemma settings_loadConfig_object stn fields st :
  Settings.file st = Settings.FileParsed (Settings.DocObject fields) →
  Settings.loadConfig stn st
  = Settings.mkState
      (JS.or1 (JS.ToNumber stn (default JS.VUndefined (fields !! "bridgeRepetitions"))))
      (JS.or1 (JS.ToNumber stn (default JS.VUndefined (fields !! "swapRepetitions"))))
      (Settings.file st).
Proof. intros Hf. unfold Settings.loadConfig. by rewrite Hf. Qed.

Lemma or1_finite (a : JS.binary64) :
  JS.mant a ≠ 0 → JS.or1 (JS.DFinite a) = JS.DFinite a.
Proof. intros H. simpl. by destruct (Z.eqb_spec (JS.mant a) 0). Qed.

Lemma or1_idem (x : JS.double) : JS.or1 (JS.or1 x) = JS.or1 x.
Proof.
  destruct x as [|neg|a]; simpl; [done | done |].
  destruct (Z.eqb_spec (JS.mant a) 0) as [E|E]; simpl; [done|].
  by destruct (Z.eqb_spec (JS.mant a) 0).
Qed.

(** What a count that was saved is after the next load. *)
Lemma reload_number stn (x : JS.double) :
  JS.or1 (JS.ToNumber stn (JS.json_of_number x))
  = match x with
    | JS.DFinite a => if JS.mant a =? 0 then JS.whole 1 else x
    | _ => JS.whole 1
    end.
Proof. by destruct x. Qed.

Lemma settings_reload stn b s f :
  Settings.loadConfig stn
    (Settings.mkState b s
       (Settings.FileParsed (Settings.stringify (Settings.mkState b s f))))
  = Settings.mkState (JS.or1 (JS.ToNumber stn (JS.json_of_number b)))
      (JS.or1 (JS.ToNumber stn (JS.json_of_number s)))
      (Settings.FileParsed (Settings.stringify (Settings.mkState b s f))).
Proof.
  unfold Settings.loadConfig, Settings.stringify. cbn.
  by rewrite lookup_insert_eq, lookup_insert_ne, lookup_insert_eq.
Qed.

Lemma or1_whole (z : Z) : JS.or1 (JS.whole z) = JS.whole (JS.or_one (JS.Num z)).
Proof. unfold JS.whole. simpl. by destruct (z =? 0). Qed.

Lemma or1_of_number (x : JS.number) :
  JS.or1 (Settings.of_number x) = JS.whole (JS.or_one x).
Proof. destruct x as [|z]; [done | apply or1_whole]. Qed.

Lemma ToNumber_of_value (stn : string → JS.number) (v : JS.value) :
  JS.ToNumber (λ s, Settings.of_number (stn s)) (Settings.of_value v)
  = Settings.of_number (JS.Number stn v).
Proof. by destruct v as [| |[]| | |]. Qed.

Lemma property_of_file (c : Json) (name : string) :
  match Settings.of_file (Parsed c) with
  | Settings.FileParsed d => Settings.property d name
  | _ => None
  end = Settings.of_value <$> Index.property c name.
Proof.
  destruct c as [fields| |]; simpl; [|done|done].
  rewrite lookup_fmap. by destruct (fields !! name).
Qed.

Lemma stringify_of_world (w : World) :
  Settings.FileParsed (Settings.stringify (settings_of w))
  = Settings.of_file (Parsed (Index.stringify (dailyActivityConfig w))).
Proof.
  unfold Settings.stringify, Index.stringify, settings_of. simpl.
  by rewrite !fmap_insert, fmap_empty.
Qed.

(** The runner's state model is the restriction of this code to whole
    numbers: loading commutes with the inclusion. *)
Lemma index_loadConfig_settings (stn : string → JS.number) (w : World) :
  settings_of (Index.loadConfig stn w)
  = Settings.loadConfig (λ s, Settings.of_number (stn s)) (settings_of w).
Proof.
  unfold Index.loadConfig, Settings.loadConfig.
  destruct (configFile w) as [| |c] eqn:Hf.
  - unfold settings_of at 2. cbn [Settings.file]. rewrite Hf. simpl.
    unfold settings_of. simpl.
    by rewrite !fmap_insert, fmap_empty.
  - unfold settings_of. simpl. by rewrite Hf.
  - pose proof (property_of_file c "bridgeRepetitions") as Hb.
    pose proof (property_of_file c "swapRepetitions") as Hs.
    unfold settings_of at 2. cbn [Settings.file]. rewrite Hf.
    destruct c as [fields| |]; simpl in *.
    + injection Hb as Hb. injection Hs as Hs. rewrite Hb, Hs.
      unfold settings_of. simpl. rewrite Hf. simpl.
      by rewrite !ToNumber_of_value, !or1_of_number.
    + unfold settings_of. simpl. by rewrite Hf.
    + unfold settings_of. simpl. by rewrite Hf.
Qed.

Lemma settings_of_logs l w : settings_of (set_logs l w) = settings_of w.
Proof. done. Qed.

Lemma universal_loadEnvironment_settings trim (stn : string → JS.number)
    (pkFile proxyFile : FileRead) (w : World) :
  settings_of (Universal.loadEnvironment trim stn pkFile proxyFile w)
  = Settings.loadEnvironment (λ s, Settings.of_number (stn s)) (settings_of w).
Proof.
  change (Settings.loadEnvironment ?f ?x) with (Settings.loadConfig f x).
  rewrite <- index_loadConfig_settings.
  unfold Universal.loadEnvironment, Index.loadConfig.
  destruct pkFile, proxyFile; simpl;
    repeat (case_match; simpl in *; simplify_eq; try done).
Qed.

Lemma index_saveConfig_settings (w : World) :
  settings_of (Index.saveConfig w) = Settings.saveConfig (settings_of w).
Proof.
  unfold Index.saveConfig, Settings.saveConfig, settings_of. simpl.
  by rewrite !fmap_insert, fmap_empty.
Qed.

Lemma index_saveButtonPress_settings (stn : string → JS.number) bridgeInput swapInput w :
  settings_of (Index.saveButtonPress stn bridgeInput swapInput w)
  = Settings.saveButtonPress (λ s, Settings.of_number (stn s)) bridgeInput swapInput
      (settings_of w).
Proof.
  unfold Index.saveButtonPress, Settings.saveButtonPress, Index.saveConfig,
    Settings.saveConfig, settings_of. simpl.
  by rewrite !fmap_insert, fmap_empty, !or1_of_number.
Qed.

Lemma universal_formSubmit_settings (stn : string → JS.number) bridge swap w :
  settings_of (Universal.formSubmit stn bridge swap w)
  = Settings.formSubmit (λ s, Settings.of_number (stn s))
      (Settings.of_value bridge) (Settings.of_value swap) (settings_of w).
Proof.
  unfold Universal.formSubmit, Settings.formSubmit, settings_of. simpl.
  by rewrite !fmap_insert, fmap_empty, !ToNumber_of_value, !or1_of_number.
Qed.

(** C9, as the code has it.  When config.json parses to an object, each of
    [bridgeRepetitions] and [swapRepetitions] becomes [Number(field) || 1], in
    both files: 1 when the field is missing, is not numeric or is zero, and
    the number itself otherwise, whether it is a whole number of at least 1, a
    negative number, a fraction or an infinity.  What the program saves loads
    back unchanged when it is finite and not zero; an infinite count is
    written as [null] and loads back as 1.  So a count entered in the config
    form of either file is kept by the next load when it is finite, and
    becomes 1 when it is infinite.  On whole numbers this code is the code of
    the runner's state model. *)
Theorem C9_config_load (StringToNumber : string → JS.double)
    (fields : gmap string JS.jsvalue) (st : Settings.State) :
  Settings.file st = Settings.FileParsed (Settings.DocObject fields) →
  let loaded := λ v, JS.or1 (JS.ToNumber StringToNumber v) in
  let b := default JS.VUndefined (fields !! "bridgeRepetitions") in
  let s := default JS.VUndefined (fields !! "swapRepetitions") in
  (Settings.bridgeRepetitions (Settings.loadConfig StringToNumber st) = loaded b
   ∧ Settings.swapRepetitions (Settings.loadConfig StringToNumber st) = loaded s)
  ∧ (Settings.bridgeRepetitions (Settings.loadEnvironment StringToNumber st) = loaded b
     ∧ Settings.swapRepetitions (Settings.loadEnvironment StringToNumber st) = loaded s)
  ∧ loaded JS.VUndefined = JS.whole 1
  ∧ (∀ v, JS.ToNumber StringToNumber v = JS.DNaN → loaded v = JS.whole 1)
  ∧ (∀ e, loaded (JS.VNumber (JS.DFinite (JS.Bin 0 e))) = JS.whole 1)
  ∧ (∀ x, JS.mant x ≠ 0 → loaded (JS.VNumber (JS.DFinite x)) = JS.DFinite x)
  ∧ (∀ negative, loaded (JS.VNumber (JS.DInfinity negative)) = JS.DInfinity negative)
  ∧ (∀ st0,
       let st1 := Settings.loadConfig StringToNumber (Settings.saveConfig st0) in
       (∀ x, JS.mant x ≠ 0 →
          (Settings.bridgeRepetitions st0 = JS.DFinite x →
           Settings.bridgeRepetitions st1 = JS.DFinite x)
          ∧ (Settings.swapRepetitions st0 = JS.DFinite x →
             Settings.swapRepetitions st1 = JS.DFinite x))
       ∧ (∀ negative,
            (Settings.bridgeRepetitions st0 = JS.DInfinity negative →
             Settings.bridgeRepetitions st1 = JS.whole 1)
            ∧ (Settings.swapRepetitions st0 = JS.DInfinity negative →
               Settings.swapRepetitions st1 = JS.whole 1)))
  ∧ (∀ bridgeInput swapInput,
       let st1 := Settings.saveButtonPress StringToNumber bridgeInput swapInput st in
       let st2 := Settings.loadConfig StringToNumber st1 in
       Settings.bridgeRepetitions st1 = JS.or1 (StringToNumber bridgeInput)
       ∧ Settings.swapRepetitions st1 = JS.or1 (StringToNumber swapInput)
       ∧ (∀ x, Settings.bridgeRepetitions st1 = JS.DFinite x →
               Settings.bridgeRepetitions st2 = JS.DFinite x)
       ∧ (∀ x, Settings.swapRepetitions st1 = JS.DFinite x →
               Settings.swapRepetitions st2 = JS.DFinite x)
       ∧ (∀ negative, Settings.bridgeRepetitions st1 = JS.DInfinity negative →
                      Settings.bridgeRepetitions st2 = JS.whole 1)
       ∧ (∀ negative, Settings.swapRepetitions st1 = JS.DInfinity negative →
                      Settings.swapRepetitions st2 = JS.whole 1))
  ∧ (∀ bridge swap,
       let st1 := Settings.formSubmit StringToNumber bridge swap st in
       let st2 := Settings.loadEnvironment StringToNumber st1 in
       Settings.bridgeRepetitions st1 = loaded bridge
       ∧ Settings.swapRepetitions st1 = loaded swap
       ∧ (∀ x, Settings.bridgeRepetitions st1 = JS.DFinite x →
               Settings.bridgeRepetitions st2 = JS.DFinite x)
       ∧ (∀ x, Settings.swapRepetitions st1 = JS.DFinite x →
               Settings.swapRepetitions st2 = JS.DFinite x)
       ∧ (∀ negative, Settings.bridgeRepetitions st1 = JS.DInfinity negative →
                      Settings.bridgeRepetitions st2 = JS.whole 1)
       ∧ (∀ negative, Settings.swapRepetitions st1 = JS.DInfinity negative →
                      Settings.swapRepetitions st2 = JS.whole 1))
  ∧ (∀ trim (stn : string → JS.number) pkFile proxyFile bridgeInput swapInput bridge swap w,
       let stn' := λ s, Settings.of_number (stn s) in
       settings_of (Index.loadConfig stn w) = Settings.loadConfig stn' (settings_of w)
       ∧ settings_of (Universal.loadEnvironment trim stn pkFile proxyFile w)
         = Settings.loadEnvironment stn' (settings_of w)
       ∧ settings_of (Index.saveConfig w) = Settings.saveConfig (settings_of w)
       ∧ settings_of (Index.saveButtonPress stn bridgeInput swapInput w)
         = Settings.saveButtonPress stn' bridgeInput swapInput (settings_of w)
       ∧ settings_of (Universal.formSubmit stn bridge swap w)
         = Settings.formSubmit stn' (Settings.of_value bridge) (Settings.of_value swap)
             (settings_of w)).
Proof.
  intros Hf loaded b s.
  assert (∀ x (y : JS.binary64), JS.or1 x = JS.DFinite y → JS.mant y ≠ 0) as Hnz.
  { intros [|neg|a] y; simpl; [by intros [= <-] | done |].
    destruct (Z.eqb_spec (JS.mant a) 0); [by intros [= <-] | by intros [= <-]]. }
  assert (∀ b0 s0 f0,
    let st1 := Settings.mkState b0 s0
                 (Settings.FileParsed (Settings.stringify (Settings.mkState b0 s0 f0))) in
    let st2 := Settings.loadConfig StringToNumber st1 in
    (∀ x, JS.mant x ≠ 0 → b0 = JS.DFinite x → Settings.bridgeRepetitions st2 = JS.DFinite x)
    ∧ (∀ x, JS.mant x ≠ 0 → s0 = JS.DFinite x → Settings.swapRepetitions st2 = JS.DFinite x)
    ∧ (∀ neg, b0 = JS.DInfinity neg → Settings.bridgeRepetitions st2 = JS.whole 1)
    ∧ (∀ neg, s0 = JS.DInfinity neg → Settings.swapRepetitions st2 = JS.whole 1)) as Hre.
  { intros b0 s0 f0 st1 st2. subst st1 st2. rewrite settings_reload.
    cbn [Settings.bridgeRepetitions Settings.swapRepetitions]. rewrite !reload_number.
    repeat split.
    - intros x Hx ->. by destruct (Z.eqb_spec (JS.mant x) 0).
    - intros x Hx ->. by destruct (Z.eqb_spec (JS.mant x) 0).
    - by intros neg ->.
    - by intros neg ->. }
  change (Settings.loadEnvironment ?f ?x) with (Settings.loadConfig f x).
  rewrite (settings_loadConfig_object _ fields st Hf).
  split; [done|]. split; [done|]. split; [done|].
  split; [intros v Hv; unfold loaded; by rewrite Hv|].
  split; [done|].
  split; [intros x Hx; by apply or1_finite|].
  split; [done|].
  split; [|split; [|split]].
  - intros [b0 s0 f0] st1. subst st1. unfold Settings.saveConfig.
    cbn [Settings.bridgeRepetitions Settings.swapRepetitions Settings.file].
    destruct (Hre b0 s0 f0) as (H1 & H2 & H3 & H4).
    split; [intros x Hx; split; [apply H1 | apply H2]; done|].
    intros neg. split; [apply H3 | apply H4].
  - intros bridgeInput swapInput st1 st2. subst st1 st2.
    unfold Settings.saveButtonPress, Settings.saveConfig.
    cbn [Settings.bridgeRepetitions Settings.swapRepetitions Settings.file].
    destruct (Hre (JS.or1 (StringToNumber bridgeInput)) (JS.or1 (StringToNumber swapInput))
                (Settings.file st)) as (H1 & H2 & H3 & H4).
    do 2 (split; [done|]).
    split; [intros x Hx; apply H1; [by eapply Hnz | done]|].
    split; [intros x Hx; apply H2; [by eapply Hnz | done]|].
    split; [apply H3 | apply H4].
  - intros bridge swap st1 st2. subst st1 st2.
    unfold Settings.formSubmit.
    cbn [Settings.bridgeRepetitions Settings.swapRepetitions Settings.file].
    destruct (Hre (loaded bridge) (loaded swap) (Settings.file st)) as (H1 & H2 & H3 & H4).
    do 2 (split; [done|]).
    split; [intros x Hx; apply H1; [by eapply Hnz | done]|].
    split; [intros x Hx; apply H2; [by eapply Hnz | done]|].
    split; [apply H3 | apply H4].
  - intros trim stn pkFile proxyFile bridgeInput swapInput bridge swap w stn'.
    split; [apply index_loadConfig_settings|].
    split; [apply universal_loadEnvironment_settings|].
    split; [apply index_saveConfig_settings|].
    split; [apply index_saveButtonPress_settings|].
    apply universal_formSubmit_settings.
Qed.

Lemma C9_config_load_witness :
  Settings.loadConfig nothing_numeric
    (Settings.mkState (JS.whole 1) (JS.whole 1)
       (settings_json (JS.VNumber (JS.whole 3)) (JS.VString "two")))
  = Settings.mkState (JS.whole 3) (JS.whole 1)
      (settings_json (JS.VNumber (JS.whole 3)) (JS.VString "two")).
Proof.
  destruct (C9_config_load nothing_numeric
              (<["bridgeRepetitions" := JS.VNumber (JS.whole 3)]>
                 (<["swapRepetitions" := JS.VString "two"]> ∅))
              (Settings.mkState (JS.whole 1) (JS.whole 1)
                 (settings_json (JS.VNumber (JS.whole 3)) (JS.VString "two")))
              eq_refl) as ((H1 & H2) & _).
  destruct (Settings.loadConfig _ _) as [b s f] eqn:E.
  cbn [Settings.bridgeRepetitions Settings.swapRepetitions] in H1, H2.
  rewrite H1, H2. f_equal.
  change f with (Settings.file (Settings.mkState b s f)). by rewrite <- E.
Defined.

(** C9 as stated fails: a config.json with [bridgeRepetitions: -3] loads
    as -3, which is not a positive integer. *)
Lemma C9_negative_repetitions_load :
  ¬ positive_whole
      (Settings.bridgeRepetitions
         (Settings.loadConfig nothing_numeric
            (Settings.mkState (JS.whole 1) (JS.whole 1)
               (settings_json (JS.VNumber (JS.whole (-3))) (JS.VNumber (JS.whole 2)))))).
Proof.
  intros (a & z & Ha & Hz & Hu). vm_compute in Ha. injection Ha as <-.
  unfold units in Hu. cbn [JS.mant JS.expo] in Hu.
  assert (0 < 2 ^ 1200) as HP by (by apply Z.pow_pos_nonneg).
  change (0 + 1200) with 1200 in Hu.
  set (P := 2 ^ 1200) in *. clearbody P. nia.
Qed.

(** Nor is a count always a whole number, or what was saved always what
    is loaded: a config.json with 2.5 loads as 2.5, and a count of
    [Infinity], which the config form accepts, is saved as [null] and is 1
    after the next load. *)
Lemma fraction_and_infinity_load (StringToNumber : string → JS.double) (text : string) :
  Settings.bridgeRepetitions
    (Settings.loadConfig nothing_numeric
       (Settings.mkState (JS.whole 1) (JS.whole 1)
          (settings_json (JS.VNumber (JS.DFinite (JS.Bin 5 (-1)))) JS.VUndefined)))
  = JS.DFinite (JS.Bin 5 (-1))
  ∧ (StringToNumber text = JS.DInfinity false →
     ∀ st,
       let st1 := Settings.saveButtonPress StringToNumber text text st in
       Settings.bridgeRepetitions st1 = JS.DInfinity false
       ∧ Settings.file st1 = settings_json JS.VNull JS.VNull
       ∧ Settings.bridgeRepetitions (Settings.loadConfig StringToNumber st1) = JS.whole 1).
Proof.
  split; [by vm_compute|]. intros Ht st st1. subst st1.
  unfold Settings.saveButtonPress, Settings.saveConfig. rewrite Ht.
  cbn [JS.or1 Settings.bridgeRepetitions Settings.swapRepetitions Settings.file].
  split; [done|]. split; [done|].
  unfold Settings.loadConfig, Settings.stringify. cbn.
  by rewrite lookup_insert_eq.
Qed.

(** * Further properties of the code *)

(** ** Strings *)

Lemma length_substring (n m : nat) (s : string) :
  String.length (String.substring n m s) = Nat.min m (String.length s - n).
Proof.
  revert n m. induction s as [|c s IH]; intros [|n] [|m];
    cbn [String.substring String.length]; rewrite ?IH; lia.
Qed.

Lemma length_append (s t : string) :
  String.length (s +:+ t) = (String.length s + String.length t)%nat.
Proof. induction s as [|c s IH]; simpl; [done | by rewrite IH]. Qed.

(** [shortHash]: the empty hash is shown as N/A; any other hash is shown
    as its first six and last four characters around three dots, so the
    text never has more than 13 characters.  A hash of fewer than ten
    characters is not shortened at all: the two slices overlap and the text
    is longer than the hash. *)
Theorem shortHash_length (h : string) :
  shortHash "" = "N/A"
  ∧ (h ≠ "" →
     shortHash h = JS.str_prefix 6 h +:+ "..." +:+ JS.str_suffix 4 h
     ∧ String.length (shortHash h)
       = (Nat.min 6 (String.length h) + 3 + Nat.min 4 (String.length h))%nat)
  ∧ (String.length (shortHash h) ≤ 13)%nat
  ∧ (0 < String.length h < 10 → String.length h < String.length (shortHash h))%nat.
Proof.
  assert (h ≠ "" →
          shortHash h = JS.str_prefix 6 h +:+ "..." +:+ JS.str_suffix 4 h
          ∧ String.length (shortHash h)
            = (Nat.min 6 (String.length h) + 3 + Nat.min 4 (String.length h))%nat) as Hne.
  { intros Hh. unfold shortHash. destruct (String.eqb_spec h ""); [done|].
    split; [done|].
    unfold JS.str_prefix, JS.str_suffix.
    rewrite !length_append, !length_substring. cbn [String.length]. lia. }
  split; [done|]. split; [exact Hne|]. split.
  - destruct (String.eqb_spec h "") as [->|Hh]; [simpl; lia|].
    destruct (Hne Hh) as [_ ->]. lia.
  - intros Hlen. destruct (String.eqb_spec h "") as [->|Hh]; [simpl in Hlen; lia|].
    destruct (Hne Hh) as [_ ->]. lia.
Qed.

Lemma shortHash_length_witness :
  shortHash "0xab" = JS.str_prefix 6 "0xab" +:+ "..." +:+ JS.str_suffix 4 "0xab"
  ∧ String.length (shortHash "0xab")
    = (Nat.min 6 (String.length "0xab") + 3 + Nat.min 4 (String.length "0xab"))%nat.
Proof.
  destruct (shortHash_length "0xab") as (_ & H & _).
  apply H. discriminate.
Defined.

(** ** The log buffer for any limit *)

(** [trimLogs(limit)] for any limit: what is kept is always the end of the
    buffer; for a limit of at least 1 it is the last [limit] entries; for the
    limit 0 nothing is dropped at all, because [slice(-0)] is [slice(0)]. *)
Theorem trimLogs_any_limit (limit : nat) (logs : list LogEntry) :
  Index.trimLogs 0 logs = logs
  ∧ ((1 ≤ limit)%nat →
     Index.trimLogs limit logs = last_n limit logs
     ∧ length (Index.trimLogs limit logs) = Nat.min limit (length logs))
  ∧ (∃ older, logs = (older ++ Index.trimLogs limit logs)%list).
Proof.
  split; [|split].
  - unfold Index.trimLogs, JS.slice_last. by destruct (0 <? length logs)%nat.
  - intros Hl. assert (Index.trimLogs limit logs = last_n limit logs) as E.
    { unfold Index.trimLogs, JS.slice_last, last_n.
      destruct (Nat.ltb_spec limit (length logs)) as [Hlt|Hge].
      - destruct (Nat.eqb_spec limit 0); [lia | done].
      - by replace (length logs - limit)%nat with 0%nat by lia. }
    split; [exact E|]. rewrite E. apply last_n_length.
  - unfold Index.trimLogs, JS.slice_last.
    destruct (limit <? length logs)%nat; [|by exists []].
    destruct (limit =? 0)%nat; [by exists []|].
    exists (take (length logs - limit) logs). by rewrite take_drop.
Qed.

Lemma trimLogs_any_limit_witness :
  Index.trimLogs 2 [Log info "a"; Log warn "b"; Log error "c"]
  = last_n 2 [Log info "a"; Log warn "b"; Log error "c"]
  ∧ length (Index.trimLogs 2 [Log info "a"; Log warn "b"; Log error "c"])
    = Nat.min 2 (length [Log info "a"; Log warn "b"; Log error "c"]).
Proof.
  destruct (trimLogs_any_limit 2 [Log info "a"; Log warn "b"; Log error "c"]) as (_ & H & _).
  apply H. lia.
Defined.

(** ** Timers *)

Lemma floor_units (a : JS.binary64) :
  -1200 ≤ JS.expo a → JS.floor a = units a / 2 ^ 1200.
Proof.
  intros He. unfold JS.floor, units. destruct a as [m e]. cbn [JS.mant JS.expo] in *.
  pose proof (pow2_gt0 1200 ltac:(lia)) as HU.
  destruct (Z.leb_spec 0 e) as [H0|H0].
  - rewrite pow2_split by lia. rewrite Z.mul_assoc, Z.div_mul by lia. done.
  - rewrite Z.shiftr_div_pow2 by lia.
    assert (2 ^ 1200 = 2 ^ (- e) * 2 ^ (e + 1200)) as E1.
    { rewrite <- pow2_split by lia. f_equal. lia. }
    pose proof (pow2_gt0 (e + 1200) ltac:(lia)) as HX.
    pose proof (pow2_gt0 (- e) ltac:(lia)) as HN.
    rewrite E1. by rewrite Z.div_mul_cancel_r by lia.
Qed.

(** Every whole number below [k] is [Math.floor(r * k)] for some draw [r]:
    the draw just above [m / k]. *)
Lemma floor_scale_onto (k m : Z) :
  0 ≤ m < k → k ≤ 2 ^ 52 →
  JS.floor_scale (JS.Draw ((m * 2 ^ 53 + k - 1) / k) 0) k = m.
Proof.
  intros Hm Hk. unfold JS.floor_scale, JS.mul.
  rewrite of_Z_exact by lia. unfold JS.sample. cbn [JS.mant JS.expo JS.bits JS.depth].
  set (B := (m * 2 ^ 53 + k - 1) / k).
  pose proof (Z.div_mod (m * 2 ^ 53 + k - 1) k ltac:(lia)) as Hdm.
  pose proof (Z.mod_pos_bound (m * 2 ^ 53 + k - 1) k ltac:(lia)) as Hmb.
  fold B in Hdm. change (2 ^ 53) with 9007199254740992 in *.
  change (2 ^ 52) with 4503599627370496 in *.
  set (rr := (m * 9007199254740992 + k - 1) mod k) in *. clearbody rr.
  assert (0 ≤ B < 9007199254740992) as HB by nia.
  rewrite Z.land_ones by lia. change (2 ^ 53) with 9007199254740992.
  rewrite Z.mod_small by lia. change (Z.of_nat (Nat.min 0 1021)) with 0.
  change (-53 - 0 + 0) with (-53).
  assert (0 ≤ B * k) as Hp by nia.
  pose proof (round53_nonneg (B * k) (-53) Hp) as [_ He].
  rewrite floor_units by lia.
  pose proof (round53_ge (B * k) (-53) m 0 Hp ltac:(lia) ltac:(lia) ltac:(lia)) as Hlo.
  pose proof (round53_le (B * k) (-53) (2 * m + 1) (-1) Hp ltac:(lia) ltac:(lia)
                ltac:(lia)) as Hhi.
  change (0 + 1200) with 1200 in *. change (-53 + 1200) with 1147 in *.
  change (-1 + 1200) with 1199 in *.
  assert (2 ^ 1200 = 9007199254740992 * 2 ^ 1147) as E1 by (by vm_compute).
  assert (2 ^ 1199 = 4503599627370496 * 2 ^ 1147) as E2 by (by vm_compute).
  pose proof (pow2_gt0 1147 ltac:(lia)) as HX.
  rewrite E1 in *. rewrite E2 in Hhi.
  set (X := 2 ^ 1147) in *. clearbody X.
  set (u := units (JS.round53 (B * k) (-53))) in *. clearbody u.
  assert (m * (9007199254740992 * X) ≤ u) as H1 by (apply Hlo; nia).
  assert (u ≤ (2 * m + 1) * (4503599627370496 * X)) as H2 by (apply Hhi; nia).
  apply Z.le_antisymm.
  - assert (u / (9007199254740992 * X) < m + 1); [|lia].
    apply Z.div_lt_upper_bound; nia.
  - apply Z.div_le_lower_bound; nia.
Qed.

(** [sleepRandom(minMs, maxMs)] with [minMs <= maxMs], in both files:
    exactly one timer is started, for a whole number of milliseconds
    between [minMs] and [maxMs], both included, and every such number is
    the length of the timer for some value of [Math.random()].  The
    arithmetic is that of the doubles; the bounds are whole numbers less than
    [2^52] apart. *)
Theorem sleepRandom_range (minMs maxMs : Z) (w : World) :
  minMs ≤ maxMs → maxMs - minMs < 2 ^ 52 →
  sat (Index.sleepRandom minMs maxMs) w (λ _ ext _,
    ∃ ms clicks, ext = Slept ms :: clicks ∧ minMs ≤ ms ≤ maxMs
                 ∧ Forall (λ e, is_click e = true) clicks)
  ∧ sat (Universal.sleepRandom minMs maxMs) w (λ _ ext _,
      ∃ ms clicks, ext = Slept ms :: clicks ∧ minMs ≤ ms ≤ maxMs
                   ∧ Forall (λ e, is_click e = true) clicks)
  ∧ ∀ ms, minMs ≤ ms ≤ maxMs →
      ∃ r, JS.floor_scale r (maxMs - minMs + 1) + minMs = ms.
Proof.
  intros Hle Hlt. split; [|split].
  - eapply sat_mono; [apply index_sat_sleepRandom; lia|].
    intros r ext w' _ (_ & _ & ms & cl & Hms & -> & Hcl). by exists ms, cl.
  - eapply sat_mono; [apply universal_sat_sleepRandom; lia|].
    intros r ext w' _ (_ & _ & ms & cl & Hms & -> & Hcl). by exists ms, cl.
  - intros ms Hms.
    exists (JS.Draw (((ms - minMs) * 2 ^ 53 + (maxMs - minMs + 1) - 1)
                     / (maxMs - minMs + 1)) 0).
    rewrite floor_scale_onto; lia.
Qed.

Lemma sleepRandom_range_witness :
  sat (Index.sleepRandom 8000 20000) (sample_world 1 1 calm_env) (λ _ ext _,
    ∃ ms clicks, ext = Slept ms :: clicks ∧ 8000 ≤ ms ≤ 20000
                 ∧ Forall (λ e, is_click e = true) clicks).
Proof.
  destruct (sleepRandom_range 8000 20000 (sample_world 1 1 calm_env)) as (H & _).
  - lia.
  - lia.
  - exact H.
Defined.

(** ** Loading the keys *)

Lemma key_pattern_length (k : string) :
  matches_key_pattern k = true → (String.length k = 64 ∨ String.length k = 66)%nat.
Proof.
  unfold matches_key_pattern, is_hex64.
  intros [[H _]%andb_prop | [Hp [H _]%andb_prop]%andb_prop]%orb_prop.
  - left. by apply Nat.eqb_eq in H.
  - right. apply Nat.eqb_eq in H. rewrite length_substring in H.
    apply String.prefix_correct in Hp.
    assert (String.length (String.substring 0 (String.length "0x") k) = 2%nat) as Hl
      by (by rewrite Hp).
    rewrite length_substring in Hl. simpl in Hl. lia.
Qed.

Lemma filter_sublist_bool {A} (p : A → bool) (l : list A) : List.filter p l `sublist_of` l.
Proof.
  induction l as [|x l IH]; simpl; [constructor|].
  destruct (p x); by constructor.
Qed.

Lemma index_addLog_fields s t w :
  privateKeys (Index.addLog s t w) = privateKeys w
  ∧ proxies (Index.addLog s t w) = proxies w
  ∧ dailyActivityConfig (Index.addLog s t w) = dailyActivityConfig w
  ∧ activityRunning (Index.addLog s t w) = activityRunning w
  ∧ shouldStop (Index.addLog s t w) = shouldStop w
  ∧ configFile (Index.addLog s t w) = configFile w
  ∧ trace (Index.addLog s t w) = trace w.
Proof. done. Qed.

(** What [readLines] returns, apart from logging. *)
Lemma index_readLines_lines trim file f w :
  (Index.readLines trim file f w).1
  = match f with
    | Content data =>
        filter (λ l, (0 < String.length l)%nat) (trim <$> JS.split_lines data)
    | _ => []
    end.
Proof. by destruct f. Qed.

Lemma index_readLines_frame trim file f w :
  ∃ l, (Index.readLines trim file f w).2 = set_logs l w.
Proof.
  destruct f; simpl;
    [exists (transactionLogs w); by destruct w | by eexists
    | exists (transactionLogs w); by destruct w].
Qed.

Lemma index_loadPrivateKeys_frame trim f w :
  ∃ l, Index.loadPrivateKeys trim f w
       = set_logs l (set_privateKeys (List.filter matches_key_pattern (lines_of trim f)) w).
Proof.
  unfold Index.loadPrivateKeys.
  pose proof (index_readLines_lines trim "pk.txt" f w) as Hl.
  destruct (index_readLines_frame trim "pk.txt" f w) as [l Hw1].
  destruct (Index.readLines trim "pk.txt" f w) as [lines w1]. simpl in Hw1, Hl.
  subst w1 lines. fold (lines_of trim f).
  destruct (_ =? _)%nat; by eexists.
Qed.

Lemma index_loadProxies_frame trim f w :
  ∃ l, Index.loadProxies trim f w = set_logs l (set_proxies (lines_of trim f) w).
Proof.
  unfold Index.loadProxies.
  pose proof (index_readLines_lines trim "proxy.txt" f w) as Hl.
  destruct (index_readLines_frame trim "proxy.txt" f w) as [l Hw1].
  destruct (Index.readLines trim "proxy.txt" f w) as [lines w1]. simpl in Hw1, Hl.
  subst w1 lines. fold (lines_of trim f).
  destruct (_ <? _)%nat; by eexists.
Qed.

(** [loadPrivateKeys] of index.js.  Whatever pk.txt holds, every key kept is
    64 hexadecimal digits, with or without a leading 0x (so it has 64 or 66
    characters); the keys are lines of the file, trimmed, in the order of the
    file; a missing or unreadable file gives no key.  Nothing but the keys
    and the log is touched. *)
Theorem index_loadPrivateKeys_valid (trim : string → string) (f : FileRead) (w : World) :
  let w' := Index.loadPrivateKeys trim f w in
  Forall (λ k, matches_key_pattern k = true
               ∧ (String.length k = 64 ∨ String.length k = 66)%nat) (privateKeys w')
  ∧ match f with
    | Content data => privateKeys w' `sublist_of` (trim <$> JS.split_lines data)
    | _ => privateKeys w' = []
    end
  ∧ proxies w' = proxies w ∧ dailyActivityConfig w' = dailyActivityConfig w
  ∧ activityRunning w' = activityRunning w ∧ shouldStop w' = shouldStop w
  ∧ configFile w' = configFile w ∧ trace w' = trace w.
Proof.
  intros w'. subst w'. unfold Index.loadPrivateKeys.
  destruct (index_readLines_frame trim "pk.txt" f w) as [l Hw1].
  pose proof (index_readLines_lines trim "pk.txt" f w) as Hl.
  destruct (Index.readLines trim "pk.txt" f w) as [lines w1]. simpl in Hw1, Hl. subst w1.
  set (w2 := set_privateKeys (List.filter matches_key_pattern lines) (set_logs l w)).
  assert (∀ w3, privateKeys w3 = List.filter matches_key_pattern lines →
            Forall (λ k, matches_key_pattern k = true
                         ∧ (String.length k = 64 ∨ String.length k = 66)%nat) (privateKeys w3)
            ∧ match f with
              | Content data => privateKeys w3 `sublist_of` (trim <$> JS.split_lines data)
              | _ => privateKeys w3 = []
              end) as Hkeys.
  { intros w3 ->. split.
    - apply Forall_forall. intros k Hk%list_elem_of_In%List.filter_In.
      destruct Hk as [_ Hk]. split; [done | by apply key_pattern_length].
    - destruct f; subst lines; try done.
      etrans; [apply filter_sublist_bool|]. apply sublist_filter. }
  destruct (length (privateKeys w2) =? 0)%nat.
  - destruct (Hkeys (Index.addLog
        "No private keys found (pk.txt). Add at least one 0x... private key." warn w2) eq_refl).
    done.
  - destruct (Hkeys (Index.addLog ("Loaded " +:+ pretty (length (privateKeys w2))
                       +:+ " private key(s) from pk.txt") success w2) eq_refl).
    done.
Qed.

Lemma filter_truthy_id (ls : list string) :
  Forall (λ l, l ≠ "") ls → List.filter (λ k, negb (String.eqb k "")) ls = ls.
Proof.
  induction 1 as [|l ls Hl _ IH]; [done|]. simpl.
  destruct (String.eqb_spec l ""); [done|]. simpl. by rewrite IH.
Qed.

Lemma lines_of_nonempty trim f : Forall (λ l, l ≠ "") (lines_of trim f).
Proof. destruct f; try apply Forall_nil_2. apply read_lines_nonempty. Qed.

Lemma universal_readFileLines_spec trim path f w :
  ∃ l, Universal.readFileLines trim path f w = (lines_of trim f, set_logs l w).
Proof.
  destruct f; simpl;
    [exists (transactionLogs w); by destruct w | by eexists
    | exists (transactionLogs w); by destruct w].
Qed.

Lemma universal_if_addLog (c : bool) s t s' t' w :
  ∃ l, (if c then Universal.addLog s t w else Universal.addLog s' t' w) = set_logs l w.
Proof. destruct c; by eexists. Qed.

(** [loadEnvironment] sets the keys and the proxies, and then deals with
    config.json from a state in which only they and the log have changed. *)
Lemma universal_loadEnvironment_frame trim stn pk proxy w :
  ∃ l c cf last,
    Universal.loadEnvironment trim stn pk proxy w
    = mkWorld (lines_of trim pk) (lines_of trim proxy) c (l ++ [last])
        (activityRunning w) (shouldStop w) cf (env w) (tick w) (draws w) (trace w)
    ∧ c = dailyActivityConfig (Index.loadConfig stn w)
    ∧ cf = configFile (Index.loadConfig stn w)
    ∧ (configFile w = Garbage ∨ configFile w = Parsed JsonNull →
       last = Log error "Invalid config.json, using defaults").
Proof.
  unfold Universal.loadEnvironment, Index.loadConfig.
  destruct (universal_readFileLines_spec trim "pk.txt" pk w) as [l1 ->].
  cbv beta iota zeta.
  rewrite (filter_truthy_id _ (lines_of_nonempty trim pk)).
  match goal with
  | |- context [if ?c then Universal.addLog ?a ?b ?w0 else Universal.addLog ?a' ?b' ?w0] =>
      destruct (universal_if_addLog c a b a' b' w0) as [l2 ->]
  end.
  match goal with
  | |- context [Universal.readFileLines trim "proxy.txt" proxy ?w0] =>
      destruct (universal_readFileLines_spec trim "proxy.txt" proxy w0) as [l3 ->]
  end.
  cbv beta iota zeta.
  match goal with
  | |- context [if ?c then Universal.addLog ?a ?b ?w0 else Universal.addLog ?a' ?b' ?w0] =>
      destruct (universal_if_addLog c a b a' b' w0) as [l4 ->]
  end.
  cbn [configFile set_logs set_proxies set_privateKeys dailyActivityConfig].
  destruct (configFile w) as [| |[fields| |]] eqn:Hf;
    cbn [Index.property];
    eexists _, _, _, _; (split; [reflexivity|]);
    (split; [reflexivity|]); (split; [by rewrite ?Hf|]); intros [Hg|Hg]; by simplify_eq.
Qed.

(** [loadEnvironment] of the universal file checks no key: every line of
    pk.txt that is not blank becomes a key (the filter [k => !!k] drops
    nothing, the blank lines are gone already), whereas index.js keeps of
    these lines the ones that match its pattern.  The proxies are the
    non-blank lines of proxy.txt. *)
Theorem universal_loadEnvironment_keeps_every_line (trim : string → string)
    (StringToNumber : string → JS.number) (pk proxy : FileRead) (w : World) :
  let w' := Universal.loadEnvironment trim StringToNumber pk proxy w in
  privateKeys w' = lines_of trim pk
  ∧ proxies w' = lines_of trim proxy
  ∧ privateKeys (Index.loadPrivateKeys trim pk w)
    = List.filter matches_key_pattern (privateKeys w')
  ∧ activityRunning w' = activityRunning w ∧ shouldStop w' = shouldStop w
  ∧ trace w' = trace w.
Proof.
  intros w'. subst w'.
  destruct (universal_loadEnvironment_frame trim StringToNumber pk proxy w)
    as (l & c & cf & last & -> & _).
  simpl. do 2 (split; [done|]). split; [|done].
  unfold Index.loadPrivateKeys.
  destruct pk; simpl; repeat (case_match; simpl); done.
Qed.

(** A line that is no key is loaded by the universal file and dropped by
    index.js. *)
Lemma universal_loads_a_comment_line :
  privateKeys (Universal.loadEnvironment (λ s, s) never_numeric
                 (Content "# my keys") NoFile (sample_world 1 1 calm_env))
  = ["# my keys"]
  ∧ privateKeys (Index.loadPrivateKeys (λ s, s) (Content "# my keys")
                   (sample_world 1 1 calm_env)) = [].
Proof. split; reflexivity. Qed.

(** ** The configuration file *)

Lemma index_loadConfig_frame stn w :
  ∃ l c cf,
    Index.loadConfig stn w
    = mkWorld (privateKeys w) (proxies w) c l (activityRunning w) (shouldStop w) cf
        (env w) (tick w) (draws w) (trace w).
Proof.
  unfold Index.loadConfig.
  repeat (case_match; simpl in *; simplify_eq); by eexists _, _, _.
Qed.

(** A config.json that does not parse, or that holds [null], changes
    nothing: both files catch the error, log one error line, and keep the
    repetitions they had in memory and the file as it is. *)
Theorem invalid_config_file_changes_nothing (trim : string → string)
    (StringToNumber : string → JS.number) (pk proxy : FileRead) (w : World) :
  configFile w = Garbage ∨ configFile w = Parsed JsonNull →
  (dailyActivityConfig (Index.loadConfig StringToNumber w) = dailyActivityConfig w
   ∧ configFile (Index.loadConfig StringToNumber w) = configFile w
   ∧ ∃ message, Index.loadConfig StringToNumber w
                = Index.addLog ("Failed to load config.json: " +:+ message) error w)
  ∧ (let w' := Universal.loadEnvironment trim StringToNumber pk proxy w in
     dailyActivityConfig w' = dailyActivityConfig w
     ∧ configFile w' = configFile w
     ∧ last (transactionLogs w') = Some (Log error "Invalid config.json, using defaults")).
Proof.
  intros Hf. split.
  - unfold Index.loadConfig. destruct Hf as [Hf|Hf]; rewrite Hf; simpl; rewrite ?Hf.
    + do 2 (split; [done|]). by exists "SyntaxError".
    + do 2 (split; [done|]). by exists "TypeError".
  - intros w'. subst w'.
    destruct (universal_loadEnvironment_frame trim StringToNumber pk proxy w)
      as (l & c & cf & e & -> & -> & -> & H).
    rewrite (H Hf). simpl. rewrite last_snoc.
    unfold Index.loadConfig. by destruct Hf as [Hf|Hf]; rewrite Hf; simpl; rewrite ?Hf.
Qed.

Lemma invalid_config_file_changes_nothing_witness :
  dailyActivityConfig
    (Index.loadConfig never_numeric
       (set_configFile Garbage (sample_world 3 2 calm_env)))
  = mkConfig 3 2.
Proof.
  destruct (invalid_config_file_changes_nothing (λ s, s) never_numeric NoFile NoFile
              (set_configFile Garbage (sample_world 3 2 calm_env))) as [(H & _) _].
  - by left.
  - exact H.
Defined.

(** ** The repetition counts are never 0 *)

Lemma index_loadConfig_cases stn w :
  let w' := Index.loadConfig stn w in
  match configFile w with
  | Parsed (JsonObject fields) =>
      dailyActivityConfig w'
      = mkConfig (loaded_field stn (default JS.JUndefined (fields !! "bridgeRepetitions")))
                 (loaded_field stn (default JS.JUndefined (fields !! "swapRepetitions")))
      ∧ configFile w' = configFile w
  | Parsed JsonScalar => dailyActivityConfig w' = mkConfig 1 1 ∧ configFile w' = configFile w
  | Parsed JsonNull | Garbage =>
      dailyActivityConfig w' = dailyActivityConfig w ∧ configFile w' = configFile w
  | Absent =>
      dailyActivityConfig w' = dailyActivityConfig w
      ∧ configFile w' = Parsed (Index.stringify (dailyActivityConfig w))
  end.
Proof.
  unfold Index.loadConfig.
  destruct (configFile w) as [| |[fields| |]] eqn:Hf; simpl; rewrite ?Hf; done.
Qed.

Lemma loaded_field_nonzero stn v : loaded_field stn v ≠ 0.
Proof. apply or_one_nonzero. Qed.

Lemma index_loadConfig_nonzero stn w :
  counts_nonzero w → counts_nonzero (Index.loadConfig stn w).
Proof.
  intros [Hb Hs]. pose proof (index_loadConfig_cases stn w) as H. simpl in H.
  unfold counts_nonzero.
  destruct (configFile w) as [| |[fields| |]]; destruct H as [-> _]; simpl;
    try done; split; apply loaded_field_nonzero.
Qed.

Lemma truthy_or1 (x : JS.double) : truthy (JS.or1 x) = true.
Proof.
  destruct x as [|neg|a]; simpl; [done | done |].
  destruct (Z.eqb_spec (JS.mant a) 0) as [E|E]; simpl; [done|].
  by destruct (Z.eqb_spec (JS.mant a) 0).
Qed.

Lemma settings_loadConfig_nonzero stn st :
  settings_nonzero st → settings_nonzero (Settings.loadConfig stn st).
Proof.
  intros [Hb Hs]. unfold Settings.loadConfig.
  destruct (Settings.file st) as [| |[fields| |]]; simpl; try done.
  all: split; apply truthy_or1.
Qed.

(** Every writer of the configuration stores numbers other than 0: loading
    config.json (in either file) keeps both counts away from 0 when they
    were so before, as they are at start (1 and 1), and the two config forms
    store [Number(text) || 1].  Hence the fallback [|| 1] in the loop bounds
    of the runner never applies: the loops run up to the configured count
    itself.  The last part states the same of the code over JavaScript
    numbers, where a count may be a fraction or an infinity: it is never
    [NaN] and never a zero. *)
Theorem repetitions_never_zero (trim : string → string)
    (StringToNumber : string → JS.number) (pk proxy : FileRead)
    (bridgeInput swapInput : string) (bridge swap : JS.value) (w : World) :
  (counts_nonzero w →
   counts_nonzero (Index.loadConfig StringToNumber w)
   ∧ counts_nonzero (Universal.loadEnvironment trim StringToNumber pk proxy w)
   ∧ Index.bridgeCount w = bridgeRepetitions (dailyActivityConfig w)
   ∧ Index.swapCount w = swapRepetitions (dailyActivityConfig w)
   ∧ Universal.bridgeCount w = bridgeRepetitions (dailyActivityConfig w)
   ∧ Universal.swapCount w = swapRepetitions (dailyActivityConfig w))
  ∧ counts_nonzero (Index.saveButtonPress StringToNumber bridgeInput swapInput w)
  ∧ counts_nonzero (Universal.formSubmit StringToNumber bridge swap w)
  ∧ ∀ (toNumber : string → JS.double) (b s : JS.jsvalue) (st : Settings.State),
      (settings_nonzero st →
       settings_nonzero (Settings.loadConfig toNumber st)
       ∧ settings_nonzero (Settings.loadEnvironment toNumber st))
      ∧ settings_nonzero (Settings.saveButtonPress toNumber bridgeInput swapInput st)
      ∧ settings_nonzero (Settings.formSubmit toNumber b s st).
Proof.
  split; [|split; [|split]]; cycle 3.
  { intros toNumber b s st. split; [|split; split; apply truthy_or1].
    intros Hn. split; by apply settings_loadConfig_nonzero. }
  - intros Hn. split; [by apply index_loadConfig_nonzero|]. split.
    + destruct (universal_loadEnvironment_frame trim StringToNumber pk proxy w)
        as (l & c & cf & e & -> & -> & _).
      apply (index_loadConfig_nonzero StringToNumber w Hn).
    + destruct Hn as [Hb Hs].
      unfold Index.bridgeCount, Index.swapCount, Universal.bridgeCount,
        Universal.swapCount, JS.or_one.
      destruct (Z.eqb_spec (bridgeRepetitions (dailyActivityConfig w)) 0); [done|].
      destruct (Z.eqb_spec (swapRepetitions (dailyActivityConfig w)) 0); done.
  - split; simpl; apply or_one_nonzero.
  - split; simpl; apply or_one_nonzero.
Qed.

Lemma repetitions_never_zero_witness :
  counts_nonzero (Index.loadConfig never_numeric
                    (set_configFile (config_json (JS.JNumber 0) (JS.JString "x"))
                       (sample_world 3 2 calm_env))).
Proof.
  destruct (repetitions_never_zero (λ s, s) never_numeric NoFile NoFile "" ""
              JS.JUndefined JS.JUndefined
              (set_configFile (config_json (JS.JNumber 0) (JS.JString "x"))
                 (sample_world 3 2 calm_env))) as [H _].
  apply H. split; discriminate.
Defined.

(** ** Loading twice *)

Lemma index_loadConfig_idem stn w :
  counts_nonzero w →
  dailyActivityConfig (Index.loadConfig stn (Index.loadConfig stn w))
  = dailyActivityConfig (Index.loadConfig stn w)
  ∧ configFile (Index.loadConfig stn (Index.loadConfig stn w))
    = configFile (Index.loadConfig stn w).
Proof.
  intros [Hb Hs].
  pose proof (index_loadConfig_cases stn w) as H1.
  pose proof (index_loadConfig_cases stn (Index.loadConfig stn w)) as H2.
  simpl in H1, H2.
  destruct (configFile w) as [| |[fields| |]] eqn:Hf; destruct H1 as [Hc1 Hf1];
    rewrite Hf1 in H2; try rewrite Hf in H2.
  - rewrite stringify_fields in H2. destruct H2 as [Hc2 Hf2].
    rewrite Hf2, Hf1. split; [|done]. rewrite Hc2, Hc1.
    rewrite lookup_insert_eq, lookup_insert_ne, lookup_insert_eq by done. simpl.
    rewrite !loaded_number by done. by destruct (dailyActivityConfig w).
  - destruct H2 as [-> ->]. by rewrite Hf1.
  - destruct H2 as [-> ->]. by rewrite Hc1, Hf1.
  - destruct H2 as [-> ->]. by rewrite Hf1.
  - destruct H2 as [-> ->]. by rewrite Hc1, Hf1.
Qed.

Lemma index_loadConfig_ext stn w v :
  dailyActivityConfig w = dailyActivityConfig v → configFile w = configFile v →
  dailyActivityConfig (Index.loadConfig stn w) = dailyActivityConfig (Index.loadConfig stn v)
  ∧ configFile (Index.loadConfig stn w) = configFile (Index.loadConfig stn v).
Proof.
  intros Hc Hf.
  pose proof (index_loadConfig_cases stn w) as H1.
  pose proof (index_loadConfig_cases stn v) as H2.
  simpl in H1, H2. rewrite Hf, ?Hc in H1.
  destruct (configFile v) as [| |[fields| |]]; destruct H1 as [-> ->], H2 as [-> ->]; done.
Qed.

Lemma settings_loadConfig_idem stn st :
  (Settings.file st = Settings.FileAbsent → settings_nonzero st ∧ settings_finite st) →
  Settings.loadConfig stn (Settings.loadConfig stn st) = Settings.loadConfig stn st.
Proof.
  intros Hst. destruct st as [b s f]. simpl in Hst.
  destruct f as [| |[fields| |]]; try done.
  destruct (Hst eq_refl) as [[Hb Hs] [Fb Fs]]. simpl in Hb, Hs, Fb, Fs.
  change (Settings.loadConfig stn (Settings.mkState b s Settings.FileAbsent))
    with (Settings.mkState b s
            (Settings.FileParsed
               (Settings.stringify (Settings.mkState b s Settings.FileAbsent)))).
  rewrite settings_reload, !reload_number.
  destruct b as [|?|b], s as [|?|s]; try done. simpl in Hb, Hs.
  destruct (Z.eqb_spec (JS.mant b) 0); [done|].
  destruct (Z.eqb_spec (JS.mant s) 0); done.
Qed.

(** With an infinite count in memory and no config.json, the second load
    gives another count than the first: the file holds [null] for it. *)
Lemma loading_twice_an_infinite_count :
  let st := Settings.mkState (JS.DInfinity false) (JS.whole 1) Settings.FileAbsent in
  Settings.bridgeRepetitions (Settings.loadConfig nothing_numeric st)
  = JS.DInfinity false
  ∧ Settings.bridgeRepetitions
      (Settings.loadConfig nothing_numeric (Settings.loadConfig nothing_numeric st))
    = JS.whole 1.
Proof. split; reflexivity. Qed.

(** Loading is idempotent.  In a state whose counts are not 0 (as at
    start), loading config.json a second time changes neither the counts
    nor the file, whatever the file held: in particular the file that the
    first start creates holds the counts in memory and loads back as such.
    For the universal file the same holds of the whole of [loadEnvironment]:
    keys, proxies, counts and file.  The last part states the same of the
    code over JavaScript numbers: with a config.json at hand the second
    load repeats the first, whatever the numbers are; without one, it does
    so when the counts in memory are finite and not zero. *)
Theorem loading_twice_changes_nothing (trim : string → string)
    (StringToNumber : string → JS.number) (pk proxy : FileRead) (w : World) :
  counts_nonzero w →
  (let w1 := Index.loadConfig StringToNumber w in
   dailyActivityConfig (Index.loadConfig StringToNumber w1) = dailyActivityConfig w1
   ∧ configFile (Index.loadConfig StringToNumber w1) = configFile w1
   ∧ (configFile w = Absent →
      dailyActivityConfig w1 = dailyActivityConfig w
      ∧ configFile w1 = Parsed (Index.stringify (dailyActivityConfig w))))
  ∧ (let w1 := Universal.loadEnvironment trim StringToNumber pk proxy w in
     let w2 := Universal.loadEnvironment trim StringToNumber pk proxy w1 in
     privateKeys w2 = privateKeys w1 ∧ proxies w2 = proxies w1
     ∧ dailyActivityConfig w2 = dailyActivityConfig w1 ∧ configFile w2 = configFile w1)
  ∧ ∀ (toNumber : string → JS.double) (st : Settings.State),
      (Settings.file st = Settings.FileAbsent → settings_nonzero st ∧ settings_finite st) →
      Settings.loadConfig toNumber (Settings.loadConfig toNumber st)
      = Settings.loadConfig toNumber st
      ∧ Settings.loadEnvironment toNumber (Settings.loadEnvironment toNumber st)
        = Settings.loadEnvironment toNumber st.
Proof.
  intros Hn. destruct (index_loadConfig_idem StringToNumber w Hn) as [Hc Hf].
  split; [|split]; cycle 2.
  { intros toNumber st Hst.
    split; by apply settings_loadConfig_idem. }
  - cbv zeta. do 2 (split; [done|]). intros Ha.
    pose proof (index_loadConfig_cases StringToNumber w) as H. simpl in H.
    by rewrite Ha in H.
  - cbv zeta.
    destruct (universal_loadEnvironment_frame trim StringToNumber pk proxy w)
      as (l & c & cf & e & E1 & Hc1 & Hf1 & _).
    destruct (universal_loadEnvironment_frame trim StringToNumber pk proxy
                (Universal.loadEnvironment trim StringToNumber pk proxy w))
      as (l' & c' & cf' & e' & E2 & Hc2 & Hf2 & _).
    set (w1 := Universal.loadEnvironment trim StringToNumber pk proxy w) in *.
    assert (privateKeys w1 = lines_of trim pk ∧ proxies w1 = lines_of trim proxy
            ∧ dailyActivityConfig w1 = c ∧ configFile w1 = cf) as (K1 & P1 & C1 & F1)
      by (by rewrite E1).
    rewrite E2. cbn [privateKeys proxies dailyActivityConfig configFile].
    rewrite K1, P1, C1, F1. do 2 (split; [done|]).
    destruct (index_loadConfig_ext StringToNumber w1 (Index.loadConfig StringToNumber w))
      as [Hc3 Hf3]; [congruence | congruence |].
    rewrite Hc2, Hf2, Hc3, Hf3, Hc1, Hf1. done.
Qed.

Lemma loading_twice_changes_nothing_witness :
  let w1 := Index.loadConfig never_numeric (sample_world 3 2 calm_env) in
  dailyActivityConfig (Index.loadConfig never_numeric w1) = dailyActivityConfig w1.
Proof.
  destruct (loading_twice_changes_nothing (λ s, s) never_numeric NoFile NoFile
              (sample_world 3 2 calm_env)) as [(H & _) _].
  - split; discriminate.
  - exact H.
Defined.

(** ** Starting without keys, or twice *)

(** When loading left no key (pk.txt missing, unreadable, or without a
    usable line), selecting Start Activity does nothing but log: the call
    returns at once, no executor is called, no timer is started, nothing is
    awaited and both flags stay as they were.  The same holds, in any state,
    while a run is in progress: a second run is never started. *)
Theorem start_without_keys_does_nothing (walletAddress : string → option string)
    (trim : string → string) (StringToNumber : string → JS.number)
    (pk proxy : FileRead) (w : World) :
  let wi := Index.loadPrivateKeys trim pk w in
  let wu := Universal.loadEnvironment trim StringToNumber pk proxy w in
  ((∀ data, pk ≠ Content data) → privateKeys wi = [] ∧ privateKeys wu = [])
  ∧ (privateKeys wi = [] →
     ∃ w', Index.clickStart walletAddress wi = Return tt w'
           ∧ trace w' = (trace w ++ [Clicked StartActivity])%list
           ∧ activityRunning w' = activityRunning w ∧ shouldStop w' = shouldStop w
           ∧ tick w' = tick w ∧ draws w' = draws w)
  ∧ (privateKeys wu = [] →
     ∃ w', Universal.clickStart walletAddress wu = Return tt w'
           ∧ trace w' = (trace w ++ [Clicked StartActivity])%list
           ∧ activityRunning w' = activityRunning w ∧ shouldStop w' = shouldStop w
           ∧ tick w' = tick w ∧ draws w' = draws w)
  ∧ (activityRunning w = true →
     Index.clickStart walletAddress w
     = Return tt (Index.addLog "Activity already running" warn
                    (record (Clicked StartActivity) w))
     ∧ Universal.clickStart walletAddress w
       = Return tt (Universal.addLog "Activity already running" warn
                      (record (Clicked StartActivity) w))).
Proof.
  intros wi wu.
  assert (∃ l, wi = set_logs l (set_privateKeys (privateKeys wi) w)) as [li Hi].
  { subst wi. unfold Index.loadPrivateKeys.
    destruct (index_readLines_frame trim "pk.txt" pk w) as [l Hw1].
    destruct (Index.readLines trim "pk.txt" pk w) as [lines w1]. simpl in Hw1. subst w1.
    destruct (_ =? _)%nat; by eexists. }
  assert (∃ l, wu = mkWorld (privateKeys wu) (proxies wu) (dailyActivityConfig wu) l
                      (activityRunning w) (shouldStop w) (configFile wu) (env w)
                      (tick w) (draws w) (trace w)) as [lu Hu].
  { subst wu.
    destruct (universal_loadEnvironment_frame trim StringToNumber pk proxy w)
      as (l & c & cf & e & -> & _). by eexists. }
  split; [|split; [|split]].
  - intros Hpk. split.
    + subst wi. destruct (index_loadPrivateKeys_frame trim pk w) as [l ->]. simpl.
      destruct pk; try done. by destruct (Hpk data).
    + subst wu.
      destruct (universal_loadEnvironment_frame trim StringToNumber pk proxy w)
        as (l & c & cf & e & -> & _). simpl.
      destruct pk; try done. by destruct (Hpk data).
  - intros Hk. rewrite Hi, Hk.
    unfold Index.clickStart, Index.runDailyActivityLoop.
    cbv beta iota delta [mbind M_bind bind get modify Index.log try_catch]. simpl.
    destruct (activityRunning w) eqn:Hr; eexists; (split; [reflexivity|]);
      simpl; by rewrite ?Hr.
  - intros Hk. rewrite Hu, Hk.
    unfold Universal.clickStart, Universal.runDailyActivityLoop.
    cbv beta iota delta [mbind M_bind bind get modify Universal.log try_catch]. simpl.
    destruct (activityRunning w) eqn:Hr; eexists; (split; [reflexivity|]);
      simpl; by rewrite ?Hr.
  - intros Hr. unfold Index.clickStart, Universal.clickStart.
    cbv beta iota delta [mbind M_bind bind get modify Index.log Universal.log]. simpl.
    by rewrite Hr.
Qed.

Lemma start_without_keys_does_nothing_witness :
  ∃ w', Index.clickStart sample_wallet
          (Index.loadPrivateKeys (λ s, s) NoFile (sample_world 1 1 calm_env))
        = Return tt w'
        ∧ trace w' = (trace (sample_world 1 1 calm_env) ++ [Clicked StartActivity])%list
        ∧ activityRunning w' = activityRunning (sample_world 1 1 calm_env)
        ∧ shouldStop w' = shouldStop (sample_world 1 1 calm_env)
        ∧ tick w' = tick (sample_world 1 1 calm_env)
        ∧ draws w' = draws (sample_world 1 1 calm_env).
Proof.
  destruct (start_without_keys_does_nothing sample_wallet (λ s, s) never_numeric
              NoFile NoFile (sample_world 1 1 calm_env)) as (_ & H & _).
  apply H. reflexivity.
Defined.

(** ** What an executor sends and reports *)

Lemma sends_app (a b : list Event) : sends (a ++ b) = (sends a ++ sends b)%list.
Proof. apply List.filter_app. Qed.

Lemma sends_clicks (l : list Event) : Forall (λ e, is_click e = true) l → sends l = [].
Proof.
  induction 1 as [|e l He _ IH]; [done|].
  unfold sends in *. simpl. rewrite IH. by destruct e.
Qed.

Lemma approves_clicks (l : list Event) :
  Forall (λ e, is_click e = true) l → List.filter is_approve l = [].
Proof.
  induction 1 as [|e l He _ IH]; [done|].
  simpl. rewrite IH. by destruct e.
Qed.

Lemma index_last_addLog s t w :
  last (transactionLogs (Index.addLog s t w)) = Some (Log t s).
Proof.
  unfold Index.addLog. cbn [transactionLogs set_logs].
  rewrite trimLogs_last_n. unfold last_n.
  rewrite drop_app_le by (rewrite length_app; simpl; lia).
  apply last_snoc.
Qed.

Lemma universal_last_addLog s t w :
  last (transactionLogs (Universal.addLog s t w)) = Some (Log t s).
Proof. unfold Universal.addLog. simpl. by rewrite last_snoc. Qed.

(** The transactions on the trace of one path of an executor. *)
Ltac path_sends :=
  rewrite ?sends_app;
  repeat match goal with
    | H : Forall (λ e, is_click e = true) ?l |- context [sends ?l] =>
        rewrite (sends_clicks l H)
    end;
  cbn [sends List.filter is_send app].

Ltac path_open :=
  eexists _, _; split; [reflexivity|]; split; [reflexivity|].

Lemma index_bridge_sends wa pk proxyUrl i w :
  sat (Index.performBridgeSimple wa pk proxyUrl i) w
    (bridge_sends wa pk proxyUrl i
       (JS.parseUnits18 (Index.bridgeAmount (randoms (env w) (draws w))))).
Proof.
  unfold Index.performBridgeSimple, bridge_sends, Index.checkAndApproveIfNeeded,
    Index.newWallet.
  change (String.eqb BRIDGE_ROUTER_index "") with false. cbv iota.
  destruct (pk ≫= wa) as [a|] eqn:Hw.
  - wp_all; path_open; path_sends.
    all: (split; [by constructor|]).
    all: intros Hok; try discriminate Hok.
    all: first [by eexists [], _ | by eexists [_], _].
  - wp_all. path_open. done.
Qed.

Lemma universal_bridge_sends wa pk proxyUrl i w :
  sat (Universal.performBridgeSimple wa pk proxyUrl i) w
    (bridge_sends wa pk proxyUrl i
       (JS.parseUnits18 (Universal.bridgeAmount (randoms (env w) (draws w))))).
Proof.
  unfold Universal.performBridgeSimple, bridge_sends, Universal.checkAndApprove,
    Universal.getNextNonce, Universal.newWallet.
  change (String.eqb BRIDGE_ROUTER_universal "" || String.eqb TOKEN_A_universal "")
    with false. cbv iota.
  destruct (pk ≫= wa) as [a|] eqn:Hw.
  - wp_all; path_open; path_sends.
    all: (split; [by constructor|]).
    all: intros Hok; try discriminate Hok.
    all: first [by eexists [], _ | by eexists [_], _].
  - wp_all. path_open. done.
Qed.

Lemma index_swap_sends wa pk proxyUrl i w :
  sat (Index.performSwapSimple wa pk proxyUrl i) w
    (swap_sends wa pk proxyUrl i
       (JS.parseUnits18 (Index.swapAmount (randoms (env w) (draws w))))
       (clock (env w) (tick w))).
Proof.
  unfold Index.performSwapSimple, swap_sends, Index.newWallet.
  change (String.eqb SWAP_ROUTER_index "") with false. cbv iota.
  destruct (pk ≫= wa) as [a|] eqn:Hw.
  - wp_all; path_open; path_sends.
    all: (split; [by econstructor|]).
    all: intros Hok; try discriminate Hok.
    all: by eexists.
  - wp_all. path_open. done.
Qed.

Lemma universal_swap_sends wa pk proxyUrl i w :
  sat (Universal.performSwapSimple wa pk proxyUrl i) w
    (swap_sends wa pk proxyUrl i
       (JS.parseUnits18 (Universal.swapAmount (randoms (env w) (draws w))))
       (clock (env w) (tick w))).
Proof.
  unfold Universal.performSwapSimple, swap_sends, Universal.getNextNonce,
    Universal.newWallet.
  change (String.eqb SWAP_ROUTER_universal "" || String.eqb TOKEN_B_universal "")
    with false. cbv iota.
  destruct (pk ≫= wa) as [a|] eqn:Hw.
  - wp_all; path_open; path_sends.
    all: (split; [by econstructor|]).
    all: intros Hok; try discriminate Hok.
    all: by eexists.
  - wp_all. path_open. done.
Qed.

(** The last line of the log on one path of an executor. *)
Ltac path_report :=
  eexists; split; [reflexivity|];
  unfold reported, Index.acct, Universal.acct; cbv iota;
  first
    [ rewrite index_last_addLog; first [reflexivity | eexists; reflexivity]
    | rewrite universal_last_addLog; first [reflexivity | eexists; reflexivity] ].

Lemma index_bridge_reports wa pk proxyUrl i w :
  sat (Index.performBridgeSimple wa pk proxyUrl i) w
    (reports i ("Acct " +:+ pretty (i + 1)%nat +:+ ": bridge completed")).
Proof.
  unfold Index.performBridgeSimple, reports, Index.checkAndApproveIfNeeded, Index.newWallet.
  change (String.eqb BRIDGE_ROUTER_index "") with false. cbv iota.
  destruct (pk ≫= wa) as [a|]; wp_all; path_report.
Qed.

Lemma index_swap_reports wa pk proxyUrl i w :
  sat (Index.performSwapSimple wa pk proxyUrl i) w
    (reports i ("Acct " +:+ pretty (i + 1)%nat +:+ ": swap completed")).
Proof.
  unfold Index.performSwapSimple, reports, Index.newWallet.
  change (String.eqb SWAP_ROUTER_index "") with false. cbv iota.
  destruct (pk ≫= wa) as [a|]; wp_all; path_report.
Qed.

Lemma universal_bridge_reports wa pk proxyUrl i w :
  sat (Universal.performBridgeSimple wa pk proxyUrl i) w
    (reports i ("Acct " +:+ pretty (i + 1)%nat +:+ ": bridge completed")).
Proof.
  unfold Universal.performBridgeSimple, reports, Universal.checkAndApprove,
    Universal.getNextNonce, Universal.newWallet.
  change (String.eqb BRIDGE_ROUTER_universal "" || String.eqb TOKEN_A_universal "")
    with false. cbv iota.
  destruct (pk ≫= wa) as [a|]; wp_all; path_report.
Qed.

Lemma universal_swap_reports wa pk proxyUrl i w :
  sat (Universal.performSwapSimple wa pk proxyUrl i) w
    (reports i ("Acct " +:+ pretty (i + 1)%nat +:+ ": swap completed")).
Proof.
  unfold Universal.performSwapSimple, reports, Universal.getNextNonce,
    Universal.newWallet.
  change (String.eqb SWAP_ROUTER_universal "" || String.eqb TOKEN_B_universal "")
    with false. cbv iota.
  destruct (pk ≫= wa) as [a|]; wp_all; path_report.
Qed.

Ltac path_approves :=
  rewrite ?List.filter_app;
  repeat match goal with
    | H : Forall (λ e, is_click e = true) ?l |- context [List.filter is_approve ?l] =>
        rewrite (approves_clicks l H)
    end;
  cbn [List.filter is_approve app].

Ltac allowance_was_enough Hrep Hle :=
  exfalso;
  match goal with
  | Hr : inr ?p0 = call_result _, E : (p_num ?p0 >=? _) = false |- _ =>
      unfold call_result in Hr; cbn [env tick next_draw record] in Hr;
      rewrite Hrep in Hr; injection Hr as ->;
      cbn [env draws next_draw record] in E;
      rewrite Z.geb_leb in E; apply Z.leb_gt in E; lia
  end.

Lemma index_enough_allowance wa pk proxyUrl i w p :
  r_reply (replies (env w) (tick w)) = Resolved p →
  JS.parseUnits18 (Index.bridgeAmount (randoms (env w) (draws w))) ≤ p_num p →
  sat (Index.performBridgeSimple wa pk proxyUrl i) w
    (λ _ ext _, List.filter is_approve ext = []).
Proof.
  intros Hrep Hle.
  unfold Index.performBridgeSimple, Index.checkAndApproveIfNeeded, Index.newWallet.
  change (String.eqb BRIDGE_ROUTER_index "") with false. cbv iota.
  destruct (pk ≫= wa) as [a|]; wp_all; path_approves; try reflexivity.
  all: allowance_was_enough Hrep Hle.
Qed.

Lemma universal_enough_allowance wa pk proxyUrl i w p :
  r_reply (replies (env w) (tick w)) = Resolved p →
  JS.parseUnits18 (Universal.bridgeAmount (randoms (env w) (draws w))) ≤ p_num p →
  sat (Universal.performBridgeSimple wa pk proxyUrl i) w
    (λ _ ext _, List.filter is_approve ext = []).
Proof.
  intros Hrep Hle.
  unfold Universal.performBridgeSimple, Universal.checkAndApprove,
    Universal.getNextNonce, Universal.newWallet.
  change (String.eqb BRIDGE_ROUTER_universal "" || String.eqb TOKEN_A_universal "")
    with false. cbv iota.
  destruct (pk ≫= wa) as [a|]; wp_all; path_approves; try reflexivity.
  all: allowance_was_enough Hrep Hle.
Qed.

(** One bridge call, in both files.  It returns a boolean.  After its
    entry it hands at most two transactions to the chain client, all from
    the wallet of the key: an approval, if any, always of [MaxUint256] with
    the gas limit 200000, and then a deposit, if any, of the amount drawn,
    with the gas limit 800000; never a multicall; nothing at all when no
    wallet can be made of the key.  It returns [true] only after the
    deposit. *)
Theorem bridge_call_transactions (walletAddress : string → option string)
    (pk proxyUrl : option string) (i : nat) (w : World) :
  sat (Index.performBridgeSimple walletAddress pk proxyUrl i) w
    (bridge_sends walletAddress pk proxyUrl i
       (JS.parseUnits18 (Index.bridgeAmount (randoms (env w) (draws w)))))
  ∧ sat (Universal.performBridgeSimple walletAddress pk proxyUrl i) w
      (bridge_sends walletAddress pk proxyUrl i
         (JS.parseUnits18 (Universal.bridgeAmount (randoms (env w) (draws w))))).
Proof. split; [apply index_bridge_sends | apply universal_bridge_sends]. Qed.

(** One swap call, in both files.  It returns a boolean.  It sends at most
    one transaction: a multicall from the wallet of the key, with the gas
    limit 500000, for the amount drawn, and with a deadline 1800 seconds
    after the time at which the call started; never an approval or a
    deposit.  It returns [true] only after the multicall.  The amount is
    [(Math.random() * (0.02 - 0.005) + 0.005).toFixed(6)] in doubles: it is
    between 0.005 and 0.02 (5000 to 20000 millionths), the same in both
    files, and every six-decimal value in between is given by some draw. *)
Theorem swap_call_transactions (walletAddress : string → option string)
    (pk proxyUrl : option string) (i : nat) (w : World) :
  let r := randoms (env w) (draws w) in
  sat (Index.performSwapSimple walletAddress pk proxyUrl i) w
    (swap_sends walletAddress pk proxyUrl i (JS.parseUnits18 (Index.swapAmount r))
       (clock (env w) (tick w)))
  ∧ sat (Universal.performSwapSimple walletAddress pk proxyUrl i) w
      (swap_sends walletAddress pk proxyUrl i (JS.parseUnits18 (Universal.swapAmount r))
         (clock (env w) (tick w)))
  ∧ 5000 ≤ Index.swapAmount r ≤ 20000
  ∧ Universal.swapAmount r = Index.swapAmount r
  ∧ (∀ m, 5000 ≤ m ≤ 20000 → Index.swapAmount (draw_for 15000 5000 m) = m).
Proof.
  intros r. split; [apply index_swap_sends|]. split; [apply universal_swap_sends|].
  split; [apply swapAmount_range|]. split; [done|].
  intros m Hm. apply Z.eqb_eq.
  apply (all_from_range (λ m, Index.swapAmount (draw_for 15000 5000 m) =? m)
           15001 5000); [by vm_compute | lia].
Qed.

(** Every executor call is reported in the log, in both files: when the
    call returns [true], the last line of the log is the success line of
    the executor; when it returns [false], the last line is an error line
    that starts with the account number and gives a reason. *)
Theorem executor_outcome_is_logged (walletAddress : string → option string)
    (pk proxyUrl : option string) (i : nat) (w : World) :
  sat (Index.performBridgeSimple walletAddress pk proxyUrl i) w
    (reports i ("Acct " +:+ pretty (i + 1)%nat +:+ ": bridge completed"))
  ∧ sat (Index.performSwapSimple walletAddress pk proxyUrl i) w
      (reports i ("Acct " +:+ pretty (i + 1)%nat +:+ ": swap completed"))
  ∧ sat (Universal.performBridgeSimple walletAddress pk proxyUrl i) w
      (reports i ("Acct " +:+ pretty (i + 1)%nat +:+ ": bridge completed"))
  ∧ sat (Universal.performSwapSimple walletAddress pk proxyUrl i) w
      (reports i ("Acct " +:+ pretty (i + 1)%nat +:+ ": swap completed")).
Proof.
  split; [apply index_bridge_reports|]. split; [apply index_swap_reports|].
  split; [apply universal_bridge_reports | apply universal_swap_reports].
Qed.

(** When the allowance that the token reports covers the amount, a bridge
    call sends no approval, in either file. *)
Theorem enough_allowance_skips_approval (walletAddress : string → option string)
    (pk proxyUrl : option string) (i : nat) (w : World) (allowance : Payload) :
  r_reply (replies (env w) (tick w)) = Resolved allowance →
  (JS.parseUnits18 (Index.bridgeAmount (randoms (env w) (draws w))) ≤ p_num allowance →
   sat (Index.performBridgeSimple walletAddress pk proxyUrl i) w
     (λ _ ext _, List.filter is_approve ext = []))
  ∧ (JS.parseUnits18 (Universal.bridgeAmount (randoms (env w) (draws w)))
     ≤ p_num allowance →
     sat (Universal.performBridgeSimple walletAddress pk proxyUrl i) w
       (λ _ ext _, List.filter is_approve ext = [])).
Proof.
  intros Hrep. split; intros Hle.
  - by eapply index_enough_allowance.
  - by eapply universal_enough_allowance.
Qed.

Lemma enough_allowance_skips_approval_witness :
  sat (Index.performBridgeSimple sample_wallet (Some "key-one") None 0)
    (sample_world 1 1 generous_env) (λ _ ext _, List.filter is_approve ext = []).
Proof.
  destruct (enough_allowance_skips_approval sample_wallet (Some "key-one") None 0
              (sample_world 1 1 generous_env)
              (mkPayload (10 ^ 18) 0 "0xabcdef0123456789")) as [H _].
  - reflexivity.
  - apply H. vm_compute. discriminate.
Defined.

(** A key of which no wallet can be made makes every executor call fail at
    once, in both files: the call returns [false] without awaiting
    anything, without drawing an amount and without sending anything. *)
Theorem invalid_key_fails_fast (walletAddress : string → option string)
    (pk proxyUrl : option string) (i : nat) (w : World) :
  pk ≫= walletAddress = None →
  (∃ w', Index.performBridgeSimple walletAddress pk proxyUrl i w = Return false w'
         ∧ trace w' = (trace w ++ [CallBridge pk proxyUrl i])%list
         ∧ tick w' = tick w ∧ draws w' = draws w)
  ∧ (∃ w', Index.performSwapSimple walletAddress pk proxyUrl i w = Return false w'
           ∧ trace w' = (trace w ++ [CallSwap pk proxyUrl i])%list
           ∧ tick w' = tick w ∧ draws w' = draws w)
  ∧ (∃ w', Universal.performBridgeSimple walletAddress pk proxyUrl i w = Return false w'
           ∧ trace w' = (trace w ++ [CallBridge pk proxyUrl i])%list
           ∧ tick w' = tick w ∧ draws w' = draws w)
  ∧ (∃ w', Universal.performSwapSimple walletAddress pk proxyUrl i w = Return false w'
           ∧ trace w' = (trace w ++ [CallSwap pk proxyUrl i])%list
           ∧ tick w' = tick w ∧ draws w' = draws w).
Proof.
  intros Hw.
  unfold Index.performBridgeSimple, Index.performSwapSimple,
    Universal.performBridgeSimple, Universal.performSwapSimple,
    Index.newWallet, Universal.newWallet.
  rewrite Hw.
  repeat split; eexists; (split; [reflexivity|]); done.
Qed.

Lemma invalid_key_fails_fast_witness :
  ∃ w', Index.performBridgeSimple sample_wallet None None 0 (sample_world 1 1 calm_env)
        = Return false w'
        ∧ trace w' = (trace (sample_world 1 1 calm_env) ++ [CallBridge None None 0])%list
        ∧ tick w' = tick (sample_world 1 1 calm_env)
        ∧ draws w' = draws (sample_world 1 1 calm_env).
Proof.
  destruct (invalid_key_fails_fast sample_wallet None None 0 (sample_world 1 1 calm_env))
    as [H _].
  - reflexivity.
  - exact H.
Defined.

(** ** Traces checked by an automaton *)

Lemma sat_conj {A} (m : M A) w (Q1 Q2 : string + A → list Event → World → Prop) :
  sat m w Q1 → sat m w Q2 → sat m w (λ r ext w', Q1 r ext w' ∧ Q2 r ext w').
Proof.
  unfold sat. destruct (m w) as [a w'|e w'|]; [| |done].
  - intros (ext1 & Hp1 & H1) (ext2 & Hp2 & H2). exists ext1. split; [done|].
    split; [done|].
    assert (ext1 = ext2) as ->; [|done].
    apply (app_inv_head (trace w)). by rewrite <- (pg_trace _ _ _ Hp1), (pg_trace _ _ _ Hp2).
  - intros (ext1 & Hp1 & H1) (ext2 & Hp2 & H2). exists ext1. split; [done|].
    split; [done|].
    assert (ext1 = ext2) as ->; [|done].
    apply (app_inv_head (trace w)). by rewrite <- (pg_trace _ _ _ Hp1), (pg_trace _ _ _ Hp2).
Qed.

Section Accepts.
Context {St : Type}.
Variable step : St → Event → option St.
Implicit Types (P Q R : St → Prop).

Lemma run_on_app (s : St) (a b : list Event) :
  run_on step s (a ++ b)
  = match run_on step s a with Some s' => run_on step s' b | None => None end.
Proof.
  revert s. induction a as [|e a IH]; intros s; simpl; [done|].
  destruct (step s e); [apply IH | done].
Qed.

Lemma accepts_nil P Q : (∀ s, P s → Q s) → accepts step P [] Q.
Proof. intros H s Hs. exists s. split; [done | by apply H]. Qed.

Lemma accepts_app P Q R (a b : list Event) :
  accepts step P a Q → accepts step Q b R → accepts step P (a ++ b) R.
Proof.
  intros Ha Hb s Hs. destruct (Ha s Hs) as (s1 & E1 & H1).
  destruct (Hb s1 H1) as (s2 & E2 & H2). exists s2. by rewrite run_on_app, E1.
Qed.

Lemma accepts_weaken P P' Q Q' (a : list Event) :
  (∀ s, P' s → P s) → (∀ s, Q s → Q' s) → accepts step P a Q → accepts step P' a Q'.
Proof.
  intros HP HQ Ha s Hs. destruct (Ha s (HP s Hs)) as (s1 & E1 & H1). eauto.
Qed.
End Accepts.

(** The runner under an automaton that ignores the clicks: [Ready] holds
    where an executor may be called, [After] where one has returned, and a
    timer of at least [lo] milliseconds leads from either back to
    [Ready]. *)
Section Checked.
Context {St : Type}.
Variable step : St → Event → option St.
Variables Ready After : St → Prop.
Variable lo : Z.

Hypothesis step_click : ∀ s a, step s (Clicked a) = Some s.
Hypothesis step_timer : ∀ s ms, lo ≤ ms → Ready s ∨ After s →
  ∃ s', step s (Slept ms) = Some s' ∧ Ready s'.


Lemma accepts_clicks (P : St → Prop) (l : list Event) :
  Forall (λ e, is_click e = true) l → accepts step P l P.
Proof.
  induction 1 as [|e l He _ IH]; [by apply accepts_nil|].
  intros s Hs. destruct e; try discriminate He. simpl. rewrite step_click. by apply IH.
Qed.

Lemma accepts_timer w lo' hi r ext w' :
  lo ≤ lo' → timer_post w lo' hi r ext w' → accepts step (either Ready After) ext Ready.
Proof.
  intros Hlo (_ & _ & ms & cl & Hms & -> & Hcl) s Hs.
  destruct (step_timer s ms ltac:(lia) Hs) as (s1 & E1 & H1).
  simpl. rewrite E1. by apply accepts_clicks.
Qed.

Lemma accepts_ready_mid (a : list Event) :
  accepts step Ready a Ready → accepts step Ready a (either Ready After).
Proof. apply accepts_weaken; [done | by left]. Qed.

Lemma accepts_after_mid (a : list Event) :
  accepts step Ready a After → accepts step Ready a (either Ready After).
Proof. apply accepts_weaken; [done | by right]. Qed.

(** The loop over the repetitions of one executor. *)
Section Repeat.
Variable exec : M bool.
Variable sleepR : M unit.
Variable count reps : World → Z.

Hypothesis count_reps : ∀ w, count w = JS.or_one (JS.Num (reps w)).
Hypothesis reps_stable : ∀ w ext w', progress w ext w' → reps w' = reps w.
Hypothesis exec_spec : ∀ w, sat exec w (λ _ ext _, accepts step Ready ext After).
Hypothesis sleep_spec : ∀ w, sat sleepR w (timer_post w 8000 20000).
Hypothesis lo_inner : lo ≤ 8000.

Lemma last_repetition (b : nat) (w : World) :
  (Z.of_nat b <? reps w - 1) = false → repeat_cond count (b + 1) w = false.
Proof.
  intros H. apply Z.ltb_ge in H. unfold repeat_cond.
  rewrite count_reps. simpl. destruct (Z.eqb_spec (reps w) 0) as [E|E].
  - replace (Z.of_nat (b + 1) <? 1) with false; [done|]. symmetry. apply Z.ltb_ge. lia.
  - replace (Z.of_nat (b + 1) <? reps w) with false; [done|]. symmetry. apply Z.ltb_ge. lia.
Qed.

Lemma inner_loop_checked fuel b w :
  (Z.to_nat (count w) - b ≤ fuel)%nat →
  sat (for_loop fuel (repeat_cond count) (repeat_body exec reps sleepR) b) w
    (loop_checked step Ready After (repeat_cond count) b w).
Proof.
  intros Hf.
  apply (sat_for_loop (loop_checked step Ready After (repeat_cond count)) (λ _, True) (λ w, Z.to_nat (count w))); try done.
  - intros w0 ext w' Hp. by rewrite !count_reps, (reps_stable _ _ _ Hp).
  - intros b0 w0 [H _]%andb_prop. apply Z.ltb_lt in H. lia.
  - intros b0 w0 _ Hc. split; [|done]. apply accepts_nil. by left.
  - intros b0 w0 _ Hc. unfold repeat_body. apply sat_bind.
    eapply sat_mono; [apply exec_spec|].
    intros r1 ext1 w1 Hp1 H1. destruct r1 as [e|ok].
    { split; [by apply accepts_after_mid | congruence]. }
    apply sat_bind, sat_get, sat_when.
    + intros _. eapply sat_mono; [apply sleep_spec|].
      intros r2 ext2 w2 Hp2 H2.
      assert (accepts step Ready (ext1 ++ [] ++ ext2) Ready) as H12.
      { eapply accepts_app; [exact H1|]. simpl.
        eapply accepts_weaken; [| |by eapply accepts_timer]; [by right | done]. }
      destruct r2 as [e|[]].
      * split; [by apply accepts_ready_mid | congruence].
      * intros r3 ext3 w3 Hp3 [H3 _]. split; [|congruence].
        eapply accepts_app; [exact H12 | exact H3].
    + intros Hlast r3 ext3 w3 Hp3 [_ H3]. split; [|congruence].
      rewrite H3 by (by apply last_repetition).
      rewrite !app_nil_r. by apply accepts_after_mid.
Qed.
End Repeat.
End Checked.

(** The two files under such an automaton, given that it accepts every
    executor call from [Ready] and is then in [After]. *)
Section CheckedIndex.
Context {St : Type}.
Variable step : St → Event → option St.
Variables Ready After : St → Prop.
Variable lo : Z.

Hypothesis step_click : ∀ s a, step s (Clicked a) = Some s.
Hypothesis step_timer : ∀ s ms, lo ≤ ms → Ready s ∨ After s →
  ∃ s', step s (Slept ms) = Some s' ∧ Ready s'.
Hypothesis lo_gap : lo ≤ 7000.
Hypothesis bridge_checked : ∀ wa pk proxyUrl i w,
  sat (Index.performBridgeSimple wa pk proxyUrl i) w (λ _ ext _, accepts step Ready ext After).
Hypothesis swap_checked : ∀ wa pk proxyUrl i w,
  sat (Index.performSwapSimple wa pk proxyUrl i) w (λ _ ext _, accepts step Ready ext After).

Lemma index_bridge_loop_checked wa pk proxyUrl i fuel w :
  (Z.to_nat (Index.bridgeCount w) ≤ fuel)%nat →
  sat (for_loop fuel
         (λ b w, (Z.of_nat b <? Index.bridgeCount w) && negb (shouldStop w))
         (λ b, _ ← Index.performBridgeSimple wa pk proxyUrl i;
               w ← get;
               when (Z.of_nat b <? bridgeRepetitions (dailyActivityConfig w) - 1)
                 (Index.sleepRandom 8000 20000))
         0%nat) w
    (λ _ ext _, accepts step Ready ext (either Ready After)).
Proof.
  intros Hfuel. eapply sat_mono.
  - apply (inner_loop_checked step Ready After lo step_click step_timer
             (Index.performBridgeSimple wa pk proxyUrl i)
             (Index.sleepRandom 8000 20000) Index.bridgeCount
             (λ w, bridgeRepetitions (dailyActivityConfig w))); try done; try lia.
    all: first [ intros w0 ext w' Hp; by rewrite (pg_config _ _ _ Hp)
               | intros w0; by apply index_sat_sleepRandom ].
  - by intros r ext w' _ [H _].
Qed.

Lemma index_swap_loop_checked wa pk proxyUrl i fuel w :
  (Z.to_nat (Index.swapCount w) ≤ fuel)%nat →
  sat (for_loop fuel
         (λ s w, (Z.of_nat s <? Index.swapCount w) && negb (shouldStop w))
         (λ s, _ ← Index.performSwapSimple wa pk proxyUrl i;
               w ← get;
               when (Z.of_nat s <? swapRepetitions (dailyActivityConfig w) - 1)
                 (Index.sleepRandom 8000 20000))
         0%nat) w
    (λ _ ext _, accepts step Ready ext (either Ready After)).
Proof.
  intros Hfuel. eapply sat_mono.
  - apply (inner_loop_checked step Ready After lo step_click step_timer
             (Index.performSwapSimple wa pk proxyUrl i)
             (Index.sleepRandom 8000 20000) Index.swapCount
             (λ w, swapRepetitions (dailyActivityConfig w))); try done; try lia.
    all: first [ intros w0 ext w' Hp; by rewrite (pg_config _ _ _ Hp)
               | intros w0; by apply index_sat_sleepRandom ].
  - by intros r ext w' _ [H _].
Qed.

Lemma index_account_checked wa i w :
  sat (Index.processAccount wa i) w (account_checked step Ready After i w).
Proof.
  unfold Index.processAccount, account_checked.
  apply sat_bind, sat_get. cbv beta iota zeta.
  apply sat_bind, index_sat_log. cbv beta iota zeta.
  apply sat_bind. eapply sat_mono; [by apply index_bridge_loop_checked|].
  intros r1 ext1 w1 Hp1 H1. rewrite ?app_nil_l.
  destruct r1 as [?|[]]; [by split|].
  apply sat_bind. eapply sat_mono; [apply index_sat_sleepRandom; lia|].
  intros r2 ext2 w2 Hp2 H2.
  assert (accepts step Ready (ext1 ++ ext2) Ready) as H12.
  { eapply accepts_app; [exact H1|].
    by eapply (accepts_timer step Ready After lo step_click step_timer). }
  destruct r2 as [?|[]].
  { split; [|done]. eapply accepts_weaken; [| |exact H12]; [done | by left]. }
  apply sat_bind, sat_get. cbv beta iota zeta.
  apply sat_bind. eapply sat_mono; [apply index_swap_loop_checked; lia|].
  intros r3 ext3 w3 Hp3 H3. rewrite ?app_nil_l.
  assert (accepts step Ready (ext1 ++ ext2 ++ ext3) (either Ready After)) as H123.
  { rewrite app_assoc. eapply accepts_app; [exact H12 | exact H3]. }
  destruct r3 as [?|[]]; [by split|].
  assert (privateKeys w3 = privateKeys w) as Ek
    by (by rewrite (pg_keys _ _ _ Hp3), (pg_keys _ _ _ Hp2), (pg_keys _ _ _ Hp1)).
  apply sat_bind, sat_get. cbv beta iota zeta. rewrite ?app_nil_l.
  apply sat_when.
  - intros Hc. apply sat_bind, index_sat_log. cbv beta iota zeta.
    eapply sat_mono; [apply index_sat_sleep|].
    intros r4 ext4 w4 Hp4 H4. rewrite ?app_nil_l.
    assert (accepts step Ready (ext1 ++ ext2 ++ ext3 ++ ext4) Ready) as H1234.
    { replace (ext1 ++ ext2 ++ ext3 ++ ext4)%list
        with ((ext1 ++ ext2 ++ ext3) ++ ext4)%list by (by rewrite <- !app_assoc).
      eapply accepts_app; [exact H123|].
      eapply (accepts_timer step Ready After lo step_click step_timer); [|exact H4]. lia. }
    split; [|done]. eapply accepts_weaken; [| |exact H1234]; [done | by left].
  - intros Hc. rewrite ?app_nil_r. split; [done|].
    intros _ Hlt. apply Z.ltb_ge in Hc. rewrite Ek in Hc. lia.
Qed.

Lemma index_account_loop_checked wa fuel i w :
  (length (privateKeys w) - i ≤ fuel)%nat →
  sat (for_loop fuel (λ i w, (i <? length (privateKeys w))%nat && negb (shouldStop w))
         (Index.processAccount wa) i) w
    (λ _ ext _, accepts step Ready ext (either Ready After)).
Proof.
  intros Hfuel. eapply sat_mono.
  - apply (sat_for_loop
             (loop_checked step Ready After
                (λ i w, (i <? length (privateKeys w))%nat && negb (shouldStop w)))
             (λ _, True) (λ w, length (privateKeys w))); try done.
    + intros w0 ext w' Hp. by rewrite (pg_keys _ _ _ Hp).
    + intros i0 w0 [H _]%andb_prop. by apply Nat.ltb_lt in H.
    + intros i0 w0 _ Hc. split; [|done]. apply accepts_nil. by left.
    + intros i0 w0 _ Hc. eapply sat_mono; [apply index_account_checked|].
      intros r1 ext1 w1 Hp1 [Hm Hr]. destruct r1 as [e|[]].
      { split; [done | congruence]. }
      intros r2 ext2 w2 Hp2 [H2 Hnil]. split; [|congruence].
      destruct ((i0 + 1 <? length (privateKeys w1))%nat && negb (shouldStop w1)) eqn:Hc1.
      * apply andb_prop in Hc1 as [Hlt _]. apply Nat.ltb_lt in Hlt.
        rewrite (pg_keys _ _ _ Hp1) in Hlt.
        eapply accepts_app; [by apply Hr | exact H2].
      * rewrite (Hnil eq_refl), app_nil_r. exact Hm.
  - by intros r ext w' _ [H _].
Qed.

(** A run of index.js, whatever state it is started in. *)
Lemma index_run_checked wa w :
  ends_with (Index.runDailyActivityLoop wa) w (λ ext,
    accepts step Ready ext (either Ready After) ∧ winds_down 65000 ext).
Proof.
  assert (accepts step Ready [] (either Ready After) ∧ winds_down 65000 []) as Hnil.
  { split; [apply accepts_nil; by left | by split]. }
  unfold ends_with, Index.runDailyActivityLoop.
  cbv beta iota delta [mbind M_bind bind get modify Index.log try_finally try_catch].
  destruct (privateKeys w) as [|k keys] eqn:Ek.
  { simpl. exists []. by rewrite app_nil_r. }
  change (length (k :: keys) =? 0)%nat with false. cbv iota.
  destruct (activityRunning w) eqn:Hr.
  { simpl. exists []. by rewrite app_nil_r. }
  set (w1 := Index.addLog "Starting activity loop" success
               (set_shouldStop false (set_activityRunning true w))).
  assert (length (privateKeys w1) - 0 ≤ length (k :: keys))%nat as Hfuel
    by (subst w1; simpl; rewrite Ek; simpl; lia).
  pose proof (sat_conj _ _ _ _
                (index_account_loop_checked wa (length (k :: keys)) 0 w1 Hfuel)
                (index_account_loop_winds wa (length (k :: keys)) 0 w1 eq_refl Hfuel)) as Hl.
  unfold sat in Hl.
  destruct (for_loop _ _ _ _ w1) as [[] w2|e w2|]; [| |done].
  - destruct Hl as (ext & Hp & Ha & _ & Hw & _).
    exists ext. split; [|done]. simpl. by rewrite (pg_trace _ _ _ Hp).
  - destruct Hl as (ext & Hp & Ha & _ & Hw & _).
    exists ext. split; [|done]. simpl. by rewrite (pg_trace _ _ _ Hp).
Qed.
End CheckedIndex.

Section CheckedUniversal.
Context {St : Type}.
Variable step : St → Event → option St.
Variables Ready After : St → Prop.
Variable lo : Z.

Hypothesis step_click : ∀ s a, step s (Clicked a) = Some s.
Hypothesis step_timer : ∀ s ms, lo ≤ ms → Ready s ∨ After s →
  ∃ s', step s (Slept ms) = Some s' ∧ Ready s'.
Hypothesis lo_gap : lo ≤ 8000.
Hypothesis bridge_checked : ∀ wa pk proxyUrl i w,
  sat (Universal.performBridgeSimple wa pk proxyUrl i) w (λ _ ext _, accepts step Ready ext After).
Hypothesis swap_checked : ∀ wa pk proxyUrl i w,
  sat (Universal.performSwapSimple wa pk proxyUrl i) w (λ _ ext _, accepts step Ready ext After).

Lemma universal_bridge_loop_checked wa pk proxyUrl i fuel w :
  (Z.to_nat (Universal.bridgeCount w) ≤ fuel)%nat →
  sat (for_loop fuel
         (λ b w, (Z.of_nat b <? Universal.bridgeCount w) && negb (shouldStop w))
         (λ b, _ ← Universal.performBridgeSimple wa pk proxyUrl i;
               w ← get;
               when (Z.of_nat b <? bridgeRepetitions (dailyActivityConfig w) - 1)
                 (Universal.sleepRandom 8000 20000))
         0%nat) w
    (λ _ ext _, accepts step Ready ext (either Ready After)).
Proof.
  intros Hfuel. eapply sat_mono.
  - apply (inner_loop_checked step Ready After lo step_click step_timer
             (Universal.performBridgeSimple wa pk proxyUrl i)
             (Universal.sleepRandom 8000 20000) Universal.bridgeCount
             (λ w, bridgeRepetitions (dailyActivityConfig w))); try done; try lia.
    all: first [ intros w0 ext w' Hp; by rewrite (pg_config _ _ _ Hp)
               | intros w0; by apply universal_sat_sleepRandom ].
  - by intros r ext w' _ [H _].
Qed.

Lemma universal_swap_loop_checked wa pk proxyUrl i fuel w :
  (Z.to_nat (Universal.swapCount w) ≤ fuel)%nat →
  sat (for_loop fuel
         (λ s w, (Z.of_nat s <? Universal.swapCount w) && negb (shouldStop w))
         (λ s, _ ← Universal.performSwapSimple wa pk proxyUrl i;
               w ← get;
               when (Z.of_nat s <? swapRepetitions (dailyActivityConfig w) - 1)
                 (Universal.sleepRandom 8000 20000))
         0%nat) w
    (λ _ ext _, accepts step Ready ext (either Ready After)).
Proof.
  intros Hfuel. eapply sat_mono.
  - apply (inner_loop_checked step Ready After lo step_click step_timer
             (Universal.performSwapSimple wa pk proxyUrl i)
             (Universal.sleepRandom 8000 20000) Universal.swapCount
             (λ w, swapRepetitions (dailyActivityConfig w))); try done; try lia.
    all: first [ intros w0 ext w' Hp; by rewrite (pg_config _ _ _ Hp)
               | intros w0; by apply universal_sat_sleepRandom ].
  - by intros r ext w' _ [H _].
Qed.

Lemma universal_account_checked wa i w :
  sat (Universal.processAccount wa i) w (account_checked step Ready After i w).
Proof.
  unfold Universal.processAccount, account_checked.
  apply sat_bind, sat_get. cbv beta iota zeta.
  apply sat_bind, universal_sat_log. cbv beta iota zeta.
  apply sat_bind. eapply sat_mono; [by apply universal_bridge_loop_checked|].
  intros r1 ext1 w1 Hp1 H1. rewrite ?app_nil_l.
  destruct r1 as [?|[]]; [by split|].
  apply sat_bind. eapply sat_mono; [apply universal_sat_sleepRandom; lia|].
  intros r2 ext2 w2 Hp2 H2.
  assert (accepts step Ready (ext1 ++ ext2) Ready) as H12.
  { eapply accepts_app; [exact H1|].
    by eapply (accepts_timer step Ready After lo step_click step_timer). }
  destruct r2 as [?|[]].
  { split; [|done]. eapply accepts_weaken; [| |exact H12]; [done | by left]. }
  apply sat_bind, sat_get. cbv beta iota zeta.
  apply sat_bind. eapply sat_mono; [apply universal_swap_loop_checked; lia|].
  intros r3 ext3 w3 Hp3 H3. rewrite ?app_nil_l.
  assert (accepts step Ready (ext1 ++ ext2 ++ ext3) (either Ready After)) as H123.
  { rewrite app_assoc. eapply accepts_app; [exact H12 | exact H3]. }
  destruct r3 as [?|[]]; [by split|].
  assert (privateKeys w3 = privateKeys w) as Ek
    by (by rewrite (pg_keys _ _ _ Hp3), (pg_keys _ _ _ Hp2), (pg_keys _ _ _ Hp1)).
  apply sat_bind, sat_get. cbv beta iota zeta. rewrite ?app_nil_l.
  apply sat_when.
  - intros Hc. apply sat_bind, universal_sat_log. cbv beta iota zeta.
    eapply sat_mono; [apply universal_sat_sleep|].
    intros r4 ext4 w4 Hp4 H4. rewrite ?app_nil_l.
    assert (accepts step Ready (ext1 ++ ext2 ++ ext3 ++ ext4) Ready) as H1234.
    { replace (ext1 ++ ext2 ++ ext3 ++ ext4)%list
        with ((ext1 ++ ext2 ++ ext3) ++ ext4)%list by (by rewrite <- !app_assoc).
      eapply accepts_app; [exact H123|].
      eapply (accepts_timer step Ready After lo step_click step_timer); [|exact H4]. lia. }
    split; [|done]. eapply accepts_weaken; [| |exact H1234]; [done | by left].
  - intros Hc. rewrite ?app_nil_r. split; [done|].
    intros _ Hlt. apply Z.ltb_ge in Hc. rewrite Ek in Hc. lia.
Qed.

Lemma universal_account_loop_checked wa fuel i w :
  (length (privateKeys w) - i ≤ fuel)%nat →
  sat (for_loop fuel (λ i w, (i <? length (privateKeys w))%nat && negb (shouldStop w))
         (Universal.processAccount wa) i) w
    (λ _ ext _, accepts step Ready ext (either Ready After)).
Proof.
  intros Hfuel. eapply sat_mono.
  - apply (sat_for_loop
             (loop_checked step Ready After
                (λ i w, (i <? length (privateKeys w))%nat && negb (shouldStop w)))
             (λ _, True) (λ w, length (privateKeys w))); try done.
    + intros w0 ext w' Hp. by rewrite (pg_keys _ _ _ Hp).
    + intros i0 w0 [H _]%andb_prop. by apply Nat.ltb_lt in H.
    + intros i0 w0 _ Hc. split; [|done]. apply accepts_nil. by left.
    + intros i0 w0 _ Hc. eapply sat_mono; [apply universal_account_checked|].
      intros r1 ext1 w1 Hp1 [Hm Hr]. destruct r1 as [e|[]].
      { split; [done | congruence]. }
      intros r2 ext2 w2 Hp2 [H2 Hnil]. split; [|congruence].
      destruct ((i0 + 1 <? length (privateKeys w1))%nat && negb (shouldStop w1)) eqn:Hc1.
      * apply andb_prop in Hc1 as [Hlt _]. apply Nat.ltb_lt in Hlt.
        rewrite (pg_keys _ _ _ Hp1) in Hlt.
        eapply accepts_app; [by apply Hr | exact H2].
      * rewrite (Hnil eq_refl), app_nil_r. exact Hm.
  - by intros r ext w' _ [H _].
Qed.

(** A run of the universal file, whatever state it is started in. *)
Lemma universal_run_checked wa w :
  ends_with (Universal.runDailyActivityLoop wa) w (λ ext,
    accepts step Ready ext (either Ready After) ∧ winds_down 65000 ext).
Proof.
  assert (accepts step Ready [] (either Ready After) ∧ winds_down 65000 []) as Hnil.
  { split; [apply accepts_nil; by left | by split]. }
  unfold ends_with, Universal.runDailyActivityLoop.
  cbv beta iota delta [mbind M_bind bind get modify Universal.log].
  destruct (privateKeys w) as [|k keys] eqn:Ek.
  { simpl. exists []. by rewrite app_nil_r. }
  change (length (k :: keys) =? 0)%nat with false.
  cbv beta iota delta [mbind M_bind bind get modify Universal.log].
  set (w1 := Universal.addLog "Starting daily activity loop" success
               (set_shouldStop false (set_activityRunning true w))).
  assert (length (privateKeys w1) - 0 ≤ length (k :: keys))%nat as Hfuel
    by (subst w1; simpl; rewrite Ek; simpl; lia).
  pose proof (sat_conj _ _ _ _
                (universal_account_loop_checked wa (length (k :: keys)) 0 w1 Hfuel)
                (universal_account_loop_winds wa (length (k :: keys)) 0 w1 eq_refl Hfuel))
    as Hl.
  unfold sat in Hl.
  destruct (for_loop _ _ _ _ w1) as [[] w2|e w2|]; [| |done].
  - destruct Hl as (ext & Hp & Ha & _ & Hw & _).
    exists ext. split; [|done]. simpl. by rewrite (pg_trace _ _ _ Hp).
  - destruct Hl as (ext & Hp & Ha & _ & Hw & _).
    exists ext. split; [|done]. simpl. by rewrite (pg_trace _ _ _ Hp).
Qed.
End CheckedUniversal.

(** ** The pause between two executor calls *)

Lemma pace_inner lo (rest : list Event) (s : bool) :
  Forall inner_event rest → run_on (pace_step lo) s rest = Some s.
Proof.
  induction 1 as [|e rest [Hc Hs] _ IH]; [done|].
  simpl. destruct e; try discriminate; exact IH.
Qed.

Lemma pace_executor lo entry amt (r : string + bool) (ext : list Event) (w' : World) :
  is_call entry = true → executor_post entry amt r ext w' →
  accepts (pace_step lo) (λ s, s = true) ext (λ _, True).
Proof.
  intros He (_ & rest & -> & Hin & _) s ->. exists false. split; [|done].
  simpl. destruct entry; try discriminate He; simpl; by apply pace_inner.
Qed.

Lemma pace_click lo s a : pace_step lo s (Clicked a) = Some s.
Proof. done. Qed.

Lemma pace_timer lo s ms :
  lo ≤ ms → (s = true ∨ True) → ∃ s', pace_step lo s (Slept ms) = Some s' ∧ s' = true.
Proof.
  intros Hms _. exists true. split; [|done]. simpl.
  destruct (Z.leb_spec lo ms); [|lia]. by rewrite orb_true_r.
Qed.

(** From a state in which no call is allowed, a trace leads to one in
    which a call is allowed only through a long enough timer. *)
Lemma pace_needs_timer lo (mid : list Event) :
  run_on (pace_step lo) false mid = Some true → ∃ ms, Slept ms ∈ mid ∧ lo ≤ ms.
Proof.
  induction mid as [|e mid IH]; [done|]. simpl.
  destruct e as [| | |ms|]; simpl; try done.
  - intros H. destruct (IH H) as (ms & Hin & Hms). exists ms. split; [by right | done].
  - destruct (Z.leb_spec lo ms) as [Hle|Hgt].
    + intros _. exists ms. split; [by left | done].
    + intros H. destruct (IH H) as (ms' & Hin & Hms). exists ms'. split; [by right | done].
  - intros H. destruct (IH H) as (ms & Hin & Hms). exists ms. split; [by right | done].
Qed.

Lemma paced_spec lo (ext : list Event) (Q : bool → Prop) :
  accepts (pace_step lo) (λ s, s = true) ext Q →
  ∀ pre e1 mid e2 post,
    ext = (pre ++ e1 :: mid ++ e2 :: post)%list →
    is_call e1 = true → is_call e2 = true →
    ∃ ms, Slept ms ∈ mid ∧ lo ≤ ms.
Proof.
  intros Ha pre e1 mid e2 post -> H1 H2.
  destruct (Ha true eq_refl) as (s' & Hrun & _).
  rewrite run_on_app in Hrun.
  destruct (run_on (pace_step lo) true pre) as [s1|]; [|done].
  simpl in Hrun.
  assert (pace_step lo s1 e1 = Some false ∨ pace_step lo s1 e1 = None) as [E|E]
    by (destruct e1, s1; try discriminate H1; simpl; auto).
  2: { by rewrite E in Hrun. }
  rewrite E, run_on_app in Hrun.
  destruct (run_on (pace_step lo) false mid) as [[]|] eqn:Hmid; [| |done].
  - by apply pace_needs_timer.
  - simpl in Hrun. destruct e2; try discriminate H2; done.
Qed.

Lemma executors_paced lo wa pk proxyUrl i w :
  sat (Index.performBridgeSimple wa pk proxyUrl i) w
    (λ _ ext _, accepts (pace_step lo) (λ s, s = true) ext (λ _, True))
  ∧ sat (Index.performSwapSimple wa pk proxyUrl i) w
      (λ _ ext _, accepts (pace_step lo) (λ s, s = true) ext (λ _, True))
  ∧ sat (Universal.performBridgeSimple wa pk proxyUrl i) w
      (λ _ ext _, accepts (pace_step lo) (λ s, s = true) ext (λ _, True))
  ∧ sat (Universal.performSwapSimple wa pk proxyUrl i) w
      (λ _ ext _, accepts (pace_step lo) (λ s, s = true) ext (λ _, True)).
Proof.
  repeat split.
  - eapply sat_mono; [apply index_bridge_spec|].
    intros r ext w' _ H. eapply pace_executor; [|exact H]. done.
  - eapply sat_mono; [apply index_swap_spec|].
    intros r ext w' _ H. eapply pace_executor; [|exact H]. done.
  - eapply sat_mono; [apply universal_bridge_spec|].
    intros r ext w' _ H. eapply pace_executor; [|exact H]. done.
  - eapply sat_mono; [apply universal_swap_spec|].
    intros r ext w' _ H. eapply pace_executor; [|exact H]. done.
Qed.

(** Two executor calls of a run are never back to back.  In every run of
    either file, whatever state it starts in, whatever the chain answers and
    whatever the user selects meanwhile, between any two executor calls a
    timer of at least 7 seconds (index.js) or 8 seconds (universal file) is
    started. *)
Theorem runner_paces_executor_calls (walletAddress : string → option string) (w : World) :
  ends_with (Index.runDailyActivityLoop walletAddress) w (λ ext,
    ∀ pre e1 mid e2 post,
      ext = (pre ++ e1 :: mid ++ e2 :: post)%list →
      is_call e1 = true → is_call e2 = true →
      ∃ ms, Slept ms ∈ mid ∧ 7000 ≤ ms)
  ∧ ends_with (Universal.runDailyActivityLoop walletAddress) w (λ ext,
      ∀ pre e1 mid e2 post,
        ext = (pre ++ e1 :: mid ++ e2 :: post)%list →
        is_call e1 = true → is_call e2 = true →
        ∃ ms, Slept ms ∈ mid ∧ 8000 ≤ ms).
Proof.
  split.
  - pose proof (index_run_checked (pace_step 7000) (λ s, s = true) (λ _, True) 7000
                  (pace_click 7000) (pace_timer 7000) ltac:(lia)
                  (λ wa pk proxyUrl i w0, proj1 (executors_paced 7000 wa pk proxyUrl i w0))
                  (λ wa pk proxyUrl i w0,
                     proj1 (proj2 (executors_paced 7000 wa pk proxyUrl i w0)))
                  walletAddress w) as H.
    unfold ends_with in *.
    destruct (Index.runDailyActivityLoop walletAddress w) as [a w'|e w'|]; [| |done];
      destruct H as (ext & Ht & Ha & _); exists ext; (split; [done|]);
      by eapply paced_spec.
  - pose proof (universal_run_checked (pace_step 8000) (λ s, s = true) (λ _, True) 8000
                  (pace_click 8000) (pace_timer 8000) ltac:(lia)
                  (λ wa pk proxyUrl i w0,
                     proj1 (proj2 (proj2 (executors_paced 8000 wa pk proxyUrl i w0))))
                  (λ wa pk proxyUrl i w0,
                     proj2 (proj2 (proj2 (executors_paced 8000 wa pk proxyUrl i w0))))
                  walletAddress w) as H.
    unfold ends_with in *.
    destruct (Universal.runDailyActivityLoop walletAddress w) as [a w'|e w'|]; [| |done];
      destruct H as (ext & Ht & Ha & _); exists ext; (split; [done|]);
      by eapply paced_spec.
Qed.

(** ** The transactions of a run *)

Lemma budget_inner (rest : list Event) (n : nat) :
  Forall inner_event rest → (length (sends rest) ≤ n)%nat →
  ∃ n', run_on budget_step n rest = Some n'.
Proof.
  intros H. revert n. induction H as [|e rest [Hc Hs] _ IH]; intros n Hn; [by eexists|].
  destruct e; try discriminate; simpl in *; try by apply IH.
  destruct n as [|n]; [lia|]. apply IH. lia.
Qed.

Lemma bridge_txs_length a amt (txs : list Event) :
  bridge_txs a amt txs → (length txs ≤ 2)%nat.
Proof. destruct 1; simpl; lia. Qed.

Lemma swap_txs_length a amt now (txs : list Event) :
  swap_txs a amt now txs → (length txs ≤ 1)%nat.
Proof. destruct 1; simpl; lia. Qed.

Lemma budget_bridge wa pk proxyUrl i amt amt' (r : string + bool) (ext : list Event)
    (w' : World) :
  executor_post (CallBridge pk proxyUrl i) amt r ext w' →
  bridge_sends wa pk proxyUrl i amt' r ext w' →
  accepts budget_step (λ _, True) ext (λ _, True).
Proof.
  intros (_ & rest & -> & Hin & _) (ok & rest' & _ & [= <-] & Htx & _) s _.
  simpl. destruct (budget_inner rest 2 Hin) as [n' Hn']; [|by exists n'].
  destruct (pk ≫= wa).
  - by eapply bridge_txs_length.
  - destruct Htx as [-> _]. simpl. lia.
Qed.

Lemma budget_swap wa pk proxyUrl i amt amt' now (r : string + bool) (ext : list Event)
    (w' : World) :
  executor_post (CallSwap pk proxyUrl i) amt r ext w' →
  swap_sends wa pk proxyUrl i amt' now r ext w' →
  accepts budget_step (λ _, True) ext (λ _, True).
Proof.
  intros (_ & rest & -> & Hin & _) (ok & rest' & _ & [= <-] & Htx & _) s _.
  simpl. destruct (budget_inner rest 1 Hin) as [n' Hn']; [|by exists n'].
  destruct (pk ≫= wa).
  - by eapply swap_txs_length.
  - destruct Htx as [-> _]. simpl. lia.
Qed.

Lemma executors_budgeted wa pk proxyUrl i w :
  sat (Index.performBridgeSimple wa pk proxyUrl i) w
    (λ _ ext _, accepts budget_step (λ _, True) ext (λ _, True))
  ∧ sat (Index.performSwapSimple wa pk proxyUrl i) w
      (λ _ ext _, accepts budget_step (λ _, True) ext (λ _, True))
  ∧ sat (Universal.performBridgeSimple wa pk proxyUrl i) w
      (λ _ ext _, accepts budget_step (λ _, True) ext (λ _, True))
  ∧ sat (Universal.performSwapSimple wa pk proxyUrl i) w
      (λ _ ext _, accepts budget_step (λ _, True) ext (λ _, True)).
Proof.
  repeat split.
  - eapply sat_mono;
      [apply (sat_conj _ _ _ _ (index_bridge_spec wa pk proxyUrl i w)
                (index_bridge_sends wa pk proxyUrl i w))|].
    intros r ext w' _ [H1 H2]. by eapply budget_bridge.
  - eapply sat_mono;
      [apply (sat_conj _ _ _ _ (index_swap_spec wa pk proxyUrl i w)
                (index_swap_sends wa pk proxyUrl i w))|].
    intros r ext w' _ [H1 H2]. by eapply budget_swap.
  - eapply sat_mono;
      [apply (sat_conj _ _ _ _ (universal_bridge_spec wa pk proxyUrl i w)
                (universal_bridge_sends wa pk proxyUrl i w))|].
    intros r ext w' _ [H1 H2]. by eapply budget_bridge.
  - eapply sat_mono;
      [apply (sat_conj _ _ _ _ (universal_swap_spec wa pk proxyUrl i w)
                (universal_swap_sends wa pk proxyUrl i w))|].
    intros r ext w' _ [H1 H2]. by eapply budget_swap.
Qed.

Lemma budget_click s a : budget_step s (Clicked a) = Some s.
Proof. done. Qed.

Lemma budget_timer (s : nat) ms :
  0 ≤ ms → (True ∨ True) → ∃ s', budget_step s (Slept ms) = Some s' ∧ True.
Proof. intros _ _. by exists s. Qed.

(** An accepted trace sends at most two transactions per bridge call and
    one per swap call, beyond the budget it started with. *)
Lemma budget_total (ext : list Event) : ∀ n n',
  run_on budget_step n ext = Some n' →
  (length (sends ext) + n'
   ≤ n + 2 * length (List.filter is_bridge_call ext)
     + length (List.filter is_swap_call ext))%nat.
Proof.
  induction ext as [|e ext IH]; intros n n' H; simpl in H.
  - injection H as <-. simpl. lia.
  - destruct e; simpl in *; try (apply IH in H; lia).
    destruct n as [|n]; [done|]. apply IH in H. lia.
Qed.

(** The budget never exceeds 2 once it is at most 2. *)
Lemma budget_bounded (ext : list Event) : ∀ n n',
  run_on budget_step n ext = Some n' → (n ≤ 2)%nat → (n' ≤ 2)%nat.
Proof.
  induction ext as [|e ext IH]; intros n n' H Hn; simpl in H.
  - by injection H as <-.
  - destruct e; simpl in *; try (eapply IH; [exact H | lia]).
    destruct n as [|n]; [done|]. eapply IH; [exact H | lia].
Qed.

Lemma budget_after_stop (ext : list Event) n' :
  run_on budget_step 0%nat ext = Some n' → calls (after_stop ext) = [] →
  (length (sends (after_stop ext)) ≤ 2)%nat.
Proof.
  intros Hrun Hc. destruct (after_stop_suffix ext) as [pre E].
  rewrite E, run_on_app in Hrun.
  destruct (run_on budget_step 0%nat pre) as [n1|] eqn:Hpre; [|done].
  pose proof (budget_bounded _ _ _ Hpre ltac:(lia)) as Hn1.
  pose proof (budget_total _ _ _ Hrun) as Ht.
  assert (List.filter is_bridge_call (after_stop ext) = []
          ∧ List.filter is_swap_call (after_stop ext) = []) as [Eb Es].
  { clear -Hc. induction (after_stop ext) as [|e l IH]; [done|].
    unfold calls in Hc. simpl in *. destruct e; simpl in *; try discriminate Hc; auto. }
  rewrite Eb, Es in Ht. simpl in Ht. lia.
Qed.

(** With nothing to spend and no call, nothing is sent. *)
Lemma budget_needs_call (pre : list Event) : ∀ n',
  run_on budget_step 0%nat pre = Some n' →
  n' = 0%nat ∨ ∃ c, c ∈ pre ∧ is_call c = true.
Proof.
  induction pre as [|e pre IH] using rev_ind; intros n' H.
  - left. simpl in H. by injection H as <-.
  - rewrite run_on_app in H.
    destruct (run_on budget_step 0%nat pre) as [n1|] eqn:Hpre; [|done].
    destruct (IH n1 eq_refl) as [->|(c & Hc & Hcall)].
    + simpl in H. destruct e; simpl in H; try done;
        try (injection H as <-; by left);
        right;
        match goal with |- ∃ c, c ∈ (_ ++ [?e])%list ∧ _ => exists e end;
        (split; [apply elem_of_app; right; by left | done]).
    + right. exists c. split; [|done]. apply elem_of_app. by left.
Qed.

Lemma budget_send_after_call (ext : list Event) n' :
  run_on budget_step 0%nat ext = Some n' →
  ∀ pre e post, ext = (pre ++ e :: post)%list → is_send e = true →
                ∃ c, c ∈ pre ∧ is_call c = true.
Proof.
  intros Hrun pre e post -> He. rewrite run_on_app in Hrun.
  destruct (run_on budget_step 0%nat pre) as [n1|] eqn:Hpre; [|done].
  destruct (budget_needs_call pre n1 Hpre) as [->|H]; [|done].
  simpl in Hrun. destruct e; try discriminate He. done.
Qed.

(** The transactions of a run, in both files and for every run.  No more
    than two transactions are sent per bridge call and one per swap call, and
    none before the first executor call.  After a stop request at most two
    more transactions are sent: those of the call that was under way. *)
Theorem runner_transactions_bounded (walletAddress : string → option string) (w : World) :
  ends_with (Index.runDailyActivityLoop walletAddress) w (λ ext,
    (length (sends ext)
     ≤ 2 * length (List.filter is_bridge_call ext)
       + length (List.filter is_swap_call ext))%nat
    ∧ (length (sends (after_stop ext)) ≤ 2)%nat
    ∧ ∀ pre e post, ext = (pre ++ e :: post)%list → is_send e = true →
                    ∃ c, c ∈ pre ∧ is_call c = true)
  ∧ ends_with (Universal.runDailyActivityLoop walletAddress) w (λ ext,
      (length (sends ext)
       ≤ 2 * length (List.filter is_bridge_call ext)
         + length (List.filter is_swap_call ext))%nat
      ∧ (length (sends (after_stop ext)) ≤ 2)%nat
      ∧ ∀ pre e post, ext = (pre ++ e :: post)%list → is_send e = true →
                      ∃ c, c ∈ pre ∧ is_call c = true).
Proof.
  split.
  - pose proof (index_run_checked budget_step (λ _, True) (λ _, True) 0
                  budget_click budget_timer ltac:(lia)
                  (λ wa pk proxyUrl i w0, proj1 (executors_budgeted wa pk proxyUrl i w0))
                  (λ wa pk proxyUrl i w0,
                     proj1 (proj2 (executors_budgeted wa pk proxyUrl i w0)))
                  walletAddress w) as H.
    unfold ends_with in *.
    destruct (Index.runDailyActivityLoop walletAddress w) as [a w'|e w'|]; [| |done];
      destruct H as (ext & Ht & Ha & Hw & _); exists ext; (split; [done|]);
      destruct (Ha 0%nat I) as (n' & Hrun & _);
      (split; [pose proof (budget_total _ _ _ Hrun); lia|]);
      (split; [by eapply budget_after_stop | by eapply budget_send_after_call]).
  - pose proof (universal_run_checked budget_step (λ _, True) (λ _, True) 0
                  budget_click budget_timer ltac:(lia)
                  (λ wa pk proxyUrl i w0,
                     proj1 (proj2 (proj2 (executors_budgeted wa pk proxyUrl i w0))))
                  (λ wa pk proxyUrl i w0,
                     proj2 (proj2 (proj2 (executors_budgeted wa pk proxyUrl i w0))))
                  walletAddress w) as H.
    unfold ends_with in *.
    destruct (Universal.runDailyActivityLoop walletAddress w) as [a w'|e w'|]; [| |done];
      destruct H as (ext & Ht & Ha & Hw & _); exists ext; (split; [done|]);
      destruct (Ha 0%nat I) as (n' & Hrun & _);
      (split; [pose proof (budget_total _ _ _ Hrun); lia|]);
      (split; [by eapply budget_after_stop | by eapply budget_send_after_call]).
Qed.

(** ** How long an uninterrupted run sleeps *)

Lemma sleeps_executor entry amt (r : string + bool) (ext : list Event) (w' : World) :
  is_call entry = true → executor_post entry amt r ext w' → sleeps ext = 0.
Proof.
  intros He (_ & rest & -> & Hin & _). apply inner_quiet in Hin as [_ Hs].
  simpl. rewrite Hs. by destruct entry.
Qed.

Lemma sleeps_timer w lo hi r (ext : list Event) (w' : World) :
  timer_post w lo hi r ext w' → lo ≤ sleeps ext ≤ hi.
Proof.
  intros (_ & _ & ms & cl & Hms & -> & Hcl). apply clicks_quiet in Hcl as [_ Hs].
  simpl. rewrite Hs. lia.
Qed.

Section RepeatTime.
Variable exec : M bool.
Variable sleepR : M unit.
Variable count reps : World → Z.
Variable entry : Event.

Hypothesis count_reps : ∀ w, count w = JS.or_one (JS.Num (reps w)).
Hypothesis reps_stable : ∀ w ext w', progress w ext w' → reps w' = reps w.
Hypothesis entry_call : is_call entry = true.
Hypothesis exec_spec : ∀ w, ∃ amt, sat exec w (executor_post entry amt).
Hypothesis sleep_spec : ∀ w, sat sleepR w (timer_post w 8000 20000).

Lemma inner_loop_time fuel b w :
  quiet w → (Z.to_nat (count w) - b ≤ fuel)%nat →
  sat (for_loop fuel (repeat_cond count) (repeat_body exec reps sleepR) b) w
    (sleeps_within (8000 * Z.max 0 (reps w - 1 - Z.of_nat b))
                   (20000 * Z.max 0 (reps w - 1 - Z.of_nat b))).
Proof.
  apply (sat_for_loop
           (λ b w, sleeps_within (8000 * Z.max 0 (reps w - 1 - Z.of_nat b))
                                 (20000 * Z.max 0 (reps w - 1 - Z.of_nat b)))
           quiet (λ w, Z.to_nat (count w))).
  - apply quiet_stable.
  - intros w0 ext w' Hp. by rewrite !count_reps, (reps_stable _ _ _ Hp).
  - intros b0 w0 [H _]%andb_prop. apply Z.ltb_lt in H. lia.
  - intros b0 w0 (_ & _ & Hst) Hc. split; [done|].
    unfold repeat_cond in Hc. rewrite Hst, andb_true_r in Hc. apply Z.ltb_ge in Hc.
    rewrite count_reps in Hc. simpl in Hc |- *.
    destruct (Z.eqb_spec (reps w0) 0); lia.
  - intros b0 w0 Hq [Hlt _]%andb_prop. apply Z.ltb_lt in Hlt.
    rewrite count_reps in Hlt.
    unfold repeat_body. apply sat_bind.
    destruct (exec_spec w0) as [amt Hex].
    eapply sat_mono; [exact Hex|].
    intros r ext1 w1 Hp1 H1.
    pose proof (sleeps_executor _ _ _ _ _ entry_call H1) as Hs1.
    destruct H1 as ([ok ->] & _).
    pose proof (reps_stable _ _ _ Hp1) as Er1.
    apply sat_bind, sat_get, sat_when.
    + intros Hc%Z.ltb_lt. eapply sat_mono; [apply sleep_spec|].
      intros r ext2 w2 Hp2 Ht.
      pose proof (sleeps_timer _ _ _ _ _ _ Ht) as Hs2.
      destruct Ht as (_ & Hnf & _). rewrite Hnf.
      * intros r2 ext3 w3 Hp3 [-> Hs3]. split; [done|].
        rewrite (reps_stable _ _ _ Hp2), Er1 in Hs3.
        rewrite !sleeps_app, Hs1. simpl. lia.
      * rewrite (pg_env _ _ _ Hp1). apply Hq.
    + intros Hc%Z.ltb_ge r2 ext3 w3 Hp3 [-> Hs3]. split; [done|].
      rewrite Er1 in Hs3. rewrite !sleeps_app, Hs1. simpl. lia.
Qed.
End RepeatTime.

Lemma index_bridge_loop_time wa pk proxyUrl i fuel w :
  quiet w → (Z.to_nat (Index.bridgeCount w) ≤ fuel)%nat →
  sat (for_loop fuel
         (λ b w, (Z.of_nat b <? Index.bridgeCount w) && negb (shouldStop w))
         (λ b, _ ← Index.performBridgeSimple wa pk proxyUrl i;
               w ← get;
               when (Z.of_nat b <? bridgeRepetitions (dailyActivityConfig w) - 1)
                 (Index.sleepRandom 8000 20000))
         0%nat) w
    (sleeps_within (8000 * pauses (bridgeRepetitions (dailyActivityConfig w)))
                   (20000 * pauses (bridgeRepetitions (dailyActivityConfig w)))).
Proof.
  intros Hq Hfuel. eapply sat_mono.
  - apply (inner_loop_time (Index.performBridgeSimple wa pk proxyUrl i)
             (Index.sleepRandom 8000 20000) Index.bridgeCount
             (λ w, bridgeRepetitions (dailyActivityConfig w)) (CallBridge pk proxyUrl i));
      try done; try lia.
    all: first [ intros w0 ext w' Hp; by rewrite (pg_config _ _ _ Hp)
               | intros w0; eexists; apply index_bridge_spec
               | intros w0; by apply index_sat_sleepRandom ].
  - intros r ext w' _ [-> H]. split; [done|]. unfold pauses.
    by rewrite Z.sub_0_r in H.
Qed.

Lemma index_swap_loop_time wa pk proxyUrl i fuel w :
  quiet w → (Z.to_nat (Index.swapCount w) ≤ fuel)%nat →
  sat (for_loop fuel
         (λ s w, (Z.of_nat s <? Index.swapCount w) && negb (shouldStop w))
         (λ s, _ ← Index.performSwapSimple wa pk proxyUrl i;
               w ← get;
               when (Z.of_nat s <? swapRepetitions (dailyActivityConfig w) - 1)
                 (Index.sleepRandom 8000 20000))
         0%nat) w
    (sleeps_within (8000 * pauses (swapRepetitions (dailyActivityConfig w)))
                   (20000 * pauses (swapRepetitions (dailyActivityConfig w)))).
Proof.
  intros Hq Hfuel. eapply sat_mono.
  - apply (inner_loop_time (Index.performSwapSimple wa pk proxyUrl i)
             (Index.sleepRandom 8000 20000) Index.swapCount
             (λ w, swapRepetitions (dailyActivityConfig w)) (CallSwap pk proxyUrl i));
      try done; try lia.
    all: first [ intros w0 ext w' Hp; by rewrite (pg_config _ _ _ Hp)
               | intros w0; eexists; apply index_swap_spec
               | intros w0; by apply index_sat_sleepRandom ].
  - intros r ext w' _ [-> H]. split; [done|]. unfold pauses.
    by rewrite Z.sub_0_r in H.
Qed.

Lemma index_account_time wa i w :
  quiet w →
  sat (Index.processAccount wa i) w
    (sleeps_within
       (8000 * phase_pauses w + 7000
        + (if (i + 1 <? length (privateKeys w))%nat then 30000 else 0))
       (20000 * phase_pauses w + 15000
        + (if (i + 1 <? length (privateKeys w))%nat then 30000 else 0))).
Proof.
  intros Hq. unfold Index.processAccount, sleeps_within, phase_pauses.
  apply sat_bind, sat_get. cbv beta iota zeta.
  apply sat_bind, index_sat_log. cbv beta iota zeta.
  apply sat_bind. eapply sat_mono; [by apply index_bridge_loop_time|].
  intros r1 ext1 w1 Hp1 [-> H1]. cbn [dailyActivityConfig Index.addLog set_logs] in H1.
  pose proof (quiet_stable _ _ _ Hp1 Hq) as Hq1.
  apply sat_bind. eapply sat_mono; [apply index_sat_sleepRandom; lia|].
  intros r2 ext2 w2 Hp2 H2.
  pose proof (quiet_stable _ _ _ Hp2 Hq1) as Hq2.
  rewrite (timer_returns _ _ _ _ _ _ (proj1 (proj2 Hq1)) H2).
  apply sleeps_timer in H2.
  apply sat_bind, sat_get. cbv beta iota zeta.
  apply sat_bind. eapply sat_mono; [apply index_swap_loop_time; [done|lia]|].
  intros r3 ext3 w3 Hp3 [-> H3].
  pose proof (quiet_stable _ _ _ Hp3 Hq2) as Hq3.
  assert (dailyActivityConfig w2 = dailyActivityConfig w) as Ec
    by (by rewrite (pg_config _ _ _ Hp2), (pg_config _ _ _ Hp1)).
  rewrite Ec in H3.
  assert (privateKeys w3 = privateKeys w) as Ek
    by (by rewrite (pg_keys _ _ _ Hp3), (pg_keys _ _ _ Hp2), (pg_keys _ _ _ Hp1)).
  apply sat_bind, sat_get. cbv beta iota zeta.
  apply sat_when.
  - intros Hc%Z.ltb_lt. apply sat_bind, index_sat_log. cbv beta iota zeta.
    eapply sat_mono; [apply index_sat_sleep|].
    intros r4 ext4 w4 Hp4 H4.
    split; [apply (timer_returns (Index.addLog _ _ w3) _ _ _ _ _ (proj1 (proj2 Hq3)) H4)|].
    apply sleeps_timer in H4.
    rewrite Ek in Hc.
    destruct (Nat.ltb_spec (i + 1) (length (privateKeys w))); [|lia].
    rewrite ?app_nil_l, !sleeps_app. simpl. lia.
  - intros Hc%Z.ltb_ge. split; [done|].
    rewrite Ek in Hc.
    destruct (Nat.ltb_spec (i + 1) (length (privateKeys w))); [lia|].
    rewrite ?app_nil_l, ?app_nil_r, !sleeps_app. simpl. lia.
Qed.

Lemma phase_pauses_stable w ext w' : progress w ext w' → phase_pauses w' = phase_pauses w.
Proof. intros Hp. unfold phase_pauses. by rewrite (pg_config _ _ _ Hp). Qed.

Lemma index_account_loop_time wa fuel i w :
  quiet w → (length (privateKeys w) - i ≤ fuel)%nat →
  sat (for_loop fuel (λ i w, (i <? length (privateKeys w))%nat && negb (shouldStop w))
         (Index.processAccount wa) i) w
    (sleeps_within
       (Z.of_nat (length (privateKeys w) - i) * (8000 * phase_pauses w + 7000)
        + 30000 * Z.of_nat (length (privateKeys w) - 1 - i))
       (Z.of_nat (length (privateKeys w) - i) * (20000 * phase_pauses w + 15000)
        + 30000 * Z.of_nat (length (privateKeys w) - 1 - i))).
Proof.
  apply (sat_for_loop
           (λ i w, sleeps_within
              (Z.of_nat (length (privateKeys w) - i) * (8000 * phase_pauses w + 7000)
               + 30000 * Z.of_nat (length (privateKeys w) - 1 - i))
              (Z.of_nat (length (privateKeys w) - i) * (20000 * phase_pauses w + 15000)
               + 30000 * Z.of_nat (length (privateKeys w) - 1 - i)))
           quiet (λ w, length (privateKeys w))).
  - apply quiet_stable.
  - intros w0 ext w' Hp. by rewrite (pg_keys _ _ _ Hp).
  - intros i0 w0 [H _]%andb_prop. by apply Nat.ltb_lt in H.
  - intros i0 w0 (_ & _ & Hst) Hc. split; [done|].
    rewrite Hst, andb_true_r in Hc. apply Nat.ltb_ge in Hc.
    replace (length (privateKeys w0) - i0)%nat with 0%nat by lia.
    replace (length (privateKeys w0) - 1 - i0)%nat with 0%nat by lia.
    simpl. lia.
  - intros i0 w0 Hq [Hlt _]%andb_prop. apply Nat.ltb_lt in Hlt.
    eapply sat_mono; [by apply index_account_time|].
    intros r ext1 w1 Hp1 [-> H1] r2 ext2 w2 Hp2 [-> H2]. split; [done|].
    rewrite (pg_keys _ _ _ Hp1), (phase_pauses_stable _ _ _ Hp1) in H2.
    rewrite sleeps_app.
    generalize dependent (phase_pauses w0). intros P H1 H2.
    destruct (Nat.ltb_spec (i0 + 1) (length (privateKeys w0))) as [Hn|Hn].
    + replace (Z.of_nat (length (privateKeys w0) - i0))
        with (1 + Z.of_nat (length (privateKeys w0) - (i0 + 1))) by lia.
      replace (Z.of_nat (length (privateKeys w0) - 1 - i0))
        with (1 + Z.of_nat (length (privateKeys w0) - 1 - (i0 + 1))) by lia.
      lia.
    + replace (length (privateKeys w0) - i0)%nat with 1%nat by lia.
      replace (length (privateKeys w0) - 1 - i0)%nat with 0%nat by lia.
      replace (length (privateKeys w0) - (i0 + 1))%nat with 0%nat in H2 by lia.
      replace (length (privateKeys w0) - 1 - (i0 + 1))%nat with 0%nat in H2 by lia.
      simpl in H2 |- *. lia.
Qed.

(** An uninterrupted run of index.js from an idle state with keys loaded:
    the total time of its timers. *)
Lemma index_run_time wa w :
  privateKeys w ≠ [] → activityRunning w = false →
  no_stop (env w) → no_fault (env w) →
  ∃ w' ext, Index.runDailyActivityLoop wa w = Return tt w'
            ∧ trace w' = (trace w ++ ext)%list
            ∧ Z.of_nat (length (privateKeys w)) * (8000 * phase_pauses w + 7000)
              + 30000 * (Z.of_nat (length (privateKeys w)) - 1)
              ≤ sleeps ext
              ≤ Z.of_nat (length (privateKeys w)) * (20000 * phase_pauses w + 15000)
                + 30000 * (Z.of_nat (length (privateKeys w)) - 1).
Proof.
  intros Hk Hr Hns Hnf. unfold Index.runDailyActivityLoop.
  cbv beta iota delta [mbind M_bind bind get modify Index.log try_finally try_catch].
  destruct (privateKeys w) as [|k keys] eqn:Ek; [done|]. clear Hk.
  change (length (k :: keys) =? 0)%nat with false. cbv iota. rewrite Hr.
  pose proof (index_account_loop_time wa (length (k :: keys)) 0
                (Index.addLog "Starting activity loop" success
                   (set_shouldStop false (set_activityRunning true w)))) as Hl.
  unfold sat in Hl.
  destruct (for_loop _ _ _ _ _) as [[] w2|e w2|].
  - destruct Hl as (ext & Hp & _ & Hc); [done | simpl; rewrite Ek; simpl; lia|].
    eexists _, ext. split; [reflexivity|]. simpl in Hc |- *.
    rewrite (pg_trace _ _ _ Hp). split; [done|].
    rewrite Ek in Hc. unfold phase_pauses in *. simpl in Hc |- *.
    rewrite !Nat.sub_0_r in Hc. lia.
  - destruct Hl as (ext & Hp & [=] & _); [done | simpl; rewrite Ek; simpl; lia].
  - destruct Hl; [done | simpl; rewrite Ek; simpl; lia].
Qed.

Lemma universal_bridge_loop_time wa pk proxyUrl i fuel w :
  quiet w → (Z.to_nat (Universal.bridgeCount w) ≤ fuel)%nat →
  sat (for_loop fuel
         (λ b w, (Z.of_nat b <? Universal.bridgeCount w) && negb (shouldStop w))
         (λ b, _ ← Universal.performBridgeSimple wa pk proxyUrl i;
               w ← get;
               when (Z.of_nat b <? bridgeRepetitions (dailyActivityConfig w) - 1)
                 (Universal.sleepRandom 8000 20000))
         0%nat) w
    (sleeps_within (8000 * pauses (bridgeRepetitions (dailyActivityConfig w)))
                   (20000 * pauses (bridgeRepetitions (dailyActivityConfig w)))).
Proof.
  intros Hq Hfuel. eapply sat_mono.
  - apply (inner_loop_time (Universal.performBridgeSimple wa pk proxyUrl i)
             (Universal.sleepRandom 8000 20000) Universal.bridgeCount
             (λ w, bridgeRepetitions (dailyActivityConfig w)) (CallBridge pk proxyUrl i));
      try done; try lia.
    all: first [ intros w0 ext w' Hp; by rewrite (pg_config _ _ _ Hp)
               | intros w0; eexists; apply universal_bridge_spec
               | intros w0; by apply universal_sat_sleepRandom ].
  - intros r ext w' _ [-> H]. split; [done|]. unfold pauses.
    by rewrite Z.sub_0_r in H.
Qed.

Lemma universal_swap_loop_time wa pk proxyUrl i fuel w :
  quiet w → (Z.to_nat (Universal.swapCount w) ≤ fuel)%nat →
  sat (for_loop fuel
         (λ s w, (Z.of_nat s <? Universal.swapCount w) && negb (shouldStop w))
         (λ s, _ ← Universal.performSwapSimple wa pk proxyUrl i;
               w ← get;
               when (Z.of_nat s <? swapRepetitions (dailyActivityConfig w) - 1)
                 (Universal.sleepRandom 8000 20000))
         0%nat) w
    (sleeps_within (8000 * pauses (swapRepetitions (dailyActivityConfig w)))
                   (20000 * pauses (swapRepetitions (dailyActivityConfig w)))).
Proof.
  intros Hq Hfuel. eapply sat_mono.
  - apply (inner_loop_time (Universal.performSwapSimple wa pk proxyUrl i)
             (Universal.sleepRandom 8000 20000) Universal.swapCount
             (λ w, swapRepetitions (dailyActivityConfig w)) (CallSwap pk proxyUrl i));
      try done; try lia.
    all: first [ intros w0 ext w' Hp; by rewrite (pg_config _ _ _ Hp)
               | intros w0; eexists; apply universal_swap_spec
               | intros w0; by apply universal_sat_sleepRandom ].
  - intros r ext w' _ [-> H]. split; [done|]. unfold pauses.
    by rewrite Z.sub_0_r in H.
Qed.

Lemma universal_account_time wa i w :
  quiet w →
  sat (Universal.processAccount wa i) w
    (sleeps_within
       (8000 * phase_pauses w + 8000
        + (if (i + 1 <? length (privateKeys w))%nat then 30000 else 0))
       (20000 * phase_pauses w + 15000
        + (if (i + 1 <? length (privateKeys w))%nat then 30000 else 0))).
Proof.
  intros Hq. unfold Universal.processAccount, sleeps_within, phase_pauses.
  apply sat_bind, sat_get. cbv beta iota zeta.
  apply sat_bind, universal_sat_log. cbv beta iota zeta.
  apply sat_bind. eapply sat_mono; [by apply universal_bridge_loop_time|].
  intros r1 ext1 w1 Hp1 [-> H1]. cbn [dailyActivityConfig Universal.addLog set_logs] in H1.
  pose proof (quiet_stable _ _ _ Hp1 Hq) as Hq1.
  apply sat_bind. eapply sat_mono; [apply universal_sat_sleepRandom; lia|].
  intros r2 ext2 w2 Hp2 H2.
  pose proof (quiet_stable _ _ _ Hp2 Hq1) as Hq2.
  rewrite (timer_returns _ _ _ _ _ _ (proj1 (proj2 Hq1)) H2).
  apply sleeps_timer in H2.
  apply sat_bind, sat_get. cbv beta iota zeta.
  apply sat_bind. eapply sat_mono; [apply universal_swap_loop_time; [done|lia]|].
  intros r3 ext3 w3 Hp3 [-> H3].
  pose proof (quiet_stable _ _ _ Hp3 Hq2) as Hq3.
  assert (dailyActivityConfig w2 = dailyActivityConfig w) as Ec
    by (by rewrite (pg_config _ _ _ Hp2), (pg_config _ _ _ Hp1)).
  rewrite Ec in H3.
  assert (privateKeys w3 = privateKeys w) as Ek
    by (by rewrite (pg_keys _ _ _ Hp3), (pg_keys _ _ _ Hp2), (pg_keys _ _ _ Hp1)).
  apply sat_bind, sat_get. cbv beta iota zeta.
  apply sat_when.
  - intros Hc%Z.ltb_lt. apply sat_bind, universal_sat_log. cbv beta iota zeta.
    eapply sat_mono; [apply universal_sat_sleep|].
    intros r4 ext4 w4 Hp4 H4.
    split; [apply (timer_returns (Universal.addLog _ _ w3) _ _ _ _ _ (proj1 (proj2 Hq3)) H4)|].
    apply sleeps_timer in H4.
    rewrite Ek in Hc.
    destruct (Nat.ltb_spec (i + 1) (length (privateKeys w))); [|lia].
    rewrite ?app_nil_l, !sleeps_app. simpl. lia.
  - intros Hc%Z.ltb_ge. split; [done|].
    rewrite Ek in Hc.
    destruct (Nat.ltb_spec (i + 1) (length (privateKeys w))); [lia|].
    rewrite ?app_nil_l, ?app_nil_r, !sleeps_app. simpl. lia.
Qed.

Lemma universal_account_loop_time wa fuel i w :
  quiet w → (length (privateKeys w) - i ≤ fuel)%nat →
  sat (for_loop fuel (λ i w, (i <? length (privateKeys w))%nat && negb (shouldStop w))
         (Universal.processAccount wa) i) w
    (sleeps_within
       (Z.of_nat (length (privateKeys w) - i) * (8000 * phase_pauses w + 8000)
        + 30000 * Z.of_nat (length (privateKeys w) - 1 - i))
       (Z.of_nat (length (privateKeys w) - i) * (20000 * phase_pauses w + 15000)
        + 30000 * Z.of_nat (length (privateKeys w) - 1 - i))).
Proof.
  apply (sat_for_loop
           (λ i w, sleeps_within
              (Z.of_nat (length (privateKeys w) - i) * (8000 * phase_pauses w + 8000)
               + 30000 * Z.of_nat (length (privateKeys w) - 1 - i))
              (Z.of_nat (length (privateKeys w) - i) * (20000 * phase_pauses w + 15000)
               + 30000 * Z.of_nat (length (privateKeys w) - 1 - i)))
           quiet (λ w, length (privateKeys w))).
  - apply quiet_stable.
  - intros w0 ext w' Hp. by rewrite (pg_keys _ _ _ Hp).
  - intros i0 w0 [H _]%andb_prop. by apply Nat.ltb_lt in H.
  - intros i0 w0 (_ & _ & Hst) Hc. split; [done|].
    rewrite Hst, andb_true_r in Hc. apply Nat.ltb_ge in Hc.
    replace (length (privateKeys w0) - i0)%nat with 0%nat by lia.
    replace (length (privateKeys w0) - 1 - i0)%nat with 0%nat by lia.
    simpl. lia.
  - intros i0 w0 Hq [Hlt _]%andb_prop. apply Nat.ltb_lt in Hlt.
    eapply sat_mono; [by apply universal_account_time|].
    intros r ext1 w1 Hp1 [-> H1] r2 ext2 w2 Hp2 [-> H2]. split; [done|].
    rewrite (pg_keys _ _ _ Hp1), (phase_pauses_stable _ _ _ Hp1) in H2.
    rewrite sleeps_app.
    generalize dependent (phase_pauses w0). intros P H1 H2.
    destruct (Nat.ltb_spec (i0 + 1) (length (privateKeys w0))) as [Hn|Hn].
    + replace (Z.of_nat (length (privateKeys w0) - i0))
        with (1 + Z.of_nat (length (privateKeys w0) - (i0 + 1))) by lia.
      replace (Z.of_nat (length (privateKeys w0) - 1 - i0))
        with (1 + Z.of_nat (length (privateKeys w0) - 1 - (i0 + 1))) by lia.
      lia.
    + replace (length (privateKeys w0) - i0)%nat with 1%nat by lia.
      replace (length (privateKeys w0) - 1 - i0)%nat with 0%nat by lia.
      replace (length (privateKeys w0) - (i0 + 1))%nat with 0%nat in H2 by lia.
      replace (length (privateKeys w0) - 1 - (i0 + 1))%nat with 0%nat in H2 by lia.
      simpl in H2 |- *. lia.
Qed.

(** An uninterrupted run of the universal file with keys loaded: the
    total time of its timers. *)
Lemma universal_run_time wa w :
  privateKeys w ≠ [] → no_stop (env w) → no_fault (env w) →
  ∃ w' ext, Universal.runDailyActivityLoop wa w = Return tt w'
            ∧ trace w' = (trace w ++ ext)%list
            ∧ Z.of_nat (length (privateKeys w)) * (8000 * phase_pauses w + 8000)
              + 30000 * (Z.of_nat (length (privateKeys w)) - 1)
              ≤ sleeps ext
              ≤ Z.of_nat (length (privateKeys w)) * (20000 * phase_pauses w + 15000)
                + 30000 * (Z.of_nat (length (privateKeys w)) - 1).
Proof.
  intros Hk Hns Hnf. unfold Universal.runDailyActivityLoop.
  cbv beta iota delta [mbind M_bind bind get modify Universal.log].
  destruct (privateKeys w) as [|k keys] eqn:Ek; [done|]. clear Hk.
  change (length (k :: keys) =? 0)%nat with false.
  cbv beta iota delta [mbind M_bind bind get modify Universal.log].
  pose proof (universal_account_loop_time wa (length (k :: keys)) 0
                (Universal.addLog "Starting daily activity loop" success
                   (set_shouldStop false (set_activityRunning true w)))) as Hl.
  unfold sat in Hl.
  destruct (for_loop _ _ _ _ _) as [[] w2|e w2|].
  - destruct Hl as (ext & Hp & _ & Hc); [done | simpl; rewrite Ek; simpl; lia|].
    eexists _, ext. split; [reflexivity|]. simpl in Hc |- *.
    rewrite (pg_trace _ _ _ Hp). split; [done|].
    rewrite Ek in Hc. unfold phase_pauses in *. simpl in Hc |- *.
    rewrite !Nat.sub_0_r in Hc. lia.
  - destruct Hl as (ext & Hp & [=] & _); [done | simpl; rewrite Ek; simpl; lia].
  - destruct Hl; [done | simpl; rewrite Ek; simpl; lia].
Qed.

(** The time an uninterrupted run sleeps.  With [N >= 1] keys loaded and
    [P] the pauses between the repetitions of one account ([B - 1] and
    [S - 1] for counts of at least 1), a run that nobody stops and that meets
    no fault returns, and its timers add up to at least
    [N * (8000 * P + 7000) + 30000 * (N - 1)] milliseconds in index.js
    ([8000] for [7000] in the universal file) and to at most
    [N * (20000 * P + 15000) + 30000 * (N - 1)] in both. *)
Theorem uninterrupted_run_duration (walletAddress : string → option string) (w : World) :
  privateKeys w ≠ [] → activityRunning w = false →
  no_stop (env w) → no_fault (env w) →
  let N := Z.of_nat (length (privateKeys w)) in
  let P := phase_pauses w in
  returned (Index.runDailyActivityLoop walletAddress) w (λ _ ext _,
    N * (8000 * P + 7000) + 30000 * (N - 1) ≤ sleeps ext
    ≤ N * (20000 * P + 15000) + 30000 * (N - 1))
  ∧ returned (Universal.runDailyActivityLoop walletAddress) w (λ _ ext _,
      N * (8000 * P + 8000) + 30000 * (N - 1) ≤ sleeps ext
      ≤ N * (20000 * P + 15000) + 30000 * (N - 1)).
Proof.
  intros Hk Hr Hns Hnf N P. split.
  - destruct (index_run_time walletAddress w Hk Hr Hns Hnf) as (w' & ext & Hrun & Ht & H).
    by exists tt, w', ext.
  - destruct (universal_run_time walletAddress w Hk Hns Hnf) as (w' & ext & Hrun & Ht & H).
    by exists tt, w', ext.
Qed.

Lemma uninterrupted_run_duration_witness :
  returned (Index.runDailyActivityLoop sample_wallet) (sample_world 2 1 calm_env)
    (λ _ ext _, 2 * (8000 * 1 + 7000) + 30000 * (2 - 1) ≤ sleeps ext
                ≤ 2 * (20000 * 1 + 15000) + 30000 * (2 - 1)).
Proof.
  destruct (uninterrupted_run_duration sample_wallet (sample_world 2 1 calm_env)) as [H _].
  - discriminate.
  - reflexivity.
  - exact calm_no_stop.
  - exact calm_no_fault.
  - exact H.
Defined.

(** ** Repetition counts that are not positive *)

Lemma effective_count (x : Z) : Z.to_nat (JS.or_one (JS.Num x)) = Z.to_nat (effective x).
Proof. unfold effective. simpl. destruct (x =? 0); lia. Qed.

Lemma effective_nonneg (x : Z) : 0 ≤ effective x.
Proof. unfold effective. destruct (x =? 0); lia. Qed.

(** The executor calls of an uninterrupted run for any configuration of
    whole numbers.  A count of [x] makes the loop of its phase run [x] times when [x >= 1],
    not at all when [x] is negative, and once when [x] is 0 (the fallback
    [x || 1]); the calls are made account after account as for positive
    counts. *)
Theorem repetitions_of_any_sign (walletAddress : string → option string) (w : World)
    (B S : Z) :
  dailyActivityConfig w = mkConfig B S →
  activityRunning w = false →
  no_stop (env w) → no_fault (env w) →
  full_run (Index.runDailyActivityLoop walletAddress) Index.proxyFor
    (effective B) (effective S) w
  ∧ full_run (Universal.runDailyActivityLoop walletAddress) Universal.proxyFor
      (effective B) (effective S) w
  ∧ (1 ≤ B → effective B = B) ∧ (B < 0 → effective B = 0) ∧ effective 0 = 1.
Proof.
  intros Hcfg Hr Hns Hnf.
  assert (Z.to_nat (Index.bridgeCount w) = Z.to_nat (effective B)
          ∧ Z.to_nat (Index.swapCount w) = Z.to_nat (effective S)) as [EB ES].
  { unfold Index.bridgeCount, Index.swapCount. rewrite Hcfg.
    split; apply effective_count. }
  pose proof (effective_nonneg B) as HB. pose proof (effective_nonneg S) as HS.
  split; [|split; [|split; [|split]]].
  - unfold full_run. destruct (privateKeys w) as [|k keys] eqn:Ek.
    + exists (Index.addLog "No private keys loaded. Add keys to pk.txt" error w), [].
      unfold Index.runDailyActivityLoop.
      cbv beta iota delta [mbind M_bind bind get modify Index.log]. rewrite Ek.
      split; [done|]. split; [simpl; by rewrite app_nil_r|]. simpl. split; [done|lia].
    + rewrite <- Ek.
      destruct (index_run_quiet walletAddress w) as (w' & ext & Hrun & Htr & Hc);
        try done; [by rewrite Ek|].
      rewrite EB, ES in Hc.
      exists w', ext. do 3 (split; [done|]). rewrite Hc.
      rewrite bridge_calls_of_run, swap_calls_of_run. lia.
  - unfold full_run. destruct (privateKeys w) as [|k keys] eqn:Ek.
    + exists (set_activityRunning false
                (Universal.addLog "No private keys loaded. Aborting activity." error w)), [].
      unfold Universal.runDailyActivityLoop.
      cbv beta iota delta [mbind M_bind bind get modify Universal.log]. rewrite Ek.
      split; [done|]. split; [simpl; by rewrite app_nil_r|]. simpl. split; [done|lia].
    + rewrite <- Ek.
      destruct (universal_run_quiet walletAddress w) as (w' & ext & Hrun & Htr & Hc);
        try done; [by rewrite Ek|].
      change (Universal.bridgeCount w) with (Index.bridgeCount w) in Hc.
      change (Universal.swapCount w) with (Index.swapCount w) in Hc.
      rewrite EB, ES in Hc.
      exists w', ext. do 3 (split; [done|]). rewrite Hc.
      rewrite bridge_calls_of_run, swap_calls_of_run. lia.
  - intros H. unfold effective. destruct (Z.eqb_spec B 0); lia.
  - intros H. unfold effective. destruct (Z.eqb_spec B 0); lia.
  - done.
Qed.

Lemma repetitions_of_any_sign_witness :
  full_run (Index.runDailyActivityLoop sample_wallet) Index.proxyFor
    (effective (-2)) (effective 1) (sample_world (-2) 1 calm_env).
Proof.
  destruct (repetitions_of_any_sign sample_wallet (sample_world (-2) 1 calm_env) (-2) 1)
    as [H _].
  - reflexivity.
  - reflexivity.
  - exact calm_no_stop.
  - exact calm_no_fault.
  - exact H.
Defined.

(** ** The wallet list *)

(** The rule of [for_acc], as for [for_loop]. *)
Section ForAcc.
Context {A : Type}.
Variable Spec : nat → A → World → string + A → list Event → World → Prop.
Variable N : World → nat.
Variable cond : nat → World → bool.
Variable body : nat → A → M A.

Hypothesis N_stable : ∀ w ext w', progress w ext w' → N w' = N w.
Hypothesis cond_bound : ∀ i w, cond i w = true → (i < N w)%nat.
Hypothesis exit : ∀ i acc w, cond i w = false → Spec i acc w (inr acc) [] w.
Hypothesis step : ∀ i acc w, cond i w = true →
  sat (body i acc) w (λ r1 ext1 w1,
    match r1 with
    | inl e => Spec i acc w (inl e) ext1 w1
    | inr acc' => ∀ r2 ext2 w2, progress w1 ext2 w2 →
                  Spec (i + 1)%nat acc' w1 r2 ext2 w2 → Spec i acc w r2 (ext1 ++ ext2)%list w2
    end).

Lemma sat_for_acc fuel : ∀ i acc w,
  (N w - i ≤ fuel)%nat → sat (for_acc fuel cond body i acc) w (Spec i acc w).
Proof.
  induction fuel as [|fuel IH]; intros i acc w Hf.
  - unfold sat. simpl. destruct (cond i w) eqn:Hc.
    + apply cond_bound in Hc. lia.
    + exists []. split; [apply progress_refl | by apply exit].
  - unfold sat. simpl. destruct (cond i w) eqn:Hc.
    + apply sat_bind'. eapply sat_mono; [by apply step|].
      intros [e|acc'] ext1 w1 Hp H; [done|].
      eapply sat_mono.
      * apply IH. rewrite (N_stable _ _ _ Hp). apply cond_bound in Hc. lia.
      * intros r2 ext2 w2 Hp2 H2.
        replace (Datatypes.S i) with (i + 1)%nat in H2 by lia. eauto.
    + exists []. split; [apply progress_refl | by apply exit].
Qed.
End ForAcc.

Lemma wallet_line_env wa fb u en en' k key line :
  en = en' → wallet_line wa fb u en k key line → wallet_line wa fb u en' k key line.
Proof. by intros ->. Qed.

Lemma lines_added_step wa fb u i items w w1 key line (ext1 ext2 : list Event) w2 r2 :
  progress w ext1 w1 →
  Forall (λ e, is_click e = true) ext1 →
  privateKeys w !! i = Some key →
  wallet_line wa fb u (env w) i key line →
  lines_added wa fb u (i + 1) (items ++ [line]) w1 r2 ext2 w2 →
  lines_added wa fb u i items w r2 (ext1 ++ ext2) w2.
Proof.
  intros Hp Hc1 Hk Hline (new & -> & Hc2 & Hlen & Hnew).
  rewrite (pg_keys _ _ _ Hp), (pg_env _ _ _ Hp) in *.
  exists (line :: new). split; [by rewrite <- app_assoc|].
  split; [by apply Forall_app|]. split.
  - cbn [length]. rewrite Hlen. apply lookup_lt_Some in Hk. lia.
  - intros [|k] key' Hk'.
    + rewrite Nat.add_0_r in Hk'. exists line. split; [done|].
      rewrite Nat.add_0_r. congruence.
    + simpl. replace (i + Datatypes.S k)%nat with (i + 1 + k)%nat in * by lia.
      by apply Hnew.
Qed.

Lemma append_empty_r (s : string) : s +:+ "" = s.
Proof.
  induction s as [|c s IH]; [done|].
  change (String c (s +:+ "") = String c s). by rewrite IH.
Qed.

Lemma index_balanceOrZero_spec w :
  sat Index.balanceOrZero w (λ r ext _,
    ∃ bal, r = inr bal ∧ Forall (λ e, is_click e = true) ext
           ∧ (bal = 0 ∨ ∃ t p, r_reply (replies (env w) t) = Resolved p ∧ bal = p_num p)).
Proof.
  unfold Index.balanceOrZero. wp_all.
  - exists 0. split; [done|]. split; [by rewrite !app_nil_r | by left].
  - exists (p_num p). split; [done|]. split; [by rewrite !app_nil_r|].
    right. exists (tick w), p. split; [|done].
    unfold call_result in Hr. by destruct (r_reply _); simplify_eq.
Qed.

Lemma index_refresh_loop wa fb fuel i items w :
  (length (privateKeys w) - i ≤ fuel)%nat →
  sat (for_acc fuel (λ i w, (i <? length (privateKeys w))%nat)
         (λ i items,
            try_catch
              (w ← get;
               address ← Index.newWallet wa (privateKeys w !! i);
               bal ← Index.balanceOrZero;
               ret (items ++ [pretty (i + 1)%nat +:+ ". " +:+ address +:+ " - "
                              +:+ fb bal])%list)
              (λ e, ret (items ++ [pretty (i + 1)%nat +:+ ". ERROR - " +:+ e])%list))
         i items) w
    (lines_added wa fb "" i items w).
Proof.
  apply (sat_for_acc (lines_added wa fb "") (λ w, length (privateKeys w))).
  - intros w0 ext w' Hp. by rewrite (pg_keys _ _ _ Hp).
  - intros i0 w0 H. by apply Nat.ltb_lt in H.
  - intros i0 acc w0 Hc%Nat.ltb_ge. exists []. split; [by rewrite app_nil_r|].
    split; [done|].
    split; [simpl; lia|]. intros k key Hk. apply lookup_lt_Some in Hk. lia.
  - intros i0 acc w0 Hc%Nat.ltb_lt.
    apply sat_try_catch, sat_bind, sat_get. cbv beta iota zeta.
    unfold Index.newWallet.
    destruct (privateKeys w0 !! i0) as [key|] eqn:Hk; simpl.
    2: { apply lookup_ge_None in Hk. lia. }
    destruct (wa key) as [a|] eqn:Ha.
    + apply sat_bind, sat_ret. cbv beta iota zeta.
      apply sat_bind. eapply sat_mono; [apply index_balanceOrZero_spec|].
      intros r ext1 w1 Hp1 (bal & -> & Hc1 & Hbal). apply sat_ret.
      intros r2 ext2 w2 Hp2 H2. rewrite ?app_nil_l, ?app_nil_r.
      eapply (lines_added_step wa fb "" i0 acc w0 w1 key);
        [exact Hp1|exact Hc1|exact Hk| |exact H2].
      unfold wallet_line. rewrite Ha. exists bal. split; [|done].
      by rewrite append_empty_r.
    + apply sat_bind, sat_throw. apply sat_ret.
      intros r2 ext2 w2 Hp2 H2. rewrite ?app_nil_l, ?app_nil_r.
      change ext2 with ([] ++ ext2)%list.
      eapply (lines_added_step wa fb "" i0 acc w0 w0 key);
        [apply progress_refl|done|exact Hk| |exact H2].
      unfold wallet_line. rewrite Ha. by eexists.
Qed.

Lemma wallet_list_intro wa fb u en (keys new : list string) :
  length new = (length keys - 0)%nat →
  (∀ k key, keys !! (0 + k)%nat = Some key →
     ∃ line, new !! k = Some line ∧ wallet_line wa fb u en (0 + k) key line) →
  wallet_list wa fb u en keys
    (if (0 <? length new)%nat then new else ["No wallets loaded"]).
Proof.
  intros Hlen Hnew. unfold wallet_list. rewrite Nat.sub_0_r in Hlen.
  destruct (Nat.eqb_spec (length keys) 0) as [E|E].
  - rewrite Hlen, E. done.
  - destruct (Nat.ltb_spec 0 (length new)); [|lia]. split; [done|]. exact Hnew.
Qed.

Lemma index_refreshWalletList_spec wa fb w :
  sat (Index.refreshWalletList wa fb) w (wallets_shown wa fb "" w).
Proof.
  unfold Index.refreshWalletList, wallets_shown.
  apply sat_bind, sat_get. cbv beta iota zeta.
  apply sat_bind. eapply sat_mono; [apply index_refresh_loop; lia|].
  intros r ext w1 Hp (new & -> & Hc & Hlen & Hnew). apply sat_ret.
  eexists. split; [reflexivity|]. split; [by rewrite app_nil_l, app_nil_r|].
  by apply wallet_list_intro.
Qed.

Lemma universal_balanceOrZero_spec w :
  sat Universal.balanceOrZero w (λ r ext _,
    ∃ bal, r = inr bal ∧ Forall (λ e, is_click e = true) ext
           ∧ (bal = 0 ∨ ∃ t p, r_reply (replies (env w) t) = Resolved p ∧ bal = p_num p)).
Proof.
  unfold Universal.balanceOrZero. wp_all.
  - exists 0. split; [done|]. split; [by rewrite !app_nil_r | by left].
  - exists (p_num p). split; [done|]. split; [by rewrite !app_nil_r|].
    right. exists (tick w), p. split; [|done].
    unfold call_result in Hr. by destruct (r_reply _); simplify_eq.
Qed.

Lemma universal_refresh_loop wa fb fuel i items w :
  (length (privateKeys w) - i ≤ fuel)%nat →
  sat (for_acc fuel (λ i w, (i <? length (privateKeys w))%nat)
         (λ i items,
            try_catch
              (w ← get;
               address ← Universal.newWallet wa (privateKeys w !! i);
               bal ← Universal.balanceOrZero;
               ret (items ++ [pretty (i + 1)%nat +:+ ". " +:+ address +:+ " - "
                              +:+ fb bal +:+ " ETH"])%list)
              (λ e, ret (items ++ [pretty (i + 1)%nat +:+ ". ERROR - " +:+ e])%list))
         i items) w
    (lines_added wa fb " ETH" i items w).
Proof.
  apply (sat_for_acc (lines_added wa fb " ETH") (λ w, length (privateKeys w))).
  - intros w0 ext w' Hp. by rewrite (pg_keys _ _ _ Hp).
  - intros i0 w0 H. by apply Nat.ltb_lt in H.
  - intros i0 acc w0 Hc%Nat.ltb_ge. exists []. split; [by rewrite app_nil_r|].
    split; [done|].
    split; [simpl; lia|]. intros k key Hk. apply lookup_lt_Some in Hk. lia.
  - intros i0 acc w0 Hc%Nat.ltb_lt.
    apply sat_try_catch, sat_bind, sat_get. cbv beta iota zeta.
    unfold Universal.newWallet.
    destruct (privateKeys w0 !! i0) as [key|] eqn:Hk; simpl.
    2: { apply lookup_ge_None in Hk. lia. }
    destruct (wa key) as [a|] eqn:Ha.
    + apply sat_bind, sat_ret. cbv beta iota zeta.
      apply sat_bind. eapply sat_mono; [apply universal_balanceOrZero_spec|].
      intros r ext1 w1 Hp1 (bal & -> & Hc1 & Hbal). apply sat_ret.
      intros r2 ext2 w2 Hp2 H2. rewrite ?app_nil_l, ?app_nil_r.
      eapply (lines_added_step wa fb " ETH" i0 acc w0 w1 key);
        [exact Hp1|exact Hc1|exact Hk| |exact H2].
      unfold wallet_line. rewrite Ha. by exists bal.
    + apply sat_bind, sat_throw. apply sat_ret.
      intros r2 ext2 w2 Hp2 H2. rewrite ?app_nil_l, ?app_nil_r.
      change ext2 with ([] ++ ext2)%list.
      eapply (lines_added_step wa fb " ETH" i0 acc w0 w0 key);
        [apply progress_refl|done|exact Hk| |exact H2].
      unfold wallet_line. rewrite Ha. by eexists.
Qed.

Lemma universal_refreshWalletList_spec wa fb w :
  sat (Universal.refreshWalletList wa fb) w (wallets_shown wa fb " ETH" w).
Proof.
  unfold Universal.refreshWalletList, wallets_shown.
  apply sat_bind, sat_get. cbv beta iota zeta.
  apply sat_bind. eapply sat_mono; [apply universal_refresh_loop; lia|].
  intros r ext w1 Hp (new & -> & Hc & Hlen & Hnew). apply sat_ret.
  eexists. split; [reflexivity|]. split; [by rewrite app_nil_l, app_nil_r|].
  by apply wallet_list_intro.
Qed.

(** The wallet list, in both files.  [refreshWalletList] always returns:
    nothing it does is thrown outward.  With no key loaded the list is the
    single line "No wallets loaded".  Otherwise it has one line per key, in
    the order of the keys: the number of the key, and then either the address
    and a balance (followed by ETH in the universal file), the balance being 0
    or a number that the chain reported, or ERROR and a message when no
    wallet can be made of the key.  Meanwhile no executor is called, nothing
    is sent and no timer is started. *)
Theorem wallet_list_shows_every_key (walletAddress : string → option string)
    (formatBalance : Z → string) (w : World) :
  sat (Index.refreshWalletList walletAddress formatBalance) w
    (wallets_shown walletAddress formatBalance "" w)
  ∧ sat (Universal.refreshWalletList walletAddress formatBalance) w
      (wallets_shown walletAddress formatBalance " ETH" w).
Proof.
  split; [apply index_refreshWalletList_spec | apply universal_refreshWalletList_spec].
Qed.

(** ** The start of the program *)

Lemma keys_valid (ls : list string) :
  Forall (λ k, matches_key_pattern k = true) (List.filter matches_key_pattern ls).
Proof.
  apply Forall_forall. intros k Hk%list_elem_of_In%List.filter_In. by destruct Hk.
Qed.

(** What holds once the program has started. *)
Lemma started_intro wa fb u (w3 : World) (m : M (list string)) (keys : list string) h :
  sat m w3 (wallets_shown wa fb u w3) →
  privateKeys w3 = keys → activityRunning w3 = false → shouldStop w3 = false →
  counts_nonzero w3 →
  ∃ items w' ext,
    try_catch m h w3 = Return items w'
    ∧ trace w' = (trace w3 ++ ext)%list
    ∧ Forall (λ e, is_click e = true) ext
    ∧ privateKeys w' = keys
    ∧ activityRunning w' = false ∧ shouldStop w' = false
    ∧ counts_nonzero w'
    ∧ wallet_list wa fb u (env w3) keys items.
Proof.
  intros Hsat Hk Hr Hs Hn. unfold sat in Hsat. unfold try_catch.
  destruct (m w3) as [items w'|e w'|]; [| |done].
  - destruct Hsat as (ext & Hp & items' & [= <-] & Hc & Hl).
    exists items, w', ext. split; [done|]. split; [apply Hp|]. split; [done|].
    split; [by rewrite (pg_keys _ _ _ Hp)|].
    split; [by rewrite (pg_running _ _ _ Hp)|].
    split; [by rewrite (pg_stop _ _ _ Hp), Hs, Hr|].
    split; [unfold counts_nonzero; by rewrite (pg_config _ _ _ Hp)|].
    by rewrite <- Hk.
  - by destruct Hsat as (ext & Hp & items' & [=] & _).
Qed.

(** The program once started, in both files, from the initial values of the
    globals, whatever the three files hold and whatever the chain answers:
    the start returns without an error; the bot is idle, with both flags
    down; both repetition counts are numbers other than 0; the keys are the lines of pk.txt that match the key pattern
    (index.js) or all its non-blank lines (universal file); and the wallet
    list has a line for each of them.  Nothing was called or sent. *)
Theorem startup_leaves_the_bot_idle (walletAddress : string → option string)
    (formatBalance : Z → string) (trim : string → string)
    (StringToNumber : string → JS.number) (pkFile proxyFile : FileRead)
    (cf : ConfigFile) (en : Env) :
  returned
    (Index.startup walletAddress formatBalance trim StringToNumber pkFile proxyFile)
    (initial_world cf en)
    (λ items ext w',
       Forall (λ e, is_click e = true) ext
       ∧ privateKeys w' = List.filter matches_key_pattern (lines_of trim pkFile)
       ∧ activityRunning w' = false ∧ shouldStop w' = false
       ∧ counts_nonzero w'
       ∧ wallet_list walletAddress formatBalance "" en (privateKeys w') items)
  ∧ returned
      (Universal.startup walletAddress formatBalance trim StringToNumber pkFile proxyFile)
      (initial_world cf en)
      (λ items ext w',
         Forall (λ e, is_click e = true) ext
         ∧ privateKeys w' = lines_of trim pkFile
         ∧ activityRunning w' = false ∧ shouldStop w' = false
         ∧ counts_nonzero w'
         ∧ wallet_list walletAddress formatBalance " ETH" en (privateKeys w') items).
Proof.
  assert (counts_nonzero (initial_world cf en)) as Hn0 by (split; discriminate).
  split.
  - unfold returned, Index.startup, Index.bootstrap.
    set (w0 := Index.addLog "Booting universal_testnet_bot (mouse-enabled)..." info
                 (initial_world cf en)).
    destruct (index_loadPrivateKeys_frame trim pkFile w0) as [l1 E1].
    destruct (index_loadProxies_frame trim proxyFile (Index.loadPrivateKeys trim pkFile w0))
      as [l2 E2].
    set (w2 := Index.loadProxies trim proxyFile (Index.loadPrivateKeys trim pkFile w0)) in *.
    destruct (index_loadConfig_frame StringToNumber w2) as (l3 & c & cf3 & E3).
    assert (counts_nonzero w2) as Hn2 by (rewrite E2, E1; exact Hn0).
    pose proof (index_loadConfig_nonzero StringToNumber w2 Hn2) as Hn3.
    set (w3 := Index.loadConfig StringToNumber w2) in *.
    destruct (started_intro walletAddress formatBalance "" w3
                (Index.refreshWalletList walletAddress formatBalance)
                (List.filter matches_key_pattern (lines_of trim pkFile))
                (λ e, Index.log ("Bootstrap failed: " +:+ e) error;; ret []))
      as (items & w' & ext & Hrun & Ht & Hc & Hk & Hr & Hs & Hn & Hl).
    + apply index_refreshWalletList_spec.
    + rewrite E3. simpl. by rewrite E2, E1.
    + rewrite E3. simpl. by rewrite E2, E1.
    + rewrite E3. simpl. by rewrite E2, E1.
    + exact Hn3.
    + exists items, w', ext. split.
      * rewrite <- Hrun. reflexivity.
      * split; [rewrite Ht; subst w3; rewrite E3; simpl; by rewrite E2, E1|].
        rewrite Hk. replace en with (env w3); [done|].
        rewrite E3. simpl. by rewrite E2, E1.
  - unfold returned, Universal.startup, Universal.main.
    destruct (universal_loadEnvironment_frame trim StringToNumber pkFile proxyFile
                (initial_world cf en)) as (l & c & cf3 & e & E & Ec & Ef & _).
    pose proof (index_loadConfig_nonzero StringToNumber (initial_world cf en) Hn0) as Hn3.
    set (w3 := Universal.loadEnvironment trim StringToNumber pkFile proxyFile
                 (initial_world cf en)) in *.
    destruct (started_intro walletAddress formatBalance " ETH" w3
                (Universal.refreshWalletList walletAddress formatBalance)
                (lines_of trim pkFile)
                (λ e, Universal.log ("Startup error: " +:+ e) error;; ret []))
      as (items & w' & ext & Hrun & Ht & Hc & Hk & Hr & Hs & Hn & Hl).
    + apply universal_refreshWalletList_spec.
    + by rewrite E.
    + by rewrite E.
    + by rewrite E.
    + unfold counts_nonzero. rewrite E. simpl. rewrite Ec. exact Hn3.
    + exists items, w', ext. split.
      * rewrite <- Hrun. reflexivity.
      * split; [rewrite Ht; by rewrite E|].
        rewrite Hk. replace en with (env w3); [done|]. by rewrite E.
Qed.

(** ** Refreshing *)

(** The menu item Refresh Wallets of index.js reads pk.txt and proxy.txt
    again: afterwards the keys are the lines of pk.txt that match the key
    pattern and the proxies are the non-blank lines of proxy.txt, the wallet
    list has a line for each key, and the repetition counts are untouched
    (config.json is not read again).  The item Refresh of the universal file
    only draws the list again: keys and proxies stay as they were, whatever
    the files hold by then. *)
Theorem refresh_reloads_keys_in_index_only (walletAddress : string → option string)
    (formatBalance : Z → string) (trim : string → string)
    (pkFile proxyFile : FileRead) (w : World) :
  returned (Index.refreshWallets walletAddress formatBalance trim pkFile proxyFile) w
    (λ items _ w',
       privateKeys w' = List.filter matches_key_pattern (lines_of trim pkFile)
       ∧ proxies w' = lines_of trim proxyFile
       ∧ dailyActivityConfig w' = dailyActivityConfig w
       ∧ wallet_list walletAddress formatBalance "" (env w) (privateKeys w') items
       ∧ last (transactionLogs w') = Some (Log success "Refreshed environment"))
  ∧ sat (Universal.refreshWalletList walletAddress formatBalance) w
      (λ _ _ w', privateKeys w' = privateKeys w ∧ proxies w' = proxies w).
Proof.
  split.
  - unfold returned, Index.refreshWallets.
    destruct (index_loadPrivateKeys_frame trim pkFile w) as [l1 E1].
    destruct (index_loadProxies_frame trim proxyFile (Index.loadPrivateKeys trim pkFile w))
      as [l2 E2].
    set (w2 := Index.loadProxies trim proxyFile (Index.loadPrivateKeys trim pkFile w)) in *.
    pose proof (index_refreshWalletList_spec walletAddress formatBalance w2) as Hsat.
    unfold sat in Hsat.
    cbv beta iota delta [mbind M_bind bind modify Index.log]. fold w2.
    destruct (Index.refreshWalletList walletAddress formatBalance w2)
      as [items w'|e w'|]; [| |done].
    + destruct Hsat as (ext & Hp & items' & [= <-] & Hc & Hl).
      exists items, (Index.addLog "Refreshed environment" success w'), ext.
      split; [done|]. split.
      * simpl. rewrite (pg_trace _ _ _ Hp). by rewrite E2, E1.
      * simpl. rewrite (pg_keys _ _ _ Hp), (pg_proxies _ _ _ Hp), (pg_config _ _ _ Hp).
        rewrite E2, E1 in Hl |- *. simpl in Hl |- *. do 3 (split; [done|]).
        split; [done|]. apply index_last_addLog.
    + by destruct Hsat as (ext & Hp & items' & [=] & _).
  - eapply sat_mono; [apply universal_refreshWalletList_spec|].
    intros r ext w' Hp _. split; [apply (pg_keys _ _ _ Hp) | apply (pg_proxies _ _ _ Hp)].
Qed.
